(* ===== verification/_CoqProject ===== *)
-Q . S2P
Prelude.v
Config.v
Util.v
Libdivide.v
SizeClass.v
Kernel.v
ErrorOutput.v
Maps.v
Pages.v
RandomSource.v
SlabMeta.v
Slab.v
SlabLists.v
SlabHeap.v
SlabInv.v
SlabRegion.v
SlabAlloc.v
SlabQuarantine.v
SlabRelease.v
SlabFree.v
SlabCanary.v
SlabMaps.v
Regions.v
RegionTable.v
RegionMap.v
Large.v
LargeInv.v
LargeAlloc.v
LargeFree.v
LargeRealloc.v
LargeSpec.v
LargeQuarantine.v
Allocator.v
Malloc.v
AllocatorInv.v
AllocatorAlloc.v
AllocatorFree.v
Requests.v
InitSpec.v
MallocSpec.v
FreeSpec.v
ReallocSpec.v
AlignedSpec.v
QuerySpec.v
Client.v
ForkSpec.v
New.v
StatsSpec.v
Threads.v
ThreadsAlone.v
ThreadsInv.v
ThreadsAlloc.v
ThreadsFree.v
ThreadsSpec.v
TypeSpec.v
TrimSpec.v
Memtag.v
MteAsm.v
MteSlab.v
MteSpec.v
MteDisable.v
ChaCha.v
Random.v
RandomSpec.v
