(* ===== verification/Prelude.v ===== *)
(** * A verification development for hardened_malloc

    hardened_malloc is a malloc replacement. Small requests (up to 128 KiB) are
    served by size classes, each with its own region of the address space, cut
    into slabs of equal slots whose metadata lives elsewhere; large ones are
    mapped between guard pages and recorded in a hash table. Freed memory passes
    through quarantines, every slot has a canary, and all metadata is checked when
    a pointer comes back. This development models the C sources of the allocator
    function by function and proves that every function of its interface does
    what a client may rely on, and that every misuse the code means to detect is
    detected.

    ** How the code is modelled

    A C function is a program of the monad [M S A] below: it takes a state to a
    result and a state, or halts, with [Fatal msg] for fatal_error and [Stuck] for
    what the C code could not continue from (a NULL dereference, a lock that is
    held, a loop that exhausted its fuel). [wp m Q E s] says how [m] run in [s]
    ends: it returns with [Q] or halts with [E]; since a program is a function
    without partial results, [wp] is total correctness. Words are [Z] with the
    truncations of their C types written out ([wrap]); arrays and byte memory are
    maps to [Z] that read 0 where nothing was stored ([m.[a]]).

    The parts, the files under src/ they model and where their theorems are:

    - Config (config/*.mk, Makefile): a class [Config] of the build options, with
      the static assertions as [ConfigOk]. All theorems hold for every
      configuration that builds; the default and the light one are instances.
    - Util (util.h, pages.h), Libdivide (third_party/libdivide.h, what
      h_malloc.c uses of it), SizeClass (the tables and formulas of h_malloc.c).
    - Kernel (memory.c): the system calls are the class [Kernel], what their
      manual pages promise the class [KernelOk]; the wrappers of memory.c run on
      the machine state [world]: kernel, memory and errno. Maps is the frame
      property that a program unmaps nothing. Pages is pages.c. ErrorOutput is
      util.c: what fatal_error writes, over write(2) as a class.
    - RandomSource is the interface between the allocator and its generators; it
      is what the other files are proved against. Random (random.c) over ChaCha
      (chacha.c) implements it; RandomSpec is what random.c itself promises.
    - SlabMeta (struct slab_metadata), Slab (struct size_class and
      allocate_small, deallocate_small and all they call). Their proofs:
      SlabLists (intrusive lists), SlabHeap (the lists of a class and the pure
      transitions between them), SlabInv (the invariant [class_inv]), SlabAlloc,
      SlabQuarantine, SlabRelease, SlabFree, SlabCanary, SlabMaps. SlabRegion is
      the layout of the class regions and the way back from an address.
    - Regions (struct region_allocator and its open-addressing table), with
      RegionTable and RegionMap, the refinement of a finite map. Large (large
      allocations and the region quarantine), with LargeInv (who owns which
      pages), LargeAlloc, LargeFree, LargeRealloc, LargeSpec and LargeQuarantine (how
      long freed memory stays out of reach).
    - Allocator (the state [ro], init, the dispatch to components, the locks around
      fork) and Malloc (every exported function of h_malloc.c, the Android ones
      included). AllocatorInv has the invariant [heap_ok] of the whole allocator
      and [block_at], its allocations as one relation; AllocatorAlloc,
      AllocatorFree and Requests are the lemmas on them.
    - Threads: the calls as sequences of atomic sections, and a pool of threads that
      any scheduler interleaves at their borders; ThreadsAlone (the sections in
      sequence are the call), ThreadsInv, ThreadsAlloc and ThreadsFree (one thread
      among others), ThreadsSpec.
    - New (new.cc): the C++ operators; an exception is a result.
    - The build with memory tagging (HAS_ARM_MTE): Memtag (memtag.h and memory with
      a tag for every granule), MteAsm (arm_mte.h: the inline assembly as a list of
      instructions, with an interpreter for the instructions it uses), MteSlab (what
      h_malloc.c does to a slot it hands out or takes back, with tagging enabled or
      disabled), MteSpec (the life of a slab as sequences of these steps) and
      MteDisable (the mappings with tags, h_malloc_disable_memory_tagging).

    A component runs on its own state and the machine; [with_class], [with_regions]
    and [on_world] are the calls from one component to another.

    ** What is proved

    - The interface: MallocSpec (malloc, calloc), FreeSpec (free, sized free, the
      round trip of malloc and free), ReallocSpec, AlignedSpec, QuerySpec
      (malloc_usable_size, malloc_object_size), TrimSpec (malloc_trim), StatsSpec
      (mallinfo2), ForkSpec (the fork handlers), InitSpec (the first call), New.
      Each gives the result on every branch, errors and aborts included, and that
      [heap_ok], all other allocations and their contents, and the memory of the
      rest of the process ([rest]) are kept.
    - Client: the abstract specification is a memory of disjoint blocks, and the
      allocator refines it: a program of calls, loads and stores that obeys C's
      rules cannot tell the two apart, from the first call of the process on, and
      no check of the allocator ever stops it.
    - ThreadsSpec: threads that allocate and free at the same time are linearizable
      with respect to the same abstract memory, under every scheduler, and each of
      their calls ends after a bounded number of its own sections.
    - MteSpec: under memory tagging an owner reaches its slot, and a pointer to a
      freed slot, also after its next allocation, or beyond the borders of its slot
      faults; disabling tagging at any moment never makes a correct client abort.
      MteAsm: the assembly zeroes and tags exactly the range it is given, for every
      line size. MteDisable: the call changes the flag and nothing else.
    - ErrorOutput: the message of an abort reaches standard error, through short
      writes and signals.
    - TypeSpec: in every state that a program reaches the data is of its C type.
    - The components: exact error checks, lists and bitmaps that stay consistent,
      the table as a map, search that ends, page ranges between guards, exact
      division by multiplication, size classes and slab geometry, the keystream as
      the reference cipher.
    - LargeQuarantine: a freed large block stays mapped and unused through as many
      further deallocations as the queue of the quarantine is long.
    - RandomSpec: seeding against the answers of the kernel, one by one; and over
      all sequences of words every result of a uniform draw has the same share.

    ** Fuel and bounds

    Loops whose bound is not structural take fuel, and running out of it is
    [Stuck], which no theorem allows: a bitmap search visits at most the slots of
    a slab and starts once more; a probe visits at most the cells of the table,
    and [regions_inv] keeps one cell free; trimming takes at most [metadata_count]
    slabs; get_size_info_align tries at most [N_SIZE_CLASSES] classes. The retry
    loops of random.c have no bound in the code (a kernel could answer EINTR for
    ever, a stream of words could be rejected for ever): their fuel is a parameter
    of Random, and exhausting it is one of the ways [random_halts] in which the
    random source fails. The assembly of MteAsm runs at most four instructions for a
    granule; the loop of write_full ends when [interruptions] bounds the signals.
    The loop of operator new ends when the new-handlers run
    out of memory to give back ([supply]).

    ** Parameters and assumptions

    [KernelOk] (mmap, munmap, mprotect, mremap, madvise, getrandom and prctl as
    documented), [RandomSourceOk] (proved for random.c), [Platform] and [layout_ok]
    (offsets that the ABI fixes), the function that registers the fork handlers,
    for C++ the new-handler as the standard requires it, [ProcessorOk] (IRG avoids
    the excluded tags, DC GZVA has lines of 16 to 2048 bytes) and [WriteSystemOk]
    (write(2)). Tag checks are the architecture's: an access faults unless the tag
    of the pointer is that of the granule.

    ** Not modelled

    - Interleavings finer than the sections of Threads: a critical section, and
      system calls on pages that only the calling thread owns, are atomic. A
      component's mutex is a flag, and taking a held lock is [Stuck], so the
      theorems show that no section takes a lock twice or leaves one taken. Among
      threads realloc, the queries and the fork handlers are not in sections.
    - Memory tagging is modelled for the memory and metadata of one slab; the
      components around it (Slab and everything on top) are the build without it,
      where a pointer has no tag.
    - Sealing of metadata with memory protection keys (CONFIG_SEAL_METADATA), off in
      the modelled build, where its functions do nothing.
    - The text malloc_info prints (it is a list of items), labels of mappings beyond
      the system call that sets them, fatal_error on Android, which hands its
      message to the C library.
    - Code that the build leaves dead: in-place growth with mremap
      (vma_merging_reliable is false), the only caller of memory_remap. Parts of libdivide that
      the allocator does not call. The tests, and the public header's prototypes. *)

From stdpp Require Export prelude gmap list strings.
From Stdlib Require Export ZArith Lia Zbitwise.

#[global] Open Scope Z_scope.

(** ** Machine words

    A w-bit unsigned integer of the C code is a [Z]; every operation that can
    wrap is followed by the truncation of its type. *)

Definition wrap (w x : Z) : Z := x mod 2 ^ w.

Abbreviation u8 := (wrap 8).
Abbreviation u16 := (wrap 16).
Abbreviation u32 := (wrap 32).
Abbreviation u64 := (wrap 64).

(** [fits w x]: x is a value of the w-bit unsigned type. *)
Definition fits (w x : Z) : Prop := 0 <= x < 2 ^ w.

(** ** Outcomes of a C function

    [Ret a s]: it returned [a] in state [s]. [Halt (Fatal msg)]: it called
    [fatal_error(msg)], which prints and aborts. [Halt Stuck]: it made no
    progress (a lock that is already held, or a loop that exhausted its fuel). *)

Inductive halt : Type :=
| Fatal (msg : string)
| Stuck.

Inductive outcome (S A : Type) : Type :=
| Ret (a : A) (s : S)
| Halt (h : halt).
Arguments Ret {S A} a s.
Arguments Halt {S A} h.

Definition M (S A : Type) : Type := S -> outcome S A.

Definition ret {S A} (a : A) : M S A := fun s => Ret a s.
Definition bind {S A B} (m : M S A) (k : A -> M S B) : M S B :=
  fun s => match m s with
           | Ret a s' => k a s'
           | Halt h => Halt h
           end.
Definition fatal_error {S A} (msg : string) : M S A := fun _ => Halt (Fatal msg).
Definition stuck {S A} : M S A := fun _ => Halt Stuck.
Definition gets {S A} (f : S -> A) : M S A := fun s => Ret (f s) s.
Definition modify {S} (f : S -> S) : M S unit := fun s => Ret tt (f s).

(** The result of a fuelled loop. *)
Definition of_fuel {S A} (o : option A) : M S A :=
  match o with Some a => ret a | None => stuck end.

(** Run [m] on the part of the state that [g] reads and [p] writes back. *)
Definition zoom {S T A} (g : S -> T) (p : T -> S -> S) (m : M T A) : M S A :=
  fun s => match m (g s) with
           | Ret a t => Ret a (p t s)
           | Halt h => Halt h
           end.

Declare Scope c_scope.
Delimit Scope c_scope with c.
Notation "'let*' x := m 'in' k" := (bind m (fun x => k))
  (at level 10, x pattern, m at level 100, k at level 200) : c_scope.
Notation "m1 ;;; m2" := (bind m1 (fun _ => m2))
  (at level 199, right associativity) : c_scope.
#[global] Open Scope c_scope.

(** ** Reasoning about outcomes

    [wp m Q E s]: run from [s], [m] returns only results that satisfy [Q] and
    halts only in ways that satisfy [E]. *)

Definition wp {S A} (m : M S A) (Q : A -> S -> Prop) (E : halt -> Prop) (s : S) : Prop :=
  match m s with
  | Ret a s' => Q a s'
  | Halt h => E h
  end.

(** The code returns: no abort, no missing progress. *)
Definition no_halt : halt -> Prop := fun _ => False.

Section WP.
Context {S A B : Type}.
Implicit Types (s : S) (E : halt -> Prop).

Lemma wp_ret (a : A) (Q : A -> S -> Prop) E s : Q a s -> wp (ret a) Q E s.
Proof. done. Qed.

Lemma wp_bind (m : M S A) (k : A -> M S B) (Q : B -> S -> Prop) E s :
  wp m (fun a s' => wp (k a) Q E s') E s -> wp (bind m k) Q E s.
Proof. unfold wp, bind. by destruct (m s). Qed.

Lemma wp_mono (m : M S A) (Q Q' : A -> S -> Prop) E E' s :
  wp m Q E s -> (forall a s', Q a s' -> Q' a s') -> (forall h, E h -> E' h) ->
  wp m Q' E' s.
Proof. unfold wp. destruct (m s); naive_solver. Qed.

Lemma wp_conseq (m : M S A) (Q Q' : A -> S -> Prop) E s :
  wp m Q E s -> (forall a s', Q a s' -> Q' a s') -> wp m Q' E s.
Proof. intros. by eapply wp_mono. Qed.

(** Two facts about the same run. *)
Lemma wp_both (m : M S A) (Q Q' : A -> S -> Prop) E s :
  wp m Q E s -> wp m Q' (fun _ => True) s -> wp m (fun a s' => Q a s' /\ Q' a s') E s.
Proof. unfold wp. by destruct (m s). Qed.

(** The run itself. *)
Lemma wp_ran (m : M S A) (Q : A -> S -> Prop) E s : wp m Q E s -> wp m (fun a s' => Q a s' /\ m s = Ret a s') E s.
Proof. unfold wp. by destruct (m s). Qed.

(** A run that can only end in one way. *)
Lemma wp_only_returns (m : M S A) a t s : wp m (fun a' s' => a' = a /\ s' = t) (fun _ => False) s -> m s = Ret a t.
Proof. unfold wp. destruct (m s); [|done]. by intros [-> ->]. Qed.

Lemma wp_only_halts (m : M S A) e s : wp m (fun _ _ => False) (fun e' => e' = e) s -> m s = Halt e.
Proof. unfold wp. destruct (m s); [done|]. by intros ->. Qed.

(** A spot in the middle of a program where the value does not matter. *)
Lemma wp_skip (m : M S A) (k : M S B) (P : S -> Prop) (Q : B -> S -> Prop) E s :
  wp m (fun _ s' => P s') E s -> (forall s', P s' -> wp k Q E s') -> wp (m ;;; k) Q E s.
Proof. intros Hm Hk. apply wp_bind. eapply wp_conseq; [exact Hm|]. intros a s'. apply Hk. Qed.

Lemma wp_fatal msg (Q : A -> S -> Prop) E s : E (Fatal msg) -> wp (fatal_error msg) Q E s.
Proof. done. Qed.

Lemma wp_gets (f : S -> A) (Q : A -> S -> Prop) E s : Q (f s) s -> wp (gets f) Q E s.
Proof. done. Qed.

Lemma wp_modify (f : S -> S) (Q : unit -> S -> Prop) E s : Q tt (f s) -> wp (modify f) Q E s.
Proof. done. Qed.

Lemma wp_Ret (m : M S A) (Q : A -> S -> Prop) E s a s' :
  wp m Q E s -> m s = Ret a s' -> Q a s'.
Proof. unfold wp. intros H Hm. by rewrite Hm in H. Qed.

Lemma wp_Halt (m : M S A) (Q : A -> S -> Prop) E s h :
  wp m Q E s -> m s = Halt h -> E h.
Proof. unfold wp. intros H Hm. by rewrite Hm in H. Qed.

Lemma wp_no_halt (m : M S A) (Q : A -> S -> Prop) s :
  wp m Q no_halt s -> exists a s', m s = Ret a s' /\ Q a s'.
Proof. unfold wp. destruct (m s); [by eauto | done]. Qed.
End WP.

(** Running a program on a concrete state, for the examples: the result and final
    state, or [d] when it does not return. *)
Definition returned {S A} (m : M S A) (s : S) (d : A * S) : A * S :=
  match m s with Ret a s' => (a, s') | Halt _ => d end.

Definition returns {S A} (m : M S A) (s : S) : bool :=
  match m s with Ret _ _ => true | Halt _ => false end.

Lemma wp_returned {S A} (m : M S A) (Q : A -> S -> Prop) E s d :
  wp m Q E s -> returns m s = true -> Q (fst (returned m s d)) (snd (returned m s d)).
Proof. unfold wp, returns, returned. by destruct (m s). Qed.

Lemma wp_zoom {S T A} (g : S -> T) (p : T -> S -> S) (m : M T A)
    (Q : A -> S -> Prop) (E : halt -> Prop) (s : S) :
  wp m (fun a t => Q a (p t s)) E (g s) -> wp (zoom g p m) Q E s.
Proof. unfold wp, zoom. by destruct (m (g s)). Qed.

Lemma wp_of_fuel {S A} (o : option A) a (Q : A -> S -> Prop) E s :
  o = Some a -> Q a s -> wp (of_fuel o) Q E s.
Proof. by intros -> ?. Qed.

(** One symbolic step of a monadic program. *)
Ltac wp_step :=
  lazymatch goal with
  | |- wp (bind _ _) _ _ _ => apply wp_bind
  | |- wp (ret _) _ _ _ => apply wp_ret
  | |- wp (gets _) _ _ _ => apply wp_gets
  | |- wp (modify _) _ _ _ => apply wp_modify
  | |- wp (zoom _ _ _) _ _ _ => apply wp_zoom
  | |- wp (if ?b then _ else _) _ _ _ => let E := fresh "Hb" in destruct b eqn:E
  | |- wp (let _ := _ in _) _ _ _ => cbv zeta
  end.

(** ** Words: bounds and bit-level lemmas *)

Create HintDb words discriminated.

Lemma wrap_fits w x : 0 <= w -> fits w (wrap w x).
Proof. intros. apply Z.mod_pos_bound, Z.pow_pos_nonneg; lia. Qed.

Lemma wrap_small w x : fits w x -> wrap w x = x.
Proof. intros. by apply Z.mod_small. Qed.

Lemma wrap_idemp w x : wrap w (wrap w x) = wrap w x.
Proof. apply Zmod_mod. Qed.

Lemma fits_nonneg w x : fits w x -> 0 <= x.
Proof. by intros []. Qed.

Lemma fits_weaken w w' x : w <= w' -> fits w x -> fits w' x.
Proof.
  intros Hw [H0 H1]. split; [done|].
  destruct (Z.le_gt_cases 0 w).
  - pose proof (Z.pow_le_mono_r 2 w w'). lia.
  - rewrite Z.pow_neg_r in H1 by lia. lia.
Qed.

#[export] Hint Resolve wrap_fits fits_nonneg : words.

Lemma wrap_add_l w x y : wrap w (wrap w x + y) = wrap w (x + y).
Proof. apply Zplus_mod_idemp_l. Qed.

Lemma wrap_sub w x y : wrap w (wrap w x - wrap w y) = wrap w (x - y).
Proof. symmetry. apply Zminus_mod. Qed.

Lemma wrap_land_ones w x : 0 <= w -> wrap w x = Z.land x (Z.ones w).
Proof. intros. by rewrite Z.land_ones. Qed.

Lemma pow2_pos k : 0 <= k -> 0 < 2 ^ k.
Proof. intros. by apply Z.pow_pos_nonneg; lia. Qed.

Lemma land_low_ones x j : 0 <= j -> Z.land x (2 ^ j - 1) = x mod 2 ^ j.
Proof. intros. rewrite <- Z.land_ones by done. by rewrite Z.ones_equiv. Qed.

(** Truncating to 64 bits first does not change the low bits. *)
Lemma u64_mod_pow2 x j : 0 <= j <= 64 -> u64 x mod 2 ^ j = x mod 2 ^ j.
Proof.
  intros Hj. unfold wrap. apply Z.mod_mod_divide.
  exists (2 ^ (64 - j)). rewrite <- Z.pow_add_r by lia. f_equal. lia.
Qed.

(** A value that fits w bits has no bit at or above w. *)
Lemma fits_testbit_high w x i : fits w x -> w <= i -> Z.testbit x i = false.
Proof.
  intros [H0 H1] Hi.
  destruct (decide (x = 0)) as [->|]; [apply Z.bits_0|].
  apply Z.bits_above_log2; [done|].
  apply Z.log2_lt_pow2; [lia|].
  destruct (Z.le_gt_cases 0 w).
  - pose proof (Z.pow_le_mono_r 2 w i). lia.
  - rewrite Z.pow_neg_r in H1; lia.
Qed.

Lemma testbit_high_fits w x :
  0 <= w -> 0 <= x -> (forall i, w <= i -> Z.testbit x i = false) -> fits w x.
Proof.
  intros Hw H0 Hb. split; [done|].
  destruct (decide (x = 0)) as [->|]; [by apply Z.pow_pos_nonneg; lia|].
  apply Z.log2_lt_pow2; [lia|].
  apply Z.nle_gt. intros Hle. specialize (Hb _ Hle).
  rewrite Z.bit_log2 in Hb by lia. done.
Qed.

Lemma testbit_wrap w x i :
  0 <= w -> Z.testbit (wrap w x) i = bool_decide (i < w) && Z.testbit x i.
Proof.
  intros Hw. unfold wrap. destruct (Z.lt_ge_cases i 0).
  - rewrite !Z.testbit_neg_r by lia. by rewrite andb_false_r.
  - case_bool_decide.
    + by rewrite Z.mod_pow2_bits_low by lia.
    + by rewrite Z.mod_pow2_bits_high by lia.
Qed.

Lemma testbit_ones w i : 0 <= w -> Z.testbit (Z.ones w) i = bool_decide (0 <= i < w).
Proof.
  intros. rewrite Z.testbit_ones by done.
  apply eq_bool_prop_intro. rewrite bool_decide_spec, andb_True, !Is_true_true.
  rewrite Z.leb_le, Z.ltb_lt. done.
Qed.

Lemma testbit_1 i : Z.testbit 1 i = bool_decide (i = 0).
Proof. by destruct i as [|[]|]. Qed.

(** Bits above and below position [n] do not overlap. *)
Lemma lor_concat q b n : 0 <= n -> 0 <= b < 2 ^ n -> Z.lor (q * 2 ^ n) b = q * 2 ^ n + b.
Proof.
  intros Hn Hb. rewrite <- Z.add_lor_land. replace (Z.land (q * 2 ^ n) b) with 0; [lia|].
  symmetry. apply Z.bits_inj'. intros i Hi. rewrite Z.land_spec, Z.bits_0.
  destruct (Z.lt_ge_cases i n).
  - by rewrite Z.mul_pow2_bits_low.
  - by rewrite (fits_testbit_high n b i), andb_false_r.
Qed.

(** Two non-negative words are equal when their bits are. *)
Lemma fits_bits_eq w x y :
  fits w x -> fits w y -> (forall i, 0 <= i < w -> Z.testbit x i = Z.testbit y i) -> x = y.
Proof.
  intros Hx Hy H. apply Z.bits_inj'. intros i Hi.
  destruct (Z.lt_ge_cases i w); [by apply H|].
  by rewrite !(fits_testbit_high w) by done.
Qed.

(** ** Zero-initialised arrays

    An array of the C code that lives in fresh zero pages is a [gmap Z] read
    with a default: an absent index holds the type's zero value. *)

Class Zeroed (A : Type) : Type := zero : A.
#[export] Instance Z_zeroed : Zeroed Z := 0.
#[export] Instance option_zeroed {A} : Zeroed (option A) := None.

Definition aget {A} `{Zeroed A} (m : gmap Z A) (i : Z) : A := default zero (m !! i).
Definition aset {A} (m : gmap Z A) (i : Z) (x : A) : gmap Z A := <[i := x]> m.

Notation "m .[ i ]" := (aget m i) (at level 1, left associativity, format "m .[ i ]") : c_scope.
Notation "m .[ i <- x ]" := (aset m i x)
  (at level 1, left associativity, format "m .[ i  <-  x ]") : c_scope.

Create Rewrite HintDb arrays.

Section Arrays.
Context {A : Type} `{Zeroed A}.
Implicit Types (m : gmap Z A) (i j : Z).

Lemma aget_aset m i x : m.[i <- x].[i] = x.
Proof. unfold aget, aset. by rewrite lookup_insert_eq. Qed.

Lemma aget_aset_ne m i j x : i <> j -> m.[i <- x].[j] = m.[j].
Proof. intros. unfold aget, aset. by rewrite lookup_insert_ne. Qed.

Lemma aget_aset_case m i j x : m.[i <- x].[j] = if decide (i = j) then x else m.[j].
Proof. case_decide; subst; [apply aget_aset | by apply aget_aset_ne]. Qed.

Lemma aset_aset m i x y : m.[i <- x].[i <- y] = m.[i <- y].
Proof. apply insert_insert_eq. Qed.

(** Storing in a fold touches only the indices of the fold. *)
Lemma aget_fold_aset {B} (f : B -> Z) (g : B -> A) (l : list B) m a :
  (forall b, b ∈ l -> f b <> a) -> (foldr (fun b m => m.[f b <- g b]) m l).[a] = m.[a].
Proof.
  induction l as [|b l IH]; intros Hl; [done|]. cbn.
  rewrite aget_aset_ne by (apply Hl, list_elem_of_here). apply IH. intros b' Hb'.
  by apply Hl, list_elem_of_further.
Qed.

Lemma aget_empty i : (∅ : gmap Z A).[i] = zero.
Proof. unfold aget. by rewrite lookup_empty. Qed.
End Arrays.

Lemma aget_empty_Z i : (∅ : gmap Z Z).[i] = 0.
Proof. apply aget_empty. Qed.

#[export] Hint Rewrite @aget_aset @aset_aset @aget_empty : arrays.

(** ** Finite checks *)

(** A range of integers as a list, to check finitely many cases by evaluation. *)
Lemma forallb_seqZ (P : Z -> bool) lo n :
  forallb P (seqZ lo n) = true -> forall i, lo <= i < lo + n -> P i = true.
Proof.
  intros H i Hi. rewrite forallb_forall in H. apply H.
  apply list_elem_of_In, elem_of_seqZ. lia.
Qed.
