(* ===== verification/Config.v ===== *)
(** Build configuration: the macros the Makefile passes to the compiler
    (config/default.mk, config/light.mk) and the static assertions of
    h_malloc.c that restrict them. Every component is generic in a [Config];
    the theorems assume [ConfigOk], which a build could not violate. *)

From S2P Require Import Prelude.

Class Config : Type := {
  ZERO_ON_FREE : bool;
  WRITE_AFTER_FREE_CHECK : bool;
  SLOT_RANDOMIZE : bool;
  SLAB_CANARY : bool;
  SLAB_QUARANTINE_RANDOM_LENGTH : Z;
  SLAB_QUARANTINE_QUEUE_LENGTH : Z;
  CONFIG_EXTENDED_SIZE_CLASSES : bool;
  CONFIG_LARGE_SIZE_CLASSES : bool;
  GUARD_SLABS_INTERVAL : Z;
  GUARD_SIZE_DIVISOR : Z;
  REGION_QUARANTINE_RANDOM_LENGTH : Z;
  REGION_QUARANTINE_QUEUE_LENGTH : Z;
  REGION_QUARANTINE_SKIP_THRESHOLD : Z;
  FREE_SLABS_QUARANTINE_RANDOM_LENGTH : Z;
  CONFIG_CLASS_REGION_SIZE : Z;
  N_ARENA : Z;
  CONFIG_STATS : bool;
  CONFIG_LABEL_MEMORY : bool
}.

Definition PAGE_SHIFT : Z := 12.
Definition PAGE_SIZE : Z := Z.shiftl 1 PAGE_SHIFT.

Lemma PAGE_SIZE_eq : PAGE_SIZE = 4096.
Proof. reflexivity. Qed.

(** #define MREMAP_MOVE_THRESHOLD ((size_t)32 * 1024 * 1024) *)
Definition MREMAP_MOVE_THRESHOLD : Z := 32 * 1024 * 1024.

Section Derived.
Context `{Config}.

Definition SLAB_QUARANTINE : bool :=
  (0 <? SLAB_QUARANTINE_RANDOM_LENGTH) || (0 <? SLAB_QUARANTINE_QUEUE_LENGTH).

Definition REGION_QUARANTINE : bool :=
  (0 <? REGION_QUARANTINE_RANDOM_LENGTH) || (0 <? REGION_QUARANTINE_QUEUE_LENGTH).

(** static const size_t canary_size = SLAB_CANARY ? sizeof(u64) : 0; *)
Definition canary_size : Z := if SLAB_CANARY then 8 else 0.

Definition in_range (lo x hi : Z) : bool := (lo <=? x) && (x <=? hi).

(** The [static_assert]s of h_malloc.c on the configuration: those at the top and
    the one of [enqueue_free_slab]. *)
Definition static_asserts : bool :=
  implb WRITE_AFTER_FREE_CHECK ZERO_ON_FREE &&
  in_range 0 SLAB_QUARANTINE_RANDOM_LENGTH 65536 &&
  in_range 0 SLAB_QUARANTINE_QUEUE_LENGTH 65536 &&
  in_range 0 REGION_QUARANTINE_RANDOM_LENGTH 65536 &&
  in_range 0 REGION_QUARANTINE_QUEUE_LENGTH 65536 &&
  in_range 0 FREE_SLABS_QUARANTINE_RANDOM_LENGTH 65536 &&
  (FREE_SLABS_QUARANTINE_RANDOM_LENGTH <? 65535) &&
  (1 <=? GUARD_SLABS_INTERVAL) &&
  (1 <=? GUARD_SIZE_DIVISOR) &&
  (33554432 <=? CONFIG_CLASS_REGION_SIZE) &&
  (CONFIG_CLASS_REGION_SIZE <=? 1099511627776) &&
  (0 <=? REGION_QUARANTINE_SKIP_THRESHOLD) &&
  (REGION_QUARANTINE_SKIP_THRESHOLD <=? MREMAP_MOVE_THRESHOLD) &&
  (1 <=? N_ARENA) && (N_ARENA <=? 256).
End Derived.

(** The configuration passes the static assertions. *)
Class ConfigOk (c : Config) : Prop := config_static_asserts : static_asserts = true.

(** config/default.mk *)
Definition default_config : Config := {|
  ZERO_ON_FREE := true;
  WRITE_AFTER_FREE_CHECK := true;
  SLOT_RANDOMIZE := true;
  SLAB_CANARY := true;
  SLAB_QUARANTINE_RANDOM_LENGTH := 1;
  SLAB_QUARANTINE_QUEUE_LENGTH := 1;
  CONFIG_EXTENDED_SIZE_CLASSES := true;
  CONFIG_LARGE_SIZE_CLASSES := true;
  GUARD_SLABS_INTERVAL := 1;
  GUARD_SIZE_DIVISOR := 2;
  REGION_QUARANTINE_RANDOM_LENGTH := 256;
  REGION_QUARANTINE_QUEUE_LENGTH := 1024;
  REGION_QUARANTINE_SKIP_THRESHOLD := 33554432;
  FREE_SLABS_QUARANTINE_RANDOM_LENGTH := 32;
  CONFIG_CLASS_REGION_SIZE := 34359738368;
  N_ARENA := 4;
  CONFIG_STATS := false;
  CONFIG_LABEL_MEMORY := false
|}.

(** config/light.mk *)
Definition light_config : Config := {|
  ZERO_ON_FREE := true;
  WRITE_AFTER_FREE_CHECK := false;
  SLOT_RANDOMIZE := false;
  SLAB_CANARY := true;
  SLAB_QUARANTINE_RANDOM_LENGTH := 0;
  SLAB_QUARANTINE_QUEUE_LENGTH := 0;
  CONFIG_EXTENDED_SIZE_CLASSES := true;
  CONFIG_LARGE_SIZE_CLASSES := true;
  GUARD_SLABS_INTERVAL := 8;
  GUARD_SIZE_DIVISOR := 2;
  REGION_QUARANTINE_RANDOM_LENGTH := 256;
  REGION_QUARANTINE_QUEUE_LENGTH := 1024;
  REGION_QUARANTINE_SKIP_THRESHOLD := 33554432;
  FREE_SLABS_QUARANTINE_RANDOM_LENGTH := 32;
  CONFIG_CLASS_REGION_SIZE := 34359738368;
  N_ARENA := 4;
  CONFIG_STATS := false;
  CONFIG_LABEL_MEMORY := false
|}.

#[export] Instance default_config_ok : ConfigOk default_config.
Proof. reflexivity. Qed.

#[export] Instance light_config_ok : ConfigOk light_config.
Proof. reflexivity. Qed.

Section Facts.
Context `{Cok : ConfigOk}.

(** The arithmetic content of the assertions. *)
Record config_bounds : Prop := {
  cb_wafc : WRITE_AFTER_FREE_CHECK = true -> ZERO_ON_FREE = true;
  cb_sqr : 0 <= SLAB_QUARANTINE_RANDOM_LENGTH <= 65536;
  cb_sqq : 0 <= SLAB_QUARANTINE_QUEUE_LENGTH <= 65536;
  cb_rqr : 0 <= REGION_QUARANTINE_RANDOM_LENGTH <= 65536;
  cb_rqq : 0 <= REGION_QUARANTINE_QUEUE_LENGTH <= 65536;
  cb_fsq : 0 <= FREE_SLABS_QUARANTINE_RANDOM_LENGTH < 65535;
  cb_gsi : 1 <= GUARD_SLABS_INTERVAL;
  cb_gsd : 1 <= GUARD_SIZE_DIVISOR;
  cb_crs : 33554432 <= CONFIG_CLASS_REGION_SIZE <= 1099511627776;
  cb_rqs : 0 <= REGION_QUARANTINE_SKIP_THRESHOLD <= MREMAP_MOVE_THRESHOLD;
  cb_arena : 1 <= N_ARENA <= 256
}.

Lemma config_facts : config_bounds.
Proof.
  pose proof config_static_asserts as H.
  unfold static_asserts, in_range in H.
  rewrite !andb_true_iff, !Z.leb_le, Z.ltb_lt in H.
  constructor; try (destruct_and!; lia).
  intros Hw. rewrite Hw in H. destruct_and!. by destruct ZERO_ON_FREE.
Qed.

Lemma canary_size_bounds : canary_size = 0 \/ canary_size = 8.
Proof. unfold canary_size. destruct SLAB_CANARY; lia. Qed.
End Facts.
