(* ===== verification/Util.v ===== *)
(** util.h and pages.h: the bit tricks the allocator is written in.
    Compiler builtins ([__builtin_ffsll], [__builtin_clzll]) are defined by
    their documented results. *)

From S2P Require Import Prelude Config.

(** ** Builtins *)

Fixpoint ctz_pos (p : positive) : Z :=
  match p with
  | xO q => 1 + ctz_pos q
  | _ => 0
  end.

(** [__builtin_ffsll]: one plus the index of the least significant 1 bit, or 0. *)
Definition ffsll (x : Z) : Z :=
  match x with
  | Zpos p => 1 + ctz_pos p
  | _ => 0
  end.

(** ** util.h *)

Definition U64_WIDTH : Z := 64.

Definition ffz64 (x : Z) : Z := ffsll (u64 (Z.lnot x)).

(** [__builtin_clzll], for a non-zero argument. *)
Definition clz64 (x : Z) : Z := 63 - Z.log2 x.

Definition log2u64 (x : Z) : Z := u64 (U64_WIDTH - clz64 x - 1).

Definition align (size align : Z) : Z :=
  let mask := u64 (align - 1) in
  Z.land (u64 (size + mask)) (u64 (Z.lnot mask)).

Definition min (x y : Z) : Z := if x <? y then x else y.
Definition max (x y : Z) : Z := if x >? y then x else y.

(** u4_arr_{set,get}: a u8 array used as an array of 4-bit values. *)
Definition u4_arr_set (arr : gmap Z Z) (idx val : Z) : gmap Z Z :=
  let off := Z.shiftr idx 1 in
  let shift := Z.shiftl (Z.land idx 1) 2 in
  let mask := u8 (Z.shiftr 0xf0 shift) in
  arr.[off <- u8 (Z.lor (Z.land arr.[off] mask) (Z.shiftl val shift))].

Definition u4_arr_get (arr : gmap Z Z) (idx : Z) : Z :=
  let off := Z.shiftr idx 1 in
  let shift := Z.shiftl (Z.land idx 1) 2 in
  u8 (Z.land (Z.shiftr arr.[off] shift) 0xf).

(** ** pages.h *)

Definition page_align (size : Z) : Z := align size PAGE_SIZE.

Definition hash_page (p : Z) : Z :=
  let u := Z.shiftr p PAGE_SHIFT in
  let sum := u in
  let sum := u64 (u64 (u64 (Z.shiftl sum 7) - sum) + Z.shiftr u 16) in
  let sum := u64 (u64 (u64 (Z.shiftl sum 7) - sum) + Z.shiftr u 32) in
  let sum := u64 (u64 (u64 (Z.shiftl sum 7) - sum) + Z.shiftr u 48) in
  sum.

(** ** Lemmas *)

Lemma ctz_pos_nonneg p : 0 <= ctz_pos p.
Proof. induction p; cbn [ctz_pos]; lia. Qed.

Lemma ctz_pos_testbit p : Z.testbit (Zpos p) (ctz_pos p) = true.
Proof.
  induction p as [p _|p IH|]; [done| |done]. cbn [ctz_pos].
  rewrite Pos2Z.inj_xO, Z.double_bits. by replace (Z.pred _) with (ctz_pos p) by lia.
Qed.

Lemma ctz_pos_testbit_below p i : i < ctz_pos p -> Z.testbit (Zpos p) i = false.
Proof.
  revert i. induction p as [p _|p IH|]; cbn [ctz_pos]; intros i Hi;
    [by apply Z.testbit_neg_r| |by apply Z.testbit_neg_r].
  rewrite Pos2Z.inj_xO, Z.double_bits. apply IH. lia.
Qed.

Lemma ctz_pos_upper p w : Zpos p < 2 ^ w -> ctz_pos p < w.
Proof.
  intros Hp. apply Z.nle_gt. intros Hw.
  pose proof (ctz_pos_testbit p) as Hb.
  rewrite (fits_testbit_high w) in Hb; [done| |done]. split; lia.
Qed.

(** [ffz64 x - 1] is the index of the lowest zero bit of [x]. *)
Lemma ffz64_spec x :
  fits 64 x -> x <> 2 ^ 64 - 1 ->
  exists i, ffz64 x = i + 1 /\ 0 <= i < 64 /\ Z.testbit x i = false /\
    (forall j, 0 <= j < i -> Z.testbit x j = true).
Proof.
  intros Hx Hne. unfold ffz64.
  assert (Hn : u64 (Z.lnot x) = 2 ^ 64 - 1 - x).
  { unfold wrap. replace (Z.lnot x) with ((2 ^ 64 - 1 - x) + (-1) * 2 ^ 64)
      by (unfold Z.lnot; lia).
    rewrite Z_mod_plus_full. apply Z.mod_small. unfold fits in Hx. lia. }
  assert (Hbit : forall j, 0 <= j < 64 -> Z.testbit (u64 (Z.lnot x)) j = negb (Z.testbit x j)).
  { intros j Hj. rewrite testbit_wrap, bool_decide_true by lia.
    by rewrite Z.lnot_spec by lia. }
  assert (Hpos : 0 < u64 (Z.lnot x) < 2 ^ 64) by (rewrite Hn; unfold fits in Hx; lia).
  destruct (u64 (Z.lnot x)) as [|p|p] eqn:E; [lia| |lia].
  exists (ctz_pos p). cbn [ffsll].
  pose proof (ctz_pos_nonneg p). pose proof (ctz_pos_upper p 64 ltac:(lia)).
  split; [lia|]. split; [lia|]. split.
  - apply negb_true_iff. rewrite <- Hbit by lia. apply ctz_pos_testbit.
  - intros j Hj. apply negb_false_iff. rewrite <- Hbit by lia. apply ctz_pos_testbit_below. lia.
Qed.

Lemma log2u64_spec x : 0 < x < 2 ^ 64 -> log2u64 x = Z.log2 x.
Proof.
  intros Hx. unfold log2u64, clz64, U64_WIDTH.
  replace (64 - (63 - Z.log2 x) - 1) with (Z.log2 x) by lia.
  apply wrap_small. pose proof (Z.log2_nonneg x). pose proof (Z.log2_lt_pow2 x 64). split; lia.
Qed.

Lemma max_spec x y : max x y = Z.max x y.
Proof. unfold max. destruct (Z.gtb_spec x y); lia. Qed.

Lemma min_spec x y : min x y = Z.min x y.
Proof. unfold min. destruct (Z.ltb_spec x y); lia. Qed.

(** Clearing the low [k] bits with a mask rounds down to a multiple of 2^k. *)
Lemma land_high_mask x k :
  0 <= k <= 64 -> fits 64 x -> Z.land x (u64 (Z.lnot (2 ^ k - 1))) = x / 2 ^ k * 2 ^ k.
Proof.
  intros Hk Hx.
  rewrite <- Z.shiftr_div_pow2, <- Z.shiftl_mul_pow2 by lia.
  apply Z.bits_inj'. intros i Hi.
  rewrite Z.land_spec, testbit_wrap by lia.
  rewrite Z.lnot_spec by done.
  replace (2 ^ k - 1) with (Z.ones k) by (rewrite Z.ones_equiv; lia).
  rewrite testbit_ones by lia.
  rewrite Z.shiftl_spec by done.
  destruct (Z.lt_ge_cases i k).
  - rewrite (Z.testbit_neg_r _ (i - k)) by lia.
    rewrite (bool_decide_true (0 <= i < k)) by lia. by rewrite !andb_false_r.
  - rewrite Z.shiftr_spec by lia. replace (i - k + k) with i by lia.
    rewrite (bool_decide_false (0 <= i < k)) by lia.
    case_bool_decide; [by rewrite andb_true_r|].
    by rewrite (fits_testbit_high 64 x) by (done || lia).
Qed.

(** [align] as the source computes it: round the wrapped sum down. *)
Lemma align_pow2 size k :
  0 <= k < 64 -> align size (2 ^ k) = u64 (size + (2 ^ k - 1)) / 2 ^ k * 2 ^ k.
Proof.
  intros Hk. unfold align.
  assert (Hp : 0 < 2 ^ k <= 2 ^ 63).
  { split; [by apply Z.pow_pos_nonneg; lia|]. apply Z.pow_le_mono_r; lia. }
  rewrite (wrap_small 64 (2 ^ k - 1)) by (split; lia).
  apply land_high_mask; [lia|]. by apply wrap_fits.
Qed.

(** Without wrap-around, [align] is the least multiple of the alignment that is
    not below the size. *)
Lemma align_spec size k :
  0 <= k < 64 -> 0 <= size -> size + 2 ^ k <= 2 ^ 64 ->
  size <= align size (2 ^ k) < size + 2 ^ k /\ (2 ^ k | align size (2 ^ k)) /\
  (align size (2 ^ k) = (size + (2 ^ k - 1)) / 2 ^ k * 2 ^ k).
Proof.
  intros Hk H0 H1. assert (Hp : 0 < 2 ^ k) by (apply Z.pow_pos_nonneg; lia).
  rewrite align_pow2 by done. rewrite wrap_small by (split; lia).
  split; [|split; [by apply Z.divide_factor_r|done]].
  pose proof (Z.div_mod (size + (2 ^ k - 1)) (2 ^ k) ltac:(lia)).
  pose proof (Z.mod_pos_bound (size + (2 ^ k - 1)) (2 ^ k) Hp). lia.
Qed.

Lemma page_align_spec size :
  0 <= size <= 2 ^ 64 - PAGE_SIZE ->
  size <= page_align size < size + PAGE_SIZE /\ (PAGE_SIZE | page_align size) /\
  page_align size = (size + (PAGE_SIZE - 1)) / PAGE_SIZE * PAGE_SIZE.
Proof.
  rewrite PAGE_SIZE_eq. intros ?. unfold page_align. rewrite PAGE_SIZE_eq.
  apply (align_spec size 12); lia.
Qed.

Lemma hash_page_fits p : fits 64 (hash_page p).
Proof. by apply wrap_fits. Qed.

#[export] Hint Resolve hash_page_fits : words.

(** *** The 4-bit array *)

Lemma u4_shift_cases idx :
  0 <= idx -> (Z.land idx 1 = 0 /\ idx = 2 * Z.shiftr idx 1) \/
              (Z.land idx 1 = 1 /\ idx = 2 * Z.shiftr idx 1 + 1).
Proof.
  intros Hi. replace (Z.land idx 1) with (idx mod 2) by (symmetry; apply (Z.land_ones idx 1); lia).
  rewrite Z.shiftr_div_pow2 by lia. change (2 ^ 1) with 2. pose proof (Z.div_mod idx 2). pose proof (Z.mod_pos_bound idx 2). lia.
Qed.

(** Bit [i] of a 4-bit cell is bit [i] of its half of the byte. *)
Lemma u4_arr_get_bit arr j i :
  0 <= j -> 0 <= i ->
  Z.testbit (u4_arr_get arr j) i =
  bool_decide (i < 4) && Z.testbit (arr.[Z.shiftr j 1]) (i + 4 * Z.land j 1).
Proof.
  intros Hj Hi. unfold u4_arr_get. cbv zeta.
  rewrite testbit_wrap, Z.land_spec, Z.shiftr_spec by lia.
  change 0xf with (Z.ones 4). rewrite testbit_ones by lia.
  replace (Z.shiftl (Z.land j 1) 2) with (4 * Z.land j 1)
    by (rewrite Z.shiftl_mul_pow2 by lia; lia).
  repeat case_bool_decide; try lia; simpl; by rewrite ?andb_true_r, ?andb_false_r.
Qed.

(** A write changes the four bits of its cell and keeps the other four. *)
Lemma u4_arr_set_bit arr idx val n :
  0 <= idx -> 0 <= n < 8 -> fits 4 val ->
  Z.testbit ((u4_arr_set arr idx val).[Z.shiftr idx 1]) n =
  if decide (4 * Z.land idx 1 <= n < 4 * Z.land idx 1 + 4)
  then Z.testbit val (n - 4 * Z.land idx 1)
  else Z.testbit (arr.[Z.shiftr idx 1]) n.
Proof.
  intros Hi Hn Hv. unfold u4_arr_set. cbv zeta. rewrite aget_aset.
  rewrite testbit_wrap, bool_decide_true, andb_true_l by lia.
  rewrite Z.lor_spec, Z.land_spec.
  assert (Hm : forall k, Z.testbit (u8 (Z.shiftr 0xf0 (4 * k))) n =
                         bool_decide (4 <= n + 4 * k < 8)).
  { intros k. rewrite testbit_wrap, bool_decide_true, andb_true_l, Z.shiftr_spec by lia.
    change 0xf0 with (Z.shiftl (Z.ones 4) 4). destruct (Z.lt_ge_cases (n + 4 * k) 0).
    - rewrite Z.testbit_neg_r by done. by rewrite bool_decide_false by lia.
    - rewrite Z.shiftl_spec, testbit_ones by lia. apply bool_decide_ext. lia. }
  replace (Z.shiftl (Z.land idx 1) 2) with (4 * Z.land idx 1)
    by (rewrite Z.shiftl_mul_pow2 by lia; lia).
  rewrite Hm, Z.shiftl_spec by lia.
  destruct (u4_shift_cases idx Hi) as [[-> _]|[-> _]]; case_decide; case_bool_decide; try lia;
    rewrite ?andb_false_r, ?andb_true_r; try done.
  - by rewrite (fits_testbit_high 4 val), orb_false_r by (done || lia).
  - by rewrite (Z.testbit_neg_r val), orb_false_r by lia.
Qed.

(** A write is read back, and the other 4-bit cells keep their value. *)
Lemma u4_arr_get_set arr idx val j :
  0 <= idx -> 0 <= j -> fits 4 val ->
  u4_arr_get (u4_arr_set arr idx val) j = if decide (j = idx) then val else u4_arr_get arr j.
Proof.
  intros Hi Hj Hv. apply Z.bits_inj'. intros i Hi0.
  pose proof (u4_shift_cases idx Hi) as Pi. pose proof (u4_shift_cases j Hj) as Pj.
  assert (Hhi : 4 <= i -> Z.testbit val i = false) by (intros; by apply (fits_testbit_high 4)).
  rewrite u4_arr_get_bit by done.
  destruct (Z.lt_ge_cases i 4).
  2: { rewrite bool_decide_false by lia. case_decide; [by rewrite Hhi|].
       rewrite u4_arr_get_bit by done. by rewrite bool_decide_false by lia. }
  rewrite bool_decide_true, andb_true_l by done.
  destruct (decide (Z.shiftr j 1 = Z.shiftr idx 1)) as [He|Hne].
  - rewrite He, u4_arr_set_bit by (done || lia).
    repeat case_decide; subst; try lia; [f_equal; lia|].
    rewrite u4_arr_get_bit by done. by rewrite bool_decide_true, He by done.
  - unfold u4_arr_set. cbv zeta. rewrite aget_aset_ne by done.
    rewrite decide_False by congruence.
    rewrite u4_arr_get_bit by done. by rewrite bool_decide_true by done.
Qed.
