(* ===== verification/Libdivide.v ===== *)
(** Division by a fixed divisor (third_party/libdivide.h): the magic numbers
    that h_malloc.c uses to turn an offset into a slab or slot index, and the
    portable 128-by-64-bit division that computes them. *)

From S2P Require Import Prelude.

Definition LIBDIVIDE_ADD_MARKER : Z := 64.
Definition LIBDIVIDE_32_SHIFT_MASK : Z := 31.
Definition LIBDIVIDE_64_SHIFT_MASK : Z := 63.

(** struct libdivide_u32_t and struct libdivide_u64_t *)
Record libdivide_t := Libdivide { magic : Z; more : Z }.

(** __builtin_clz and __builtin_clzll of a non-zero value *)
Definition count_leading_zeros (w val : Z) : Z := w - 1 - Z.log2 val.

Definition libdivide_mullhi (w x y : Z) : Z := wrap w (Z.shiftr (wrap (2 * w) (x * y)) w).
Definition libdivide_mullhi_u32 : Z -> Z -> Z := libdivide_mullhi 32.
Definition libdivide_mullhi_u64 : Z -> Z -> Z := libdivide_mullhi 64.

(** Quotient and remainder of {u1, u0} by v. *)
Definition libdivide_64_div_32_to_32 (u1 u0 v : Z) : Z * Z :=
  let n := Z.lor (u64 (Z.shiftl u1 32)) u0 in
  let result := u32 (n / v) in
  (result, u32 (u64 (n - u64 (result * v)))).

(** One digit of the long division in base 2^32: the corrected estimate of
    {rem, digit} / den. *)
Definition quotient_digit (rem digit den den1 den0 : Z) : Z :=
  let b := Z.shiftl 1 32 in
  let qhat := rem / den1 in
  let rhat := rem mod den1 in
  let c1 := u64 (qhat * den0) in
  let c2 := u64 (u64 (rhat * b) + digit) in
  let qhat := if c1 >? c2 then u64 (qhat - (if u64 (c1 - c2) >? den then 2 else 1)) else qhat in
  u32 qhat.

(** The code without inline assembly. *)
Definition libdivide_128_div_64_to_64 (numhi numlo den : Z) : Z * Z :=
  let b := Z.shiftl 1 32 in
  if numhi >=? den then (2 ^ 64 - 1, 2 ^ 64 - 1) else
  let shift := count_leading_zeros 64 den in
  let den := u64 (Z.shiftl den shift) in
  let numhi := u64 (Z.shiftl numhi shift) in
  let numhi := Z.lor numhi (Z.land (Z.shiftr numlo (Z.land (- shift) 63)) (u64 (Z.shiftr (- shift) 63))) in
  let numlo := u64 (Z.shiftl numlo shift) in
  let num1 := u32 (Z.shiftr numlo 32) in
  let num0 := u32 (Z.land numlo 4294967295) in
  let den1 := u32 (Z.shiftr den 32) in
  let den0 := u32 (Z.land den 4294967295) in
  let q1 := quotient_digit numhi num1 den den1 den0 in
  let rem := u64 (u64 (u64 (numhi * b) + num1) - u64 (q1 * den)) in
  let q0 := quotient_digit rem num0 den den1 den0 in
  let r := Z.shiftr (u64 (u64 (u64 (rem * b) + num0) - u64 (q0 * den))) shift in
  (Z.lor (u64 (Z.shiftl q1 32)) q0, r).

(** The generators for 32 and 64 bits differ in the width w and the wide
    division; [branchfree] is 0. A zero divisor aborts. *)
Definition libdivide_internal_gen (w : Z) (wide_div : Z -> Z -> Z -> Z * Z) (d : Z) : option libdivide_t :=
  if d =? 0 then None else
  let floor_log_2_d := w - 1 - count_leading_zeros w d in
  if Z.land d (d - 1) =? 0 then Some (Libdivide 0 (u8 floor_log_2_d))
  else
    let '(proposed_m, rem) := wide_div (wrap w (Z.shiftl 1 floor_log_2_d)) 0 d in
    let e := wrap w (d - rem) in
    if e <? wrap w (Z.shiftl 1 floor_log_2_d)
    then Some (Libdivide (wrap w (1 + proposed_m)) (u8 floor_log_2_d))
    else
      let proposed_m := wrap w (proposed_m + proposed_m) in
      let twice_rem := wrap w (rem + rem) in
      let proposed_m :=
        if (twice_rem >=? d) || (twice_rem <? rem) then wrap w (proposed_m + 1) else proposed_m in
      Some (Libdivide (wrap w (1 + proposed_m)) (u8 (Z.lor floor_log_2_d LIBDIVIDE_ADD_MARKER))).

Definition libdivide_u32_gen : Z -> option libdivide_t :=
  libdivide_internal_gen 32 libdivide_64_div_32_to_32.
Definition libdivide_u64_gen : Z -> option libdivide_t :=
  libdivide_internal_gen 64 libdivide_128_div_64_to_64.

Definition libdivide_do_raw (w mask numer magic more : Z) : Z :=
  if magic =? 0 then Z.shiftr numer more
  else
    let q := libdivide_mullhi w numer magic in
    if negb (Z.land more LIBDIVIDE_ADD_MARKER =? 0) then
      let t := wrap w (Z.shiftr (wrap w (numer - q)) 1 + q) in
      Z.shiftr t (Z.land more mask)
    else Z.shiftr q more.

Definition libdivide_u32_do (numer : Z) (denom : libdivide_t) : Z :=
  libdivide_do_raw 32 LIBDIVIDE_32_SHIFT_MASK numer (magic denom) (more denom).
Definition libdivide_u64_do (numer : Z) (denom : libdivide_t) : Z :=
  libdivide_do_raw 64 LIBDIVIDE_64_SHIFT_MASK numer (magic denom) (more denom).

(** ** Wide division *)

(** A correct wide division: exact quotient and remainder when the quotient fits. *)
Definition divides_wide (w : Z) (wide_div : Z -> Z -> Z -> Z * Z) : Prop :=
  forall u1 u0 v, fits w u0 -> 0 <= u1 < v -> v < 2 ^ w ->
    wide_div u1 u0 v = ((u1 * 2 ^ w + u0) / v, (u1 * 2 ^ w + u0) mod v).

Lemma wide_quotient w u1 u0 v :
  0 <= w -> fits w u0 -> 0 <= u1 < v -> 0 <= (u1 * 2 ^ w + u0) / v < 2 ^ w.
Proof.
  intros Hw [? ?] Hv. split; [apply Z.div_pos; nia|]. apply Z.div_lt_upper_bound; nia.
Qed.

Lemma div_32_wide : divides_wide 32 libdivide_64_div_32_to_32.
Proof.
  intros u1 u0 v Hu0 Hu1 Hv. pose proof (wide_quotient 32 u1 u0 v ltac:(lia) Hu0 Hu1) as Hq.
  unfold libdivide_64_div_32_to_32. cbv zeta. rewrite Z.shiftl_mul_pow2 by lia.
  assert (E : u64 (u1 * 2 ^ 32) = u1 * 2 ^ 32) by (apply wrap_small; split; lia).
  destruct Hu0 as [Hu00 Hu01]. rewrite E, lor_concat by lia. clear E.
  set (n := u1 * 2 ^ 32 + u0) in *.
  rewrite (wrap_small 32 (n / v)) by (split; lia).
  pose proof (Z.div_mod n v ltac:(lia)). pose proof (Z.mod_pos_bound n v ltac:(lia)).
  assert (Hle : n / v * v <= n) by lia.
  assert (Hn : n < 2 ^ 64) by (unfold n; lia).
  assert (0 <= n / v * v) by nia.
  rewrite (wrap_small 64 (n / v * v)) by (split; lia).
  rewrite (wrap_small 64 (n - _)) by (split; lia). rewrite (wrap_small 32) by (split; lia).
  f_equal. lia.
Qed.

Section Digit.
Context (den1 den0 : Z) (Hden1 : 2 ^ 31 <= den1 < 2 ^ 32) (Hden0 : fits 32 den0).
Let den := den1 * 2 ^ 32 + den0.

(** The estimate is at most 2 too large and the correction is exact. *)
Lemma quotient_digit_ok rem digit :
  0 <= rem < den -> fits 32 digit ->
  quotient_digit rem digit den den1 den0 = (rem * 2 ^ 32 + digit) / den.
Proof.
  intros Hrem Hdig. unfold quotient_digit. cbv zeta. change (Z.shiftl 1 32) with (2 ^ 32).
  pose proof (wide_quotient 32 rem digit den ltac:(lia) Hdig Hrem) as Hq.
  destruct Hdig as [Hd0 Hd1], Hden0 as [H00 H01].
  pose proof (Z.div_mod rem den1 ltac:(lia)) as Hdm.
  pose proof (Z.mod_pos_bound rem den1 ltac:(lia)) as Hrb.
  set (qhat := rem / den1) in *. set (rhat := rem mod den1) in *.
  assert (Hqh0 : 0 <= qhat) by (apply Z.div_pos; lia).
  assert (Hqh1 : qhat <= 2 ^ 32 + 1).
  { apply Z.lt_succ_r. apply Z.div_lt_upper_bound; [lia|]. unfold den in Hrem. lia. }
  assert (Hc1 : 0 <= qhat * den0 < 2 ^ 64) by nia.
  rewrite (wrap_small 64 (qhat * den0)) by done.
  rewrite (wrap_small 64 (rhat * _)) by (split; lia).
  rewrite (wrap_small 64 (rhat * _ + _)) by (split; lia).
  set (c1 := qhat * den0) in *. set (c2 := rhat * 2 ^ 32 + digit) in *.
  assert (Hdiff : rem * 2 ^ 32 + digit = qhat * den + (c2 - c1)) by (unfold c1, c2, den; lia).
  assert (Hc2 : 0 <= c2 < den) by (unfold c2, den; lia).
  assert (Hden : 2 ^ 63 <= den < 2 ^ 64) by (unfold den; lia).
  assert (Hfin : forall q, 0 <= rem * 2 ^ 32 + digit - q * den < den ->
    u32 q = (rem * 2 ^ 32 + digit) / den).
  { intros q Hr. assert (E : q = (rem * 2 ^ 32 + digit) / den).
    { apply (Z.div_unique _ _ _ (rem * 2 ^ 32 + digit - q * den)); lia. }
    rewrite <- E in Hq. rewrite <- E. by apply wrap_small. }
  rewrite Z.gtb_ltb. destruct (Z.ltb_spec c2 c1) as [Hlt|Hge].
  - rewrite (wrap_small 64 (c1 - c2)) by (split; lia). rewrite Z.gtb_ltb.
    assert (qhat <> 0) by (intros E; unfold c1 in Hlt; rewrite E in Hlt; lia).
    destruct (Z.ltb_spec den (c1 - c2)).
    + assert (2 <= qhat).
      { destruct (Z.le_gt_cases 2 qhat); [done|]. assert (qhat = 1) as E by lia.
        unfold c1, den in *. rewrite E in *. lia. }
      rewrite (wrap_small 64 (qhat - 2)) by (split; lia). apply Hfin. lia.
    + rewrite (wrap_small 64 (qhat - 1)) by (split; lia). apply Hfin. lia.
  - apply Hfin. lia.
Qed.
End Digit.

(** Normalisation: shifting the divisor left until its top bit is set. *)
Lemma normalise_shift den :
  0 < den < 2 ^ 64 ->
  let s := count_leading_zeros 64 den in
  0 <= s < 64 /\ 2 ^ 63 <= den * 2 ^ s < 2 ^ 64.
Proof.
  intros [H0 H1] s. unfold count_leading_zeros in s.
  destruct (Z.log2_spec den H0) as [Hlo Hhi].
  assert (Hl : 0 <= Z.log2 den < 64) by (split; [apply Z.log2_nonneg|by apply Z.log2_lt_pow2]).
  split; [lia|]. assert (E63 : 2 ^ 63 = 2 ^ Z.log2 den * 2 ^ s).
  { rewrite <- Z.pow_add_r by lia. f_equal. lia. }
  assert (E64 : 2 ^ 64 = 2 ^ Z.succ (Z.log2 den) * 2 ^ s).
  { rewrite <- Z.pow_add_r by lia. f_equal. lia. }
  rewrite E63, E64. pose proof (pow2_pos s ltac:(lia)). nia.
Qed.

(** The two-word numerator shifted by the same amount. *)
Lemma normalise_numerator hi lo den s :
  0 <= s < 64 -> 0 <= hi < den -> den * 2 ^ s < 2 ^ 64 -> fits 64 lo ->
  let hi' := Z.lor (u64 (Z.shiftl hi s)) (Z.land (Z.shiftr lo (Z.land (- s) 63)) (u64 (Z.shiftr (- s) 63))) in
  let lo' := u64 (Z.shiftl lo s) in
  hi' * 2 ^ 64 + lo' = (hi * 2 ^ 64 + lo) * 2 ^ s /\ 0 <= hi' < den * 2 ^ s /\ fits 64 lo'.
Proof.
  intros Hs Hhi Hden [Hlo0 Hlo1] hi' lo'. pose proof (pow2_pos s ltac:(lia)) as Hp.
  assert (Hhis : u64 (Z.shiftl hi s) = hi * 2 ^ s).
  { rewrite Z.shiftl_mul_pow2 by lia. apply wrap_small. split; nia. }
  pose proof (wrap_fits 64 (Z.shiftl lo s) ltac:(lia)) as Hlof. fold lo' in Hlof.
  assert (Hlow : lo' = (lo * 2 ^ s) mod 2 ^ 64).
  { unfold lo', wrap. by rewrite Z.shiftl_mul_pow2 by lia. }
  assert (Hhi' : hi' = hi * 2 ^ s + lo * 2 ^ s / 2 ^ 64).
  { unfold hi'. rewrite Hhis. destruct (decide (s = 0)) as [->|Hne].
    - change (u64 (Z.shiftr (- 0) 63)) with 0. rewrite Z.land_0_r, Z.lor_0_r.
      rewrite (Z.div_small (lo * _)) by lia. lia.
    - assert (Es : Z.land (- s) 63 = 64 - s).
      { change 63 with (2 ^ 6 - 1). rewrite land_low_ones by lia.
        rewrite <- (Z_mod_plus_full _ 1). replace (- s + 1 * 2 ^ 6) with (64 - s) by lia.
        apply Z.mod_small. lia. }
      assert (Em : u64 (Z.shiftr (- s) 63) = Z.ones 64).
      { rewrite Z.shiftr_div_pow2 by lia.
        replace (- s / 2 ^ 63) with (-1) by (apply (Z.div_unique _ _ _ (2 ^ 63 - s)); lia). done. }
      assert (E64 : 2 ^ 64 = 2 ^ (64 - s) * 2 ^ s) by (rewrite <- Z.pow_add_r by lia; f_equal; lia).
      pose proof (pow2_pos (64 - s) ltac:(lia)).
      assert (Hdiv : lo * 2 ^ s / 2 ^ 64 = lo / 2 ^ (64 - s)).
      { rewrite E64. apply Z.div_mul_cancel_r; lia. }
      assert (Hb : 0 <= lo / 2 ^ (64 - s) < 2 ^ s).
      { split; [apply Z.div_pos; lia|]. apply Z.div_lt_upper_bound; lia. }
      rewrite Es, Em, Z.shiftr_div_pow2, Z.land_ones, Hdiv by lia.
      rewrite (Z.mod_small (lo / _)), lor_concat; [done|lia|lia|].
      assert (2 ^ s <= 2 ^ 64) by (apply Z.pow_le_mono_r; lia). lia. }
  pose proof (Z.div_mod (lo * 2 ^ s) (2 ^ 64) ltac:(lia)) as Hdm.
  assert (Hq : 0 <= lo * 2 ^ s / 2 ^ 64 < 2 ^ s).
  { split; [apply Z.div_pos; lia|]. apply Z.div_lt_upper_bound; nia. }
  rewrite Hhi'. split; [lia|]. split; [nia|done].
Qed.

(** A digit of the quotient leaves the true remainder, modulo 2^64. *)
Lemma remainder_step rem digit den :
  fits 32 digit -> 0 <= rem < den -> den < 2 ^ 64 ->
  let q := (rem * 2 ^ 32 + digit) / den in
  u64 (u64 (u64 (rem * Z.shiftl 1 32) + digit) - u64 (q * den)) = (rem * 2 ^ 32 + digit) mod den.
Proof.
  intros Hd Hr Hden q. change (Z.shiftl 1 32) with (2 ^ 32). unfold wrap.
  rewrite Zminus_mod_idemp_l, Zminus_mod_idemp_r, <- Zminus_mod_idemp_l, Zplus_mod_idemp_l,
    Zminus_mod_idemp_l.
  pose proof (Z.mod_pos_bound (rem * 2 ^ 32 + digit) den ltac:(lia)).
  rewrite (Z.mod_eq (rem * 2 ^ 32 + digit) den) in * by lia. fold q in H |- *.
  rewrite Z.mod_small; lia.
Qed.

Lemma split_word x : fits 64 x ->
  let hi := u32 (Z.shiftr x 32) in let lo := u32 (Z.land x 4294967295) in
  x = hi * 2 ^ 32 + lo /\ fits 32 hi /\ fits 32 lo.
Proof.
  intros [H0 H1] hi lo. unfold hi, lo. change 4294967295 with (2 ^ 32 - 1).
  rewrite land_low_ones, Z.shiftr_div_pow2 by lia.
  pose proof (Z.mod_pos_bound x (2 ^ 32) ltac:(lia)) as Hm. pose proof (Z.div_mod x (2 ^ 32) ltac:(lia)).
  assert (Hd : fits 32 (x / 2 ^ 32)) by (split; [apply Z.div_pos; lia|apply Z.div_lt_upper_bound; lia]).
  rewrite !wrap_small by done. split; [lia|]. done.
Qed.

Lemma div_64_wide : divides_wide 64 libdivide_128_div_64_to_64.
Proof.
  intros hi lo den Hlo Hhi Hden. unfold libdivide_128_div_64_to_64. cbv zeta.
  rewrite Z.geb_leb, (proj2 (Z.leb_gt _ _)) by lia.
  destruct (normalise_shift den ltac:(lia)) as [Hs Hnorm].
  set (s := count_leading_zeros 64 den) in *.
  destruct (normalise_numerator hi lo den s Hs Hhi ltac:(lia) Hlo) as (HN & Hhi' & Hlo').
  assert (Hds : u64 (Z.shiftl den s) = den * 2 ^ s).
  { rewrite Z.shiftl_mul_pow2 by lia. apply wrap_small. split; lia. }
  rewrite Hds. set (hi' := Z.lor _ _) in *. set (lo' := u64 (Z.shiftl lo s)) in *.
  destruct (split_word lo' Hlo') as (Elo & Hn1 & Hn0).
  destruct (split_word (den * 2 ^ s) ltac:(split; lia)) as (Eden & Hd1 & Hd0).
  set (num1 := u32 (Z.shiftr lo' 32)) in *. set (num0 := u32 (Z.land lo' _)) in *.
  set (den1 := u32 (Z.shiftr (den * 2 ^ s) 32)) in *. set (den0 := u32 (Z.land (den * 2 ^ s) _)) in *.
  assert (Hd1' : 2 ^ 31 <= den1 < 2 ^ 32) by (unfold fits in *; lia).
  set (D := den * 2 ^ s) in *.
  rewrite Eden in Hhi' |- *. rewrite (quotient_digit_ok den1 den0 Hd1' Hd0 hi' num1 Hhi' Hn1).
  rewrite (remainder_step hi' num1 _ Hn1 Hhi') by lia. rewrite <- Eden in *.
  pose proof (Z.mod_pos_bound (hi' * 2 ^ 32 + num1) D ltac:(lia)) as Hrem.
  pose proof (Z.div_mod (hi' * 2 ^ 32 + num1) D ltac:(lia)) as Hdm1.
  pose proof (wide_quotient 32 hi' num1 D ltac:(lia) Hn1 Hhi') as Hq1.
  set (q1 := (hi' * 2 ^ 32 + num1) / D) in *. set (rem := (hi' * 2 ^ 32 + num1) mod D) in *.
  pose proof (quotient_digit_ok den1 den0 Hd1' Hd0 rem num0) as Hq0ok. rewrite <- Eden in Hq0ok.
  rewrite (Hq0ok Hrem Hn0). rewrite (remainder_step rem num0 D Hn0 Hrem) by lia.
  pose proof (Z.div_mod (rem * 2 ^ 32 + num0) D ltac:(lia)) as Hdm0.
  pose proof (Z.mod_pos_bound (rem * 2 ^ 32 + num0) D ltac:(lia)) as Hr0.
  pose proof (wide_quotient 32 rem num0 D ltac:(lia) Hn0 Hrem) as Hq0.
  set (q0 := (rem * 2 ^ 32 + num0) / D) in *. set (r := (rem * 2 ^ 32 + num0) mod D) in *.
  pose proof (pow2_pos s ltac:(lia)) as Hp.
  assert (Eq : (hi * 2 ^ 64 + lo) * 2 ^ s = (q1 * 2 ^ 32 + q0) * D + r) by lia.
  assert (Er : r = (hi * 2 ^ 64 + lo - (q1 * 2 ^ 32 + q0) * den) * 2 ^ s) by (unfold D in Eq; lia).
  assert (Hrq : 0 <= hi * 2 ^ 64 + lo - (q1 * 2 ^ 32 + q0) * den < den) by (unfold D in Hr0; nia).
  rewrite Z.shiftl_mul_pow2, (wrap_small 64 (q1 * 2 ^ 32)), lor_concat by (try split; lia).
  rewrite Z.shiftr_div_pow2 by lia. f_equal.
  - apply (Z.div_unique _ _ _ (hi * 2 ^ 64 + lo - (q1 * 2 ^ 32 + q0) * den)); lia.
  - rewrite Er, Z.div_mul by lia. apply (Z.mod_unique _ _ (q1 * 2 ^ 32 + q0)); lia.
Qed.

(** ** Magic numbers *)

Section Magic.
Context (w mask : Z) (wide_div : Z -> Z -> Z -> Z * Z).
Context (Hw : 1 <= w <= 64) (Hmask : forall k, 0 <= k < w -> Z.land (Z.lor k 64) mask = k).
Context (Hwide : divides_wide w wide_div).

Lemma mullhi_eq x y : fits w x -> fits w y -> libdivide_mullhi w x y = x * y / 2 ^ w.
Proof.
  intros [Hx0 Hx1] [Hy0 Hy1]. unfold libdivide_mullhi.
  assert (E : 2 ^ (2 * w) = 2 ^ w * 2 ^ w) by (rewrite <- Z.pow_add_r by lia; f_equal; lia).
  rewrite (wrap_small (2 * w)) by (split; nia). rewrite Z.shiftr_div_pow2 by lia.
  pose proof (pow2_pos w ltac:(lia)). apply wrap_small.
  split; [apply Z.div_pos; nia|apply Z.div_lt_upper_bound; nia].
Qed.

(** Rounding the multiplier m up by e / d is harmless while n * e < P. *)
Lemma round_up n d m e P :
  0 <= n -> 0 < d -> 0 < P -> m * d = P + e -> 0 <= e -> n * e < P -> n * m / P = n / d.
Proof.
  intros Hn Hd HP Hm He Hne. symmetry.
  pose proof (Z.div_mod n d ltac:(lia)) as Hdm. pose proof (Z.mod_pos_bound n d Hd) as Hb.
  set (q := n / d) in *. set (r := n mod d) in *.
  assert (Hlow : q * P <= n * m).
  { apply (Z.mul_le_mono_pos_r _ _ d Hd). replace (n * m * d) with (n * (m * d)) by lia.
    rewrite Hm. nia. }
  assert (Hhigh : n * m < (q + 1) * P).
  { apply (Z.mul_lt_mono_pos_r d _ _ Hd). replace (n * m * d) with (n * (m * d)) by lia.
    rewrite Hm. assert ((n + 1) * P <= (q + 1) * P * d) by nia. nia. }
  apply (Z.div_unique _ _ _ (n * m - q * P)); lia.
Qed.

Lemma div_pow2_div_pow2 x a b : 0 <= a -> 0 <= b -> x / 2 ^ a / 2 ^ b = x / 2 ^ (a + b).
Proof.
  intros. rewrite Z.pow_add_r by lia. pose proof (pow2_pos a ltac:(lia)). pose proof (pow2_pos b ltac:(lia)).
  apply Z.div_div; lia.
Qed.

(** The branch without the add marker. *)
Lemma do_raw_plain n d m k e :
  fits w n -> 0 < d -> 0 <= k < w -> fits w m -> m <> 0 ->
  m * d = 2 ^ (w + k) + e -> 0 <= e < 2 ^ k -> libdivide_do_raw w mask n m k = n / d.
Proof.
  intros Hn Hd Hk Hm Hm0 Hmd He. unfold libdivide_do_raw.
  rewrite (proj2 (Z.eqb_neq m 0)) by done.
  assert (Hb : (Z.land k LIBDIVIDE_ADD_MARKER =? 0) = true).
  { apply (forallb_seqZ (fun k => Z.land k LIBDIVIDE_ADD_MARKER =? 0) 0 64); [reflexivity|lia]. }
  rewrite Hb. cbn [negb]. rewrite mullhi_eq, Z.shiftr_div_pow2, div_pow2_div_pow2 by (done || lia).
  destruct Hn as [Hn0 Hn1]. pose proof (pow2_pos (w + k) ltac:(lia)).
  apply round_up with e; try lia. rewrite Z.pow_add_r by lia. nia.
Qed.

(** The branch with the add marker: the multiplier has w + 1 bits. *)
Lemma do_raw_add n d m k e :
  fits w n -> 0 < d -> 0 <= k < w -> fits w m -> m <> 0 ->
  (2 ^ w + m) * d = 2 ^ (w + k + 1) + e -> 0 <= e < 2 ^ (k + 1) ->
  libdivide_do_raw w mask n m (Z.lor k 64) = n / d.
Proof.
  intros Hn Hd Hk Hm Hm0 Hmd He. unfold libdivide_do_raw.
  rewrite (proj2 (Z.eqb_neq m 0)) by done.
  assert (Hb : negb (Z.land (Z.lor k 64) LIBDIVIDE_ADD_MARKER =? 0) = true).
  { apply (forallb_seqZ (fun k => negb (Z.land (Z.lor k 64) LIBDIVIDE_ADD_MARKER =? 0)) 0 64);
      [reflexivity|lia]. }
  rewrite Hb, Hmask, mullhi_eq by done. pose proof (pow2_pos w ltac:(lia)) as Hpw.
  destruct Hn as [Hn0 Hn1], Hm as [Hm1 Hm2].
  pose proof (Z.div_mod (n * m) (2 ^ w) ltac:(lia)) as Hdm.
  pose proof (Z.mod_pos_bound (n * m) (2 ^ w) ltac:(lia)).
  set (q := n * m / 2 ^ w) in *.
  assert (Hq : 0 <= q <= n).
  { split; [apply Z.div_pos; nia|]. apply Z.lt_succ_r, Z.div_lt_upper_bound; nia. }
  rewrite (wrap_small w (n - q)) by (split; lia). rewrite !Z.shiftr_div_pow2 by lia.
  change (2 ^ 1) with 2.
  assert (Ht : (n - q) / 2 + q = (n + q) / 2).
  { rewrite <- Z.div_add by lia. f_equal. lia. }
  assert (Hnq : n + q = n * (2 ^ w + m) / 2 ^ w).
  { unfold q. replace (n * (2 ^ w + m)) with (n * m + n * 2 ^ w) by lia.
    rewrite Z.div_add by lia. lia. }
  assert ((n + q) / 2 <= n) by (apply Z.div_le_upper_bound; lia).
  assert (Hfit : fits w ((n + q) / 2)).
  { clear -Hq Hn0 Hn1. assert (0 <= n + q < 2 * 2 ^ w) as [? ?] by lia.
    split; [by apply Z.div_pos|by apply Z.div_lt_upper_bound]. }
  rewrite Ht, wrap_small by done.
  rewrite Hnq. replace (n * (2 ^ w + m) / 2 ^ w / 2) with (n * (2 ^ w + m) / 2 ^ w / 2 ^ 1) by done.
  rewrite !div_pow2_div_pow2 by lia. replace (w + (1 + k)) with (w + k + 1) by lia.
  pose proof (pow2_pos (w + k + 1) ltac:(lia)).
  apply round_up with e; try done; try lia. replace (w + k + 1) with (w + (k + 1)) by lia.
  rewrite Z.pow_add_r by lia. nia.
Qed.

(** Powers of two, recognised by d & (d - 1). *)
Lemma land_pred_zero d : 0 < d -> Z.land d (d - 1) = 0 -> d = 2 ^ Z.log2 d.
Proof.
  intros Hd Hl. destruct (Z.log2_spec d Hd) as [Hlo Hhi].
  destruct (decide (d = 2 ^ Z.log2 d)) as [|Hne]; [done|]. exfalso.
  assert (Hb : Z.testbit (Z.land d (d - 1)) (Z.log2 d) = true).
  { rewrite Z.land_spec, Z.bit_log2 by done. cbn [andb].
    assert (E : Z.log2 (d - 1) = Z.log2 d) by (apply Z.log2_unique; [apply Z.log2_nonneg|lia]).
    rewrite <- E. apply Z.bit_log2. pose proof (Z.log2_nonneg d).
    pose proof (pow2_pos (Z.log2 d) ltac:(done)). lia. }
  by rewrite Hl, Z.bits_0 in Hb.
Qed.

(** Doubling the quotient and remainder, with the overflow test of the code. *)
Lemma twice_remainder P d m rem :
  0 < d < 2 ^ w -> P = m * d + rem -> 0 <= rem < d ->
  let twice := wrap w (rem + rem) in
  let c := if (twice >=? d) || (twice <? rem) then 1 else 0 in
  0 <= 2 * P - (2 * m + c) * d < d.
Proof.
  intros Hd HP Hr twice c. pose proof (pow2_pos w ltac:(lia)) as Hpw.
  assert (Hc : c = if 2 * rem >=? d then 1 else 0).
  { unfold c, twice. rewrite !Z.geb_leb. destruct (Z.lt_ge_cases (rem + rem) (2 ^ w)).
    - rewrite wrap_small by (split; lia). rewrite (proj2 (Z.ltb_ge _ _)), orb_false_r by lia.
      by replace (2 * rem) with (rem + rem) by lia.
    - unfold wrap. rewrite <- (Z_mod_plus_full _ (- 1)), Z.mod_small by lia.
      rewrite (proj2 (Z.ltb_lt _ _)), orb_true_r, (proj2 (Z.leb_le _ _)) by lia. done. }
  rewrite Hc, Z.geb_leb. destruct (Z.leb_spec d (2 * rem)); lia.
Qed.

Lemma pow2_lt_divisor d :
  0 < d < 2 ^ w -> d <> 2 ^ Z.log2 d ->
  0 <= Z.log2 d < w /\ 2 ^ Z.log2 d < d < 2 * 2 ^ Z.log2 d.
Proof.
  intros [H0 H1] Hne. destruct (Z.log2_spec d H0) as [Hlo Hhi]. pose proof (Z.log2_nonneg d).
  rewrite Z.pow_succ_r in Hhi by done. split; [|lia]. split; [done|]. by apply Z.log2_lt_pow2.
Qed.

Lemma more_byte k : 0 <= k < w -> u8 k = k /\ u8 (Z.lor k LIBDIVIDE_ADD_MARKER) = Z.lor k 64.
Proof.
  intros Hk. split; [apply wrap_small; split; lia|]. apply Z.eqb_eq.
  apply (forallb_seqZ (fun k => u8 (Z.lor k LIBDIVIDE_ADD_MARKER) =? Z.lor k 64) 0 64); [reflexivity|lia].
Qed.

Lemma gen_do d n :
  0 < d < 2 ^ w -> fits w n ->
  exists denom, libdivide_internal_gen w wide_div d = Some denom /\
    libdivide_do_raw w mask n (magic denom) (more denom) = n / d.
Proof.
  intros Hd Hn. unfold libdivide_internal_gen, count_leading_zeros.
  rewrite (proj2 (Z.eqb_neq d 0)) by lia. cbv zeta.
  replace (w - 1 - (w - 1 - Z.log2 d)) with (Z.log2 d) by lia. set (k := Z.log2 d).
  destruct (Z.eqb_spec (Z.land d (d - 1)) 0) as [Hp2|Hnp2].
  { apply land_pred_zero in Hp2; [|lia]. fold k in Hp2. assert (Hk0 : 0 <= k) by apply Z.log2_nonneg.
    assert (Hk : 0 <= k < w) by (split; [done|apply Z.log2_lt_pow2; lia]).
    destruct (more_byte k Hk) as [-> _]. eexists. split; [done|]. unfold libdivide_do_raw. cbn.
    rewrite Z.shiftr_div_pow2 by done. by rewrite <- Hp2. }
  destruct (decide (d = 2 ^ k)) as [Heq|Hne].
  { destruct Hnp2. rewrite Heq. rewrite land_low_ones by apply Z.log2_nonneg. apply Z_mod_same_full. }
  destruct (pow2_lt_divisor d Hd Hne) as [Hk Hkd]. fold k in Hk, Hkd.
  destruct (more_byte k Hk) as [Hm1 Hm2]. rewrite Hm1, Hm2.
  pose proof (pow2_pos k ltac:(lia)) as Hpk. pose proof (pow2_pos w ltac:(lia)) as Hpw.
  assert (Hkw : 2 * 2 ^ k <= 2 ^ w).
  { rewrite <- Z.pow_succ_r by lia. apply Z.pow_le_mono_r; lia. }
  rewrite Z.shiftl_mul_pow2, Z.mul_1_l, (wrap_small w (2 ^ k)) by (try split; lia).
  rewrite (Hwide (2 ^ k) 0 d) by (try split; lia). rewrite Z.add_0_r, <- Z.pow_add_r by lia.
  replace (k + w) with (w + k) by lia. assert (EP : 2 ^ (w + k) = 2 ^ w * 2 ^ k) by (apply Z.pow_add_r; lia).
  set (P := 2 ^ (w + k)) in *.
  pose proof (Z.div_mod P d ltac:(lia)) as Hdm. pose proof (Z.mod_pos_bound P d ltac:(lia)) as Hrb.
  assert (Hm0 : 0 <= P / d < 2 ^ w).
  { split; [apply Z.div_pos; lia|apply Z.div_lt_upper_bound; nia]. }
  set (m0 := P / d) in *. set (rem := P mod d) in *. rewrite (wrap_small w (d - rem)) by (split; lia).
  destruct (Z.ltb_spec (d - rem) (2 ^ k)) as [He|He].
  - assert (Hm : m0 + 1 < 2 ^ w) by nia.
    rewrite (wrap_small w (1 + m0)) by (split; lia). eexists. split; [done|]. cbn [magic more].
    apply do_raw_plain with (d - rem); try done; try (split; lia); try lia.
  - pose proof (twice_remainder P d m0 rem Hd ltac:(lia) Hrb) as Ht. cbv zeta in Ht.
    assert (Hmagic : forall c, c = 0 \/ c = 1 -> 0 <= 2 * P - (2 * m0 + c) * d < d ->
      exists m, wrap w (1 + wrap w (wrap w (m0 + m0) + c)) = m /\ fits w m /\ m <> 0 /\
        (2 ^ w + m) * d = 2 * P + (d - (2 * P - (2 * m0 + c) * d))).
    { intros c Hc Hb. exists (1 + 2 * m0 + c - 2 ^ w).
      assert (Hlo : 2 ^ w < 1 + 2 * m0 + c) by nia.
      assert (Hhi : 1 + 2 * m0 + c < 2 * 2 ^ w) by nia.
      split; [|split; [split; lia|split; lia]]. unfold wrap.
      rewrite Zplus_mod_idemp_r, (Z.add_comm _ c), Z.add_assoc, Zplus_mod_idemp_r.
      symmetry. apply (Z.mod_unique _ _ 1); lia. }
    destruct ((wrap w (rem + rem) >=? d) || (wrap w (rem + rem) <? rem)).
    + destruct (Hmagic 1 ltac:(lia) Ht) as (m & Em & Hm & Hmne & Hmd). rewrite Em.
      eexists. split; [done|]. cbn [magic more].
      apply do_raw_add with (d - (2 * P - (2 * m0 + 1) * d)); try done; [lia| |].
      { rewrite Hmd. replace (w + k + 1) with (Z.succ (w + k)) by lia.
        rewrite Z.pow_succ_r by lia. fold P. lia. }
      replace (k + 1) with (Z.succ k) by lia. rewrite Z.pow_succ_r by lia. lia.
    + destruct (Hmagic 0 ltac:(lia) Ht) as (m & Em & Hm & Hmne & Hmd). rewrite Z.add_0_r, wrap_idemp in Em.
      rewrite Em. eexists. split; [done|]. cbn [magic more].
      apply do_raw_add with (d - (2 * P - (2 * m0 + 0) * d)); try done; [lia| |].
      { rewrite Hmd. replace (w + k + 1) with (Z.succ (w + k)) by lia.
        rewrite Z.pow_succ_r by lia. fold P. lia. }
      replace (k + 1) with (Z.succ k) by lia. rewrite Z.pow_succ_r by lia. lia.
Qed.
End Magic.

Lemma shift_mask_32 k : 0 <= k < 32 -> Z.land (Z.lor k 64) LIBDIVIDE_32_SHIFT_MASK = k.
Proof.
  intros. apply Z.eqb_eq.
  apply (forallb_seqZ (fun k => Z.land (Z.lor k 64) LIBDIVIDE_32_SHIFT_MASK =? k) 0 32); [reflexivity|lia].
Qed.

Lemma shift_mask_64 k : 0 <= k < 64 -> Z.land (Z.lor k 64) LIBDIVIDE_64_SHIFT_MASK = k.
Proof.
  intros. apply Z.eqb_eq.
  apply (forallb_seqZ (fun k => Z.land (Z.lor k 64) LIBDIVIDE_64_SHIFT_MASK =? k) 0 64); [reflexivity|lia].
Qed.

(** [denom] divides by [d]: what the slab allocator stores and relies on. *)
Definition u32_divisor (d : Z) (denom : libdivide_t) : Prop :=
  libdivide_u32_gen d = Some denom /\ forall n, fits 32 n -> libdivide_u32_do n denom = n / d.
Definition u64_divisor (d : Z) (denom : libdivide_t) : Prop :=
  libdivide_u64_gen d = Some denom /\ forall n, fits 64 n -> libdivide_u64_do n denom = n / d.

Lemma u32_gen_ok d : 0 < d < 2 ^ 32 -> exists denom, u32_divisor d denom.
Proof.
  intros Hd. destruct (gen_do 32 31 libdivide_64_div_32_to_32 ltac:(lia) shift_mask_32 div_32_wide d 0 Hd)
    as (denom & Hgen & _); [by split|].
  exists denom. split; [done|]. intros n Hn.
  destruct (gen_do 32 31 libdivide_64_div_32_to_32 ltac:(lia) shift_mask_32 div_32_wide d n Hd Hn)
    as (denom' & Hgen' & Hdo). unfold libdivide_u32_do. by simplify_eq.
Qed.

Lemma u64_gen_ok d : 0 < d < 2 ^ 64 -> exists denom, u64_divisor d denom.
Proof.
  intros Hd. destruct (gen_do 64 63 libdivide_128_div_64_to_64 ltac:(lia) shift_mask_64 div_64_wide d 0 Hd)
    as (denom & Hgen & _); [by split|].
  exists denom. split; [done|]. intros n Hn.
  destruct (gen_do 64 63 libdivide_128_div_64_to_64 ltac:(lia) shift_mask_64 div_64_wide d n Hd Hn)
    as (denom' & Hgen' & Hdo). unfold libdivide_u64_do. by simplify_eq.
Qed.

(** ** Properties *)

(** For every non-zero 32-bit divisor the generated magic number divides
    every 32-bit numerator exactly, whichever of the three algorithms (shift,
    plain multiplier, 33-bit multiplier) the generator chose. *)
Theorem libdivide_u32_exact d n :
  0 < d < 2 ^ 32 -> fits 32 n ->
  exists denom, libdivide_u32_gen d = Some denom /\ libdivide_u32_do n denom = n / d.
Proof. intros Hd Hn. destruct (u32_gen_ok d Hd) as (denom & Hg & Hdo). eauto. Qed.

(** C40: for every non-zero 64-bit divisor the generated magic number divides
    every 64-bit numerator exactly. *)
Theorem libdivide_u64_exact d n :
  0 < d < 2 ^ 64 -> fits 64 n ->
  exists denom, libdivide_u64_gen d = Some denom /\ libdivide_u64_do n denom = n / d.
Proof. intros Hd Hn. destruct (u64_gen_ok d Hd) as (denom & Hg & Hdo). eauto. Qed.

(** The portable 128-by-64-bit division computes the quotient and the
    remainder of a two-word numerator whose quotient fits a word, although every
    intermediate value wraps at 64 bits and each quotient digit is first
    estimated from one word of the divisor. *)
Theorem libdivide_128_div_64_exact numhi numlo den :
  fits 64 numlo -> 0 <= numhi < den -> den < 2 ^ 64 ->
  libdivide_128_div_64_to_64 numhi numlo den =
    ((numhi * 2 ^ 64 + numlo) / den, (numhi * 2 ^ 64 + numlo) mod den).
Proof. apply div_64_wide. Qed.

(** ** Witnesses *)

Lemma libdivide_u32_exact_witness :
  exists denom, libdivide_u32_gen 7 = Some denom /\ magic denom = 613566757 /\
    libdivide_u32_do 4294967295 denom = 613566756.
Proof.
  destruct (libdivide_u32_exact 7 4294967295 ltac:(lia) ltac:(split; lia)) as (denom & Hg & Hdo).
  exists denom. split; [exact Hg|]. vm_compute in Hg. injection Hg as <-.
  split; [reflexivity|exact Hdo].
Defined.

Lemma libdivide_u64_exact_witness :
  exists denom, libdivide_u64_gen 20480 = Some denom /\ libdivide_u64_do 1000000007 denom = 48828.
Proof.
  destruct (libdivide_u64_exact 20480 1000000007 ltac:(lia) ltac:(split; lia)) as (denom & Hg & Hdo).
  exists denom. exact (conj Hg Hdo).
Defined.

Lemma libdivide_128_div_64_exact_witness :
  libdivide_128_div_64_to_64 5 7 (2 ^ 63 + 12345) = (9, 9223372036854664710).
Proof.
  rewrite (libdivide_128_div_64_exact 5 7 (2 ^ 63 + 12345)); [vm_compute; reflexivity|split; lia|lia|lia].
Defined.
