(* ===== verification/SizeClass.v ===== *)
(** Size classes (h_malloc.c, [size_classes] to [get_slab_size] and
    [get_large_size_class]): the tables, the closed formula that maps a request
    to its class, and the geometry of slabs and class regions. *)

From S2P Require Import Prelude Config Util.

Definition min_align : Z := 16.
Definition MIN_SLAB_SIZE_CLASS_SHIFT : Z := 4.

Record size_info := SizeInfo { si_size : Z; si_class : Z }.

Section SizeClasses.
Context `{Cfg : Config}.

Definition max_slab_size_class : Z := if CONFIG_EXTENDED_SIZE_CLASSES then 131072 else 16384.
Definition MAX_SLAB_SIZE_CLASS_SHIFT : Z := if CONFIG_EXTENDED_SIZE_CLASSES then 17 else 14.
Definition max_empty_slabs_total : Z :=
  if CONFIG_EXTENDED_SIZE_CLASSES then max_slab_size_class else max_slab_size_class * 4.

Definition size_classes : list Z :=
  [ (* 0 *) 0;
    (* 16 *) 16; 32; 48; 64; 80; 96; 112; 128;
    (* 32 *) 160; 192; 224; 256;
    (* 64 *) 320; 384; 448; 512;
    (* 128 *) 640; 768; 896; 1024;
    (* 256 *) 1280; 1536; 1792; 2048;
    (* 512 *) 2560; 3072; 3584; 4096;
    (* 1024 *) 5120; 6144; 7168; 8192;
    (* 2048 *) 10240; 12288; 14336; 16384 ] ++
  (if CONFIG_EXTENDED_SIZE_CLASSES then
   [ (* 4096 *) 20480; 24576; 28672; 32768;
     (* 8192 *) 40960; 49152; 57344; 65536;
     (* 16384 *) 81920; 98304; 114688; 131072 ]
   else []).

Definition size_class_slots : list Z :=
  [ (* 0 *) 256;
    (* 16 *) 256; 128; 85; 64; 51; 42; 36; 64;
    (* 32 *) 51; 64; 54; 64;
    (* 64 *) 64; 64; 64; 64;
    (* 128 *) 64; 64; 64; 64;
    (* 256 *) 16; 16; 16; 16;
    (* 512 *) 8; 8; 8; 8;
    (* 1024 *) 8; 8; 8; 8;
    (* 2048 *) 6; 5; 4; 4 ] ++
  (if CONFIG_EXTENDED_SIZE_CLASSES then
   [ (* 4096 *) 1; 1; 1; 1;
     (* 8192 *) 1; 1; 1; 1;
     (* 16384 *) 1; 1; 1; 1 ]
   else []).

Definition size_class_labels : list string :=
  [ (* 0 *) "malloc 0";
    (* 16 *) "malloc 16"; "malloc 32"; "malloc 48"; "malloc 64";
    (* 16 *) "malloc 80"; "malloc 96"; "malloc 112"; "malloc 128";
    (* 32 *) "malloc 160"; "malloc 192"; "malloc 224"; "malloc 256";
    (* 64 *) "malloc 320"; "malloc 384"; "malloc 448"; "malloc 512";
    (* 128 *) "malloc 640"; "malloc 768"; "malloc 896"; "malloc 1024";
    (* 256 *) "malloc 1280"; "malloc 1536"; "malloc 1792"; "malloc 2048";
    (* 512 *) "malloc 2560"; "malloc 3072"; "malloc 3584"; "malloc 4096";
    (* 1024 *) "malloc 5120"; "malloc 6144"; "malloc 7168"; "malloc 8192";
    (* 2048 *) "malloc 10240"; "malloc 12288"; "malloc 14336"; "malloc 16384" ] ++
  (if CONFIG_EXTENDED_SIZE_CLASSES then
   [ (* 4096 *) "malloc 20480"; "malloc 24576"; "malloc 28672"; "malloc 32768";
     (* 8192 *) "malloc 40960"; "malloc 49152"; "malloc 57344"; "malloc 65536";
     (* 16384 *) "malloc 81920"; "malloc 98304"; "malloc 114688"; "malloc 131072" ]
   else []).

Definition N_SIZE_CLASSES : Z := Z.of_nat (length size_classes).

(** size_classes[class] and size_class_slots[class] *)
Definition size_classes_at (class : Z) : Z := size_classes !!! Z.to_nat class.
Definition get_slots (class : Z) : Z := size_class_slots !!! Z.to_nat class.

(** The general case of [get_size_info]. *)
Definition spaced_size_info (size : Z) : size_info :=
  let initial_spacing_multiplier := 5 in
  let special_small_sizes := 5 in
  let spacing_class_shift := u64 (log2u64 (u64 (size - 1)) - 2) in
  let spacing_class := u64 (Z.shiftl 1 spacing_class_shift) in
  let real_size := align size spacing_class in
  let spacing_class_index :=
    u64 (Z.shiftr real_size spacing_class_shift - initial_spacing_multiplier) in
  let index :=
    u64 (u64 (u64 (spacing_class_shift - 4) * 4) + special_small_sizes + spacing_class_index) in
  SizeInfo real_size index.

Definition get_size_info (size : Z) : size_info :=
  if size =? 0 then SizeInfo 0 0
  else if size <=? 128 then
    SizeInfo (align size 16) (Z.shiftr (u64 (size - 1)) 4 + 1)
  else spaced_size_info size.

(** The loop of [get_size_info_align]; [n] is the number of classes left. *)
Fixpoint get_size_info_align_loop {S} (size alignment : Z) (n : nat) (class : Z) : M S size_info :=
  match n with
  | O => fatal_error "invalid size for slabs"
  | Datatypes.S n' =>
      let real_size := size_classes_at class in
      if (size <=? real_size) && (Z.land real_size (u64 (alignment - 1)) =? 0)
      then ret (SizeInfo real_size class)
      else get_size_info_align_loop size alignment n' (class + 1)
  end.

Definition get_size_info_align {S} (size alignment : Z) : M S size_info :=
  let start := u32 (si_class (get_size_info size)) in
  let start := if start =? 0 then 1 else start in
  get_size_info_align_loop size alignment (Z.to_nat (N_SIZE_CLASSES - start)) start.

Definition get_slab_size (slots size : Z) : Z := page_align (u64 (slots * size)).

(** Returns 0 on overflow. *)
Definition get_large_size_class (sz : Z) : Z :=
  if CONFIG_LARGE_SIZE_CLASSES
  then si_size (get_size_info (max sz PAGE_SIZE))
  else page_align sz.

Definition adjust_size_for_canary (size : Z) : Z :=
  if (0 <? size) && (size <=? max_slab_size_class) then u64 (size + canary_size) else size.

Definition CLASS_REGION_SIZE : Z := CONFIG_CLASS_REGION_SIZE.
Definition REAL_CLASS_REGION_SIZE : Z := CLASS_REGION_SIZE * 2.
Definition ARENA_SIZE : Z := REAL_CLASS_REGION_SIZE * N_SIZE_CLASSES.
Definition slab_region_size : Z := ARENA_SIZE * N_ARENA.
Definition MAX_METADATA_MAX : Z := CLASS_REGION_SIZE / PAGE_SIZE.
Definition get_metadata_max (slab_size : Z) : Z := CLASS_REGION_SIZE / slab_size.

End SizeClasses.

(** ** The closed formula *)

Section Formula.
Context `{Cfg : Config}.

(** A size above 64 lies in ((q-1) * 2^k, q * 2^k] for one spacing 2^k and one
    of its four multiples q = 5..8, and the formula returns that multiple and
    its position. *)
Lemma spaced_size_info_spec sz :
  64 < sz < 2 ^ 64 ->
  exists k q, 4 <= k <= 61 /\ 5 <= q <= 8 /\ (q - 1) * 2 ^ k < sz <= q * 2 ^ k /\
    si_size (spaced_size_info sz) = u64 (q * 2 ^ k) /\
    (q * 2 ^ k < 2 ^ 64 -> si_class (spaced_size_info sz) = (k - 4) * 4 + q).
Proof.
  intros Hsz.
  set (L := Z.log2 (sz - 1)).
  assert (HL : 2 ^ L <= sz - 1 < 2 ^ (L + 1)).
  { pose proof (Z.log2_spec (sz - 1)). unfold L. rewrite Z.add_1_r. lia. }
  assert (HL6 : 6 <= L < 64).
  { split; [apply Z.log2_le_pow2; lia|]. apply Z.log2_lt_pow2; lia. }
  set (k := L - 2).
  assert (Hp : 0 < 2 ^ k) by (apply pow2_pos; lia).
  assert (H4 : 2 ^ L = 4 * 2 ^ k).
  { replace L with (k + 2) by lia. rewrite Z.pow_add_r by lia. lia. }
  assert (H8 : 2 ^ (L + 1) = 8 * 2 ^ k) by (rewrite Z.pow_add_r by lia; lia).
  assert (Hmax : 8 * 2 ^ k <= 2 ^ 64).
  { rewrite <- H8. apply Z.pow_le_mono_r; lia. }
  set (q := (sz + (2 ^ k - 1)) / 2 ^ k).
  assert (Hq : (q - 1) * 2 ^ k < sz <= q * 2 ^ k).
  { pose proof (Z.div_mod (sz + (2 ^ k - 1)) (2 ^ k) ltac:(lia)) as E. fold q in E.
    pose proof (Z.mod_pos_bound (sz + (2 ^ k - 1)) (2 ^ k) Hp). lia. }
  assert (Hq58 : 5 <= q <= 8) by nia.
  exists k, q. split; [lia|]. split; [done|]. split; [done|].
  assert (Hshift : u64 (log2u64 (u64 (sz - 1)) - 2) = k).
  { rewrite (wrap_small 64 (sz - 1)) by (split; lia). rewrite log2u64_spec by lia.
    fold L. apply wrap_small. split; lia. }
  assert (Hsp : u64 (Z.shiftl 1 k) = 2 ^ k).
  { rewrite Z.shiftl_1_l. apply wrap_small. split; lia. }
  assert (Hal : align sz (2 ^ k) = u64 (q * 2 ^ k)).
  { rewrite align_pow2 by lia.
    destruct (Z.lt_ge_cases (sz + (2 ^ k - 1)) (2 ^ 64)) as [Hlt|Hge].
    - rewrite wrap_small by (split; lia). fold q. symmetry. apply wrap_small. split; nia.
    - assert (Hk61 : k = 61).
      { destruct (Z.le_gt_cases k 60) as [Hk|]; [|lia].
        pose proof (Z.pow_le_mono_r 2 k 60). lia. }
      assert (q = 8) as ->.
      { assert (2 ^ k = 2 ^ 61) as E by (by rewrite Hk61). rewrite E in *. nia. }
      rewrite Hk61 in *. unfold wrap.
      replace (sz + (2 ^ 61 - 1)) with (sz + (2 ^ 61 - 1) - 2 ^ 64 + 1 * 2 ^ 64) by lia.
      rewrite Z_mod_plus_full, Z.mod_small by lia.
      rewrite Z.div_small by lia. done. }
  unfold spaced_size_info. cbv zeta. rewrite Hshift, Hsp, Hal. cbn [si_size si_class].
  split; [done|]. intros Hfit. rewrite (wrap_small 64 (q * 2 ^ k)) by (split; lia).
  rewrite Z.shiftr_div_pow2, Z.div_mul by lia.
  rewrite (wrap_small 64 (q - 5)) by (split; lia).
  rewrite (wrap_small 64 (k - 4)), (wrap_small 64 ((k - 4) * 4)) by (split; lia).
  rewrite wrap_small by (split; lia). lia.
Qed.

(** Up to 128 the class is the number of 16-byte steps. *)
Lemma get_size_info_tiny sz :
  0 < sz <= 128 -> exists c, 1 <= c <= 8 /\ get_size_info sz = SizeInfo (16 * c) c /\
    16 * (c - 1) < sz <= 16 * c.
Proof.
  intros Hsz. unfold get_size_info.
  destruct (Z.eqb_spec sz 0); [lia|]. destruct (Z.leb_spec sz 128); [|lia].
  pose proof (align_spec sz 4 ltac:(lia) ltac:(lia) ltac:(lia)) as (_ & _ & Ha).
  change (2 ^ 4) with 16 in Ha.
  rewrite (wrap_small 64 (sz - 1)), Z.shiftr_div_pow2 by (try split; lia). change (2 ^ 4) with 16.
  exists ((sz - 1) / 16 + 1).
  assert (Hd : (sz + (16 - 1)) / 16 = (sz - 1) / 16 + 1).
  { replace (sz + (16 - 1)) with (sz - 1 + 1 * 16) by lia. apply Z.div_add. lia. }
  pose proof (Z.div_mod (sz - 1) 16). pose proof (Z.mod_pos_bound (sz - 1) 16).
  split; [lia|]. split; [|lia]. f_equal. rewrite Ha, Hd. lia.
Qed.
End Formula.

(** ** The tables *)

Section Tables.
Context `{Cfg : Config}.

Lemma N_SIZE_CLASSES_eq : N_SIZE_CLASSES = if CONFIG_EXTENDED_SIZE_CLASSES then 49 else 37.
Proof. unfold N_SIZE_CLASSES, size_classes. by destruct CONFIG_EXTENDED_SIZE_CLASSES. Qed.

Lemma size_classes_at_spaced k q :
  4 <= k -> 5 <= q <= 8 -> (q - 1) * 2 ^ k < max_slab_size_class ->
  (k - 4) * 4 + q < N_SIZE_CLASSES /\
  size_classes_at ((k - 4) * 4 + q) = q * 2 ^ k /\
  size_classes_at ((k - 4) * 4 + q - 1) = (q - 1) * 2 ^ k.
Proof.
  intros Hk Hq Hlt.
  assert (Hk14 : k <= 14).
  { apply Z.nlt_ge. intros ?. pose proof (Z.pow_le_mono_r 2 15 k).
    unfold max_slab_size_class in Hlt. destruct CONFIG_EXTENDED_SIZE_CLASSES; nia. }
  assert (Hall : forallb (fun k => forallb (fun q =>
      implb ((q - 1) * 2 ^ k <? max_slab_size_class)
        (((k - 4) * 4 + q <? N_SIZE_CLASSES) &&
         (size_classes_at ((k - 4) * 4 + q) =? q * 2 ^ k) &&
         (size_classes_at ((k - 4) * 4 + q - 1) =? (q - 1) * 2 ^ k))) (seqZ 5 4)) (seqZ 4 11) = true).
  { unfold N_SIZE_CLASSES, size_classes_at, size_classes, max_slab_size_class.
    by destruct CONFIG_EXTENDED_SIZE_CLASSES; vm_compute. }
  pose proof (forallb_seqZ _ _ _ Hall k ltac:(lia)) as H1.
  pose proof (forallb_seqZ _ _ _ H1 q ltac:(lia)) as H2. cbv beta in H2.
  apply Z.ltb_lt in Hlt. rewrite Hlt in H2. cbn [implb] in H2.
  rewrite !andb_true_iff, Z.ltb_lt, !Z.eqb_eq in H2. destruct H2 as [[? ?] ?]. done.
Qed.

Lemma size_classes_at_tiny c : 0 <= c <= 8 -> size_classes_at c = 16 * c.
Proof.
  intros Hc. apply Z.eqb_eq.
  apply (forallb_seqZ (fun c => size_classes_at c =? 16 * c) 0 9); [|lia].
  unfold size_classes_at, size_classes. by destruct CONFIG_EXTENDED_SIZE_CLASSES; vm_compute.
Qed.

Lemma size_classes_at_step c :
  0 <= c < N_SIZE_CLASSES - 1 -> size_classes_at c < size_classes_at (c + 1).
Proof.
  intros Hc. apply Z.ltb_lt.
  apply (forallb_seqZ (fun c => size_classes_at c <? size_classes_at (c + 1)) 0 (N_SIZE_CLASSES - 1));
    [|lia].
  unfold N_SIZE_CLASSES, size_classes_at, size_classes.
  by destruct CONFIG_EXTENDED_SIZE_CLASSES; vm_compute.
Qed.

(** The table is strictly increasing. *)
Lemma size_classes_at_mono c d :
  0 <= c < d -> d < N_SIZE_CLASSES -> size_classes_at c < size_classes_at d.
Proof.
  intros Hc Hd. replace d with (c + 1 + Z.of_nat (Z.to_nat (d - c - 1))) in * by lia.
  induction (Z.to_nat (d - c - 1)) as [|n IH].
  - rewrite Z.add_0_r. apply size_classes_at_step. lia.
  - etrans; [apply IH; lia|].
    replace (c + 1 + Z.of_nat (S n)) with (c + 1 + Z.of_nat n + 1) by lia.
    apply size_classes_at_step. lia.
Qed.

Lemma size_classes_at_last : size_classes_at (N_SIZE_CLASSES - 1) = max_slab_size_class.
Proof.
  unfold N_SIZE_CLASSES, size_classes_at, size_classes, max_slab_size_class.
  by destruct CONFIG_EXTENDED_SIZE_CLASSES; vm_compute.
Qed.

Lemma size_classes_at_le c : 0 <= c < N_SIZE_CLASSES -> size_classes_at c <= max_slab_size_class.
Proof.
  intros Hc. rewrite <- size_classes_at_last. destruct (decide (c = N_SIZE_CLASSES - 1)) as [->|]; [lia|].
  apply Z.lt_le_incl, size_classes_at_mono; lia.
Qed.

Lemma max_slab_size_class_bounds : 16384 <= max_slab_size_class <= 131072.
Proof. unfold max_slab_size_class. destruct CONFIG_EXTENDED_SIZE_CLASSES; lia. Qed.

(** The class found is in the table, holds the request, and its predecessor
    does not. *)
Lemma get_size_info_class sz :
  0 < sz <= max_slab_size_class ->
  1 <= si_class (get_size_info sz) < N_SIZE_CLASSES /\
  size_classes_at (si_class (get_size_info sz)) = si_size (get_size_info sz) /\
  size_classes_at (si_class (get_size_info sz) - 1) < sz <= si_size (get_size_info sz).
Proof.
  intros Hsz. pose proof max_slab_size_class_bounds as Hmax.
  destruct (Z.le_gt_cases sz 128) as [Hle|Hgt].
  - destruct (get_size_info_tiny sz ltac:(lia)) as (c & Hc & -> & Hr). cbn [si_size si_class].
    rewrite !size_classes_at_tiny by lia.
    rewrite N_SIZE_CLASSES_eq. destruct CONFIG_EXTENDED_SIZE_CLASSES; lia.
  - destruct (spaced_size_info_spec sz ltac:(lia)) as (k & q & Hk & Hq & Hr & Hs & Hc).
    unfold get_size_info.
    destruct (Z.eqb_spec sz 0); [lia|]. destruct (Z.leb_spec sz 128); [lia|].
    destruct (size_classes_at_spaced k q ltac:(lia) Hq ltac:(lia)) as (HN & Ht & Ht').
    assert (2 ^ k <= 2 ^ 61) by (apply Z.pow_le_mono_r; lia).
    assert (Hfit : q * 2 ^ k < 2 ^ 64).
    { assert (2 ^ k < 2 ^ 60); [|nia]. apply Z.pow_lt_mono_r; [lia|lia|].
      apply Z.nle_gt. intros ?. pose proof (Z.pow_le_mono_r 2 60 k). nia. }
    rewrite Hs, (Hc Hfit), wrap_small by (pose proof (pow2_pos k); split; nia).
    rewrite Ht, Ht'. lia.
Qed.

(** *** Large size classes *)

Lemma get_large_size_class_spaced sz :
  CONFIG_LARGE_SIZE_CLASSES = true -> 128 < sz < 2 ^ 64 -> PAGE_SIZE <= sz ->
  get_large_size_class sz = si_size (spaced_size_info sz).
Proof.
  intros HL Hsz Hp. unfold get_large_size_class. rewrite HL, max_spec, Z.max_l by lia.
  unfold get_size_info. destruct (Z.eqb_spec sz 0); [lia|]. by destruct (Z.leb_spec sz 128); [lia|].
Qed.

Lemma get_large_size_class_spec sz :
  2 ^ 14 < sz < 2 ^ 64 ->
  (sz <= (if CONFIG_LARGE_SIZE_CLASSES then 7 * 2 ^ 61 else 2 ^ 64 - PAGE_SIZE) ->
   sz <= get_large_size_class sz < 2 ^ 64 /\ (PAGE_SIZE | get_large_size_class sz) /\
   5 * (get_large_size_class sz - sz) < get_large_size_class sz) /\
  ((if CONFIG_LARGE_SIZE_CLASSES then 7 * 2 ^ 61 else 2 ^ 64 - PAGE_SIZE) < sz ->
   get_large_size_class sz = 0).
Proof.
  rewrite PAGE_SIZE_eq. intros Hsz. destruct CONFIG_LARGE_SIZE_CLASSES eqn:HL.
  - rewrite get_large_size_class_spaced by (rewrite ?PAGE_SIZE_eq; done || lia).
    destruct (spaced_size_info_spec sz ltac:(lia)) as (k & q & Hk & Hq & Hr & -> & _).
    assert (Hk12 : 12 <= k).
    { apply Z.nlt_ge. intros ?. pose proof (Z.pow_le_mono_r 2 k 11). nia. }
    assert (Hdiv : (4096 | 2 ^ k)).
    { exists (2 ^ (k - 12)). change 4096 with (2 ^ 12). rewrite <- Z.pow_add_r by lia. f_equal. lia. }
    pose proof (pow2_pos k ltac:(lia)) as Hp.
    assert (Hk61 : k <= 60 \/ k = 61) by lia. split.
    + intros Hle. assert (q * 2 ^ k < 2 ^ 64) as Hfit.
      { destruct Hk61 as [?| ->]; [|nia].
        pose proof (Z.pow_le_mono_r 2 k 60). nia. }
      rewrite wrap_small by (split; nia).
      split; [lia|]. split; [by apply Z.divide_mul_r|]. nia.
    + intros Hgt. destruct Hk61 as [?| ->].
      * pose proof (Z.pow_le_mono_r 2 k 60). nia.
      * assert (q = 8) as -> by nia. done.
  - unfold get_large_size_class. rewrite HL. unfold page_align. rewrite PAGE_SIZE_eq. split.
    + intros Hle. destruct (align_spec sz 12 ltac:(lia) ltac:(lia) ltac:(lia)) as ((? & ?) & Hd & E).
      change (2 ^ 12) with 4096 in *. rewrite E in *.
      pose proof (Z.div_le_mono (sz + 4095) (2 ^ 64 - 1) 4096 ltac:(lia) ltac:(lia)) as Hm.
      change ((2 ^ 64 - 1) / 4096) with 4503599627370495 in Hm.
      split; [lia|]. split; [done|]. lia.
    + intros Hgt. change 4096 with (2 ^ 12). rewrite align_pow2 by lia. unfold wrap.
      replace (sz + (2 ^ 12 - 1)) with (sz + 4095 - 2 ^ 64 + 1 * 2 ^ 64) by lia.
      rewrite Z_mod_plus_full, Z.mod_small by lia. by rewrite Z.div_small by lia.
Qed.

(** *** The aligned search *)

Lemma get_size_info_align_loop_spec {S} sz j n c (s : S) :
  0 <= j <= 12 -> 1 <= c -> c + Z.of_nat n = N_SIZE_CLASSES -> (0 < n)%nat ->
  sz <= max_slab_size_class ->
  exists d, c <= d < N_SIZE_CLASSES /\
    get_size_info_align_loop sz (2 ^ j) n c s = Ret (SizeInfo (size_classes_at d) d) s /\
    sz <= size_classes_at d /\ (2 ^ j | size_classes_at d) /\
    (forall d', c <= d' < d -> size_classes_at d' < sz \/ ~ (2 ^ j | size_classes_at d')).
Proof.
  intros Hj Hc HcN Hn Hsz. revert c Hc HcN. induction n as [|n IH]; [lia|]. intros c Hc HcN.
  cbn [get_size_info_align_loop].
  assert (Hp : 0 < 2 ^ j <= 2 ^ 12) by (split; [apply pow2_pos; lia|apply Z.pow_le_mono_r; lia]).
  rewrite (wrap_small 64 (2 ^ j - 1)), land_low_ones by (try split; lia).
  destruct (Z.leb_spec sz (size_classes_at c)) as [Hle|Hgt];
    [destruct (Z.eqb_spec (size_classes_at c mod 2 ^ j) 0) as [E|E]|]; cbn [andb].
  - exists c. apply Z.mod_divide in E; [|lia]. split; [lia|]. split; [done|].
    split; [done|]. split; [done|]. lia.
  - assert (n <> O) as Hn'.
    { intros ->. apply E. replace c with (N_SIZE_CLASSES - 1) by lia.
      rewrite size_classes_at_last. apply Z.mod_divide; [lia|].
      trans (2 ^ 12); [exists (2 ^ (12 - j)); rewrite <- Z.pow_add_r by lia; f_equal; lia|].
      unfold max_slab_size_class. destruct CONFIG_EXTENDED_SIZE_CLASSES; [by exists 32|by exists 4]. }
    destruct (IH ltac:(lia) (c + 1) ltac:(lia) ltac:(lia)) as (d & Hd & Hrun & H1 & H2 & H3).
    exists d. split; [lia|]. do 3 (split; [done|]). intros d' Hd'.
    destruct (decide (d' = c)) as [->|]; [|by apply H3; lia].
    right. intros Hdiv. apply E, Z.mod_divide; [lia|done].
  - assert (n <> O) as Hn'.
    { intros ->. replace c with (N_SIZE_CLASSES - 1) in Hgt by lia.
      rewrite size_classes_at_last in Hgt. lia. }
    destruct (IH ltac:(lia) (c + 1) ltac:(lia) ltac:(lia)) as (d & Hd & Hrun & H1 & H2 & H3).
    exists d. split; [lia|]. do 3 (split; [done|]). intros d' Hd'.
    destruct (decide (d' = c)) as [->|]; [by left|by apply H3; lia].
Qed.

(** *** Slab geometry *)

(** The slot size stored in [c->size]: class 0 uses 16-byte slots. *)
Definition slot_size (class : Z) : Z :=
  if size_classes_at class =? 0 then 16 else size_classes_at class.

Definition slab_geometry_ok (c : Z) : bool :=
  let sl := get_slots c in
  let sz := slot_size c in
  let ss := get_slab_size sl sz in
  in_range 1 sl 256 && in_range 16 sz max_slab_size_class && (sz mod 16 =? 0) &&
  (sl * sz <=? ss) && (ss - sl * sz <? PAGE_SIZE) && (64 * (ss - sl * sz) <=? ss) &&
  (ss mod PAGE_SIZE =? 0) && in_range PAGE_SIZE ss 131072 &&
  (ss / sz * sz <=? ss) && (ss / sz <=? 256).

Lemma slab_geometry_check c : 0 <= c < N_SIZE_CLASSES -> slab_geometry_ok c = true.
Proof.
  intros Hc. apply (forallb_seqZ slab_geometry_ok 0 N_SIZE_CLASSES); [|lia].
  unfold slab_geometry_ok, slot_size, get_slots, size_class_slots,
    N_SIZE_CLASSES, size_classes_at, size_classes, max_slab_size_class.
  by destruct CONFIG_EXTENDED_SIZE_CLASSES; vm_compute.
Qed.

(** ** Properties *)

(** C35: [get_size_info] maps every small request to the least size class that
    holds it, and the size it returns is the table's entry at the class. *)
Theorem get_size_info_least sz :
  0 < sz <= max_slab_size_class ->
  let info := get_size_info sz in
  1 <= si_class info < N_SIZE_CLASSES /\
  size_classes_at (si_class info) = si_size info /\
  sz <= si_size info /\
  (forall c, 0 <= c < si_class info -> size_classes_at c < sz).
Proof.
  intros Hsz info. destruct (get_size_info_class sz Hsz) as (Hc & Ht & Hlo & Hhi).
  split; [done|]. split; [done|]. split; [done|]. intros c Hclt. fold info in Hc, Hlo.
  destruct (decide (c = si_class info - 1)) as [->|]; [done|].
  etrans; [apply (size_classes_at_mono c (si_class info - 1)); lia|done].
Qed.

(** Raising the 16-byte special case of [get_size_info] from 64 to 128 is
    only an optimization: on (64, 128] it agrees with the general formula. *)
Theorem get_size_info_128_optimization sz :
  64 < sz <= 128 -> get_size_info sz = spaced_size_info sz.
Proof.
  intros Hsz.
  destruct (get_size_info_tiny sz ltac:(lia)) as (c & Hc & -> & Hr).
  destruct (spaced_size_info_spec sz ltac:(lia)) as (k & q & Hk & Hq & Hr' & Hs & Hcl).
  assert (k = 4) as ->.
  { destruct (Z.le_gt_cases k 4); [lia|]. pose proof (Z.pow_le_mono_r 2 5 k). nia. }
  change (2 ^ 4) with 16 in *. specialize (Hcl ltac:(lia)).
  destruct (spaced_size_info sz) as [s cl]. cbn [si_size si_class] in *.
  assert (q = c) as -> by lia. subst cl. rewrite Hs, wrap_small by (split; lia).
  f_equal; lia.
Qed.

(** The loop starts at the class of the size. *)
Lemma get_size_info_align_run {S} sz j (s : S) :
  0 <= sz <= max_slab_size_class -> 0 <= j <= PAGE_SHIFT ->
  exists c, Z.max 1 (si_class (get_size_info sz)) <= c < N_SIZE_CLASSES /\
    get_size_info_align sz (2 ^ j) s = Ret (SizeInfo (size_classes_at c) c) s /\
    sz <= size_classes_at c /\ (2 ^ j | size_classes_at c) /\
    (forall d, Z.max 1 (si_class (get_size_info sz)) <= d < c -> size_classes_at d < sz \/ ~ (2 ^ j | size_classes_at d)).
Proof.
  unfold PAGE_SHIFT. intros Hsz Hj. unfold get_size_info_align. cbv zeta. pose proof N_SIZE_CLASSES_eq as HN.
  assert (37 <= N_SIZE_CLASSES <= 49) by (destruct CONFIG_EXTENDED_SIZE_CLASSES; lia).
  assert (Hc : 0 <= si_class (get_size_info sz) < N_SIZE_CLASSES).
  { destruct (decide (sz = 0)) as [->|]; [change (si_class (get_size_info 0)) with 0; lia|].
    destruct (get_size_info_class sz ltac:(lia)) as (Hc & _). lia. }
  rewrite wrap_small by (split; lia). set (cl := si_class (get_size_info sz)) in *.
  replace (if cl =? 0 then 1 else cl) with (Z.max 1 cl) by (destruct (Z.eqb_spec cl 0); lia).
  apply get_size_info_align_loop_spec; lia.
Qed.

(** [get_size_info_align] never reaches its fatal error for a small size
    and a power-of-2 alignment up to the page size, and returns the least
    non-zero class that holds the size and whose slots have that alignment. *)
Theorem get_size_info_align_least {S} sz j (s : S) :
  0 <= sz <= max_slab_size_class -> 0 <= j <= PAGE_SHIFT ->
  exists c, 1 <= c < N_SIZE_CLASSES /\
    get_size_info_align sz (2 ^ j) s = Ret (SizeInfo (size_classes_at c) c) s /\
    sz <= size_classes_at c /\ (2 ^ j | size_classes_at c) /\
    (forall d, 1 <= d < c -> size_classes_at d < sz \/ ~ (2 ^ j | size_classes_at d)).
Proof.
  intros Hsz Hj. destruct (get_size_info_align_run sz j s Hsz Hj) as (c & Hc & Hrun & H1 & H2 & H3).
  exists c. split; [lia|]. do 3 (split; [done|]). intros d Hd. set (cl := si_class (get_size_info sz)) in *.
  destruct (Z.lt_ge_cases d cl) as [Hlt|]; [|apply H3; lia]. left. assert (Hne : sz <> 0) by (intros ->; cbn in cl; lia).
  destruct (get_size_info_class sz ltac:(lia)) as (_ & _ & Hlo & _). fold cl in Hlo.
  destruct (decide (d = cl - 1)) as [->|]; [lia|]. pose proof (size_classes_at_mono d (cl - 1)). lia.
Qed.

(** For a request beyond the slab classes [get_large_size_class] returns a
    page-multiple size that holds it and wastes less than 20%, or 0 exactly
    when no such size is representable. *)
Theorem get_large_size_class_bounds sz :
  2 ^ 14 < sz < 2 ^ 64 ->
  let r := get_large_size_class sz in
  (r = 0 <-> (if CONFIG_LARGE_SIZE_CLASSES then 7 * 2 ^ 61 else 2 ^ 64 - PAGE_SIZE) < sz) /\
  (r <> 0 -> sz <= r < 2 ^ 64 /\ (PAGE_SIZE | r) /\ 5 * (r - sz) < r).
Proof.
  intros Hsz r. destruct (get_large_size_class_spec sz Hsz) as [H1 H2]. fold r in H1, H2.
  set (lim := if CONFIG_LARGE_SIZE_CLASSES then _ else _) in *.
  destruct (Z.lt_ge_cases lim sz) as [Hlt|Hge].
  - specialize (H2 Hlt). by rewrite H2.
  - specialize (H1 Hge). split; [|done]. split; lia.
Qed.

Lemma slab_geometry_spec `{!ConfigOk Cfg} c :
  0 <= c < N_SIZE_CLASSES ->
  let slots := get_slots c in
  let sz := slot_size c in
  let slab := get_slab_size slots sz in
  1 <= slots <= 256 /\ (16 | sz) /\ 16 <= sz <= max_slab_size_class /\
  slots * sz <= slab <= 131072 /\ slab - slots * sz < PAGE_SIZE /\
  64 * (slab - slots * sz) <= slab /\ (PAGE_SIZE | slab) /\
  1 <= get_metadata_max slab <= MAX_METADATA_MAX /\
  get_metadata_max slab * slab <= CLASS_REGION_SIZE /\
  slab_region_size < 2 ^ 64.
Proof.
  intros Hc slots sz slab. pose proof (slab_geometry_check c Hc) as H.
  unfold slab_geometry_ok, in_range in H. cbv zeta in H. fold sz slots in H. fold slab in H.
  rewrite PAGE_SIZE_eq in H.
  rewrite !andb_true_iff, !Z.leb_le, Z.ltb_lt, !Z.eqb_eq in H. destruct_and! H.
  destruct config_facts. pose proof N_SIZE_CLASSES_eq as HN.
  assert (N_SIZE_CLASSES <= 49) by (destruct CONFIG_EXTENDED_SIZE_CLASSES; lia).
  unfold get_metadata_max, MAX_METADATA_MAX, slab_region_size, ARENA_SIZE,
    REAL_CLASS_REGION_SIZE, CLASS_REGION_SIZE in *. rewrite !PAGE_SIZE_eq.
  split; [lia|]. split; [apply Z.mod_divide; lia|]. split; [lia|]. split; [lia|].
  split; [lia|]. split; [lia|]. split; [apply Z.mod_divide; lia|].
  assert (Hregion : CONFIG_CLASS_REGION_SIZE * 2 * N_SIZE_CLASSES * N_ARENA < 2 ^ 64).
  { rewrite <- Z.mul_assoc. apply Z.le_lt_trans with (2199023255552 * (49 * 256)); [|lia].
    apply Z.mul_le_mono_nonneg; [lia|lia|nia|]. apply Z.mul_le_mono_nonneg; lia. }
  split; [|split; [|done]].
  - split; [apply Z.div_le_lower_bound; lia|]. apply Z.div_le_compat_l; lia.
  - rewrite Z.mul_comm. apply Z.mul_div_le. lia.
Qed.

(** Every slab class has between 1 and 256 slots, a slot size that is a
    multiple of 16, and a slab of whole pages, at most 128 KiB, that holds its
    slots and wastes under one page and at most 1/64 of its size; the whole
    slab region fits the address space. *)
Theorem slab_geometry `{!ConfigOk Cfg} c :
  0 <= c < N_SIZE_CLASSES ->
  let slots := get_slots c in
  let sz := slot_size c in
  let slab := get_slab_size slots sz in
  1 <= slots <= 256 /\ (16 | sz) /\ 16 <= sz <= max_slab_size_class /\
  slots * sz <= slab <= 131072 /\ slab - slots * sz < PAGE_SIZE /\
  64 * (slab - slots * sz) <= slab /\ (PAGE_SIZE | slab) /\
  1 <= get_metadata_max slab <= MAX_METADATA_MAX /\
  get_metadata_max slab * slab <= CLASS_REGION_SIZE /\
  slab_region_size < 2 ^ 64.
Proof. apply slab_geometry_spec. Qed.

(** Adding the canary to a small request never moves it past the request's
    own usable size: the class chosen leaves at least the requested bytes
    before the canary, or the request leaves the slab classes. *)
Theorem canary_leaves_request sz :
  0 < sz < 2 ^ 64 ->
  let adj := adjust_size_for_canary sz in
  fits 64 adj /\
  (adj <= max_slab_size_class -> sz <= si_size (get_size_info adj) - canary_size) /\
  (max_slab_size_class < adj -> sz <= adj).
Proof.
  intros Hsz adj. pose proof max_slab_size_class_bounds.
  assert (Hcan : canary_size = 0 \/ canary_size = 8).
  { unfold canary_size. destruct SLAB_CANARY; lia. }
  assert (Hadj : sz <= adj /\ adj < 2 ^ 64 /\
            (adj <= max_slab_size_class -> adj = sz + canary_size)).
  { unfold adj, adjust_size_for_canary. destruct (Z.ltb_spec 0 sz); [|lia].
    destruct (Z.leb_spec sz max_slab_size_class); cbn [andb].
    - rewrite wrap_small by (split; lia). lia.
    - lia. }
  destruct Hadj as (H1 & H2 & H3). split; [split; lia|]. split; [|done]. intros Hle.
  specialize (H3 Hle). destruct (get_size_info_class adj ltac:(lia)) as (_ & _ & Hb). lia.
Qed.

End Tables.

(** ** Witnesses *)

Section Witnesses.
#[local] Existing Instance default_config.

Lemma get_size_info_least_witness :
  let info := get_size_info 1000 in si_class info = 20 /\ si_size info = 1024 /\
  (forall c, 0 <= c < si_class info -> size_classes_at c < 1000).
Proof.
  split; [reflexivity|]. split; [reflexivity|].
  apply (get_size_info_least 1000). unfold max_slab_size_class. simpl. lia.
Defined.

Lemma get_size_info_128_optimization_witness : get_size_info 100 = spaced_size_info 100.
Proof. apply (get_size_info_128_optimization 100). lia. Defined.

Lemma get_size_info_align_least_witness :
  exists c, get_size_info_align 100 (2 ^ 8) tt = Ret (SizeInfo (size_classes_at c) c) tt /\
    100 <= size_classes_at c.
Proof.
  destruct (get_size_info_align_least 100 8 tt) as (c & _ & H1 & H2 & _);
    [unfold max_slab_size_class; simpl; lia|unfold PAGE_SHIFT; lia|by exists c].
Defined.

Lemma get_large_size_class_bounds_witness :
  let r := get_large_size_class 200000 in r = 229376 /\ 5 * (r - 200000) < r.
Proof.
  split; [vm_compute; reflexivity|].
  apply (get_large_size_class_bounds 200000); [lia|vm_compute; discriminate].
Defined.

Lemma slab_geometry_witness : get_slots 3 * slot_size 3 <= get_slab_size (get_slots 3) (slot_size 3).
Proof. apply (slab_geometry 3). rewrite N_SIZE_CLASSES_eq. simpl. lia. Defined.

Lemma canary_leaves_request_witness :
  100 <= si_size (get_size_info (adjust_size_for_canary 100)) - canary_size.
Proof.
  apply (canary_leaves_request 100); [lia|]. vm_compute. discriminate.
Defined.
End Witnesses.
