(* ===== verification/Kernel.v ===== *)
(** The operating system under the allocator, and memory.c on top of it.

    The kernel is not part of this repository, so its state and its system
    calls are the parameters [kstate], [sys_*] of the class [Kernel]; the
    documented behaviour the allocator relies on is the class [KernelOk]. User
    memory is a zero-initialised byte array [mem] that the C code reads and
    writes directly and that a system call may change. *)

From S2P Require Import Prelude Config Util.

(** errno values *)
Definition EINTR : Z := 4.
Definition ENOMEM : Z := 12.
Definition EINVAL : Z := 22.

Definition PROT_NONE : Z := 0.
Definition PROT_READ : Z := 1.
Definition PROT_WRITE : Z := 2.

(** The result of a system call: a value, or -1 with an error number. *)
Inductive sysret (A : Type) : Type :=
| SysOk (a : A)
| SysErr (e : Z).
Arguments SysOk {A} a.
Arguments SysErr {A} e.

Class Kernel : Type := {
  kstate : Type;
  (** the addresses of the process's mappings (for specifications only) *)
  mapped : kstate -> Z -> Prop;
  (** getrandom(buf, size, 0): the bytes written at the start of buf *)
  sys_getrandom : Z -> kstate -> sysret (list Z) * kstate;
  (** mmap with MAP_ANONYMOUS|MAP_PRIVATE; a fixed address or NULL *)
  sys_mmap : option Z -> Z -> Z -> kstate * gmap Z Z -> sysret Z * (kstate * gmap Z Z);
  sys_munmap : Z -> Z -> kstate * gmap Z Z -> sysret unit * (kstate * gmap Z Z);
  sys_mprotect : Z -> Z -> Z -> kstate -> sysret unit * kstate;
  (** mremap(old, old_size, new_size, 0): in place *)
  sys_mremap : Z -> Z -> Z -> kstate * gmap Z Z -> sysret unit * (kstate * gmap Z Z);
  (** mremap(old, old_size, new_size, MREMAP_MAYMOVE|MREMAP_FIXED, new) *)
  sys_mremap_fixed : Z -> Z -> Z -> Z -> kstate * gmap Z Z -> sysret unit * (kstate * gmap Z Z);
  (** madvise(ptr, size, MADV_DONTNEED) *)
  sys_madvise_dontneed : Z -> Z -> kstate * gmap Z Z -> sysret unit * (kstate * gmap Z Z);
  (** prctl(PR_SET_VMA, PR_SET_VMA_ANON_NAME, ...), whose error is errno *)
  sys_set_vma_name : Z -> Z -> string -> kstate -> sysret unit * kstate
}.

(** The machine as a C function of the allocator sees it. *)
Record world `{Kernel} := World { kern : kstate; mem : gmap Z Z; errno : Z }.

Section Memory.
Context `{Cfg : Config} `{K : Kernel}.

Definition set_errno (e : Z) : M world unit := modify (fun w => World _ (kern w) (mem w) e).
Definition set_mem (m : gmap Z Z) : M world unit := modify (fun w => World _ (kern w) m (errno w)).

(** A system call that may change memory, with errno set on failure. *)
Definition syscall {A} (call : kstate * gmap Z Z -> sysret A * (kstate * gmap Z Z)) :
  M world (option A) :=
  fun w => match call (kern w, mem w) with
           | (SysOk a, (k, m)) => Ret (Some a) (World _ k m (errno w))
           | (SysErr e, (k, m)) => Ret None (World _ k m e)
           end.

(** A system call that leaves the contents of memory alone. *)
Definition ksyscall {A} (call : kstate -> sysret A * kstate) : M world (option A) :=
  syscall (fun km => let r := call (fst km) in (fst r, (snd r, snd km))).

(** [if (unlikely(failed) && errno != ENOMEM) fatal_error(msg);] *)
Definition fatal_unless_enomem (failed : bool) (msg : string) : M world unit :=
  let* e := gets errno in
  if failed && negb (e =? ENOMEM) then fatal_error msg else ret tt.

Definition memory_map_prot (size prot : Z) : M world Z :=
  let* p := syscall (sys_mmap None size prot) in
  match p with
  | None => fatal_unless_enomem true "non-ENOMEM mmap failure" ;;; ret 0
  | Some p => ret p
  end.

Definition memory_map (size : Z) : M world Z := memory_map_prot size PROT_NONE.

Definition failed {A} (r : option A) : bool := match r with None => true | Some _ => false end.

Definition memory_map_fixed_prot (ptr size prot : Z) : M world bool :=
  let* p := syscall (sys_mmap (Some ptr) size prot) in
  fatal_unless_enomem (failed p) "non-ENOMEM MAP_FIXED mmap failure" ;;;
  ret (failed p).

Definition memory_map_fixed (ptr size : Z) : M world bool :=
  memory_map_fixed_prot ptr size PROT_NONE.

Definition memory_unmap (ptr size : Z) : M world bool :=
  let* r := syscall (sys_munmap ptr size) in
  fatal_unless_enomem (failed r) "non-ENOMEM munmap failure" ;;;
  ret (failed r).

Definition memory_protect_prot (ptr size prot : Z) : M world bool :=
  let* r := ksyscall (sys_mprotect ptr size prot) in
  fatal_unless_enomem (failed r) "non-ENOMEM mprotect failure" ;;;
  ret (failed r).

Definition memory_protect_ro (ptr size : Z) : M world bool :=
  memory_protect_prot ptr size PROT_READ.

Definition memory_protect_rw (ptr size : Z) : M world bool :=
  memory_protect_prot ptr size (Z.lor PROT_READ PROT_WRITE).

(** Without memory protection keys there is no key, and mprotect takes none. *)
Definition get_metadata_key : Z := -1.

Definition memory_protect_rw_metadata (ptr size : Z) : M world bool :=
  memory_protect_prot ptr size (Z.lor PROT_READ PROT_WRITE).

Definition memory_remap (old old_size new_size : Z) : M world bool :=
  let* r := syscall (sys_mremap old old_size new_size) in
  fatal_unless_enomem (failed r) "non-ENOMEM mremap failure" ;;;
  ret (failed r).

Definition memory_remap_fixed (old old_size new new_size : Z) : M world bool :=
  let* r := syscall (sys_mremap_fixed old old_size new new_size) in
  fatal_unless_enomem (failed r) "non-ENOMEM MREMAP_FIXED mremap failure" ;;;
  ret (failed r).

Definition memory_purge (ptr size : Z) : M world bool :=
  let* r := syscall (sys_madvise_dontneed ptr size) in
  fatal_unless_enomem (failed r) "non-ENOMEM MADV_DONTNEED madvise failure" ;;;
  ret (failed r).

Definition memory_set_name (ptr size : Z) (name : string) : M world bool :=
  if CONFIG_LABEL_MEMORY then
    let* r := ksyscall (sys_set_vma_name ptr size name) in ret (failed r)
  else ret false.

(** ** Loads and stores of the C code *)

(** memset(p, 0, n): clear the bytes p .. p + n - 1. *)
Definition memset0 (p n : Z) (m : gmap Z Z) : gmap Z Z :=
  foldr (fun i m => m.[p + i <- 0]) m (seqZ 0 n).

(** A little-endian 64-bit load and store. *)
Definition load64 (m : gmap Z Z) (p : Z) : Z :=
  foldr (fun i acc => m.[p + i] + 256 * acc) 0 (seqZ 0 8).
Definition store64 (p v : Z) (m : gmap Z Z) : gmap Z Z :=
  foldr (fun i m => m.[p + i <- u8 (Z.shiftr v (8 * i))]) m (seqZ 0 8).

(** memcpy(dst, src, n), for non-overlapping ranges. *)
Definition memcpy (dst src n : Z) (m : gmap Z Z) : gmap Z Z :=
  foldr (fun i acc => acc.[dst + i <- m.[src + i]]) m (seqZ 0 n).

End Memory.

(** ** What the allocator relies on

    [same_outside p n m m']: memory may differ only in the whole pages that
    [p, p + n) touches; [zero_in p n m]: those bytes read as zero. *)

Definition same_outside (p n : Z) (m m' : gmap Z Z) : Prop :=
  forall a, (a < p \/ p + page_align n <= a) -> m'.[a] = m.[a].

Definition zero_in (p n : Z) (m : gmap Z Z) : Prop := forall a, p <= a < p + n -> m.[a] = 0.

(** The addresses of the pages that [p, p + n) touches, for page-aligned p. *)
Definition pages (p n a : Z) : Prop := p <= a < p + page_align n.

(** No mapping appears or disappears; a range is mapped; a range is unmapped. *)
Definition same_maps `{Kernel} (k k' : kstate) : Prop := forall a, mapped k' a <-> mapped k a.
Definition maps_added `{Kernel} (p n : Z) (k k' : kstate) : Prop :=
  forall a, mapped k' a <-> mapped k a \/ pages p n a.
Definition maps_removed `{Kernel} (p n : Z) (k k' : kstate) : Prop :=
  forall a, mapped k' a <-> mapped k a /\ ~ pages p n a.

(** mmap(2), munmap(2), mremap(2), madvise(2): a failed call changes nothing; a
    fixed anonymous mapping and MADV_DONTNEED on private anonymous memory give
    zero pages; unmapping touches only its own pages; a fresh mapping is page
    aligned, is not at NULL, fits the address space, is zero and overlaps no
    other mapping. mremap moves the old pages over the new ones: the new range
    holds their contents, then zeros, and the old range is unmapped; growing in
    place adds zero pages after the old ones. *)
Class KernelOk (K : Kernel) : Prop := {
  mmap_fail_ok a n prot k m e k' m' :
    sys_mmap a n prot (k, m) = (SysErr e, (k', m')) -> m' = m /\ same_maps k k';
  mmap_keeps a n prot k m r k' m' :
    sys_mmap a n prot (k, m) = (r, (k', m')) -> forall x, mapped k x -> mapped k' x;
  mmap_fixed_ok p n prot k m q k' m' :
    0 < n <= 2 ^ 63 -> sys_mmap (Some p) n prot (k, m) = (SysOk q, (k', m')) ->
    q = p /\ zero_in p n m' /\ same_outside p n m m' /\ maps_added p n k k';
  mmap_fresh_ok n prot k m p k' m' :
    0 < n < 2 ^ 64 -> sys_mmap None n prot (k, m) = (SysOk p, (k', m')) ->
    0 < p /\ (PAGE_SIZE | p) /\ n <= 2 ^ 63 /\ p + page_align n <= 2 ^ 63 /\
    zero_in p n m' /\ same_outside p n m m' /\ maps_added p n k k' /\
    forall a, pages p n a -> ~ mapped k a;
  munmap_fail_ok p n k m e k' m' :
    sys_munmap p n (k, m) = (SysErr e, (k', m')) -> m' = m /\ same_maps k k';
  munmap_ok p n k m u k' m' :
    0 < n <= 2 ^ 63 -> sys_munmap p n (k, m) = (SysOk u, (k', m')) ->
    same_outside p n m m' /\ maps_removed p n k k';
  mprotect_ok p n prot k r k' : sys_mprotect p n prot k = (r, k') -> same_maps k k';
  mremap_in_place_fail_ok old old_size new_size k m e k' m' :
    sys_mremap old old_size new_size (k, m) = (SysErr e, (k', m')) -> m' = m /\ same_maps k k';
  mremap_in_place_ok old old_size new_size k m u k' m' :
    0 < old_size <= new_size -> new_size <= 2 ^ 63 -> sys_mremap old old_size new_size (k, m) = (SysOk u, (k', m')) ->
    (forall a, pages old new_size a -> ~ pages old old_size a -> m'.[a] = 0) /\
    (forall a, ~ pages old new_size a \/ pages old old_size a -> m'.[a] = m.[a]) /\
    maps_added old new_size k k';
  mremap_fail_ok old old_size new new_size k m e k' m' :
    sys_mremap_fixed old old_size new new_size (k, m) = (SysErr e, (k', m')) -> m' = m /\ same_maps k k';
  mremap_fixed_ok old old_size new new_size k m u k' m' :
    0 < old_size <= 2 ^ 63 -> 0 < new_size <= 2 ^ 63 ->
    (forall a, pages old old_size a -> ~ pages new new_size a) ->
    sys_mremap_fixed old old_size new new_size (k, m) = (SysOk u, (k', m')) ->
    (forall i, 0 <= i < new_size -> m'.[new + i] = if i <? page_align old_size then m.[old + i] else 0) /\
    (forall a, ~ pages old old_size a -> ~ pages new new_size a -> m'.[a] = m.[a]) /\
    forall a, mapped k' a <-> pages new new_size a \/ mapped k a /\ ~ pages old old_size a;
  madvise_fail_ok p n k m e k' m' :
    sys_madvise_dontneed p n (k, m) = (SysErr e, (k', m')) -> m' = m;
  madvise_ok p n k m u k' m' :
    0 < n <= 2 ^ 63 -> sys_madvise_dontneed p n (k, m) = (SysOk u, (k', m')) ->
    zero_in p n m' /\ same_outside p n m m';
  madvise_maps p n k m r k' m' : sys_madvise_dontneed p n (k, m) = (r, (k', m')) -> same_maps k k';
  getrandom_ok n k bs k' :
    0 < n -> sys_getrandom n k = (SysOk bs, k') ->
    Z.of_nat (length bs) <= n /\ Forall (fits 8) bs;
  getrandom_maps n k r k' : sys_getrandom n k = (r, k') -> same_maps k k';
  set_vma_name_maps p n name k r k' : sys_set_vma_name p n name k = (r, k') -> same_maps k k'
}.

(** ** A concrete kernel

    It keeps the log of its mappings (true) and unmappings (false), newest first,
    hands out the first page above all of them, and fails a call with ENOMEM when
    the script of outcomes says so; an empty script always succeeds. *)

Record demo_state := DemoState { map_log : list (bool * (Z * Z)); script : list bool }.

Fixpoint log_mapped (l : list (bool * (Z * Z))) (a : Z) : Prop :=
  match l with
  | [] => False
  | (b, (p, n)) :: l => if decide (p <= a < p + n) then b = true else log_mapped l a
  end.

Definition log_top (l : list (bool * (Z * Z))) : Z :=
  foldr (fun e top => Z.max (e.2.1 + e.2.2) top) 1048576 l.

Definition next_page (l : list (bool * (Z * Z))) : Z :=
  (log_top l + (PAGE_SIZE - 1)) / PAGE_SIZE * PAGE_SIZE.

Definition zero_range (p n : Z) (m : gmap Z Z) : gmap Z Z :=
  filter (fun kv => ~ (p <= kv.1 < p + n)) m.

(** The pages from [old] on moved to [new], zeros after them. *)
Definition move_range (old old_size new new_size : Z) (m : gmap Z Z) : gmap Z Z :=
  foldr (fun i acc => acc.[new + i <- if i <? old_size then m.[old + i] else 0]) m (seqZ 0 new_size).

Definition demo_call {A} (st : demo_state) (ok : demo_state -> A) (err : demo_state -> A) : A :=
  match script st with
  | true :: rest => err (DemoState (map_log st) rest)
  | false :: rest => ok (DemoState (map_log st) rest)
  | [] => ok st
  end.

Definition log_event (b : bool) (p n : Z) (st : demo_state) : demo_state :=
  DemoState ((b, (p, page_align n)) :: map_log st) (script st).

#[export] Instance demo_kernel : Kernel := {|
  kstate := demo_state;
  mapped st := log_mapped (map_log st);
  sys_getrandom n st := (SysOk (replicate (Z.to_nat n) 7), st);
  sys_mmap a n prot km :=
    let '(st, m) := km in
    demo_call st
      (fun st =>
         match a with
         | Some p => (SysOk p, (log_event true p n st, zero_range p n m))
         | None =>
             let p := next_page (map_log st) in
             if (n <=? 2 ^ 63) && (p + page_align n <=? 2 ^ 63)
             then (SysOk p, (log_event true p n st, zero_range p n m))
             else (SysErr ENOMEM, (st, m))
         end)
      (fun st => (SysErr ENOMEM, (st, m)));
  sys_munmap p n km :=
    let '(st, m) := km in
    demo_call st (fun st => (SysOk tt, (log_event false p n st, m))) (fun st => (SysErr ENOMEM, (st, m)));
  sys_mprotect p n prot st :=
    demo_call st (fun st => (SysOk tt, st)) (fun st => (SysErr ENOMEM, st));
  sys_mremap old old_size new_size km := (SysErr ENOMEM, km);
  sys_mremap_fixed old old_size new new_size km :=
    let '(st, m) := km in
    demo_call st
      (fun st => (SysOk tt, (log_event true new new_size (log_event false old old_size st),
                             move_range old (page_align old_size) new new_size m)))
      (fun st => (SysErr ENOMEM, (st, m)));
  sys_madvise_dontneed p n km :=
    let '(st, m) := km in
    demo_call st (fun st => (SysOk tt, (st, zero_range p n m)))
      (fun st => (SysErr ENOMEM, (st, m)));
  sys_set_vma_name p n name st := (SysOk tt, st)
|}.

(** The machine at start-up: zero memory, pages from 1 MiB on. *)
Definition demo_world (script : list bool) : world := World _ (DemoState [] script) ∅ 0.

Lemma zero_range_get p n m a :
  (zero_range p n m).[a] = if decide (p <= a < p + n) then 0 else m.[a].
Proof.
  unfold zero_range, aget. case_decide as Ha.
  - rewrite (proj2 (map_lookup_filter_None _ _ _)); [done|]. right. intros x _ H. by apply H.
  - destruct (m !! a) as [x|] eqn:E.
    + by rewrite (proj2 (map_lookup_filter_Some _ _ _ _) (conj E Ha)).
    + rewrite (proj2 (map_lookup_filter_None _ _ _)); [done|by left].
Qed.

Lemma page_align_ge n : 0 < n <= 2 ^ 63 -> n <= page_align n.
Proof. intros. destruct (page_align_spec n) as [? _]; rewrite ?PAGE_SIZE_eq in *; lia. Qed.

Lemma zero_range_zero p n m : zero_in p n (zero_range p n m).
Proof. intros a Ha. rewrite zero_range_get. by case_decide. Qed.

Lemma zero_range_outside p n m : 0 < n <= 2 ^ 63 -> same_outside p n m (zero_range p n m).
Proof.
  intros Hn a Ha. rewrite zero_range_get. pose proof (page_align_ge n Hn). case_decide; [lia|done].
Qed.

(** A fold that stores [f i] at [dst + i] for the [i] of a range. *)
Lemma fold_store_get (f : Z -> Z) dst n m a :
  (foldr (fun i acc => acc.[dst + i <- f i]) m (seqZ 0 n)).[a] =
  if decide (dst <= a < dst + n) then f (a - dst) else m.[a].
Proof.
  assert (Hl : forall l, (foldr (fun i acc => acc.[dst + i <- f i]) m l).[a] =
    if decide (a - dst ∈ l) then f (a - dst) else m.[a]).
  { induction l as [|i l IH]; cbn; [by rewrite decide_False by apply not_elem_of_nil|].
    rewrite aget_aset_case. destruct (decide (dst + i = a)) as [<-|Hne].
    - replace (dst + i - dst) with i by lia. by rewrite decide_True by apply list_elem_of_here.
    - rewrite IH. apply decide_ext. rewrite elem_of_cons. split; [by right|intros [?|?]; [lia|done]]. }
  rewrite Hl. apply decide_ext. rewrite elem_of_seqZ. lia.
Qed.

Lemma move_range_get old old_size new new_size m a :
  (move_range old old_size new new_size m).[a] =
  if decide (new <= a < new + new_size)
  then (if a - new <? old_size then m.[old + (a - new)] else 0) else m.[a].
Proof. apply (fold_store_get (fun i => if i <? old_size then m.[old + i] else 0)). Qed.

Lemma log_mapped_top l a : log_mapped l a -> a < log_top l.
Proof.
  induction l as [|[b [p n]] l IH]; [done|]. cbn. case_decide; [lia|]. intros Ha%IH. unfold log_top in *. lia.
Qed.

Lemma next_page_spec l : 0 < next_page l /\ (PAGE_SIZE | next_page l) /\ log_top l <= next_page l.
Proof.
  unfold next_page. rewrite PAGE_SIZE_eq. set (t := log_top l).
  assert (Ht : 1048576 <= t) by (unfold t, log_top; clear t; induction l as [|[b [p n]] l IH]; cbn in *; lia).
  pose proof (Z.div_mod (t + (4096 - 1)) 4096 ltac:(lia)). pose proof (Z.mod_pos_bound (t + (4096 - 1)) 4096 ltac:(lia)).
  split; [lia|]. split; [apply Z.divide_factor_r|lia].
Qed.

Lemma log_added p n (k st : demo_state) :
  map_log st = map_log k -> @maps_added demo_kernel p n k (log_event true p n st).
Proof. intros E a. cbn. unfold pages. rewrite E. case_decide; tauto. Qed.

Lemma log_removed p n (k st : demo_state) :
  map_log st = map_log k -> @maps_removed demo_kernel p n k (log_event false p n st).
Proof. intros E a. cbn. unfold pages. rewrite E. case_decide; [|tauto]. split; [done|tauto]. Qed.

Lemma log_moved old old_size new new_size (k st : demo_state) a :
  map_log st = map_log k ->
  log_mapped (map_log (log_event true new new_size (log_event false old old_size st))) a <->
  pages new new_size a \/ log_mapped (map_log k) a /\ ~ pages old old_size a.
Proof. intros E. cbn. unfold pages. rewrite E. repeat case_decide; try tauto. intuition discriminate. Qed.

Lemma demo_call_cases {A} st (ok err : demo_state -> A) :
  exists st', map_log st' = map_log st /\ (demo_call st ok err = ok st' \/ demo_call st ok err = err st').
Proof.
  destruct st as [l [|[] rest]]; [exists (DemoState l []); auto|exists (DemoState l rest); auto..].
Qed.

#[export] Instance demo_kernel_ok : KernelOk demo_kernel.
Proof.
  assert (Hsame : forall st st', map_log st' = map_log st -> @same_maps demo_kernel st st').
  { intros st st' E a. cbn. by rewrite E. }
  constructor; intros *; cbn;
    try match goal with
        | |- context [demo_call ?st ?ok ?err] =>
            destruct (demo_call_cases st ok err) as (st' & Hst & [-> | ->])
        end.
  all: intros; try destruct a; try destruct (_ && _) eqn:Hfits; simplify_eq; try done;
    try (split; [done|by apply Hsame]); try by apply Hsame.
  all: try first [apply (proj2 (log_added _ _ _ _ Hst _)); by left|by rewrite Hst].
  - split; [done|]. split; [apply zero_range_zero|]. split; [by apply zero_range_outside|by apply log_added].
  - apply andb_true_iff in Hfits as [Hn63%Z.leb_le Hp63%Z.leb_le].
    destruct (next_page_spec (map_log st')) as (Hpos & Hpage & Htop). split; [done|]. split; [done|].
    split; [done|]. split; [done|]. split; [apply zero_range_zero|]. split; [apply zero_range_outside; lia|].
    split; [by apply log_added|]. intros a [Ha _] Hm%log_mapped_top. rewrite Hst in *. lia.
  - split; [done|by apply log_removed].
  - pose proof (page_align_ge new_size ltac:(done)) as Hge. split; [|split].
    + intros i Hi. rewrite move_range_get, decide_True by lia. by replace (new + i - new) with i by lia.
    + intros a _ Ha. rewrite move_range_get. case_decide; [|done]. destruct Ha. unfold pages. lia.
    + intros a. by apply log_moved.
  - split; [apply zero_range_zero|]. by apply zero_range_outside.
  - rewrite length_replicate. split; [lia|]. apply Forall_replicate. split; lia.
Qed.

(** Run a memory.c wrapper inside a component whose state comes first. *)
Definition on_world `{K : Kernel} {S A} (m : M world A) : M (S * world) A :=
  zoom snd (fun w s => (fst s, w)) m.

(** ** Loads and stores *)

(** Memory differs at most in the bytes p .. p + n - 1. *)
Definition only_changes (p n : Z) (m m' : gmap Z Z) : Prop :=
  forall a, a < p \/ p + n <= a -> m'.[a] = m.[a].

Lemma store64_only p v m : only_changes p 8 m (store64 p v m).
Proof. intros a Ha. apply aget_fold_aset. intros i Hi%elem_of_seqZ. lia. Qed.

Lemma memset0_only p n m : only_changes p n m (memset0 p n m).
Proof. intros a Ha. apply (aget_fold_aset (fun i => p + i) (fun _ => 0)). intros i Hi%elem_of_seqZ. lia. Qed.

Lemma memcpy_get dst src n m a :
  (memcpy dst src n m).[a] = if decide (dst <= a < dst + n) then m.[src + (a - dst)] else m.[a].
Proof. apply (fold_store_get (fun i => m.[src + i])). Qed.

Lemma memset0_zero p n m : zero_in p n (memset0 p n m).
Proof. intros a Ha. unfold memset0. rewrite (fold_store_get (fun _ => 0)). by case_decide. Qed.

Lemma load64_store64_fits p v m : fits 64 v -> load64 (store64 p v m) p = v.
Proof.
  intros [H0 H1]. unfold load64, store64. change (seqZ 0 8) with [0; 1; 2; 3; 4; 5; 6; 7].
  cbn [foldr]. rewrite !aget_aset_case. repeat first [rewrite decide_False by lia | rewrite decide_True by lia].
  unfold wrap. rewrite !Z.shiftr_div_pow2 by lia.
  assert (Hb : forall k, 0 <= k -> v / 2 ^ (8 * k) = (v / 2 ^ (8 * k)) mod 2 ^ 8 + 256 * (v / 2 ^ (8 * (k + 1)))).
  { intros k Hk. rewrite (Z.div_mod (v / 2 ^ (8 * k)) (2 ^ 8)) at 1 by lia.
    replace (8 * (k + 1)) with (8 * k + 8) by lia. rewrite Z.pow_add_r by lia.
    rewrite Z.div_div; [|pose proof (pow2_pos (8 * k)); lia|lia]. lia. }
  pose proof (Hb 0 ltac:(lia)) as E0. pose proof (Hb 1 ltac:(lia)) as E1. pose proof (Hb 2 ltac:(lia)) as E2.
  pose proof (Hb 3 ltac:(lia)) as E3. pose proof (Hb 4 ltac:(lia)) as E4. pose proof (Hb 5 ltac:(lia)) as E5.
  pose proof (Hb 6 ltac:(lia)) as E6. pose proof (Hb 7 ltac:(lia)) as E7. clear Hb.
  assert (E8 : v / 2 ^ (8 * (7 + 1)) = 0) by (apply Z.div_small; lia).
  rewrite Z.mul_0_r, Z.pow_0_r, Z.div_1_r in E0. rewrite Z.mul_0_r, Z.pow_0_r, Z.div_1_r.
  rewrite E8 in E7. change (0 + 1) with 1 in *. change (1 + 1) with 2 in *. change (2 + 1) with 3 in *.
  change (3 + 1) with 4 in *. change (4 + 1) with 5 in *. change (5 + 1) with 6 in *. change (6 + 1) with 7 in *.
  by rewrite <- E7, <- E6, <- E5, <- E4, <- E3, <- E2, <- E1, <- E0.
Qed.

Lemma load64_store64 p v m : load64 (store64 p v m) p = u64 v.
Proof.
  rewrite <- (load64_store64_fits p (u64 v) m) by (by apply wrap_fits). f_equal. unfold store64.
  change (seqZ 0 8) with [0; 1; 2; 3; 4; 5; 6; 7]. cbn [foldr].
  assert (Hb : forall i, 0 <= i < 8 -> u8 (Z.shiftr v (8 * i)) = u8 (Z.shiftr (u64 v) (8 * i))).
  { intros i Hi. apply Z.bits_inj'. intros n Hn. rewrite !testbit_wrap, !Z.shiftr_spec, testbit_wrap by lia.
    destruct (bool_decide_reflect (n < 8)); cbn [andb]; [|done]. by rewrite bool_decide_eq_true_2 by lia. }
  by rewrite !Hb by lia.
Qed.

Lemma load64_zero p m : zero_in p 8 m -> load64 m p = 0.
Proof.
  intros Hz. unfold load64. change (seqZ 0 8) with [0; 1; 2; 3; 4; 5; 6; 7]. cbn [foldr]. by rewrite !Hz by lia.
Qed.

Lemma load64_same m m' p : (forall a, p <= a < p + 8 -> m'.[a] = m.[a]) -> load64 m' p = load64 m p.
Proof.
  intros Hm. unfold load64. change (seqZ 0 8) with [0; 1; 2; 3; 4; 5; 6; 7]. cbn [foldr]. by rewrite !Hm by lia.
Qed.

(** The words of a zero range or'ed together. *)
Lemma load64_or_zero m p k :
  zero_in p (8 * k) m -> fold_left (fun accum i => Z.lor accum (load64 m (p + 8 * i))) (seqZ 0 k) 0 = 0.
Proof.
  intros Hz. assert (Hl : forall i, i ∈ seqZ 0 k -> load64 m (p + 8 * i) = 0).
  { intros i Hi%elem_of_seqZ. apply load64_zero. intros a Ha. apply Hz. lia. }
  induction (seqZ 0 k) as [|i l IH]; [done|]. cbn [fold_left]. rewrite Hl by apply list_elem_of_here.
  apply IH. intros j Hj. by apply Hl, list_elem_of_further.
Qed.

(** ** What the memory.c wrappers guarantee *)

(** The aborts of memory.c: a system call failed with something else than ENOMEM. *)
Definition memory_fatal (h : halt) : Prop :=
  h ∈ [Fatal "non-ENOMEM mmap failure"; Fatal "non-ENOMEM MAP_FIXED mmap failure";
       Fatal "non-ENOMEM munmap failure"; Fatal "non-ENOMEM mprotect failure";
       Fatal "non-ENOMEM mremap failure"; Fatal "non-ENOMEM MREMAP_FIXED mremap failure"; Fatal "non-ENOMEM MADV_DONTNEED madvise failure"].

Section Wrappers.
Context `{Cfg : Config} {K : Kernel} {Kok : KernelOk K}.
Implicit Types (w : world).

Lemma wp_fatal_unless_enomem b msg (Q : unit -> world -> Prop) (E : halt -> Prop) w :
  ((b = true -> errno w = ENOMEM) -> Q tt w) -> E (Fatal msg) -> wp (fatal_unless_enomem b msg) Q E w.
Proof.
  intros HQ HE. unfold fatal_unless_enomem. repeat wp_step; [done|]. apply HQ. intros ->.
  by apply negb_false_iff, Z.eqb_eq in Hb.
Qed.

Lemma wp_ksyscall {A} (call : kstate -> sysret A * kstate) (Q : option A -> world -> Prop) E w :
  (forall a k, call (kern w) = (SysOk a, k) -> Q (Some a) (World _ k (mem w) (errno w))) ->
  (forall e k, call (kern w) = (SysErr e, k) -> Q None (World _ k (mem w) e)) ->
  wp (ksyscall call) Q E w.
Proof.
  intros Hok Herr. unfold wp, ksyscall, syscall. cbn [fst snd].
  destruct (call (kern w)) as [[a|e] k] eqn:Ec; cbn; auto.
Qed.

(** The shape of every wrapper that returns a failure flag: a failure that is
    reported has set errno to ENOMEM. *)
Lemma wp_flagged {A} (call : M world (option A)) msg (Q : bool -> world -> Prop) w :
  memory_fatal (Fatal msg) ->
  wp call (fun r w' => (failed r = true -> errno w' = ENOMEM) -> Q (failed r) w') memory_fatal w ->
  wp (let* r := call in fatal_unless_enomem (failed r) msg ;;; ret (failed r)) Q memory_fatal w.
Proof.
  intros Hm H. apply wp_bind. eapply wp_conseq; [exact H|]. intros r w' HQ.
  apply wp_bind, wp_fatal_unless_enomem; [|done]. intros He. by apply wp_ret, HQ.
Qed.

Ltac memory_msg := unfold memory_fatal; rewrite !elem_of_cons; tauto.

(** Contents and mappings are the same. *)
Definition quiet w w' : Prop := mem w' = mem w /\ same_maps (kern w) (kern w').

Lemma wp_memory_protect_quiet p n prot w :
  wp (memory_protect_prot p n prot)
     (fun r w' => quiet w w' /\ (r = true -> errno w' = ENOMEM)) memory_fatal w.
Proof.
  apply wp_flagged; [memory_msg|]. unfold wp, ksyscall, syscall. cbn.
  destruct (sys_mprotect _ _ _ _) as [[]?] eqn:E; cbn; apply mprotect_ok in E; done.
Qed.

Lemma wp_memory_protect_prot p n prot w :
  wp (memory_protect_prot p n prot)
     (fun r w' => mem w' = mem w /\ (r = true -> errno w' = ENOMEM)) memory_fatal w.
Proof. eapply wp_conseq; [apply wp_memory_protect_quiet|]. by intros r w' [[? _] ?]. Qed.

Lemma wp_memory_set_name_quiet (p n : Z) name w (E : halt -> Prop) :
  wp (memory_set_name p n name) (fun _ w' => quiet w w') E w.
Proof.
  unfold memory_set_name. wp_step; [|by apply wp_ret].
  unfold wp, ksyscall, syscall, bind. cbn.
  destruct (sys_set_vma_name _ _ _ _) as [[]?] eqn:Ev; cbn; apply set_vma_name_maps in Ev; done.
Qed.

Lemma wp_memory_set_name (p n : Z) name w (E : halt -> Prop) :
  wp (memory_set_name p n name) (fun _ w' => mem w' = mem w) E w.
Proof. eapply wp_conseq; [apply wp_memory_set_name_quiet|]. by intros r w' [? _]. Qed.

(** A failed call left memory alone and errno is ENOMEM; after success the range
    is zero. *)
Definition cleared (p n : Z) w (failed : bool) (w' : world) : Prop :=
  if failed then mem w' = mem w /\ errno w' = ENOMEM
  else zero_in p n (mem w') /\ same_outside p n (mem w) (mem w').

Lemma wp_memory_map_fixed_prot p n prot w :
  0 < n <= 2 ^ 63 -> wp (memory_map_fixed_prot p n prot) (cleared p n w) memory_fatal w.
Proof.
  intros Hn. apply wp_flagged; [memory_msg|]. unfold wp, syscall.
  destruct (sys_mmap _ _ _ _) as [[q|e] [k m]] eqn:E; cbn.
  - by apply mmap_fixed_ok in E as (_ & ? & ? & _).
  - apply mmap_fail_ok in E as [? _]. by intros He; split; [|apply He].
Qed.

Lemma wp_memory_purge_maps p n w :
  0 < n <= 2 ^ 63 ->
  wp (memory_purge p n) (fun r w' => cleared p n w r w' /\ same_maps (kern w) (kern w')) memory_fatal w.
Proof.
  intros Hn. apply wp_flagged; [memory_msg|]. unfold wp, syscall.
  destruct (sys_madvise_dontneed _ _ _) as [[q|e] [k m]] eqn:E; cbn;
    pose proof (madvise_maps _ _ _ _ _ _ _ E) as Hs.
  - by apply madvise_ok in E.
  - apply madvise_fail_ok in E. intros He. split; [|done]. split; [done|by apply He].
Qed.

Lemma wp_memory_purge p n w :
  0 < n <= 2 ^ 63 -> wp (memory_purge p n) (cleared p n w) memory_fatal w.
Proof. intros Hn. eapply wp_conseq; [by apply wp_memory_purge_maps|]. by intros r w' [? _]. Qed.

(** Nothing done and errno = ENOMEM. *)
Definition out_of_memory w w' : Prop :=
  mem w' = mem w /\ errno w' = ENOMEM /\ same_maps (kern w) (kern w').

(** An unmapped range, or nothing done and errno = ENOMEM. *)
Definition unmapped (p n : Z) w (failed : bool) (w' : world) : Prop :=
  if failed then out_of_memory w w'
  else same_outside p n (mem w) (mem w') /\ maps_removed p n (kern w) (kern w') /\ errno w' = errno w.

Lemma wp_memory_unmap p n w :
  0 < n <= 2 ^ 63 -> wp (memory_unmap p n) (unmapped p n w) memory_fatal w.
Proof.
  intros Hn. apply wp_flagged; [memory_msg|]. unfold wp, syscall.
  destruct (sys_munmap _ _ _) as [[q|e] [k m]] eqn:E; cbn.
  - by apply munmap_ok in E as [? ?].
  - apply munmap_fail_ok in E as [? ?]. intros He. split; [done|]. split; [by apply He|done].
Qed.

(** A fresh mapping: zero pages that were not mapped before, elsewhere nothing. *)
Definition fresh_mapping (p n : Z) w w' : Prop :=
  0 < p /\ (PAGE_SIZE | p) /\ n <= 2 ^ 63 /\ p + page_align n <= 2 ^ 63 /\
  zero_in p n (mem w') /\ same_outside p n (mem w) (mem w') /\
  maps_added p n (kern w) (kern w') /\ forall a, pages p n a -> ~ mapped (kern w) a.

Lemma wp_memory_map_prot n prot w :
  0 < n < 2 ^ 64 ->
  wp (memory_map_prot n prot)
     (fun p w' => p = 0 /\ out_of_memory w w' \/ fresh_mapping p n w w') memory_fatal w.
Proof.
  intros Hn. unfold memory_map_prot. wp_step. unfold wp at 1, syscall.
  destruct (sys_mmap _ _ _ _) as [[q|e] [k m]] eqn:E; cbn.
  - right. by apply mmap_fresh_ok in E.
  - apply wp_bind, wp_fatal_unless_enomem; [|memory_msg]. intros He. left.
    apply mmap_fail_ok in E as [? ?]. split; [done|]. split; [done|]. split; [by apply He|done].
Qed.

(** Growth in place: the old pages as they were, zero pages after them. *)
Definition grown_in_place (old old_size new_size : Z) w (failed : bool) (w' : world) : Prop :=
  if failed then out_of_memory w w'
  else
    (forall a, pages old new_size a -> ~ pages old old_size a -> (mem w').[a] = 0) /\
    (forall a, ~ pages old new_size a \/ pages old old_size a -> (mem w').[a] = (mem w).[a]) /\
    maps_added old new_size (kern w) (kern w').

Lemma wp_memory_remap old old_size new_size w :
  0 < old_size <= new_size -> new_size <= 2 ^ 63 ->
  wp (memory_remap old old_size new_size) (grown_in_place old old_size new_size w) memory_fatal w.
Proof.
  intros Ho Hn. apply wp_flagged; [memory_msg|]. unfold wp, syscall.
  destruct (sys_mremap _ _ _ _) as [[q|e] [k m]] eqn:E; cbn.
  - by apply mremap_in_place_ok in E.
  - apply mremap_in_place_fail_ok in E as [? ?]. intros He. split; [done|]. split; [by apply He|done].
Qed.

(** mremap over a range that the old one does not touch. *)
Definition moved_pages (old old_size new new_size : Z) w (failed : bool) (w' : world) : Prop :=
  if failed then out_of_memory w w'
  else
    (forall i, 0 <= i < new_size -> (mem w').[new + i] = if i <? page_align old_size then (mem w).[old + i] else 0) /\
    (forall a, ~ pages old old_size a -> ~ pages new new_size a -> (mem w').[a] = (mem w).[a]) /\
    forall a, mapped (kern w') a <-> pages new new_size a \/ mapped (kern w) a /\ ~ pages old old_size a.

Lemma wp_memory_remap_fixed old old_size new new_size w :
  0 < old_size <= 2 ^ 63 -> 0 < new_size <= 2 ^ 63 ->
  (forall a, pages old old_size a -> ~ pages new new_size a) ->
  wp (memory_remap_fixed old old_size new new_size) (moved_pages old old_size new new_size w) memory_fatal w.
Proof.
  intros Ho Hn Hd. apply wp_flagged; [memory_msg|]. unfold wp, syscall.
  destruct (sys_mremap_fixed _ _ _ _ _) as [[q|e] [k m]] eqn:E; cbn.
  - by apply mremap_fixed_ok in E.
  - apply mremap_fail_ok in E as [? ?]. intros He. split; [done|]. split; [by apply He|done].
Qed.
End Wrappers.

Lemma wp_on_world `{K : Kernel} {S A} (m : M world A) (Q : A -> S * world -> Prop) E s :
  wp m (fun a w => Q a (fst s, w)) E (snd s) -> wp (on_world m) Q E s.
Proof. intros H. unfold on_world. apply wp_zoom, H. Qed.
