(* ===== verification/ErrorOutput.v ===== *)
(** util.c: how the allocator says why it stops. The other files model
    fatal_error(msg) by [Fatal msg]; this one models what it writes first. *)

From S2P Require Import Prelude Config Util Kernel.
From Stdlib Require Import Ascii.

(** ** write(2)

    The system call takes a file descriptor and the bytes of a buffer. [written]
    is what has reached a descriptor; [interruptions] bounds how often a call can
    still make no progress: a signal arrives, or nothing is taken. *)
Class WriteSystem : Type := {
  out_state : Type;
  sys_write : Z -> list ascii -> out_state -> sysret Z * out_state;
  written : out_state -> Z -> list ascii;
  interruptions : out_state -> nat
}.

Class WriteSystemOk (W : WriteSystem) : Prop := {
  write_takes fd b st n st' :
    sys_write fd b st = (SysOk n, st') ->
    0 <= n <= Z.of_nat (length b) /\ written st' fd = written st fd ++ take (Z.to_nat n) b;
  write_fails fd b st e st' : sys_write fd b st = (SysErr e, st') -> written st' fd = written st fd;
  write_stalls fd b st r st' :
    sys_write fd b st = (r, st') -> b <> [] -> r = SysErr EINTR \/ r = SysOk 0 ->
    (interruptions st' < interruptions st)%nat;
  write_signals fd b st r st' :
    sys_write fd b st = (r, st') -> (interruptions st' <= interruptions st)%nat
}.

Definition STDERR_FILENO : Z := 2.

Section Output.
Context `{W : WriteSystem}.

(** The result and the state; [None] when the fuel is exhausted. The buffer is the
    bytes from [buf] on, of which [length] are to be written. *)
Fixpoint write_full (fuel : nat) (fd : Z) (buf : list ascii) (length : Z) (st : out_state) : option (Z * out_state) :=
  match fuel with
  | O => None
  | S fuel =>
      match sys_write fd (take (Z.to_nat length) buf) st with
      | (SysErr e, st) =>
          if e =? EINTR then
            (* continue: to the condition of the loop *)
            if negb (length =? 0) then write_full fuel fd buf length st else Some (0, st)
          else Some (-1, st)
      | (SysOk bytes_written, st) =>
          let buf := drop (Z.to_nat bytes_written) buf in
          let length := u64 (length - bytes_written) in
          if negb (length =? 0) then write_full fuel fd buf length st else Some (0, st)
      end
  end.

(** write_full(STDERR_FILENO, s, strlen(s)) *)
Definition write_string (fuel : nat) (s : string) (st : out_state) : option (Z * out_state) :=
  let b := String.list_ascii_of_string s in
  write_full fuel STDERR_FILENO b (Z.of_nat (length b)) st.

(** [a != -1 && b]: the second write happens only after the first succeeded. *)
Definition and_then (r : option (Z * out_state)) (k : out_state -> option (Z * out_state)) : option (Z * out_state) :=
  match r with
  | Some (r, st) => if negb (r =? -1) then k st else Some (r, st)
  | None => None
  end.

Definition newline : string := String "010" EmptyString.
Definition prefix : string := "fatal allocator error: ".

(** The state in which fatal_error calls abort(). *)
Definition fatal_error_output (fuel : nat) (s : string) (st : out_state) : option out_state :=
  option_map snd
    (and_then (write_string fuel prefix st) (fun st =>
     and_then (write_string fuel s st) (fun st =>
     write_string fuel newline st))).

End Output.

(** ** What is written *)

(** The bytes of the message, with the prefix and the newline. *)
Definition message (s : string) : list ascii :=
  String.list_ascii_of_string prefix ++ String.list_ascii_of_string s ++ String.list_ascii_of_string newline.

(** No write fails but for a signal. *)
Definition only_signals `{W : WriteSystem} : Prop :=
  forall fd b st e st', sys_write fd b st = (SysErr e, st') -> e = EINTR.

Section Proofs.
Context {W : WriteSystem} {Wok : WriteSystemOk W}.

(** The outcome of writing [b] from [st]: a prefix of it, and all of it when 0 is
    returned, as it must be when only signals disturb. *)
Definition wrote (fd : Z) (b : list ascii) (st : out_state) (r : Z) (st' : out_state) : Prop :=
  (interruptions st' <= interruptions st)%nat /\
  (r = 0 \/ r = -1 /\ ~ only_signals) /\
  exists k, written st' fd = written st fd ++ take k b /\ (r = 0 -> (length b <= k)%nat).

(** One more successful write. *)
Lemma wrote_step fd b n st st1 r st' :
  (n <= length b)%nat -> (interruptions st1 <= interruptions st)%nat ->
  written st1 fd = written st fd ++ take n b -> wrote fd (drop n b) st1 r st' -> wrote fd b st r st'.
Proof.
  intros Hn Hi Hw (Hi' & Hr & k & Hk & Hall). split; [lia|]. split; [done|]. exists (n + k)%nat. split.
  - rewrite Hk, Hw, <- app_assoc. f_equal. by rewrite take_take_drop.
  - intros Hz. specialize (Hall Hz). rewrite length_drop in Hall. lia.
Qed.

Lemma wrote_all fd b st st' :
  (interruptions st' <= interruptions st)%nat -> written st' fd = written st fd ++ b -> wrote fd b st 0 st'.
Proof. intros Hi Hw. split; [done|]. split; [by left|]. exists (length b). by rewrite firstn_all. Qed.

Lemma write_full_spec fuel : forall fd b st,
  (length b + interruptions st < fuel)%nat -> Z.of_nat (length b) < 2 ^ 64 ->
  exists r st', write_full fuel fd b (Z.of_nat (length b)) st = Some (r, st') /\ wrote fd b st r st'.
Proof.
  induction fuel as [|fuel IH]; intros fd b st Hf Hb; [lia|]. cbn [write_full].
  rewrite Nat2Z.id, firstn_all.
  destruct (sys_write fd b st) as [[n|e] st1] eqn:E; pose proof (write_signals _ _ _ _ _ E) as Hi.
  - destruct (write_takes _ _ _ _ _ E) as [Hn Hw]. rewrite wrap_small by (split; lia).
    destruct (Z.eqb_spec (Z.of_nat (length b) - n) 0) as [Hz|Hz]; cbn [negb].
    + exists 0, st1. split; [done|]. apply wrote_all; [done|]. rewrite Hw. f_equal. apply take_ge. lia.
    + replace (Z.of_nat (length b) - n) with (Z.of_nat (length (drop (Z.to_nat n) b))) by (rewrite length_drop; lia).
      destruct (IH fd (drop (Z.to_nat n) b) st1) as (r & st' & Hrun & Hspec).
      * destruct (Z.eq_dec n 0) as [->|].
        -- assert (b <> []) by (intros ->; cbn in Hz; lia).
           pose proof (write_stalls _ _ _ _ _ E ltac:(done) ltac:(by right)). rewrite length_drop. lia.
        -- rewrite length_drop. lia.
      * rewrite length_drop. lia.
      * exists r, st'. split; [done|]. apply (wrote_step fd b (Z.to_nat n) st st1); [lia|done..].
  - pose proof (write_fails _ _ _ _ _ E) as Hw. destruct (Z.eqb_spec e EINTR) as [->|He].
    + destruct (Z.eqb_spec (Z.of_nat (length b)) 0) as [Hz|Hz]; cbn [negb].
      * exists 0, st1. split; [done|]. apply wrote_all; [done|]. rewrite Hw. destruct b; [by rewrite app_nil_r|done].
      * assert (b <> []) by (intros ->; done).
        pose proof (write_stalls _ _ _ _ _ E ltac:(done) ltac:(by left)).
        destruct (IH fd b st1 ltac:(lia) Hb) as (r & st' & Hrun & Hspec). exists r, st'. split; [done|].
        apply (wrote_step fd b 0 st st1); [lia|done| |done]. by rewrite take_0, app_nil_r.
    + exists (-1), st1. split; [done|]. split; [done|]. split.
      * right. split; [done|]. intros Hs. by apply He, (Hs _ _ _ _ _ E).
      * exists 0%nat. by rewrite take_0, app_nil_r.
Qed.

(** One string after the other. *)
Lemma wrote_app fd b1 b2 st st1 r st2 :
  wrote fd b1 st 0 st1 -> wrote fd b2 st1 r st2 -> wrote fd (b1 ++ b2) st r st2.
Proof.
  intros (Hi1 & _ & k1 & Hk1 & Hall1) (Hi2 & Hr & k2 & Hk2 & Hall2). specialize (Hall1 eq_refl).
  split; [lia|]. split; [done|]. exists (length b1 + k2)%nat. split.
  - rewrite Hk2, Hk1, (take_ge b1 k1), <- app_assoc by done. f_equal. rewrite take_app_add. done.
  - intros Hz. rewrite length_app. specialize (Hall2 Hz). lia.
Qed.

Lemma wrote_stop fd b1 b2 st st1 : wrote fd b1 st (-1) st1 -> wrote fd (b1 ++ b2) st (-1) st1.
Proof.
  intros (Hi & Hr & k & Hk & _). split; [done|]. split; [done|]. exists (k `min` length b1)%nat. split; [|done].
  rewrite Hk. f_equal. rewrite take_app_le by lia. by rewrite <- take_take, firstn_all.
Qed.

Lemma and_then_spec fd b1 b2 st (m : option (Z * out_state)) k :
  (exists r st1, m = Some (r, st1) /\ wrote fd b1 st r st1) ->
  (forall st1, (interruptions st1 <= interruptions st)%nat -> exists r st2, k st1 = Some (r, st2) /\ wrote fd b2 st1 r st2) ->
  exists r st2, and_then m k = Some (r, st2) /\ wrote fd (b1 ++ b2) st r st2.
Proof.
  intros (r & st1 & -> & Hw) Hk. cbn [and_then]. pose proof Hw as (Hi & [-> | [-> _]] & _); cbn [negb Z.eqb].
  - destruct (Hk st1 Hi) as (r & st2 & Hrun & Hw2). exists r, st2. split; [done|]. by apply (wrote_app fd b1 b2 st st1).
  - exists (-1), st1. split; [done|]. by apply wrote_stop.
Qed.

(** Fuel for the message [s]: its strings and the interruptions. *)
Definition output_fuel (s : string) (st : out_state) : nat := length (message s) + interruptions st + 1.

Lemma write_string_spec fuel s st :
  (length (String.list_ascii_of_string s) + interruptions st < fuel)%nat ->
  Z.of_nat (length (String.list_ascii_of_string s)) < 2 ^ 64 ->
  exists r st', write_string fuel s st = Some (r, st') /\ wrote STDERR_FILENO (String.list_ascii_of_string s) st r st'.
Proof. apply write_full_spec. Qed.

(** C39: fatal_error gets to abort() through any number of short writes and signals,
    having written a prefix of the message to standard error, and the whole message
    when no write fails for another reason than a signal. *)
Theorem fatal_error_prints s st fuel :
  Z.of_nat (length (message s)) < 2 ^ 64 -> (output_fuel s st <= fuel)%nat ->
  exists st', fatal_error_output fuel s st = Some st' /\
    (exists k, written st' STDERR_FILENO = written st STDERR_FILENO ++ take k (message s)) /\
    (only_signals -> written st' STDERR_FILENO = written st STDERR_FILENO ++ message s).
Proof.
  unfold output_fuel, message, fatal_error_output. rewrite !length_app. intros Hs Hf.
  destruct (and_then_spec STDERR_FILENO (String.list_ascii_of_string prefix)
    (String.list_ascii_of_string s ++ String.list_ascii_of_string newline) st (write_string fuel prefix st)
    (fun st => and_then (write_string fuel s st) (fun st => write_string fuel newline st)))
    as (r & st' & -> & _ & Hr & k & Hk & Hall).
  - apply write_string_spec; lia.
  - intros st1 Hi1. apply and_then_spec; [apply write_string_spec; lia|].
    intros st2 Hi2. apply write_string_spec; lia.
  - exists st'. split; [done|]. split; [by exists k|]. intros Ho. destruct Hr as [-> | [_ []]]; [|done].
    rewrite Hk. f_equal. apply take_ge, Hall. done.
Qed.
End Proofs.

(** ** A concrete descriptor

    Every call takes the next outcome of a script: a number of bytes, or a signal
    when it is 0; an empty script takes everything. *)
Record demo_out := DemoOut { demo_script : list nat; demo_written : list ascii }.

#[export] Instance demo_stream : WriteSystem := {|
  out_state := demo_out;
  sys_write fd b st :=
    match demo_script st with
    | O :: l => (SysErr EINTR, DemoOut l (demo_written st))
    | S n :: l => (SysOk (Z.of_nat (length (take (S n) b))), DemoOut l (demo_written st ++ take (S n) b))
    | [] => (SysOk (Z.of_nat (length b)), DemoOut [] (demo_written st ++ b))
    end;
  written st fd := demo_written st;
  interruptions st := length (demo_script st)
|}.

#[export] Instance demo_stream_ok : WriteSystemOk demo_stream.
Proof.
  constructor; intros fd b [[|[|n] l] w]; cbn; intros *; try by intros [= <- <-].
  - intros [= <- <-]. split; [lia|]. cbn. by rewrite Nat2Z.id, firstn_all.
  - intros [= <- <-]. rewrite length_take. split; [lia|]. cbn [demo_written]. f_equal.
    by rewrite Nat2Z.id, <- take_take, firstn_all.
  - intros [= <- <-] Hb [|[= Hz]]; [done|]. by destruct b.
  - intros [= <- <-] _ _. cbn. lia.
  - intros [= <- <-] _ _. cbn. lia.
  - intros [= <- <-]. cbn. lia.
  - intros [= <- <-]. cbn. lia.
Qed.

(** "double free" through a signal, a write of five bytes and a signal. *)
Lemma fatal_error_prints_witness :
  exists st', fatal_error_output (W := demo_stream) 60 "double free" (DemoOut [0; 5; 0]%nat []) = Some st' /\
    demo_written st' = message "double free".
Proof.
  destruct (fatal_error_prints (W := demo_stream) "double free" (DemoOut [0; 5; 0]%nat []) 60) as (st' & Hrun & _ & Hall);
    [by vm_compute|by vm_compute; lia|].
  exists st'. split; [exact Hrun|]. apply Hall.
  intros fd b [[|[|n] l] w] e st1; cbn; by intros [= <- <-].
Defined.
