(* ===== verification/Maps.v ===== *)
(** Mappings that stay: every program of the allocator that neither calls munmap
    nor mremap leaves every mapped address mapped. The property is compositional
    and needs no invariant, so it is a class whose instances follow the
    structure of the programs. *)

From S2P Require Import Prelude Config Util Kernel.

Definition maps_grow `{Kernel} (k k' : kstate) : Prop := forall a, mapped k a -> mapped k' a.

#[export] Instance maps_grow_preorder `{Kernel} : PreOrder maps_grow.
Proof. split; [by intros k a|]. intros k1 k2 k3 H12 H23 a Ha. by apply H23, H12. Qed.

Lemma same_maps_grow `{Kernel} k k' : same_maps k k' -> maps_grow k k'.
Proof. intros Hk a. apply Hk. Qed.

(** The states that contain a kernel. *)
Class WithKernel `{Kernel} (S : Type) : Type := kernel_of : S -> kstate.
#[export] Instance world_kernel `{Kernel} : WithKernel world := kern.
#[export] Instance pair_kernel `{Kernel} {X} : WithKernel (X * world) := fun s => kern (snd s).

Class KeepsMaps `{Kernel} {S} `{!WithKernel S} {A} (m : M S A) : Prop :=
  keeps_maps s : wp m (fun _ s' => maps_grow (kernel_of s) (kernel_of s')) (fun _ => True) s.

(** The fact joins any specification of the program. *)
Lemma wp_keeps `{Kernel} {S} `{!WithKernel S} {A} (m : M S A) `{!KeepsMaps m} (Q : A -> S -> Prop) E s :
  wp m Q E s -> wp m (fun a s' => Q a s' /\ maps_grow (kernel_of s) (kernel_of s')) E s.
Proof.
  pose proof (keeps_maps (m := m) s) as Hm. unfold wp in *. by destruct (m s).
Qed.

Section Structure.
Context {K : Kernel} {S : Type} `{!WithKernel S} {A B : Type}.

#[export] Instance keeps_ret (a : A) : KeepsMaps (S := S) (ret a).
Proof. intros s. apply wp_ret. reflexivity. Qed.

#[export] Instance keeps_gets (f : S -> A) : KeepsMaps (gets f).
Proof. intros s. apply wp_gets. reflexivity. Qed.

#[export] Instance keeps_fatal msg : KeepsMaps (S := S) (A := A) (fatal_error msg).
Proof. by intros s. Qed.

#[export] Instance keeps_stuck : KeepsMaps (S := S) (A := A) stuck.
Proof. by intros s. Qed.

#[export] Instance keeps_of_fuel (o : option A) : KeepsMaps (S := S) (of_fuel o).
Proof. intros s. destruct o; [apply wp_ret; reflexivity|done]. Qed.

Lemma keeps_bind (m : M S A) (k : A -> M S B) :
  KeepsMaps m -> (forall a, KeepsMaps (k a)) -> KeepsMaps (bind m k).
Proof.
  intros Hm Hk s. apply wp_bind. eapply wp_conseq; [apply Hm|]. intros a s' Hs. cbn beta in *.
  eapply wp_conseq; [apply Hk|]. intros b s'' Hs'. cbn beta in *. by etransitivity.
Qed.

Lemma keeps_modify (f : S -> S) : (forall s, kernel_of (f s) = kernel_of s) -> KeepsMaps (modify f).
Proof. intros Hf s. apply wp_modify. by rewrite Hf. Qed.
End Structure.

#[export] Instance keeps_on_world {K : Kernel} {X A} (m : M world A) :
  KeepsMaps m -> KeepsMaps (S := X * world) (on_world m).
Proof. intros Hm s. apply wp_on_world. apply Hm. Qed.

(** Follow the structure of a program; the leaves are instances. *)
Ltac keeps_step :=
  lazymatch goal with
  | |- KeepsMaps (bind _ _) => apply keeps_bind; [|intros ?]
  | |- KeepsMaps (let _ := _ in _) => cbv zeta
  | |- KeepsMaps (match ?x with _ => _ end) => destruct x
  | |- KeepsMaps (modify _) => apply keeps_modify; intros ?; reflexivity
  | |- KeepsMaps _ => apply _
  end.
Ltac keeps := repeat keeps_step.
#[export] Hint Extern 2 (KeepsMaps (match ?x with _ => _ end)) => destruct x : typeclass_instances.

(** ** memory.c *)

Section Wrappers.
Context {Cfg : Config} {K : Kernel} {Kok : KernelOk K}.

Lemma keeps_syscall {A} (call : kstate * gmap Z Z -> sysret A * (kstate * gmap Z Z)) :
  (forall k m r k' m', call (k, m) = (r, (k', m')) -> maps_grow k k') -> KeepsMaps (syscall call).
Proof.
  intros Hc w. unfold wp, syscall. destruct (call (kern w, mem w)) as [[a|e] [k m]] eqn:E; cbn; by eapply Hc.
Qed.

Lemma keeps_ksyscall {A} (call : kstate -> sysret A * kstate) :
  (forall k r k', call k = (r, k') -> same_maps k k') -> KeepsMaps (ksyscall call).
Proof.
  intros Hc. apply keeps_syscall. intros k m r k' m'. cbn. destruct (call k) as [r0 k0] eqn:E. cbn.
  intros. simplify_eq. by eapply same_maps_grow, Hc.
Qed.

#[export] Instance keeps_fatal_unless_enomem b msg : KeepsMaps (fatal_unless_enomem b msg).
Proof. unfold fatal_unless_enomem. keeps. Qed.

#[export] Instance keeps_set_errno e : KeepsMaps (set_errno e).
Proof. unfold set_errno. keeps. Qed.

#[export] Instance keeps_set_mem m : KeepsMaps (set_mem m).
Proof. unfold set_mem. keeps. Qed.

#[export] Instance keeps_getrandom size : KeepsMaps (ksyscall (sys_getrandom size)).
Proof. apply keeps_ksyscall, getrandom_maps. Qed.

#[export] Instance keeps_mprotect p n prot : KeepsMaps (memory_protect_prot p n prot).
Proof. unfold memory_protect_prot. keeps_step; [apply keeps_ksyscall, mprotect_ok|keeps]. Qed.

#[export] Instance keeps_protect_ro p n : KeepsMaps (memory_protect_ro p n).
Proof. apply _. Qed.
#[export] Instance keeps_protect_rw p n : KeepsMaps (memory_protect_rw p n).
Proof. apply _. Qed.
#[export] Instance keeps_protect_rw_metadata p n : KeepsMaps (memory_protect_rw_metadata p n).
Proof. apply _. Qed.

#[export] Instance keeps_set_name p n name : KeepsMaps (memory_set_name p n name).
Proof.
  unfold memory_set_name. keeps_step; [|apply _]. keeps_step; [apply keeps_ksyscall, set_vma_name_maps|keeps].
Qed.

#[export] Instance keeps_map_prot n prot : KeepsMaps (memory_map_prot n prot).
Proof.
  unfold memory_map_prot. keeps_step; [|keeps]. apply keeps_syscall. intros k m r k' m' E a. by eapply mmap_keeps.
Qed.
#[export] Instance keeps_map n : KeepsMaps (memory_map n).
Proof. apply _. Qed.

#[export] Instance keeps_map_fixed_prot p n prot : KeepsMaps (memory_map_fixed_prot p n prot).
Proof.
  unfold memory_map_fixed_prot. keeps_step; [|keeps]. apply keeps_syscall. intros k m r k' m' E a. by eapply mmap_keeps.
Qed.
#[export] Instance keeps_map_fixed p n : KeepsMaps (memory_map_fixed p n).
Proof. apply _. Qed.

#[export] Instance keeps_purge p n : KeepsMaps (memory_purge p n).
Proof.
  unfold memory_purge. keeps_step; [|keeps]. apply keeps_syscall. intros k m r k' m' E.
  by eapply same_maps_grow, madvise_maps.
Qed.
End Wrappers.
