(* ===== verification/Pages.v ===== *)
(** pages.c: fresh page ranges between guard pages, and giving them back. *)

From S2P Require Import Prelude Config Util SizeClass Kernel Maps.

(** __builtin_add_overflow on size_t: the flag and the wrapped sum. *)
Definition add_overflow (a b : Z) : bool * Z := (2 ^ 64 <=? a + b, u64 (a + b)).

Definition add_guards (size guard_size : Z) : bool * Z :=
  let '(overflow, total_size) := add_overflow size guard_size in
  if overflow then (true, total_size) else add_overflow total_size guard_size.

Section Operations.
Context `{Cfg : Config} `{K : Kernel}.

Definition allocate_pages (usable_size guard_size : Z) (unprotect : bool) (name : string) : M world Z :=
  let '(overflow, real_size) := add_guards usable_size guard_size in
  if overflow then set_errno ENOMEM ;;; ret 0 else
  let* real := memory_map real_size in
  if real =? 0 then ret 0 else
  memory_set_name real real_size name ;;;
  let usable := u64 (real + guard_size) in
  let* protect_failed := (if unprotect then memory_protect_rw usable usable_size else ret false) in
  if protect_failed then memory_unmap real real_size ;;; ret 0
  else ret usable.

(** The second half of [allocate_pages_aligned]: the aligned block at [base] with
    its guards stays, the pages before and after are unmapped. *)
Definition cut_aligned (real real_alloc_size alloc_size usable_size alignment guard_size : Z) : M world Z :=
  let usable := u64 (real + guard_size) in
  let lead_size := u64 (align usable alignment - usable) in
  let trail_size := u64 (u64 (alloc_size - lead_size) - usable_size) in
  let base := u64 (usable + lead_size) in
  let* protect_failed := memory_protect_rw base usable_size in
  if protect_failed then memory_unmap real real_alloc_size ;;; ret 0 else
  let* lead_failed := (if negb (lead_size =? 0) then memory_unmap real lead_size else ret false) in
  if lead_failed then memory_unmap real real_alloc_size ;;; ret 0 else
  let* trail_failed :=
    (if negb (trail_size =? 0) then memory_unmap (u64 (base + usable_size + guard_size)) trail_size
     else ret false) in
  if trail_failed then memory_unmap real real_alloc_size ;;; ret 0
  else ret base.

Definition allocate_pages_aligned (usable_size alignment guard_size : Z) (name : string) : M world Z :=
  let usable_size := page_align usable_size in
  if usable_size =? 0 then set_errno ENOMEM ;;; ret 0 else
  let '(overflow, alloc_size) := add_overflow usable_size (u64 (alignment - PAGE_SIZE)) in
  if overflow then set_errno ENOMEM ;;; ret 0 else
  let '(overflow, real_alloc_size) := add_guards alloc_size guard_size in
  if overflow then set_errno ENOMEM ;;; ret 0 else
  let* real := memory_map real_alloc_size in
  if real =? 0 then ret 0 else
  memory_set_name real real_alloc_size name ;;;
  cut_aligned real real_alloc_size alloc_size usable_size alignment guard_size.

Definition deallocate_pages (usable usable_size guard_size : Z) : M world unit :=
  let* unmap_failed := memory_unmap (u64 (usable - guard_size)) (u64 (usable_size + u64 (guard_size * 2))) in
  if unmap_failed then
    let* purge_failed := memory_purge usable usable_size in
    if purge_failed then
      let* w := gets id in
      set_mem (memset0 usable usable_size (mem w))
    else ret tt
  else ret tt.

End Operations.

(** ** Sizes *)

Lemma add_overflow_spec a b :
  fits 64 a -> fits 64 b ->
  if fst (add_overflow a b) then 2 ^ 64 <= a + b else a + b < 2 ^ 64 /\ snd (add_overflow a b) = a + b.
Proof.
  intros [Ha _] [Hb _]. unfold add_overflow. cbn [fst snd]. destruct (Z.leb_spec (2 ^ 64) (a + b)); [done|].
  split; [done|]. apply wrap_small. split; lia.
Qed.

(** The flag is exact: set when the size with both guards exceeds size_t. *)
Lemma add_guards_spec size guard :
  fits 64 size -> fits 64 guard ->
  if fst (add_guards size guard) then 2 ^ 64 <= size + 2 * guard
  else size + 2 * guard < 2 ^ 64 /\ snd (add_guards size guard) = size + 2 * guard.
Proof.
  intros Hs Hg. pose proof (add_overflow_spec size guard Hs Hg) as H1. unfold add_guards.
  destruct (add_overflow size guard) as [[] total]; cbn [fst snd] in *; [destruct Hg; lia|].
  destruct H1 as [Hlt ->]. assert (Ht : fits 64 (size + guard)) by (destruct Hs, Hg; split; lia).
  pose proof (add_overflow_spec (size + guard) guard Ht Hg) as H2.
  destruct (fst (add_overflow _ _)); [lia|]. destruct H2 as [? ->]. split; lia.
Qed.

Lemma page_align_add n g :
  0 <= n -> 0 <= g -> n + g <= 2 ^ 64 - PAGE_SIZE -> (PAGE_SIZE | g) -> page_align (n + g) = page_align n + g.
Proof.
  intros Hn Hg Hle [k ->]. rewrite PAGE_SIZE_eq in *.
  destruct (page_align_spec n) as (_ & _ & ->); [rewrite PAGE_SIZE_eq; lia|].
  destruct (page_align_spec (n + k * 4096)) as (_ & _ & ->); [rewrite PAGE_SIZE_eq; lia|]. rewrite PAGE_SIZE_eq.
  replace (n + k * 4096 + (4096 - 1)) with (n + (4096 - 1) + k * 4096) by lia. rewrite Z.div_add by lia. lia.
Qed.

Lemma page_align_id n : 0 <= n <= 2 ^ 63 -> (PAGE_SIZE | n) -> page_align n = n.
Proof.
  intros Hn Hp. replace n with (0 + n) by lia. rewrite page_align_add; rewrite ?PAGE_SIZE_eq in *; try lia; done.
Qed.

(** ** What a fresh block is *)

(** The range of the block at [p] with its two guards. *)
Definition block (p size guard a : Z) : Prop := p - guard <= a < p + page_align size + guard.

Section Specs.
Context `{K : Kernel}.

(** Memory that was mapped keeps its contents and its mapping. *)
Definition undisturbed (w w' : world) : Prop :=
  maps_grow (kern w) (kern w') /\ forall a, mapped (kern w) a -> (mem w').[a] = (mem w).[a].

(** Failure as the caller sees it. *)
Definition failed_cleanly (w w' : world) : Prop := errno w' = ENOMEM /\ undisturbed w w'.

(** [p] is the start of zeroed memory of [size] bytes between guards, in pages
    that were not mapped before and are exactly the new ones. *)
Record fresh_block (p size guard : Z) (w w' : world) : Prop := {
  fb_pos : 0 < p - guard;
  fb_page : (PAGE_SIZE | p);
  fb_end : p + page_align size + guard <= 2 ^ 63;
  fb_size : size <= page_align size;
  fb_zero : zero_in p (page_align size) (mem w');
  fb_mem : forall a, mapped (kern w) a -> (mem w').[a] = (mem w).[a];
  fb_maps : forall a, mapped (kern w') a <-> mapped (kern w) a \/ block p size guard a;
  fb_fresh : forall a, block p size guard a -> ~ mapped (kern w) a
}.

Lemma undisturbed_refl w : undisturbed w w.
Proof. split; [reflexivity|done]. Qed.

Lemma fresh_block_undisturbed p size guard w w' : fresh_block p size guard w w' -> undisturbed w w'.
Proof. intros [_ _ _ _ _ Hm Hmaps _]. split; [|done]. intros a Ha. apply Hmaps. by left. Qed.

Lemma undisturbed_trans w1 w2 w3 : undisturbed w1 w2 -> undisturbed w2 w3 -> undisturbed w1 w3.
Proof.
  intros [H12 M12] [H23 M23]. split; [by etransitivity|]. intros a Ha. rewrite M23; [by apply M12|by apply H12].
Qed.
End Specs.

(** ** Proofs *)

Section Proofs.
Context {Cfg : Config} {Cok : ConfigOk Cfg} {K : Kernel} {Kok : KernelOk K}.
Implicit Types (w : world).

Lemma quiet_undisturbed w w' : quiet w w' -> undisturbed w w'.
Proof. intros [Hm Hs]. split; [by apply same_maps_grow|]. intros a _. by rewrite Hm. Qed.

Lemma quiet_refl w : quiet w w.
Proof. split; [done|]. by intros a. Qed.
#[local] Hint Resolve quiet_refl : core.

Lemma fresh_mapping_undisturbed p n w w' : 0 < n -> fresh_mapping p n w w' -> undisturbed w w'.
Proof.
  intros Hn (_ & _ & Hn63 & _ & _ & Hout & Hmaps & Hfresh). split; [intros a Ha; apply Hmaps; by left|].
  intros a Ha. apply Hout. destruct (decide (pages p n a)) as [Hp|Hp]; [by destruct (Hfresh a Hp)|].
  unfold pages in Hp. lia.
Qed.

(** Unmapping pages that were not mapped at the start. *)
Lemma unmapped_undisturbed p n w w1 b w2 :
  (forall a, pages p n a -> ~ mapped (kern w) a) -> undisturbed w w1 -> unmapped p n w1 b w2 -> undisturbed w w2.
Proof.
  intros Hp [Hmaps Hmem]. destruct b; cbn.
  - intros (Hm & _ & Hs). split; [etransitivity; [exact Hmaps|by apply same_maps_grow]|].
    intros a Ha. by rewrite Hm, Hmem.
  - intros (Hout & Hrem & _). split.
    + intros a Ha. apply Hrem. split; [by apply Hmaps|]. intros Hpa. by apply (Hp a).
    + intros a Ha. rewrite Hout; [by apply Hmem|]. destruct (decide (pages p n a)) as [Hpa|Hpa];
        [by destruct (Hp a)|]. unfold pages in Hpa. lia.
Qed.

Lemma wp_unmap_fresh p n w w1 (Q : Z -> world -> Prop) :
  0 < n <= 2 ^ 63 -> (forall a, pages p n a -> ~ mapped (kern w) a) -> undisturbed w w1 -> errno w1 = ENOMEM ->
  (forall w', failed_cleanly w w' -> Q 0 w') -> wp (memory_unmap p n ;;; ret 0) Q memory_fatal w1.
Proof.
  intros Hn Hp Hu He HQ. apply wp_bind. eapply wp_conseq; [by apply wp_memory_unmap|].
  intros b w2 Hw2. apply wp_ret, HQ. split; [|by eapply unmapped_undisturbed].
  destruct b; destruct Hw2 as (_ & ? & ?); [done|congruence].
Qed.

Lemma wp_no_memory w (Q : Z -> world -> Prop) (E : halt -> Prop) :
  (forall w', failed_cleanly w w' -> Q 0 w') -> wp (set_errno ENOMEM ;;; ret 0) Q E w.
Proof.
  intros HQ. unfold set_errno. apply wp_bind, wp_modify, wp_ret, HQ. split; [done|]. split; [done|]. by intros a.
Qed.

Definition fresh_or_failed (size guard : Z) w (p : Z) w' : Prop :=
  p = 0 /\ failed_cleanly w w' \/ fresh_block p size guard w w'.

Lemma wp_allocate_pages size guard unprotect name w :
  fits 64 size -> fits 64 guard -> (PAGE_SIZE | guard) -> 0 < guard ->
  wp (allocate_pages size guard unprotect name) (fresh_or_failed size guard w) memory_fatal w.
Proof.
  intros Hs Hg Hgp Hg0. unfold allocate_pages. pose proof (add_guards_spec size guard Hs Hg) as Hadd.
  destruct (add_guards size guard) as [[] real_size]; cbn [fst snd] in Hadd.
  { apply wp_no_memory. by left. }
  destruct Hadd as [Hlt ->]. set (n := size + 2 * guard) in *. assert (Hn : 0 < n < 2 ^ 64) by (destruct Hs; lia).
  apply wp_bind. eapply wp_conseq; [by apply wp_memory_map_prot|].
  intros real w1 [(-> & Hm & He & Hk)|Hfresh].
  { apply wp_ret. left. split; [done|]. split; [done|]. by apply quiet_undisturbed. }
  pose proof Hfresh as (Hpos & Hpage & Hn63 & Hend & Hzero & Hout & Hmaps & Hnew).
  rewrite (proj2 (Z.eqb_neq real 0)) by lia.
  eapply wp_skip; [apply wp_memory_set_name_quiet|]. intros w2 Hw2.
  assert (Hal : page_align n = page_align size + 2 * guard).
  { unfold n in *. apply page_align_add; [destruct Hs; rewrite ?PAGE_SIZE_eq; lia..|]. by apply Z.divide_mul_r. }
  assert (Hge : 0 <= size <= page_align size).
  { destruct Hs, (page_align_spec size); rewrite ?PAGE_SIZE_eq; lia. }
  assert (Hu : u64 (real + guard) = real + guard) by (apply wrap_small; split; lia). rewrite Hu.
  apply wp_bind, (wp_conseq _ (fun r w' => quiet w2 w' /\ (r = true -> errno w' = ENOMEM))).
  { destruct unprotect; [apply wp_memory_protect_quiet|]. by apply wp_ret. }
  assert (Hu1 : undisturbed w w1) by (apply (fresh_mapping_undisturbed real n); [lia|done]).
  intros [] w3 [Hw3 He].
  - apply (wp_unmap_fresh real n w); [lia|done| |by apply He|by left].
    eapply undisturbed_trans; [exact Hu1|]. eapply undisturbed_trans; by apply quiet_undisturbed.
  - apply wp_ret. right. destruct Hw2 as [Hm2 Hs2], Hw3 as [Hm3 Hs3]. 
    assert (Hblock : forall a, block (real + guard) size guard a <-> pages real n a)
      by (intros a; unfold block, pages; lia).
    assert (Hg1 : PAGE_SIZE <= guard) by (apply Z.divide_pos_le; done).
    split; try lia.
    + by apply Z.divide_add_r.
    + intros a Ha. rewrite Hm3, Hm2. apply Hzero. destruct Hs, (page_align_spec size) as [Hlt1 _]; lia.
    + intros a Ha. rewrite Hm3, Hm2. by apply Hu1.
    + intros a. rewrite (Hs3 a), (Hs2 a), (Hmaps a), Hblock. done.
    + intros a Ha%Hblock. by apply Hnew.
Qed.

(** *** Aligned blocks *)

Lemma page_align_wrap n : 2 ^ 64 - PAGE_SIZE < n < 2 ^ 64 -> page_align n = 0.
Proof.
  rewrite PAGE_SIZE_eq. intros Hn. unfold page_align. change PAGE_SIZE with (2 ^ 12). rewrite align_pow2 by done.
  unfold wrap. replace (n + (2 ^ 12 - 1)) with (n + (2 ^ 12 - 1) - 2 ^ 64 + 1 * 2 ^ 64) by lia.
  rewrite Z_mod_plus_full, Z.mod_small, Z.div_small by lia. done.
Qed.

(** The range p .. p + n - 1 was cut off, if it is not empty. *)
Definition trimmed p n w (failed : bool) w' : Prop :=
  if failed then out_of_memory w w'
  else (forall a, ~ (p <= a < p + n) -> (mem w').[a] = (mem w).[a]) /\
       (forall a, mapped (kern w') a <-> mapped (kern w) a /\ ~ (p <= a < p + n)).

Lemma wp_trim p n w :
  0 <= n <= 2 ^ 63 -> (PAGE_SIZE | n) ->
  wp (if negb (n =? 0) then memory_unmap p n else ret false) (trimmed p n w) memory_fatal w.
Proof.
  intros Hn Hp. destruct (Z.eqb_spec n 0) as [->|Hne]; cbn [negb].
  - apply wp_ret. split; [done|]. intros a. split; [|tauto]. intros Ha. split; [done|lia].
  - eapply wp_conseq; [apply wp_memory_unmap; lia|]. intros [] w' Hw'; [done|]. cbn in *.
    unfold same_outside, maps_removed, pages in Hw'. rewrite page_align_id in Hw' by done.
    destruct Hw' as (Hm & Hs & _). split; [|done]. intros a Ha. apply Hm. lia.
Qed.

(** Where the aligned block lies in the mapping. *)
Record aligned_layout (real alignment guard size lead trail : Z) : Prop := {
  al_lead : 0 <= lead <= alignment - PAGE_SIZE;
  al_trail : lead + trail = alignment - PAGE_SIZE;
  al_lead_page : (PAGE_SIZE | lead);
  al_trail_page : (PAGE_SIZE | trail);
  al_base : (alignment | real + guard + lead)
}.

Lemma aligned_layout_ok real k guard size :
  12 <= k < 64 -> 0 < real -> 0 < guard -> 0 <= size -> (PAGE_SIZE | real) -> (PAGE_SIZE | guard) ->
  real + size + (2 ^ k - PAGE_SIZE) + 2 * guard <= 2 ^ 63 ->
  let lead := align (real + guard) (2 ^ k) - (real + guard) in
  aligned_layout real (2 ^ k) guard size lead (2 ^ k - PAGE_SIZE - lead).
Proof.
  intros Hk Hr Hg Hs Hpr Hpg Hend lead. rewrite PAGE_SIZE_eq in *.
  destruct (align_spec (real + guard) k) as (Hlo & Hdiv & _); [lia|lia|lia|].
  assert (Hpk : (4096 | 2 ^ k)).
  { change 4096 with (2 ^ 12). exists (2 ^ (k - 12)). rewrite <- Z.pow_add_r by lia. f_equal. lia. }
  assert (Hpl : (4096 | lead)).
  { unfold lead. apply Z.divide_sub_r; [|by apply Z.divide_add_r]. by eapply Z.divide_trans. }
  assert (Hl : lead <= 2 ^ k - 4096).
  { assert (Hlt : lead < 2 ^ k) by (unfold lead; lia). destruct Hpl, Hpk. lia. }
  split; rewrite ?PAGE_SIZE_eq; try done; try (unfold lead; lia).
  - apply Z.divide_sub_r; [|done]. apply Z.divide_sub_r; [done|]. by exists 1.
  - unfold lead. by replace (real + guard + (align (real + guard) (2 ^ k) - (real + guard))) with (align (real + guard) (2 ^ k)) by lia.
Qed.

Lemma trimmed_undisturbed p n w w1 b w2 :
  (forall a, p <= a < p + n -> ~ mapped (kern w) a) -> undisturbed w w1 -> trimmed p n w1 b w2 -> undisturbed w w2.
Proof.
  intros Hp [Hmaps Hmem]. destruct b; cbn.
  - intros (Hm & _ & Hs). split; [etransitivity; [exact Hmaps|by apply same_maps_grow]|].
    intros a Ha. by rewrite Hm, Hmem.
  - intros (Hout & Hrem). split.
    + intros a Ha. apply Hrem. split; [by apply Hmaps|]. intros Hpa. by apply (Hp a).
    + intros a Ha. rewrite Hout; [by apply Hmem|]. intros Hpa. by apply (Hp a).
Qed.

Lemma fresh_block_aligned p size guard w w' :
  0 <= size <= page_align size -> page_align size <= 2 ^ 63 -> (PAGE_SIZE | page_align size) ->
  fresh_block p (page_align size) guard w w' -> fresh_block p size guard w w'.
Proof.
  intros Hs Hle Hp. assert (E : page_align (page_align size) = page_align size) by (apply page_align_id; [lia|done]).
  intros []. unfold block in *. rewrite E in *. split; unfold block; done || lia.
Qed.

(** Cutting the aligned block out of the fresh mapping at [real]. *)
Lemma wp_cut_block real al guard size lead trail w w1 :
  aligned_layout real al guard size lead trail -> 0 < guard -> 0 <= size -> 0 < real -> (PAGE_SIZE | size) ->
  (PAGE_SIZE | al) -> (PAGE_SIZE | guard) ->
  let n := size + (al - PAGE_SIZE) + 2 * guard in
  n <= 2 ^ 63 -> real + n <= 2 ^ 63 -> zero_in real n (mem w1) -> (forall a, mapped (kern w) a -> (mem w1).[a] = (mem w).[a]) ->
  (forall a, mapped (kern w1) a <-> mapped (kern w) a \/ real <= a < real + n) ->
  (forall a, real <= a < real + n -> ~ mapped (kern w) a) ->
  let base := real + guard + lead in
  wp (let* lead_failed := (if negb (lead =? 0) then memory_unmap real lead else ret false) in
      if lead_failed then memory_unmap real n ;;; ret 0 else
      let* trail_failed := (if negb (trail =? 0) then memory_unmap (base + size + guard) trail else ret false) in
      if trail_failed then memory_unmap real n ;;; ret 0 else ret base)
     (fun p w' => p = 0 /\ failed_cleanly w w' \/ fresh_block p size guard w w' /\ (al | p)) memory_fatal w1.
Proof.
  intros [Hlead Htrail Hlp Htp Hbase] Hg Hs Hr Hsp Halp Hgp n Hn63 Hend Hzero Hmem Hmaps Hnew base. unfold n in *. clear n.
  set (n := size + (al - PAGE_SIZE) + 2 * guard) in *.
  assert (Hnp : (PAGE_SIZE | n)).
  { unfold n. repeat apply Z.divide_add_r; try done; [by exists (-1)|by apply Z.divide_mul_r]. }
  assert (Hpn : forall a, pages real n a <-> real <= a < real + n).
  { intros a. unfold pages. rewrite page_align_id; [done| |done]. unfold n. lia. }
  assert (Hu1 : undisturbed w w1) by (split; [intros a Ha; apply Hmaps; by left|done]).
  assert (Hpn' : forall a, pages real n a -> ~ mapped (kern w) a) by (intros a Ha%Hpn; by apply Hnew).
  apply wp_bind. eapply wp_conseq; [apply wp_trim; [unfold n in *; lia|done]|].
  intros [] w2 Hw2; assert (Hu2 : undisturbed w w2) by
    (eapply trimmed_undisturbed; [|exact Hu1|exact Hw2]; intros a Ha; apply Hnew; unfold n; lia).
  { apply (wp_unmap_fresh real n w); [unfold n in *; lia|done|done|by apply Hw2|by left]. }
  apply wp_bind. eapply wp_conseq; [apply wp_trim; [unfold n in *; lia|done]|].
  intros [] w3 Hw3; assert (Hu3 : undisturbed w w3) by
    (eapply trimmed_undisturbed; [|exact Hu2|exact Hw3]; intros a Ha; apply Hnew; unfold n, base in *; lia).
  { apply (wp_unmap_fresh real n w); [unfold n in *; lia|done|done|by apply Hw3|by left]. }
  apply wp_ret. right. split; [|done]. destruct Hw2 as [Hm2 Hk2], Hw3 as [Hm3 Hk3]. unfold n, base in *.
  assert (Hid : page_align size = size) by (apply page_align_id; [lia|done]).
  split; unfold block; rewrite ?Hid; try lia.
  - by eapply Z.divide_trans; [|exact Hbase].
  - intros a Ha. rewrite Hm3, Hm2 by lia. apply Hzero. lia.
  - apply Hu3.
  - intros a. rewrite (Hk3 a), (Hk2 a), (Hmaps a). pose proof (Hnew a) as Ha. split.
    + intros [[[Hm|Hin] H1] H2]; [by left|right; lia].
    + intros [Hm|Hin]; [|split; [split; [right|]|]; lia].
      split; [split; [by left|]|]; intros Hin; apply Ha; try done; lia.
  - intros a Ha. apply Hnew. lia.
Qed.

(** *** [allocate_pages_aligned] *)

Lemma pow2_pages k : 12 <= k < 64 -> (PAGE_SIZE | 2 ^ k) /\ PAGE_SIZE <= 2 ^ k /\ 2 ^ k < 2 ^ 64.
Proof.
  intros Hk. rewrite PAGE_SIZE_eq. split; [|split; [|apply Z.pow_lt_mono_r; lia]].
  - change 4096 with (2 ^ 12). exists (2 ^ (k - 12)). rewrite <- Z.pow_add_r by lia. f_equal. lia.
  - change 4096 with (2 ^ 12). apply Z.pow_le_mono_r; lia.
Qed.

Lemma wp_cut_aligned real k u guard w w1 :
  let n := u + (2 ^ k - PAGE_SIZE) + 2 * guard in
  0 <= u -> 12 <= k < 64 -> 0 < guard -> (PAGE_SIZE | u) -> (PAGE_SIZE | guard) -> 0 < real -> (PAGE_SIZE | real) ->
  n <= 2 ^ 63 -> real + n <= 2 ^ 63 -> zero_in real n (mem w1) -> undisturbed w w1 ->
  (forall a, mapped (kern w1) a <-> mapped (kern w) a \/ real <= a < real + n) ->
  (forall a, real <= a < real + n -> ~ mapped (kern w) a) ->
  wp (cut_aligned real n (u + (2 ^ k - PAGE_SIZE)) u (2 ^ k) guard)
     (fun p w' => p = 0 /\ failed_cleanly w w' \/ fresh_block p u guard w w' /\ (2 ^ k | p)) memory_fatal w1.
Proof.
  intros n Hu0 Hk Hg0 Hup Hgp Hpos Hpage Hn63 Hend Hzero Hu1 Hmaps Hnew.
  destruct (pow2_pages k Hk) as (Hpk & Hk0 & Hk1).
  assert (Hnp : (PAGE_SIZE | n)).
  { unfold n. repeat apply Z.divide_add_r; try done; [by exists (-1)|by apply Z.divide_mul_r]. }
  assert (Hn0 : 0 < n) by (unfold n; lia).
  assert (Hpn : page_align n = n) by (apply page_align_id; [lia|done]).
  assert (Hlay := aligned_layout_ok real k guard u Hk Hpos Hg0 Hu0 Hpage Hgp ltac:(unfold n in *; lia)). cbv zeta in Hlay.
  unfold cut_aligned. cbv zeta. rewrite (wrap_small 64 (real + guard)) by (split; unfold n in *; lia).
  set (lead := align (real + guard) (2 ^ k) - (real + guard)) in *.
  destruct (al_lead _ _ _ _ _ _ Hlay) as [Hl0 Hl1].
  rewrite (wrap_small 64 lead) by (split; lia).
  rewrite (wrap_small 64 (u + (2 ^ k - PAGE_SIZE) - lead)) by (unfold n in *; split; lia).
  replace (u + (2 ^ k - PAGE_SIZE) - lead - u) with (2 ^ k - PAGE_SIZE - lead) by lia.
  rewrite (wrap_small 64 (2 ^ k - PAGE_SIZE - lead)) by (split; lia).
  rewrite (wrap_small 64 (real + guard + lead)) by (split; unfold n in *; lia).
  rewrite (wrap_small 64 (real + guard + lead + u + guard)) by (split; unfold n in *; lia).
  apply wp_bind. eapply wp_conseq; [apply wp_memory_protect_quiet|]. intros protect_failed w3 [Hw3 He].
  assert (Hu3 : undisturbed w w3) by (eapply undisturbed_trans; [exact Hu1|]; by apply quiet_undisturbed).
  destruct protect_failed.
  { apply (wp_unmap_fresh real n w); [lia| |done|by apply He|by left]. intros a. unfold pages. rewrite Hpn. apply Hnew. }
  destruct Hw3 as [Hm3 Hs3].
  apply (wp_cut_block real (2 ^ k) guard u lead (2 ^ k - PAGE_SIZE - lead) w w3 Hlay); try done.
  - intros a Ha. rewrite Hm3. by apply Hzero.
  - apply Hu3.
  - intros a. by rewrite (Hs3 a), (Hmaps a).
Qed.

Lemma wp_allocate_pages_aligned size k guard name w :
  fits 64 size -> fits 64 guard -> (PAGE_SIZE | guard) -> 0 < guard -> 12 <= k < 64 ->
  wp (allocate_pages_aligned size (2 ^ k) guard name)
     (fun p w' => p = 0 /\ failed_cleanly w w' \/ fresh_block p size guard w w' /\ (2 ^ k | p)) memory_fatal w.
Proof.
  intros Hs Hg Hgp Hg0 Hk. unfold allocate_pages_aligned. cbv zeta.
  destruct (Z.eqb_spec (page_align size) 0) as [|Hne]; [apply wp_no_memory; by left|].
  assert (Hsz : size <= 2 ^ 64 - PAGE_SIZE).
  { apply Z.nlt_ge. intros Hlt. destruct Hne, Hs. apply page_align_wrap. lia. }
  destruct (page_align_spec size) as (Hal & Hpal & _); [destruct Hs; lia|].
  destruct (pow2_pages k Hk) as (Hpk & Hk0 & Hk1). set (u := page_align size) in *. pose proof PAGE_SIZE_eq as HP.
  rewrite (wrap_small 64 (2 ^ k - PAGE_SIZE)) by (split; lia).
  assert (Hu : fits 64 u) by (destruct Hs; split; lia).
  assert (Hal2 : fits 64 (2 ^ k - PAGE_SIZE)) by (split; lia).
  pose proof (add_overflow_spec u (2 ^ k - PAGE_SIZE) Hu Hal2) as Hadd.
  destruct (add_overflow u _) as [[] A]; cbn [fst snd] in Hadd; [apply wp_no_memory; by left|].
  destruct Hadd as [HA ->]. assert (HA2 : fits 64 (u + (2 ^ k - PAGE_SIZE))) by (destruct Hu; split; lia).
  pose proof (add_guards_spec _ guard HA2 Hg) as Hadd.
  destruct (add_guards _ guard) as [[] n]; cbn [fst snd] in Hadd; [apply wp_no_memory; by left|].
  destruct Hadd as [Hn ->]. set (n := u + (2 ^ k - PAGE_SIZE) + 2 * guard) in *.
  assert (Hn0 : 0 < n < 2 ^ 64) by (destruct Hu; unfold n in *; lia).
  apply wp_bind. eapply wp_conseq; [by apply wp_memory_map_prot|].
  intros real w1 [(-> & Hm & He & Hq)|Hfresh].
  { apply wp_ret. left. split; [done|]. split; [done|]. by apply quiet_undisturbed. }
  assert (Hu1 : undisturbed w w1) by (apply (fresh_mapping_undisturbed real n); [lia|done]).
  destruct Hfresh as (Hpos & Hpage & Hn63 & Hend & Hzero & Hout & Hmaps & Hnew).
  assert (Hpn : page_align n = n).
  { apply page_align_id; [lia|]. unfold n. repeat apply Z.divide_add_r; try done; [by exists (-1)|by apply Z.divide_mul_r]. }
  unfold maps_added, pages in Hmaps, Hnew.
  rewrite Hpn in *. rewrite (proj2 (Z.eqb_neq real 0)) by lia.
  eapply wp_skip; [apply wp_memory_set_name_quiet|]. intros w2 Hw2.
  eapply wp_conseq; [apply (wp_cut_aligned real k u guard w); fold n; try done; [by destruct Hu|..]|].
  - intros a Ha. destruct Hw2 as [-> _]. by apply Hzero.
  - eapply undisturbed_trans; [exact Hu1|]. by apply quiet_undisturbed.
  - intros a. by rewrite (proj2 Hw2 a), (Hmaps a).
  - intros p w' [?|[Hb Hp]]; [by left|right]. split; [|done].
    apply fresh_block_aligned; fold u; try done; destruct Hs; unfold n in *; lia.
Qed.

(** *** [deallocate_pages] *)

(** A block as the allocator holds it. *)
Record held_block (p size guard : Z) : Prop := {
  hb_pos : 0 < p - guard;
  hb_page : (PAGE_SIZE | p);
  hb_end : p + page_align size + guard <= 2 ^ 63;
  hb_size : 0 < size <= page_align size;
  hb_guard : 0 <= guard;
  hb_guard_page : (PAGE_SIZE | guard)
}.

(** Only the pages of a range may have changed or gone. *)
Definition only_in (r : Z -> Prop) w w' : Prop :=
  forall a, ~ r a -> (mem w').[a] = (mem w).[a] /\ (mapped (kern w') a <-> mapped (kern w) a).

Lemma held_block_range p size guard a :
  held_block p size guard ->
  u64 (p - guard) = p - guard /\ u64 (size + u64 (guard * 2)) = size + 2 * guard /\
  0 < size + 2 * guard <= 2 ^ 63 /\ (pages (p - guard) (size + 2 * guard) a <-> block p size guard a).
Proof.
  intros [Hpos Hpage Hend [Hs Hs'] Hg Hgp]. pose proof PAGE_SIZE_eq.
  rewrite (wrap_small 64 (p - guard)), (wrap_small 64 (guard * 2)) by (split; lia).
  rewrite wrap_small by (split; lia). split; [done|]. split; [lia|]. split; [lia|].
  unfold pages, block. rewrite page_align_add; [lia|lia|lia|lia|by apply Z.divide_mul_r].
Qed.

(** Nothing outside the pages of the range changes or goes. *)
Definition confined (r : Z -> Prop) w w' : Prop :=
  forall a, ~ r a -> (mem w').[a] = (mem w).[a] /\ (mapped (kern w) a -> mapped (kern w') a).

Lemma wp_memory_unmap_confined p n w :
  0 < n <= 2 ^ 63 -> wp (memory_unmap p n) (fun _ => confined (pages p n) w) memory_fatal w.
Proof.
  intros Hn. eapply wp_conseq; [by apply wp_memory_unmap|]. intros [] w' Hw' a Ha.
  - destruct Hw' as (-> & _ & Hs). split; [done|]. by apply Hs.
  - destruct Hw' as (Hout & Hrem & _). split; [apply Hout; unfold pages in Ha; lia|]. intros Hm. by apply Hrem.
Qed.

Lemma wp_deallocate_pages p size guard w :
  held_block p size guard ->
  wp (deallocate_pages p size guard)
     (fun _ w' => only_in (block p size guard) w w' /\
        ((forall a, block p size guard a -> ~ mapped (kern w') a) \/
         zero_in p size (mem w') /\ same_maps (kern w) (kern w'))) memory_fatal w.
Proof.
  intros Hb. destruct (held_block_range p size guard 0 Hb) as (E1 & E2 & Hn & _). pose proof PAGE_SIZE_eq.
  assert (Hrange := fun a => proj2 (proj2 (proj2 (held_block_range p size guard a Hb)))).
  destruct Hb as [Hpos Hpage Hend [Hs Hs'] Hg Hgp]. unfold deallocate_pages. rewrite E1, E2.
  apply wp_bind. eapply wp_conseq; [by apply wp_memory_unmap|]. intros [] w1 Hw1.
  2: { apply wp_ret. destruct Hw1 as (Hout & Hrem & _). split.
       - intros a Ha. rewrite <- Hrange in Ha. rewrite (Hrem a). split; [|tauto].
         apply Hout. unfold pages in Ha. lia.
       - left. intros a Ha%Hrange. rewrite (Hrem a). tauto. }
  destruct Hw1 as (Hm1 & _ & Hs1). apply wp_bind. eapply wp_conseq; [apply wp_memory_purge_maps; lia|].
  intros purge_failed w2 [Hw2 Hs2].
  assert (Hs12 : same_maps (kern w) (kern w2)) by (intros a; by rewrite (Hs2 a), (Hs1 a)).
  apply (wp_conseq _ (fun _ w' => same_maps (kern w) (kern w') /\ zero_in p size (mem w') /\
    same_outside p size (mem w) (mem w'))).
  { destruct purge_failed.
    - destruct Hw2 as [Hm2 _]. apply wp_bind, wp_gets, wp_modify. cbn [kern mem id].
      split; [done|]. split; [apply memset0_zero|]. intros a Ha. rewrite memset0_only by lia. by rewrite Hm2, Hm1.
    - apply wp_ret. destruct Hw2 as [Hz Hout]. split; [done|]. split; [done|]. intros a Ha. rewrite Hout by done. by rewrite Hm1. }
  intros _ w' (Hs3 & Hz & Hout). split; [|by right]. intros a Ha. split; [|done]. apply Hout.
  unfold block in Ha. lia.
Qed.
End Proofs.

(** ** Properties *)

Section Properties.
Context {Cfg : Config} {Cok : ConfigOk Cfg} {K : Kernel} {Kok : KernelOk K}.

(** C29: [allocate_pages] fails exactly like an allocation that does not fit when
    the size with its guards overflows size_t, before any system call; otherwise
    it returns zeroed pages between two guards, all of them pages that were not
    mapped before, or NULL with errno = ENOMEM. Either way everything mapped
    before keeps its mapping and its contents. *)
Theorem allocate_pages_ok size guard unprotect name w :
  fits 64 size -> fits 64 guard -> (PAGE_SIZE | guard) -> 0 < guard ->
  (2 ^ 64 <= size + 2 * guard ->
     allocate_pages size guard unprotect name w = Ret 0 (World _ (kern w) (mem w) ENOMEM)) /\
  wp (allocate_pages size guard unprotect name) (fresh_or_failed size guard w) memory_fatal w.
Proof.
  intros Hs Hg Hgp Hg0. split; [|by apply wp_allocate_pages]. intros Hle.
  pose proof (add_guards_spec size guard Hs Hg) as Hadd. unfold allocate_pages.
  destruct (add_guards size guard) as [[] n]; cbn [fst snd] in Hadd; [done|lia].
Qed.

(** C30: [allocate_pages_aligned] returns zeroed pages aligned to any power of two
    from the page size on, and trims its mapping to exactly the block with its
    guards; or it returns NULL with errno = ENOMEM. Everything mapped before
    keeps its mapping and its contents, whichever of its system calls fails. *)
Theorem allocate_pages_aligned_ok size k guard name w :
  fits 64 size -> fits 64 guard -> (PAGE_SIZE | guard) -> 0 < guard -> 12 <= k < 64 ->
  wp (allocate_pages_aligned size (2 ^ k) guard name)
     (fun p w' => p = 0 /\ failed_cleanly w w' \/ fresh_block p size guard w w' /\ (2 ^ k | p)) memory_fatal w.
Proof. apply wp_allocate_pages_aligned. Qed.
End Properties.

(** ** Witnesses *)

Section Witnesses.
#[local] Existing Instance default_config.

Lemma allocate_pages_ok_witness :
  wp (allocate_pages 20000 8192 true "malloc large") (fresh_or_failed 20000 8192 (demo_world [])) memory_fatal
     (demo_world []).
Proof.
  exact (proj2 (allocate_pages_ok 20000 8192 true "malloc large" (demo_world []) ltac:(by vm_compute)
    ltac:(by vm_compute) ltac:(by exists 2) ltac:(done))).
Defined.

Lemma allocate_pages_aligned_ok_witness :
  wp (allocate_pages_aligned 5000 (2 ^ 16) 8192 "malloc large")
     (fun p w' => p = 0 /\ failed_cleanly (demo_world [false; false; true]) w' \/
        fresh_block p 5000 8192 (demo_world [false; false; true]) w' /\ (2 ^ 16 | p)) memory_fatal
     (demo_world [false; false; true]).
Proof.
  exact (allocate_pages_aligned_ok 5000 16 8192 "malloc large" (demo_world [false; false; true]) ltac:(by vm_compute)
    ltac:(by vm_compute) ltac:(by exists 2) ltac:(done) ltac:(done)).
Defined.
End Witnesses.
