(* ===== verification/RandomSource.v ===== *)
(** The interface between random.c and h_malloc.c: what the allocator asks of
    its generators and what it relies on. [Random] implements it with the
    ChaCha8 generator; the slab and region components are proved against the
    interface. *)

From S2P Require Import Prelude Config Kernel Maps.

Class RandomSource `{Kernel} (R : Type) : Type := {
  get_random_u16_uniform : Z -> M (R * world) Z;
  get_random_u32_uniform : Z -> M (R * world) Z;
  get_random_u64_uniform : Z -> M (R * world) Z;
  get_random_u64 : M (R * world) Z;
  (** the state on zeroed pages, its seeding from the kernel and from another
      generator *)
  random_zero : R;
  random_init : M (R * world) unit;
  random_init_from : R -> M (R * world) R;
  (** a seeded generator *)
  random_inv : R -> Prop;
  (** how a draw may fail to return *)
  random_halts : halt -> Prop
}.

(** The postcondition of a draw whose values satisfy [P]: the generator stays
    seeded and user memory is left alone; its only other effects are on the
    kernel state and errno, through reseeding. *)
Definition drawn `{Kernel} {R} `{!RandomSource R} (P : Z -> Prop) (s : R * world) (v : Z)
    (s' : R * world) : Prop :=
  P v /\ random_inv (fst s') /\ mem (snd s') = mem (snd s).

(** The random source or a system call stops the program. *)
Definition system_halts `{Kernel} {R} `{!RandomSource R} (h : halt) : Prop := random_halts h \/ memory_fatal h.

Class RandomSourceOk `{Kernel} (R : Type) `{!RandomSource R} : Prop := {
  u16_uniform_ok bound (s : R * world) : random_inv (fst s) -> 0 < bound < 2 ^ 16 ->
    wp (get_random_u16_uniform bound) (drawn (fun v => 0 <= v < bound) s) random_halts s;
  u32_uniform_ok bound (s : R * world) : random_inv (fst s) -> 0 < bound < 2 ^ 32 ->
    wp (get_random_u32_uniform bound) (drawn (fun v => 0 <= v < bound) s) random_halts s;
  u64_uniform_ok bound (s : R * world) : random_inv (fst s) -> 0 < bound < 2 ^ 64 ->
    wp (get_random_u64_uniform bound) (drawn (fun v => 0 <= v < bound) s) random_halts s;
  u64_uniform_zero (s : R * world) : random_inv (fst s) ->
    wp (get_random_u64_uniform 0) (drawn (fun v => v = 0) s) random_halts s;
  u64_ok (s : R * world) : random_inv (fst s) ->
    wp get_random_u64 (drawn (fits 64) s) random_halts s;
  init_ok (s : R * world) : fst s = random_zero \/ random_inv (fst s) ->
    wp random_init (fun _ s' => random_inv (fst s') /\ mem (snd s') = mem (snd s)) random_halts s;
  init_from_ok (s : R * world) : random_inv (fst s) ->
    wp (random_init_from random_zero)
       (fun r s' => random_inv r /\ random_inv (fst s') /\ mem (snd s') = mem (snd s)) random_halts s;
  (** no draw takes a mapping away *)
  u16_uniform_maps bound :: KeepsMaps (get_random_u16_uniform bound);
  u32_uniform_maps bound :: KeepsMaps (get_random_u32_uniform bound);
  u64_uniform_maps bound :: KeepsMaps (get_random_u64_uniform bound);
  u64_maps :: KeepsMaps get_random_u64;
  init_maps :: KeepsMaps random_init;
  init_from_maps r :: KeepsMaps (random_init_from r)
}.

(** A concrete source for the examples: a counter reduced to the range. *)

Definition demo_draw (bound : Z) : M (Z * @world demo_kernel) Z :=
  fun s => Ret (fst s mod Z.max 1 bound) (fst s + 1, snd s).

#[export] Instance demo_random : @RandomSource demo_kernel Z := {|
  get_random_u16_uniform := demo_draw;
  get_random_u32_uniform := demo_draw;
  get_random_u64_uniform := demo_draw;
  get_random_u64 := demo_draw (2 ^ 64);
  random_zero := 0;
  random_init := modify (fun s => (fst s + 1, snd s));
  random_init_from _ := demo_draw 1000;
  random_inv _ := True;
  random_halts := no_halt
|}.

#[export] Instance demo_draw_keeps bound : KeepsMaps (demo_draw bound).
Proof. intros s. unfold wp. cbn. reflexivity. Qed.

Lemma demo_draw_ok bound (s : Z * world) :
  0 < bound -> wp (demo_draw bound) (drawn (fun v => 0 <= v < bound) s) no_halt s.
Proof. intros Hb. split; [|done]. rewrite Z.max_r by lia. by apply Z.mod_pos_bound. Qed.

#[export] Instance demo_random_ok : RandomSourceOk Z.
Proof.
  constructor; intros; try apply _; try (apply demo_draw_ok; lia); try (intros s'; unfold wp; cbn; reflexivity).
  - split; [exact (Z.mod_1_r _)|done].
  - done.
  - done.
Qed.
