(* ===== verification/SlabMeta.v ===== *)
(** Slab metadata (h_malloc.c, [struct slab_metadata] to [is_free_slab]): the
    used and quarantine bitmaps of a slab, and the search for a free slot. *)

From S2P Require Import Prelude Config Util SizeClass Kernel RandomSource.

(** A pointer to a [struct slab_metadata] is [None] or an index in slab_info. *)
Record slab_metadata := SlabMetadata {
  bitmap : gmap Z Z;
  next : option Z;
  prev : option Z;
  canary_value : Z;
  count : Z;
  quarantine_bitmap : gmap Z Z
}.

#[export] Instance slab_metadata_zeroed : Zeroed slab_metadata :=
  SlabMetadata ∅ None None 0 0 ∅.

Definition set_next (p : option Z) (d : slab_metadata) : slab_metadata :=
  SlabMetadata (bitmap d) p (prev d) (canary_value d) (count d) (quarantine_bitmap d).
Definition set_prev (p : option Z) (d : slab_metadata) : slab_metadata :=
  SlabMetadata (bitmap d) (next d) p (canary_value d) (count d) (quarantine_bitmap d).
Definition set_canary_value (v : Z) (d : slab_metadata) : slab_metadata :=
  SlabMetadata (bitmap d) (next d) (prev d) v (count d) (quarantine_bitmap d).

(** sizeof(struct slab_metadata) *)
Definition sizeof_slab_metadata `{Config} : Z :=
  4 * 8 + 8 + 8 + canary_size + 8 + (if SLAB_QUARANTINE then 4 * 8 else 0).

(** ** 256-bit bitmaps of four 64-bit words *)

(** b[index / 64] |= 1UL << (index - index / 64 * 64) and its companions *)
Definition bitmap_set (b : gmap Z Z) (index : Z) : gmap Z Z :=
  let bucket := index / U64_WIDTH in
  b.[bucket <- Z.lor b.[bucket] (u64 (Z.shiftl 1 (index - bucket * U64_WIDTH)))].

Definition bitmap_clear (b : gmap Z Z) (index : Z) : gmap Z Z :=
  let bucket := index / U64_WIDTH in
  b.[bucket <- Z.land b.[bucket] (u64 (Z.lnot (u64 (Z.shiftl 1 (index - bucket * U64_WIDTH)))))].

Definition bitmap_get (b : gmap Z Z) (index : Z) : bool :=
  let bucket := index / U64_WIDTH in
  negb (Z.land (Z.shiftr b.[bucket] (index - bucket * U64_WIDTH)) 1 =? 0).

Definition set_used_slot (d : slab_metadata) (index : Z) : slab_metadata :=
  SlabMetadata (bitmap_set (bitmap d) index) (next d) (prev d) (canary_value d)
    (u16 (count d + 1)) (quarantine_bitmap d).

Definition clear_used_slot (d : slab_metadata) (index : Z) : slab_metadata :=
  SlabMetadata (bitmap_clear (bitmap d) index) (next d) (prev d) (canary_value d)
    (u16 (count d - 1)) (quarantine_bitmap d).

Definition is_used_slot (d : slab_metadata) (index : Z) : bool := bitmap_get (bitmap d) index.

Definition set_quarantine_slot (d : slab_metadata) (index : Z) : slab_metadata :=
  SlabMetadata (bitmap d) (next d) (prev d) (canary_value d) (count d)
    (bitmap_set (quarantine_bitmap d) index).

Definition clear_quarantine_slot (d : slab_metadata) (index : Z) : slab_metadata :=
  SlabMetadata (bitmap d) (next d) (prev d) (canary_value d) (count d)
    (bitmap_clear (quarantine_bitmap d) index).

Definition is_quarantine_slot (d : slab_metadata) (index : Z) : bool :=
  bitmap_get (quarantine_bitmap d) index.

(** ~0UL *)
Definition all_ones : Z := u64 (Z.lnot 0).

Definition get_mask (slots : Z) : Z :=
  if slots <? U64_WIDTH then u64 (Z.shiftl all_ones slots) else 0.

(** The loop of the randomized search, from bucket [i] with its word [masked]. *)
Fixpoint get_free_slot_loop (fuel : nat) (slots : Z) (b : gmap Z Z) (i masked : Z) : option Z :=
  match fuel with
  | O => None
  | S fuel =>
      let masked :=
        if i =? slots / U64_WIDTH then Z.lor masked (get_mask (slots - i * U64_WIDTH)) else masked in
      if negb (masked =? all_ones) then Some (ffz64 masked - 1 + i * U64_WIDTH)
      else
        let i := if i =? (slots - 1) / U64_WIDTH then 0 else i + 1 in
        get_free_slot_loop fuel slots b i b.[i]
  end.

(** The loop of the sequential search over the remaining [n] buckets. *)
Fixpoint get_free_slot_linear (n : nat) (slots : Z) (b : gmap Z Z) (i : Z) : option Z :=
  match n with
  | O => None
  | S n =>
      let masked := b.[i] in
      let masked :=
        if i =? (slots - 1) / U64_WIDTH
        then Z.lor masked (get_mask (slots - i * U64_WIDTH)) else masked in
      if negb (masked =? all_ones) then Some (ffz64 masked - 1 + i * U64_WIDTH)
      else get_free_slot_linear n slots b (i + 1)
  end.

(** The first visit masks off the slots below the random start; a visit to
    each of at most four buckets and a second one to the first suffice. *)
Definition get_free_slot_from (random_index slots : Z) (d : slab_metadata) : option Z :=
  let first_bitmap := random_index / U64_WIDTH in
  let random_split :=
    u64 (Z.lnot (u64 (Z.shiftl all_ones (random_index - first_bitmap * U64_WIDTH)))) in
  let i := first_bitmap in
  let masked := Z.lor (bitmap d).[i] random_split in
  get_free_slot_loop 5 slots (bitmap d) i masked.

Section GetFreeSlot.
Context `{Cfg : Config} `{K : Kernel} {R : Type} `{!RandomSource R}.

Definition get_free_slot (slots : Z) (d : slab_metadata) : M (R * world) Z :=
  if SLOT_RANDOMIZE then
    let* random_index := get_random_u16_uniform slots in
    match get_free_slot_from random_index slots d with
    | Some slot => ret slot
    | None => stuck
    end
  else
    match get_free_slot_linear (Z.to_nat ((slots - 1) / U64_WIDTH + 1)) slots (bitmap d) 0 with
    | Some slot => ret slot
    | None => fatal_error "no zero bits"
    end.
End GetFreeSlot.

Definition has_free_slots (slots : Z) (d : slab_metadata) : bool := count d <? slots.

Definition is_free_slab (d : slab_metadata) : bool := count d =? 0.

(** The variants compiled when SLAB_METADATA_COUNT is not defined. *)
Definition has_free_slots_bitmap (slots : Z) (d : slab_metadata) : bool :=
  let b := bitmap d in
  if slots <=? U64_WIDTH then
    let masked := Z.lor b.[0] (get_mask slots) in negb (masked =? all_ones)
  else if slots <=? U64_WIDTH * 2 then
    let masked := Z.lor b.[1] (get_mask (slots - U64_WIDTH)) in
    negb (b.[0] =? all_ones) || negb (masked =? all_ones)
  else if slots <=? U64_WIDTH * 3 then
    let masked := Z.lor b.[2] (get_mask (slots - U64_WIDTH * 2)) in
    negb (b.[0] =? all_ones) || negb (b.[1] =? all_ones) || negb (masked =? all_ones)
  else
    let masked := Z.lor b.[3] (get_mask (slots - U64_WIDTH * 3)) in
    negb (b.[0] =? all_ones) || negb (b.[1] =? all_ones) || negb (b.[2] =? all_ones) ||
    negb (masked =? all_ones).

Definition is_free_slab_bitmap (d : slab_metadata) : bool :=
  let b := bitmap d in
  (b.[0] =? 0) && (b.[1] =? 0) && (b.[2] =? 0) && (b.[3] =? 0).

(** ** What a bitmap means *)

(** The words fit 64 bits and no bit at or beyond [slots] is set. *)
Definition bitmap_wf (slots : Z) (b : gmap Z Z) : Prop :=
  (forall i, fits 64 b.[i]) /\ (forall s, slots <= s -> bitmap_get b s = false).

(** The slots whose bit is set, and their number. *)
Definition bitmap_slots (slots : Z) (b : gmap Z Z) : list Z :=
  List.filter (fun s => bitmap_get b s) (seqZ 0 slots).
Definition popcount (slots : Z) (b : gmap Z Z) : Z := Z.of_nat (length (bitmap_slots slots b)).

(** The metadata of one slab is consistent. *)
Record meta_wf (slots : Z) (d : slab_metadata) : Prop := {
  mw_used : bitmap_wf slots (bitmap d);
  mw_quarantine : bitmap_wf slots (quarantine_bitmap d);
  mw_count : count d = popcount slots (bitmap d)
}.

(** ** Bit-level facts *)

Create HintDb slabs discriminated.

Lemma bucket_offset s : s - s / U64_WIDTH * U64_WIDTH = s mod 64.
Proof. unfold U64_WIDTH. pose proof (Z.div_mod s 64). lia. Qed.

Lemma bitmap_get_testbit b s : bitmap_get b s = Z.testbit b.[s / 64] (s mod 64).
Proof.
  unfold bitmap_get. cbv zeta. rewrite bucket_offset. unfold U64_WIDTH.
  assert (Hm : 0 <= s mod 64 < 64) by (apply Z.mod_pos_bound; lia).
  replace (Z.land (Z.shiftr b.[s / 64] (s mod 64)) 1)
    with (Z.b2z (Z.testbit b.[s / 64] (s mod 64))).
  - by destruct (Z.testbit _ _).
  - rewrite (Z.land_ones _ 1) by lia. change (2 ^ 1) with 2.
    rewrite <- Z.bit0_mod, Z.shiftr_spec by lia. by rewrite Z.add_0_l.
Qed.

Lemma bit_u64 k : 0 <= k < 64 -> u64 (Z.shiftl 1 k) = 2 ^ k.
Proof.
  intros. rewrite Z.shiftl_1_l. apply wrap_small.
  split; [by apply Z.lt_le_incl, Z.pow_pos_nonneg; lia|]. apply Z.pow_lt_mono_r; lia.
Qed.

(** Two slots share a word and a bit exactly when they are equal. *)
Lemma slot_eq_cases s t : s / 64 = t / 64 -> s mod 64 = t mod 64 -> s = t.
Proof. intros. pose proof (Z.div_mod s 64). pose proof (Z.div_mod t 64). lia. Qed.

Lemma bitmap_get_set b s t :
  bitmap_get (bitmap_set b s) t = (s =? t) || bitmap_get b t.
Proof.
  rewrite !bitmap_get_testbit. unfold bitmap_set. cbv zeta. rewrite bucket_offset.
  unfold U64_WIDTH.
  assert (Hs : 0 <= s mod 64 < 64) by (apply Z.mod_pos_bound; lia).
  assert (Ht : 0 <= t mod 64 < 64) by (apply Z.mod_pos_bound; lia).
  rewrite bit_u64, aget_aset_case by done. case_decide as Hb.
  - rewrite Z.lor_spec, <- Hb, Z.pow2_bits_eqb by lia. rewrite orb_comm. f_equal.
    destruct (Z.eqb_spec (s mod 64) (t mod 64)), (Z.eqb_spec s t); subst; try done.
    exfalso. by eauto using slot_eq_cases.
  - destruct (Z.eqb_spec s t); [by subst|done].
Qed.

Lemma bitmap_get_clear b s t :
  bitmap_get (bitmap_clear b s) t = negb (s =? t) && bitmap_get b t.
Proof.
  rewrite !bitmap_get_testbit. unfold bitmap_clear. cbv zeta. rewrite bucket_offset.
  unfold U64_WIDTH.
  assert (Hs : 0 <= s mod 64 < 64) by (apply Z.mod_pos_bound; lia).
  assert (Ht : 0 <= t mod 64 < 64) by (apply Z.mod_pos_bound; lia).
  rewrite bit_u64, aget_aset_case by done. case_decide as Hb.
  - rewrite Z.land_spec, testbit_wrap, bool_decide_true, andb_true_l by lia.
    rewrite Z.lnot_spec, Z.pow2_bits_eqb, <- Hb by lia. rewrite andb_comm. f_equal. f_equal.
    destruct (Z.eqb_spec (s mod 64) (t mod 64)), (Z.eqb_spec s t); subst; try done.
    exfalso. by eauto using slot_eq_cases.
  - destruct (Z.eqb_spec s t); [by subst|done].
Qed.

Lemma fits_lor w x y : 0 <= w -> fits w x -> fits w y -> fits w (Z.lor x y).
Proof.
  intros Hw Hx Hy. apply testbit_high_fits; [done| |].
  - apply Z.lor_nonneg. destruct Hx, Hy. lia.
  - intros i Hi. by rewrite Z.lor_spec, !(fits_testbit_high w) by done.
Qed.

Lemma fits_land_l w x y : 0 <= w -> fits w x -> fits w (Z.land x y).
Proof.
  intros Hw Hx. apply testbit_high_fits; [done| |].
  - apply Z.land_nonneg. destruct Hx. lia.
  - intros i Hi. by rewrite Z.land_spec, (fits_testbit_high w) by done.
Qed.

#[export] Hint Resolve fits_lor fits_land_l : words.

Lemma bitmap_wf_empty slots : bitmap_wf slots ∅.
Proof.
  split.
  - intros i. rewrite aget_empty_Z. split; lia.
  - intros s _. rewrite bitmap_get_testbit, aget_empty_Z. apply Z.testbit_0_l.
Qed.

Lemma bitmap_wf_set slots b s :
  bitmap_wf slots b -> s < slots -> bitmap_wf slots (bitmap_set b s).
Proof.
  intros [Hf Hhi] Hs. split.
  - intros i. unfold bitmap_set. cbv zeta. rewrite aget_aset_case. case_decide; [|done].
    apply fits_lor; [lia|done|]. by apply wrap_fits.
  - intros t Ht. rewrite bitmap_get_set, Hhi by done. by destruct (Z.eqb_spec s t); [lia|].
Qed.

Lemma bitmap_wf_clear slots b s : bitmap_wf slots b -> bitmap_wf slots (bitmap_clear b s).
Proof.
  intros [Hf Hhi]. split.
  - intros i. unfold bitmap_clear. cbv zeta. rewrite aget_aset_case. case_decide; [|done].
    apply fits_land_l; [lia|done].
  - intros t Ht. by rewrite bitmap_get_clear, Hhi, andb_false_r.
Qed.

#[export] Hint Resolve bitmap_wf_empty bitmap_wf_set bitmap_wf_clear : slabs.

(** *** Counting *)

Lemma elem_of_bitmap_slots slots b s :
  s ∈ bitmap_slots slots b <-> 0 <= s < slots /\ bitmap_get b s = true.
Proof.
  unfold bitmap_slots. rewrite list_elem_of_In, filter_In, <- list_elem_of_In, elem_of_seqZ.
  split; intros [? ?]; (split; [lia|done]).
Qed.

Lemma filter_update_length (f g : Z -> bool) l s :
  NoDup l -> s ∈ l -> f s = false -> g s = true -> (forall t, t <> s -> f t = g t) ->
  length (List.filter g l) = S (length (List.filter f l)).
Proof.
  intros Hnd Hin Hf Hg Hfg. induction l as [|x l IH]; [by apply elem_of_nil in Hin|].
  apply NoDup_cons in Hnd as [Hx Hnd].
  destruct (decide (x = s)) as [->|Hne].
  - cbn [List.filter]. rewrite Hf, Hg. cbn [length]. do 2 f_equal.
    apply filter_ext_in. intros t Ht%list_elem_of_In. symmetry. apply Hfg. by intros ->.
  - cbn [List.filter]. rewrite (Hfg x) by done. assert (s ∈ l) by set_solver.
    destruct (g x); cbn [length]; by rewrite IH.
Qed.

Lemma popcount_set slots b s :
  0 <= s < slots -> bitmap_get b s = false ->
  popcount slots (bitmap_set b s) = popcount slots b + 1.
Proof.
  intros Hs Hb. unfold popcount, bitmap_slots.
  erewrite (filter_update_length (fun t => bitmap_get b t)); [lia|apply NoDup_seqZ| |done| |].
  - apply elem_of_seqZ. lia.
  - rewrite bitmap_get_set. by rewrite Z.eqb_refl.
  - intros t Ht. rewrite bitmap_get_set. by destruct (Z.eqb_spec s t).
Qed.

Lemma popcount_clear slots b s :
  0 <= s < slots -> bitmap_get b s = true ->
  popcount slots (bitmap_clear b s) = popcount slots b - 1.
Proof.
  intros Hs Hb. unfold popcount, bitmap_slots.
  erewrite (filter_update_length (fun t => bitmap_get (bitmap_clear b s) t)
    (fun t => bitmap_get b t)); [lia|apply NoDup_seqZ| | |done|].
  - apply elem_of_seqZ. lia.
  - rewrite bitmap_get_clear. by rewrite Z.eqb_refl.
  - intros t Ht. rewrite bitmap_get_clear. by destruct (Z.eqb_spec s t).
Qed.

Lemma filter_full_or_missing (f : Z -> bool) l :
  length (List.filter f l) = length l \/ exists x, x ∈ l /\ f x = false.
Proof.
  induction l as [|x l IH]; [by left|]. cbn [List.filter]. destruct (f x) eqn:E.
  - destruct IH as [IH|(y & Hy & Hf)]; [left; simpl; lia|right; exists y; set_solver].
  - right. exists x. set_solver.
Qed.

Lemma filter_length_lt (f : Z -> bool) l x :
  x ∈ l -> f x = false -> (length (List.filter f l) < length l)%nat.
Proof.
  induction l as [|y l IH]; intros Hx Hf; [by apply elem_of_nil in Hx|].
  apply elem_of_cons in Hx as [->|Hx]; cbn [List.filter].
  - rewrite Hf. pose proof (filter_length_le f l). simpl. lia.
  - specialize (IH Hx Hf). destruct (f y); simpl; lia.
Qed.

Lemma popcount_bounds slots b : 0 <= slots -> 0 <= popcount slots b <= slots.
Proof.
  intros. unfold popcount, bitmap_slots.
  pose proof (filter_length_le (fun s => bitmap_get b s) (seqZ 0 slots)) as H0.
  rewrite length_seqZ in H0. lia.
Qed.

(** A slab has a free slot exactly when fewer than [slots] bits are set. *)
Lemma popcount_lt slots b :
  0 <= slots -> popcount slots b < slots <-> exists s, 0 <= s < slots /\ bitmap_get b s = false.
Proof.
  intros Hs. unfold popcount, bitmap_slots. split.
  - intros Hlt. destruct (filter_full_or_missing (fun s => bitmap_get b s) (seqZ 0 slots))
      as [Hfull|(x & Hx & Hf)].
    + rewrite Hfull, length_seqZ in Hlt. lia.
    + apply elem_of_seqZ in Hx. exists x. split; [lia|done].
  - intros (s & Hr & Hf).
    pose proof (filter_length_lt (fun s => bitmap_get b s) (seqZ 0 slots) s) as Hlt.
    rewrite elem_of_seqZ, length_seqZ in Hlt. specialize (Hlt ltac:(lia) Hf). lia.
Qed.

Lemma popcount_0 slots b :
  popcount slots b = 0 <-> forall s, 0 <= s < slots -> bitmap_get b s = false.
Proof.
  unfold popcount. split.
  - intros H0 s Hs. destruct (bitmap_get b s) eqn:E; [|done].
    assert (Hin : s ∈ bitmap_slots slots b) by (apply elem_of_bitmap_slots; done).
    destruct (bitmap_slots slots b); [by apply elem_of_nil in Hin|simpl in H0; lia].
  - intros Hall. destruct (bitmap_slots slots b) as [|s l] eqn:E; [done|].
    assert (Hin : s ∈ bitmap_slots slots b) by (rewrite E; set_solver).
    apply elem_of_bitmap_slots in Hin as [Hr Ht]. by rewrite Hall in Ht.
Qed.

(** *** The search *)

Lemma all_ones_eq : all_ones = Z.ones 64.
Proof. reflexivity. Qed.

Lemma testbit_all_ones i : Z.testbit all_ones i = bool_decide (0 <= i < 64).
Proof. rewrite all_ones_eq. by apply testbit_ones. Qed.

Lemma all_ones_fits : fits 64 all_ones.
Proof. by apply wrap_fits. Qed.

(** A word is all ones exactly when its 64 bits are set. *)
Lemma all_ones_iff x :
  fits 64 x -> x = all_ones <-> forall i, 0 <= i < 64 -> Z.testbit x i = true.
Proof.
  intros Hx. split.
  - intros -> i Hi. rewrite testbit_all_ones. by apply bool_decide_true.
  - intros H. apply (fits_bits_eq 64); [done|apply all_ones_fits|].
    intros i Hi. rewrite H, testbit_all_ones by done. by rewrite bool_decide_true.
Qed.

Lemma testbit_get_mask n i : 0 <= n -> Z.testbit (get_mask n) i = bool_decide (n <= i < 64).
Proof.
  intros Hn. unfold get_mask, U64_WIDTH. destruct (Z.ltb_spec n 64).
  - rewrite testbit_wrap by lia. destruct (Z.lt_ge_cases i 0).
    + rewrite Z.testbit_neg_r by done. by rewrite andb_false_r, bool_decide_false by lia.
    + rewrite Z.shiftl_spec, testbit_all_ones by done.
      repeat case_bool_decide; try done; lia.
  - rewrite Z.bits_0. by rewrite bool_decide_false by lia.
Qed.

Lemma get_mask_fits n : fits 64 (get_mask n).
Proof. unfold get_mask. case_match; [by apply wrap_fits|split; lia]. Qed.

#[export] Hint Resolve all_ones_fits get_mask_fits : words.

(** The word the search looks at in bucket [i]. *)
Definition visit (slots i w : Z) : Z :=
  if i =? slots / U64_WIDTH then Z.lor w (get_mask (slots - i * U64_WIDTH)) else w.

Lemma visit_testbit slots i w k :
  0 <= i <= (slots - 1) / 64 -> 0 <= k < 64 ->
  Z.testbit (visit slots i w) k = Z.testbit w k || bool_decide (slots <= i * 64 + k).
Proof.
  unfold visit, U64_WIDTH. intros Hi Hk.
  pose proof (Z.div_mod (slots - 1) 64 ltac:(lia)) as E1.
  pose proof (Z.mod_pos_bound (slots - 1) 64 ltac:(lia)).
  pose proof (Z.div_mod slots 64 ltac:(lia)) as E2.
  pose proof (Z.mod_pos_bound slots 64 ltac:(lia)).
  destruct (Z.eqb_spec i (slots / 64)).
  - rewrite Z.lor_spec, testbit_get_mask by lia. f_equal. apply bool_decide_ext. lia.
  - rewrite bool_decide_false, orb_false_r by lia. done.
Qed.

(** The sequential search tests for the last bucket instead; the words agree. *)
Lemma visit_last slots i w :
  0 <= i <= (slots - 1) / 64 ->
  (if i =? (slots - 1) / U64_WIDTH then Z.lor w (get_mask (slots - i * U64_WIDTH)) else w)
  = visit slots i w.
Proof.
  unfold visit, U64_WIDTH. intros Hi.
  pose proof (Z.div_mod (slots - 1) 64 ltac:(lia)) as E1.
  pose proof (Z.mod_pos_bound (slots - 1) 64 ltac:(lia)).
  pose proof (Z.div_mod slots 64 ltac:(lia)) as E2.
  pose proof (Z.mod_pos_bound slots 64 ltac:(lia)).
  destruct (Z.eqb_spec i ((slots - 1) / 64)), (Z.eqb_spec i (slots / 64)); try done; [|lia].
  unfold get_mask, U64_WIDTH. destruct (Z.ltb_spec (slots - i * 64) 64); [lia|].
  apply Z.lor_0_r.
Qed.

Lemma visit_fits slots i w : fits 64 w -> fits 64 (visit slots i w).
Proof.
  intros. unfold visit. case_match; [|done]. apply fits_lor; [lia|done|apply get_mask_fits].
Qed.

(** A bucket that is not full after masking yields a free slot of the slab. *)
Lemma visit_found slots i w w' :
  0 <= i <= (slots - 1) / 64 -> fits 64 w -> fits 64 w' ->
  (forall k, 0 <= k < 64 -> Z.testbit w k = true -> Z.testbit w' k = true) ->
  (visit slots i w' =? all_ones) = false ->
  exists s, ffz64 (visit slots i w') - 1 + i * U64_WIDTH = s /\ 0 <= s < slots /\
    s / 64 = i /\ Z.testbit w (s mod 64) = false.
Proof.
  intros Hi Hw Hw' Hsub Hne. apply Z.eqb_neq in Hne.
  destruct (ffz64_spec (visit slots i w')) as (k & -> & Hk & Hbit & _);
    [by apply visit_fits|by rewrite all_ones_eq in Hne|].
  rewrite visit_testbit in Hbit by done. apply orb_false_iff in Hbit as [Hwk Hs].
  apply bool_decide_eq_false in Hs.
  exists (k + i * 64). unfold U64_WIDTH. split; [lia|]. split; [lia|].
  rewrite Z.div_add, Z.div_small, Z_mod_plus_full, Z.mod_small by lia. split; [lia|].
  destruct (Z.testbit w k) eqn:E; [|done]. by rewrite Hsub in Hwk.
Qed.

(** A bucket that is full after masking has no free slot of the slab. *)
Lemma visit_full slots i w s :
  0 <= i <= (slots - 1) / 64 -> fits 64 w ->
  (visit slots i w =? all_ones) = true -> 0 <= s < slots -> s / 64 = i ->
  Z.testbit w (s mod 64) = true.
Proof.
  intros Hi Hw He Hs Hsi. apply Z.eqb_eq in He.
  assert (Hm : 0 <= s mod 64 < 64) by (apply Z.mod_pos_bound; lia).
  pose proof (proj1 (all_ones_iff _ (visit_fits slots i w Hw)) He (s mod 64) Hm) as Ht.
  rewrite visit_testbit in Ht by done.
  pose proof (Z.div_mod s 64 ltac:(lia)).
  rewrite bool_decide_false, orb_false_r in Ht by lia. done.
Qed.

(** The number of buckets from [i] up to the bucket [t], going around. *)
Definition bucket_distance (slots i t : Z) : Z := (t - i) mod ((slots - 1) / 64 + 1).

Lemma bucket_distance_next slots i t :
  let last := (slots - 1) / 64 in
  0 <= last -> 0 <= i <= last -> 0 <= t <= last -> i <> t ->
  bucket_distance slots (if i =? last then 0 else i + 1) t = bucket_distance slots i t - 1.
Proof.
  cbv zeta. intros Hl Hi Ht Hne. unfold bucket_distance.
  set (l := (slots - 1) / 64) in *.
  assert (Hmod : forall a, - (l + 1) < a < 0 -> a mod (l + 1) = a + (l + 1)).
  { intros a Ha. rewrite <- (Z_mod_plus_full a 1 (l + 1)), Z.mul_1_l. apply Z.mod_small. lia. }
  destruct (Z.eqb_spec i l).
  - rewrite (Z.mod_small (t - 0)), Hmod by lia. lia.
  - destruct (Z.lt_ge_cases i t).
    + rewrite !Z.mod_small by lia. lia.
    + rewrite !Hmod by lia. lia.
Qed.

(** From a bucket whose word is unmasked, the loop reaches a free slot of
    bucket [t] within its distance. *)
Lemma get_free_slot_loop_unmasked fuel slots b i t :
  bitmap_wf slots b -> 1 <= slots -> 0 <= i <= (slots - 1) / 64 ->
  0 <= t < slots -> bitmap_get b t = false ->
  bucket_distance slots i (t / 64) < Z.of_nat fuel ->
  exists s, get_free_slot_loop fuel slots b i b.[i] = Some s /\
    0 <= s < slots /\ bitmap_get b s = false.
Proof.
  intros Hwf Hs Hi Ht Hfree. revert i Hi. induction fuel as [|fuel IH]; intros i Hi Hd.
  - unfold bucket_distance in Hd.
    pose proof (Z.mod_pos_bound (t / 64 - i) ((slots - 1) / 64 + 1)). lia.
  - cbn [get_free_slot_loop]. fold (visit slots i b.[i]).
    destruct (visit slots i b.[i] =? all_ones) eqn:Hv; cbn [negb].
    + assert (i <> t / 64).
      { intros Heq. pose proof (visit_full slots i b.[i] t Hi ltac:(apply Hwf) Hv Ht ltac:(done)) as Hb.
        rewrite bitmap_get_testbit, <- Heq in Hfree. congruence. }
      assert (0 <= t / 64 <= (slots - 1) / 64).
      { split; [apply Z.div_pos; lia|apply Z.div_le_mono; lia]. }
      apply IH.
      * unfold U64_WIDTH. destruct (Z.eqb_spec i ((slots - 1) / 64)); lia.
      * unfold U64_WIDTH. rewrite bucket_distance_next by lia. lia.
    + destruct (visit_found slots i b.[i] b.[i] Hi ltac:(apply Hwf) ltac:(apply Hwf)
        ltac:(done) Hv) as (s & -> & Hr & Hsi & Hbit).
      exists s. split; [done|]. split; [done|]. by rewrite bitmap_get_testbit, Hsi.
Qed.

(** From any random start the search finds a free slot when there is one. *)
Lemma get_free_slot_from_spec r slots d t :
  bitmap_wf slots (bitmap d) -> 1 <= slots <= 256 -> 0 <= r < slots ->
  0 <= t < slots -> is_used_slot d t = false ->
  exists s, get_free_slot_from r slots d = Some s /\ 0 <= s < slots /\ is_used_slot d s = false.
Proof.
  intros Hwf Hs Hr Ht Hfree. unfold get_free_slot_from. cbv zeta.
  set (b := bitmap d) in *. set (i := r / U64_WIDTH).
  assert (Hi : 0 <= i <= (slots - 1) / 64).
  { unfold i, U64_WIDTH. split; [apply Z.div_pos; lia|apply Z.div_le_mono; lia]. }
  assert (Hl : (slots - 1) / 64 <= 3) by (apply Z.lt_succ_r, Z.div_lt_upper_bound; lia).
  set (split := u64 _).
  change (get_free_slot_loop 5 slots b i (Z.lor b.[i] split)) with
    (let masked := visit slots i (Z.lor b.[i] split) in
     if negb (masked =? all_ones) then Some (ffz64 masked - 1 + i * U64_WIDTH)
     else let i := if i =? (slots - 1) / U64_WIDTH then 0 else i + 1 in
          get_free_slot_loop 4 slots b i b.[i]).
  cbv zeta. unfold is_used_slot in *. fold b in Hfree |- *.
  destruct (visit slots i (Z.lor b.[i] split) =? all_ones) eqn:Hv; cbn [negb].
  - apply (get_free_slot_loop_unmasked 4 slots b _ t); [done|lia| |done|done|].
    + unfold U64_WIDTH. destruct (Z.eqb_spec i ((slots - 1) / 64)); lia.
    + unfold bucket_distance.
      pose proof (Z.mod_pos_bound (t / 64 - (if i =? (slots - 1) / U64_WIDTH then 0 else i + 1))
        ((slots - 1) / 64 + 1)). lia.
  - destruct (visit_found slots i b.[i] (Z.lor b.[i] split) Hi) as (s & -> & Hrs & Hsi & Hbit);
      [apply Hwf|apply fits_lor; [lia|apply Hwf|by apply wrap_fits]| |done|].
    + intros k Hk Hb. by rewrite Z.lor_spec, Hb.
    + exists s. split; [done|]. split; [done|]. by rewrite bitmap_get_testbit, Hsi.
Qed.

Lemma get_free_slot_linear_spec n slots b i t :
  bitmap_wf slots b -> 0 <= i -> i + Z.of_nat n = (slots - 1) / 64 + 1 ->
  0 <= t < slots -> i <= t / 64 -> bitmap_get b t = false ->
  exists s, get_free_slot_linear n slots b i = Some s /\ 0 <= s < slots /\ bitmap_get b s = false.
Proof.
  intros Hwf Hi0 Hin Ht Hit Hfree. revert i Hi0 Hin Hit.
  assert (Htl : t / 64 <= (slots - 1) / 64) by (apply Z.div_le_mono; lia).
  induction n as [|n IH]; intros i Hi0 Hin Hit; [lia|].
  cbn [get_free_slot_linear]. cbv zeta. rewrite visit_last by lia.
  destruct (visit slots i b.[i] =? all_ones) eqn:Hv; cbn [negb].
  - assert (i <> t / 64).
    { intros Heq. pose proof (visit_full slots i b.[i] t ltac:(lia) ltac:(apply Hwf) Hv Ht ltac:(done)) as Hb.
      rewrite bitmap_get_testbit, <- Heq in Hfree. congruence. }
    apply IH; lia.
  - destruct (visit_found slots i b.[i] b.[i] ltac:(lia) ltac:(apply Hwf) ltac:(apply Hwf)
      ltac:(done) Hv) as (s & -> & Hr & Hsi & Hbit).
    exists s. split; [done|]. split; [done|]. by rewrite bitmap_get_testbit, Hsi.
Qed.

(** *** Consistency of a slab's metadata *)

Lemma meta_wf_zero slots : meta_wf slots zero.
Proof.
  split; [apply bitmap_wf_empty..|]. symmetry. apply popcount_0.
  intros s _. rewrite bitmap_get_testbit. cbn. rewrite aget_empty_Z. apply Z.testbit_0_l.
Qed.

Lemma meta_wf_count slots d : 0 <= slots -> meta_wf slots d -> 0 <= count d <= slots.
Proof. intros ? [_ _ ->]. by apply popcount_bounds. Qed.

Lemma has_free_slots_spec slots d :
  0 <= slots -> meta_wf slots d ->
  has_free_slots slots d = true <-> exists s, 0 <= s < slots /\ is_used_slot d s = false.
Proof.
  intros Hs [_ _ Hc]. unfold has_free_slots. rewrite Z.ltb_lt, Hc. by apply popcount_lt.
Qed.

Lemma is_free_slab_spec slots d :
  meta_wf slots d ->
  is_free_slab d = true <-> forall s, 0 <= s < slots -> is_used_slot d s = false.
Proof.
  intros [_ _ Hc]. unfold is_free_slab. rewrite Z.eqb_eq, Hc. apply popcount_0.
Qed.

Lemma set_used_slot_wf slots d s :
  slots <= 256 -> 0 <= s < slots -> is_used_slot d s = false -> meta_wf slots d ->
  meta_wf slots (set_used_slot d s) /\ count (set_used_slot d s) = count d + 1.
Proof.
  intros Hsl Hs Hfree Hwf. pose proof (meta_wf_count slots d ltac:(lia) Hwf).
  destruct Hwf as [Hu Hq Hc].
  assert (E : count (set_used_slot d s) = count d + 1).
  { cbn. apply wrap_small. split; lia. }
  split; [|done]. split; cbn [set_used_slot bitmap quarantine_bitmap].
  - apply bitmap_wf_set; [done|lia].
  - done.
  - rewrite E, Hc. symmetry. by apply popcount_set.
Qed.

Lemma clear_used_slot_wf slots d s :
  slots <= 256 -> 0 <= s < slots -> is_used_slot d s = true -> meta_wf slots d ->
  meta_wf slots (clear_used_slot d s) /\ count (clear_used_slot d s) = count d - 1 /\ 0 < count d.
Proof.
  intros Hsl Hs Hused Hwf. pose proof (meta_wf_count slots d ltac:(lia) Hwf).
  destruct Hwf as [Hu Hq Hc].
  pose proof (popcount_clear slots (bitmap d) s Hs Hused) as Hp.
  pose proof (popcount_bounds slots (bitmap_clear (bitmap d) s) ltac:(lia)).
  assert (E : count (clear_used_slot d s) = count d - 1).
  { cbn. apply wrap_small. split; lia. }
  split; [|lia]. split; cbn [clear_used_slot bitmap quarantine_bitmap].
  - by apply bitmap_wf_clear.
  - done.
  - rewrite E, Hc. by symmetry.
Qed.

Lemma set_quarantine_slot_wf slots d s :
  s < slots -> meta_wf slots d -> meta_wf slots (set_quarantine_slot d s).
Proof. intros Hs [Hu Hq Hc]. split; cbn; [done|by apply bitmap_wf_set|done]. Qed.

Lemma clear_quarantine_slot_wf slots d s :
  meta_wf slots d -> meta_wf slots (clear_quarantine_slot d s).
Proof. intros [Hu Hq Hc]. split; cbn; [done|by apply bitmap_wf_clear|done]. Qed.

#[export] Hint Resolve meta_wf_zero set_quarantine_slot_wf clear_quarantine_slot_wf : slabs.

Lemma visit0 slots w : 0 <= slots < 64 -> visit slots 0 w = Z.lor w (get_mask slots).
Proof.
  intros. unfold visit, U64_WIDTH. rewrite Z.div_small by lia. cbn. by rewrite Z.sub_0_r.
Qed.

(** All slots of one bucket are used, in terms of its word. *)
Definition bucket_full (slots : Z) (b : gmap Z Z) (i : Z) : Prop :=
  forall s, 0 <= s < slots -> s / 64 = i -> bitmap_get b s = true.

Lemma bucket_full_visit slots b i :
  bitmap_wf slots b -> 0 <= i <= (slots - 1) / 64 ->
  (visit slots i b.[i] =? all_ones) = true <-> bucket_full slots b i.
Proof.
  intros Hwf Hi. split.
  - intros He s Hs Hsi. rewrite bitmap_get_testbit, Hsi. eapply visit_full; eauto; apply Hwf.
  - intros Hfull. apply Z.eqb_eq, all_ones_iff; [apply visit_fits, Hwf|]. intros k Hk.
    rewrite visit_testbit by done. case_bool_decide; [by rewrite orb_true_r|]. rewrite orb_false_r.
    specialize (Hfull (i * 64 + k) ltac:(lia)).
    rewrite bitmap_get_testbit, Z.div_add_l, (Z.div_small k), Z.add_0_r in Hfull by lia.
    rewrite Z.add_comm, Z_mod_plus_full, Z.mod_small in Hfull by lia. by apply Hfull.
Qed.

(** The four cases of the macro-free [has_free_slots] scan every bucket. *)
Lemma has_free_slots_bitmap_scan slots d :
  1 <= slots <= 256 ->
  has_free_slots_bitmap slots d =
  existsb (fun i => negb (visit slots i (bitmap d).[i] =? all_ones)) (seqZ 0 ((slots - 1) / 64 + 1)).
Proof.
  intros Hs. unfold has_free_slots_bitmap. cbv zeta. set (b := bitmap d).
  assert (Hlast : forall i, i = (slots - 1) / 64 -> 0 <= i ->
            Z.lor b.[i] (get_mask (slots - i * 64)) = visit slots i b.[i]).
  { intros i Hi Hi0. rewrite <- visit_last by lia. unfold U64_WIDTH. rewrite Hi.
    by rewrite Z.eqb_refl. }
  assert (Hlow : forall i, i < slots / 64 -> visit slots i b.[i] = b.[i]).
  { intros i Hi. unfold visit, U64_WIDTH. destruct (Z.eqb_spec i (slots / 64)); [lia|done]. }
  assert (Hq : forall q, q = (slots - 1) / 64 ->
            64 * q < slots <= 64 * q + 64 /\ (forall i, i < q -> i < slots / 64)).
  { intros q ->. pose proof (Z.div_mod (slots - 1) 64 ltac:(lia)).
    pose proof (Z.mod_pos_bound (slots - 1) 64 ltac:(lia)).
    split; [lia|]. intros i Hi. pose proof (Z.div_le_mono (slots - 1) slots 64). lia. }
  unfold U64_WIDTH. destruct (Hq _ eq_refl) as [Hqr Hql].
  assert (Hq4 : (slots - 1) / 64 = 0 \/ (slots - 1) / 64 = 1 \/ (slots - 1) / 64 = 2 \/
                (slots - 1) / 64 = 3) by lia.
  destruct Hq4 as [E|[E|[E|E]]]; rewrite E in *;
    repeat match goal with |- context [slots <=? ?n] => destruct (Z.leb_spec slots n); try lia end.
  - change (seqZ 0 (0 + 1)) with [0]. cbn [existsb].
    rewrite <- (Hlast 0) by lia. by rewrite Z.mul_0_l, Z.sub_0_r, orb_false_r.
  - change (seqZ 0 (1 + 1)) with [0; 1]. cbn [existsb].
    rewrite (Hlow 0) by (apply Hql; lia). rewrite <- (Hlast 1) by lia. by rewrite orb_false_r.
  - change (seqZ 0 (2 + 1)) with [0; 1; 2]. cbn [existsb].
    rewrite (Hlow 0), (Hlow 1) by (apply Hql; lia). rewrite <- (Hlast 2) by lia.
    by rewrite orb_false_r, orb_assoc.
  - change (seqZ 0 (3 + 1)) with [0; 1; 2; 3]. cbn [existsb].
    rewrite (Hlow 0), (Hlow 1), (Hlow 2) by (apply Hql; lia). rewrite <- (Hlast 3) by lia.
    by rewrite orb_false_r, !orb_assoc.
Qed.

Lemma has_free_slots_bitmap_spec slots d :
  1 <= slots <= 256 -> meta_wf slots d ->
  has_free_slots_bitmap slots d = true <-> exists s, 0 <= s < slots /\ is_used_slot d s = false.
Proof.
  intros Hs [Hwf _ _]. rewrite has_free_slots_bitmap_scan, existsb_exists by done. split.
  - intros (i & Hi & Hv). apply list_elem_of_In, elem_of_seqZ in Hi. apply negb_true_iff in Hv.
    destruct (visit_found slots i (bitmap d).[i] (bitmap d).[i] ltac:(lia) ltac:(apply Hwf)
      ltac:(apply Hwf) ltac:(done) Hv) as (s & _ & Hr & Hsi & Hbit).
    exists s. split; [done|]. unfold is_used_slot. by rewrite bitmap_get_testbit, Hsi.
  - intros (s & Hr & Hfree). exists (s / 64). split.
    + apply list_elem_of_In, elem_of_seqZ.
      pose proof (Z.div_le_mono s (slots - 1) 64). pose proof (Z.div_pos s 64). lia.
    + apply negb_true_iff, not_true_iff_false. intros Hv.
      assert (Hi : 0 <= s / 64 <= (slots - 1) / 64).
      { split; [apply Z.div_pos; lia|apply Z.div_le_mono; lia]. }
      apply bucket_full_visit in Hv; [|done|done].
      specialize (Hv s Hr eq_refl). unfold is_used_slot in Hfree. congruence.
Qed.

Lemma is_free_slab_bitmap_spec slots d :
  slots <= 256 -> meta_wf slots d ->
  is_free_slab_bitmap d = true <-> forall s, 0 <= s < slots -> is_used_slot d s = false.
Proof.
  intros Hs [[Hf Hhi] _ _]. unfold is_free_slab_bitmap. cbv zeta.
  rewrite !andb_true_iff, !Z.eqb_eq. split.
  - intros [[[H0 H1] H2] H3] s Hr. unfold is_used_slot. rewrite bitmap_get_testbit.
    assert (Hq : s / 64 = 0 \/ s / 64 = 1 \/ s / 64 = 2 \/ s / 64 = 3).
    { pose proof (Z.div_pos s 64). assert (s / 64 < 4) by (apply Z.div_lt_upper_bound; lia). lia. }
    destruct Hq as [->|[->|[->| ->]]]; rewrite ?H0, ?H1, ?H2, ?H3; apply Z.testbit_0_l.
  - intros Hfree.
    assert (Hz : forall i, 0 <= i -> (bitmap d).[i] = 0).
    { intros i Hi0. apply (fits_bits_eq 64); [apply Hf|split; lia|]. intros k Hk.
      rewrite Z.testbit_0_l.
      assert (Hb : bitmap_get (bitmap d) (i * 64 + k) = false).
      { destruct (Z.lt_ge_cases (i * 64 + k) slots); [apply Hfree; lia|by apply Hhi]. }
      rewrite bitmap_get_testbit, Z.div_add_l, (Z.div_small k), Z.add_0_r in Hb by lia.
      by rewrite Z.add_comm, Z_mod_plus_full, Z.mod_small in Hb by lia. }
    by rewrite !Hz by lia.
Qed.

(** ** Properties *)

Section Properties.
Context `{Cfg : Config} `{K : Kernel} {R : Type} `{!RandomSource R} `{!RandomSourceOk R}.

Definition free_slot_post slots d (s : R * world) :=
  drawn (fun slot => 0 <= slot < slots /\ is_used_slot d slot = false) s.

Lemma wp_get_free_slot slots d s :
  1 <= slots <= 256 -> meta_wf slots d -> has_free_slots slots d = true -> random_inv (fst s) ->
  wp (get_free_slot slots d) (free_slot_post slots d s) random_halts s.
Proof.
  intros Hs Hwf Hfree Hrnd.
  destruct (proj1 (has_free_slots_spec slots d ltac:(lia) Hwf) Hfree) as (t & Ht & Hu).
  destruct Hwf as [Hb _ _]. unfold get_free_slot. destruct SLOT_RANDOMIZE.
  - apply wp_bind. eapply wp_conseq; [apply u16_uniform_ok; [done|lia]|].
    intros r s' [Hr Hsame].
    destruct (get_free_slot_from_spec r slots d t Hb Hs Hr Ht Hu) as (slot & -> & ? & ?).
    apply wp_ret. by split.
  - destruct (get_free_slot_linear_spec (Z.to_nat ((slots - 1) / U64_WIDTH + 1)) slots (bitmap d) 0 t)
      as (slot & -> & ? & ?); try done.
    + unfold U64_WIDTH. pose proof (Z.div_pos (slots - 1) 64). lia.
    + apply Z.div_pos; lia.
Qed.

(** C34: on a slab with a free slot, [get_free_slot] returns the index of a free
    slot of the slab, whatever the random start: the search terminates, never
    reaches its fatal error and does not touch user memory. It halts only if
    the random source does. *)
Theorem get_free_slot_ok slots d s :
  1 <= slots <= 256 -> meta_wf slots d -> has_free_slots slots d = true -> random_inv (fst s) ->
  wp (get_free_slot slots d)
     (fun slot s' => 0 <= slot < slots /\ is_used_slot d slot = false /\
                     mem (snd s') = mem (snd s)) random_halts s.
Proof.
  intros Hs Hwf Hfree Hrnd. eapply wp_conseq; [by apply wp_get_free_slot|].
  intros slot s' ([? ?] & _ & ?). done.
Qed.

(** Marking a free slot used, then looking at any slot, sees the new slot
    and every other slot as before, and the count stays the number of used
    slots; clearing it undoes the change. *)
Theorem used_slot_roundtrip slots d s :
  slots <= 256 -> 0 <= s < slots -> meta_wf slots d -> is_used_slot d s = false ->
  let d' := set_used_slot d s in
  meta_wf slots d' /\ count d' = count d + 1 /\
  (forall t, is_used_slot d' t = (s =? t) || is_used_slot d t) /\
  (forall t, is_quarantine_slot d' t = is_quarantine_slot d t) /\
  meta_wf slots (clear_used_slot d' s) /\ count (clear_used_slot d' s) = count d /\
  (forall t, is_used_slot (clear_used_slot d' s) t = is_used_slot d t).
Proof.
  intros Hsl Hs Hwf Hfree d'.
  destruct (set_used_slot_wf slots d s Hsl Hs Hfree Hwf) as [Hwf' Hc]. fold d' in Hwf', Hc.
  assert (Hu : forall t, is_used_slot d' t = (s =? t) || is_used_slot d t)
    by (intros t; apply bitmap_get_set).
  destruct (clear_used_slot_wf slots d' s Hsl Hs) as (Hwf'' & Hc' & _);
    [by rewrite Hu, Z.eqb_refl|done|].
  do 2 (split; [done|]). do 2 (split; [done|]). split; [done|]. split; [lia|].
  intros t. unfold is_used_slot, clear_used_slot. cbn [bitmap]. rewrite bitmap_get_clear.
  fold (is_used_slot d' t). rewrite Hu. destruct (Z.eqb_spec s t); subst; by rewrite ?Hfree.
Qed.

(** The counting [has_free_slots] and [is_free_slab] agree with the
    bitmap scans compiled without SLAB_METADATA_COUNT. *)
Theorem slab_count_equivalence slots d :
  1 <= slots <= 256 -> meta_wf slots d ->
  has_free_slots slots d = has_free_slots_bitmap slots d /\
  is_free_slab d = is_free_slab_bitmap d.
Proof.
  intros Hs Hwf. split; apply eq_bool_prop_intro; rewrite !Is_true_true.
  - rewrite has_free_slots_spec, has_free_slots_bitmap_spec by (done || lia). done.
  - by rewrite (is_free_slab_spec slots), (is_free_slab_bitmap_spec slots) by (done || lia).
Qed.
End Properties.

(** ** Witnesses *)

Section Witnesses.
#[local] Existing Instance default_config.

(** A slab of four slots whose first three are used. *)
Definition example_meta : slab_metadata := foldl set_used_slot zero (seqZ 0 3).

Lemma example_meta_wf : meta_wf 4 example_meta.
Proof.
  unfold example_meta.
  assert (H : forall l d, Forall (fun s => 0 <= s < 4) l -> NoDup l ->
    meta_wf 4 d -> (forall s, s ∈ l -> is_used_slot d s = false) ->
    meta_wf 4 (foldl set_used_slot d l)).
  { induction l as [|s l IH]; [done|]. intros d Hl Hnd Hwf Hf. cbn [foldl].
    apply Forall_cons in Hl as [Hs Hl]. apply NoDup_cons in Hnd as [Hx Hnd].
    apply IH; [done|done|apply set_used_slot_wf; [lia|done|apply Hf; set_solver|done]|].
    intros t Ht. unfold is_used_slot, set_used_slot. cbn [bitmap]. rewrite bitmap_get_set.
    destruct (Z.eqb_spec s t); [by subst|]. apply Hf. set_solver. }
  apply H; [apply Forall_forall; intros s Hs%elem_of_seqZ; lia|apply NoDup_seqZ|apply meta_wf_zero|].
  intros s _. unfold is_used_slot. rewrite bitmap_get_testbit. cbn. rewrite aget_empty_Z.
  apply Z.testbit_0_l.
Qed.

Lemma get_free_slot_ok_witness :
  exists slot s', get_free_slot 4 example_meta (42, demo_world []) = Ret slot s' /\
    0 <= slot < 4 /\ is_used_slot example_meta slot = false.
Proof.
  destruct (wp_no_halt _ _ _ (get_free_slot_ok 4 example_meta (42, demo_world [])
    ltac:(lia) example_meta_wf ltac:(reflexivity) I)) as (slot & s' & E & Hr & Hu & _).
  exists slot, s'. exact (conj E (conj Hr Hu)).
Defined.

Lemma used_slot_roundtrip_witness :
  is_used_slot example_meta 3 = false /\
  meta_wf 4 (set_used_slot example_meta 3) /\ count (set_used_slot example_meta 3) = 4.
Proof.
  split; [reflexivity|].
  pose proof (used_slot_roundtrip 4 example_meta 3 ltac:(lia) ltac:(lia) example_meta_wf
    ltac:(reflexivity)) as (H1 & H2 & _).
  split; [exact H1|reflexivity].
Defined.

Lemma slab_count_equivalence_witness :
  has_free_slots 4 example_meta = has_free_slots_bitmap 4 example_meta.
Proof. apply (slab_count_equivalence 4 example_meta); [lia|apply example_meta_wf]. Defined.
End Witnesses.
