(* ===== verification/Slab.v ===== *)
(** The slab allocator of one size class (h_malloc.c, [struct size_class],
    [alloc_metadata], [allocate_small], [enqueue_free_slab], [deallocate_small]).

    A pointer to a [struct slab_metadata] of the class is an index into its
    [slab_info] array. User memory is the byte array of [world]. *)

From S2P Require Import Prelude Config Util Libdivide SizeClass Kernel RandomSource SlabMeta.

(** The statistics exist when CONFIG_STATS is set, the quarantine arrays when
    their lengths are not zero; NULL is 0 for an address, [None] for a slab. *)
Record size_class (R : Type) := SizeClass {
  lock : bool;
  class_region_start : Z;
  slab_info : gmap Z slab_metadata;
  slab_info_addr : Z;
  size_divisor : libdivide_t;
  slab_size_divisor : libdivide_t;
  size : Z;
  slots : Z;
  slab_size : Z;
  partial_slabs : option Z;
  empty_slabs : option Z;
  empty_slabs_total : Z;
  free_slabs_head : option Z;
  free_slabs_tail : option Z;
  free_slabs_quarantine : gmap Z (option Z);
  nmalloc : Z;
  ndalloc : Z;
  allocated : Z;
  slab_allocated : Z;
  rng : R;
  metadata_allocated : Z;
  metadata_count : Z;
  metadata_count_unguarded : Z;
  quarantine_queue_index : Z;
  quarantine_queue : gmap Z Z;
  quarantine_random : gmap Z Z
}.
Arguments SizeClass {R}.
Arguments lock {R} _. Arguments class_region_start {R} _. Arguments slab_info {R} _. Arguments slab_info_addr {R} _.
Arguments size_divisor {R} _. Arguments slab_size_divisor {R} _. Arguments size {R} _.
Arguments slots {R} _. Arguments slab_size {R} _. Arguments partial_slabs {R} _.
Arguments empty_slabs {R} _. Arguments empty_slabs_total {R} _. Arguments free_slabs_head {R} _.
Arguments free_slabs_tail {R} _. Arguments free_slabs_quarantine {R} _. Arguments nmalloc {R} _.
Arguments ndalloc {R} _. Arguments allocated {R} _. Arguments slab_allocated {R} _.
Arguments rng {R} _. Arguments metadata_allocated {R} _. Arguments metadata_count {R} _.
Arguments metadata_count_unguarded {R} _. Arguments quarantine_queue_index {R} _.
Arguments quarantine_queue {R} _. Arguments quarantine_random {R} _.

(** Assignments to one field. *)
Section Setters.
Context {R : Type}.
Implicit Types (c : size_class R).

Definition set_lock (v : bool) c : size_class R :=
  SizeClass v (class_region_start c) (slab_info c) (slab_info_addr c) (size_divisor c) (slab_size_divisor c) (size c)
    (slots c) (slab_size c) (partial_slabs c) (empty_slabs c) (empty_slabs_total c)
    (free_slabs_head c) (free_slabs_tail c) (free_slabs_quarantine c) (nmalloc c) (ndalloc c)
    (allocated c) (slab_allocated c) (rng c) (metadata_allocated c) (metadata_count c)
    (metadata_count_unguarded c) (quarantine_queue_index c) (quarantine_queue c)
    (quarantine_random c).
Definition set_slab_info (v : gmap Z slab_metadata) c : size_class R :=
  SizeClass (lock c) (class_region_start c) v (slab_info_addr c) (size_divisor c) (slab_size_divisor c) (size c)
    (slots c) (slab_size c) (partial_slabs c) (empty_slabs c) (empty_slabs_total c)
    (free_slabs_head c) (free_slabs_tail c) (free_slabs_quarantine c) (nmalloc c) (ndalloc c)
    (allocated c) (slab_allocated c) (rng c) (metadata_allocated c) (metadata_count c)
    (metadata_count_unguarded c) (quarantine_queue_index c) (quarantine_queue c)
    (quarantine_random c).
Definition set_partial_slabs (v : option Z) c : size_class R :=
  SizeClass (lock c) (class_region_start c) (slab_info c) (slab_info_addr c) (size_divisor c) (slab_size_divisor c)
    (size c) (slots c) (slab_size c) v (empty_slabs c) (empty_slabs_total c) (free_slabs_head c)
    (free_slabs_tail c) (free_slabs_quarantine c) (nmalloc c) (ndalloc c) (allocated c)
    (slab_allocated c) (rng c) (metadata_allocated c) (metadata_count c)
    (metadata_count_unguarded c) (quarantine_queue_index c) (quarantine_queue c)
    (quarantine_random c).
Definition set_empty_slabs (v : option Z) c : size_class R :=
  SizeClass (lock c) (class_region_start c) (slab_info c) (slab_info_addr c) (size_divisor c) (slab_size_divisor c)
    (size c) (slots c) (slab_size c) (partial_slabs c) v (empty_slabs_total c) (free_slabs_head c)
    (free_slabs_tail c) (free_slabs_quarantine c) (nmalloc c) (ndalloc c) (allocated c)
    (slab_allocated c) (rng c) (metadata_allocated c) (metadata_count c)
    (metadata_count_unguarded c) (quarantine_queue_index c) (quarantine_queue c)
    (quarantine_random c).
Definition set_empty_slabs_total (v : Z) c : size_class R :=
  SizeClass (lock c) (class_region_start c) (slab_info c) (slab_info_addr c) (size_divisor c) (slab_size_divisor c)
    (size c) (slots c) (slab_size c) (partial_slabs c) (empty_slabs c) v (free_slabs_head c)
    (free_slabs_tail c) (free_slabs_quarantine c) (nmalloc c) (ndalloc c) (allocated c)
    (slab_allocated c) (rng c) (metadata_allocated c) (metadata_count c)
    (metadata_count_unguarded c) (quarantine_queue_index c) (quarantine_queue c)
    (quarantine_random c).
Definition set_free_slabs_head (v : option Z) c : size_class R :=
  SizeClass (lock c) (class_region_start c) (slab_info c) (slab_info_addr c) (size_divisor c) (slab_size_divisor c)
    (size c) (slots c) (slab_size c) (partial_slabs c) (empty_slabs c) (empty_slabs_total c) v
    (free_slabs_tail c) (free_slabs_quarantine c) (nmalloc c) (ndalloc c) (allocated c)
    (slab_allocated c) (rng c) (metadata_allocated c) (metadata_count c)
    (metadata_count_unguarded c) (quarantine_queue_index c) (quarantine_queue c)
    (quarantine_random c).
Definition set_free_slabs_tail (v : option Z) c : size_class R :=
  SizeClass (lock c) (class_region_start c) (slab_info c) (slab_info_addr c) (size_divisor c) (slab_size_divisor c)
    (size c) (slots c) (slab_size c) (partial_slabs c) (empty_slabs c) (empty_slabs_total c)
    (free_slabs_head c) v (free_slabs_quarantine c) (nmalloc c) (ndalloc c) (allocated c)
    (slab_allocated c) (rng c) (metadata_allocated c) (metadata_count c)
    (metadata_count_unguarded c) (quarantine_queue_index c) (quarantine_queue c)
    (quarantine_random c).
Definition set_free_slabs_quarantine (v : gmap Z (option Z)) c : size_class R :=
  SizeClass (lock c) (class_region_start c) (slab_info c) (slab_info_addr c) (size_divisor c) (slab_size_divisor c)
    (size c) (slots c) (slab_size c) (partial_slabs c) (empty_slabs c) (empty_slabs_total c)
    (free_slabs_head c) (free_slabs_tail c) v (nmalloc c) (ndalloc c) (allocated c)
    (slab_allocated c) (rng c) (metadata_allocated c) (metadata_count c)
    (metadata_count_unguarded c) (quarantine_queue_index c) (quarantine_queue c)
    (quarantine_random c).
Definition set_nmalloc (v : Z) c : size_class R :=
  SizeClass (lock c) (class_region_start c) (slab_info c) (slab_info_addr c) (size_divisor c) (slab_size_divisor c)
    (size c) (slots c) (slab_size c) (partial_slabs c) (empty_slabs c) (empty_slabs_total c)
    (free_slabs_head c) (free_slabs_tail c) (free_slabs_quarantine c) v (ndalloc c) (allocated c)
    (slab_allocated c) (rng c) (metadata_allocated c) (metadata_count c)
    (metadata_count_unguarded c) (quarantine_queue_index c) (quarantine_queue c)
    (quarantine_random c).
Definition set_ndalloc (v : Z) c : size_class R :=
  SizeClass (lock c) (class_region_start c) (slab_info c) (slab_info_addr c) (size_divisor c) (slab_size_divisor c)
    (size c) (slots c) (slab_size c) (partial_slabs c) (empty_slabs c) (empty_slabs_total c)
    (free_slabs_head c) (free_slabs_tail c) (free_slabs_quarantine c) (nmalloc c) v (allocated c)
    (slab_allocated c) (rng c) (metadata_allocated c) (metadata_count c)
    (metadata_count_unguarded c) (quarantine_queue_index c) (quarantine_queue c)
    (quarantine_random c).
Definition set_allocated (v : Z) c : size_class R :=
  SizeClass (lock c) (class_region_start c) (slab_info c) (slab_info_addr c) (size_divisor c) (slab_size_divisor c)
    (size c) (slots c) (slab_size c) (partial_slabs c) (empty_slabs c) (empty_slabs_total c)
    (free_slabs_head c) (free_slabs_tail c) (free_slabs_quarantine c) (nmalloc c) (ndalloc c) v
    (slab_allocated c) (rng c) (metadata_allocated c) (metadata_count c)
    (metadata_count_unguarded c) (quarantine_queue_index c) (quarantine_queue c)
    (quarantine_random c).
Definition set_slab_allocated (v : Z) c : size_class R :=
  SizeClass (lock c) (class_region_start c) (slab_info c) (slab_info_addr c) (size_divisor c) (slab_size_divisor c)
    (size c) (slots c) (slab_size c) (partial_slabs c) (empty_slabs c) (empty_slabs_total c)
    (free_slabs_head c) (free_slabs_tail c) (free_slabs_quarantine c) (nmalloc c) (ndalloc c)
    (allocated c) v (rng c) (metadata_allocated c) (metadata_count c) (metadata_count_unguarded c)
    (quarantine_queue_index c) (quarantine_queue c) (quarantine_random c).
Definition set_rng (v : R) c : size_class R :=
  SizeClass (lock c) (class_region_start c) (slab_info c) (slab_info_addr c) (size_divisor c) (slab_size_divisor c)
    (size c) (slots c) (slab_size c) (partial_slabs c) (empty_slabs c) (empty_slabs_total c)
    (free_slabs_head c) (free_slabs_tail c) (free_slabs_quarantine c) (nmalloc c) (ndalloc c)
    (allocated c) (slab_allocated c) v (metadata_allocated c) (metadata_count c)
    (metadata_count_unguarded c) (quarantine_queue_index c) (quarantine_queue c)
    (quarantine_random c).
Definition set_metadata_allocated (v : Z) c : size_class R :=
  SizeClass (lock c) (class_region_start c) (slab_info c) (slab_info_addr c) (size_divisor c) (slab_size_divisor c)
    (size c) (slots c) (slab_size c) (partial_slabs c) (empty_slabs c) (empty_slabs_total c)
    (free_slabs_head c) (free_slabs_tail c) (free_slabs_quarantine c) (nmalloc c) (ndalloc c)
    (allocated c) (slab_allocated c) (rng c) v (metadata_count c) (metadata_count_unguarded c)
    (quarantine_queue_index c) (quarantine_queue c) (quarantine_random c).
Definition set_metadata_count (v : Z) c : size_class R :=
  SizeClass (lock c) (class_region_start c) (slab_info c) (slab_info_addr c) (size_divisor c) (slab_size_divisor c)
    (size c) (slots c) (slab_size c) (partial_slabs c) (empty_slabs c) (empty_slabs_total c)
    (free_slabs_head c) (free_slabs_tail c) (free_slabs_quarantine c) (nmalloc c) (ndalloc c)
    (allocated c) (slab_allocated c) (rng c) (metadata_allocated c) v (metadata_count_unguarded c)
    (quarantine_queue_index c) (quarantine_queue c) (quarantine_random c).
Definition set_metadata_count_unguarded (v : Z) c : size_class R :=
  SizeClass (lock c) (class_region_start c) (slab_info c) (slab_info_addr c) (size_divisor c) (slab_size_divisor c)
    (size c) (slots c) (slab_size c) (partial_slabs c) (empty_slabs c) (empty_slabs_total c)
    (free_slabs_head c) (free_slabs_tail c) (free_slabs_quarantine c) (nmalloc c) (ndalloc c)
    (allocated c) (slab_allocated c) (rng c) (metadata_allocated c) (metadata_count c) v
    (quarantine_queue_index c) (quarantine_queue c) (quarantine_random c).
Definition set_quarantine_queue_index (v : Z) c : size_class R :=
  SizeClass (lock c) (class_region_start c) (slab_info c) (slab_info_addr c) (size_divisor c) (slab_size_divisor c)
    (size c) (slots c) (slab_size c) (partial_slabs c) (empty_slabs c) (empty_slabs_total c)
    (free_slabs_head c) (free_slabs_tail c) (free_slabs_quarantine c) (nmalloc c) (ndalloc c)
    (allocated c) (slab_allocated c) (rng c) (metadata_allocated c) (metadata_count c)
    (metadata_count_unguarded c) v (quarantine_queue c) (quarantine_random c).
Definition set_quarantine_queue (v : gmap Z Z) c : size_class R :=
  SizeClass (lock c) (class_region_start c) (slab_info c) (slab_info_addr c) (size_divisor c) (slab_size_divisor c)
    (size c) (slots c) (slab_size c) (partial_slabs c) (empty_slabs c) (empty_slabs_total c)
    (free_slabs_head c) (free_slabs_tail c) (free_slabs_quarantine c) (nmalloc c) (ndalloc c)
    (allocated c) (slab_allocated c) (rng c) (metadata_allocated c) (metadata_count c)
    (metadata_count_unguarded c) (quarantine_queue_index c) v (quarantine_random c).
Definition set_quarantine_random (v : gmap Z Z) c : size_class R :=
  SizeClass (lock c) (class_region_start c) (slab_info c) (slab_info_addr c) (size_divisor c) (slab_size_divisor c)
    (size c) (slots c) (slab_size c) (partial_slabs c) (empty_slabs c) (empty_slabs_total c)
    (free_slabs_head c) (free_slabs_tail c) (free_slabs_quarantine c) (nmalloc c) (ndalloc c)
    (allocated c) (slab_allocated c) (rng c) (metadata_allocated c) (metadata_count c)
    (metadata_count_unguarded c) (quarantine_queue_index c) (quarantine_queue c) v.
End Setters.

Section Slab.
Context `{Cfg : Config} `{K : Kernel} {R : Type} `{!RandomSource R}.

Definition SM (A : Type) : Type := M (size_class R * world) A.

Definition get_class : SM (size_class R) := gets fst.
Definition modify_class (f : size_class R -> size_class R) : SM unit :=
  modify (fun s => (f (fst s), snd s)).
Definition get_meta (i : Z) : SM slab_metadata := gets (fun s => (slab_info (fst s)).[i]).
Definition update_meta (i : Z) (f : slab_metadata -> slab_metadata) : SM unit :=
  modify_class (fun c => set_slab_info (slab_info c).[i <- f (slab_info c).[i]] c).

(** Run a draw on the generator of the class. *)
Definition with_rng {A} (m : M (R * world) A) : SM A :=
  zoom (fun s => (rng (fst s), snd s)) (fun t s => (set_rng (fst t) (fst s), snd t)) m.

(** mutex_lock does not return while the lock is held. *)
Definition mutex_lock : SM unit :=
  let* c := get_class in
  if lock c then stuck else modify_class (set_lock true).
Definition mutex_unlock : SM unit := modify_class (set_lock false).

(** ** Slabs and their metadata *)

Definition get_slab (c : size_class R) (slab_size metadata : Z) : Z :=
  let index := metadata in u64 (class_region_start c + u64 (index * slab_size)).

Definition alloc_metadata (slab_size : Z) (non_zero_size : bool) : SM (option Z) :=
  let* c := get_class in
  let* failed :=
    (if metadata_count c >=? metadata_allocated c then
       let metadata_max := get_metadata_max slab_size in
       if metadata_count c >=? metadata_max then on_world (set_errno ENOMEM) ;;; ret true
       else
         let allocate := max (u64 (metadata_allocated c * 2)) (PAGE_SIZE / sizeof_slab_metadata) in
         let allocate := if allocate >? metadata_max then metadata_max else allocate in
         let* f := on_world (memory_protect_rw_metadata (slab_info_addr c) (u64 (allocate * sizeof_slab_metadata))) in
         if f then ret true
         else modify_class (set_metadata_allocated allocate) ;;; ret false
     else ret false) in
  if failed then ret None else
  let metadata := metadata_count c in
  let slab := get_slab c slab_size metadata in
  let* protect_failed :=
    (if non_zero_size then on_world (memory_protect_rw slab slab_size) else ret false) in
  if protect_failed then ret None else
  modify_class (fun c => set_metadata_count (u64 (metadata_count c + 1)) c) ;;;
  modify_class (fun c => set_metadata_count_unguarded (u64 (metadata_count_unguarded c + 1)) c) ;;;
  let* c := get_class in
  (if metadata_count_unguarded c >=? GUARD_SLABS_INTERVAL
   then modify_class (fun c => set_metadata_count (u64 (metadata_count c + 1)) c) ;;;
        modify_class (set_metadata_count_unguarded 0)
   else ret tt) ;;;
  ret (Some metadata).

Definition get_metadata (p : Z) : SM Z :=
  let* c := get_class in
  let offset := u64 (p - class_region_start c) in
  let index := libdivide_u64_do offset (slab_size_divisor c) in
  if index >=? metadata_allocated c
  then fatal_error "invalid free within a slab yet to be used"
  else ret index.

Definition slot_pointer (size slab slot : Z) : Z := u64 (slab + u64 (slot * size)).

(** ** Canaries and write-after-free detection *)

Definition write_after_free_check (p size : Z) : SM unit :=
  if negb WRITE_AFTER_FREE_CHECK then ret tt else
  let* w := gets snd in
  let accum :=
    fold_left (fun accum i => Z.lor accum (load64 (mem w) (p + 8 * i))) (seqZ 0 ((size + 7) / 8)) 0 in
  if negb (accum =? 0) then fatal_error "detected write after free" else ret tt.

Definition canary_mask : Z := 18446744073709551360. (* 0xffffffffffffff00 *)

Definition set_slab_canary_value (metadata : Z) : SM unit :=
  if SLAB_CANARY then
    let* v := with_rng get_random_u64 in
    update_meta metadata (set_canary_value (Z.land v canary_mask))
  else ret tt.

Definition set_canary (metadata p size : Z) : SM unit :=
  if SLAB_CANARY then
    let* d := get_meta metadata in
    let* w := gets snd in
    on_world (set_mem (store64 (p + size - canary_size) (canary_value d) (mem w)))
  else ret tt.

Definition check_canary (metadata p size : Z) : SM unit :=
  if SLAB_CANARY then
    let* d := get_meta metadata in
    let* w := gets snd in
    if negb (load64 (mem w) (p + size - canary_size) =? canary_value d)
    then fatal_error "canary corrupted" else ret tt
  else ret tt.

(** ** Labels *)

Definition label_slab (slab slab_size class : Z) : M world unit :=
  memory_set_name slab slab_size (nth (Z.to_nat class) size_class_labels EmptyString) ;;; ret tt.

(** ** Statistics *)

Definition stats_small_allocate (size : Z) : SM unit :=
  if CONFIG_STATS then
    modify_class (fun c => set_allocated (u64 (allocated c + size)) c) ;;;
    modify_class (fun c => set_nmalloc (u64 (nmalloc c + 1)) c)
  else ret tt.
Definition stats_small_deallocate (size : Z) : SM unit :=
  if CONFIG_STATS then
    modify_class (fun c => set_allocated (u64 (allocated c - size)) c) ;;;
    modify_class (fun c => set_ndalloc (u64 (ndalloc c + 1)) c)
  else ret tt.
Definition stats_slab_allocate (slab_size : Z) : SM unit :=
  if CONFIG_STATS
  then modify_class (fun c => set_slab_allocated (u64 (slab_allocated c + slab_size)) c) else ret tt.
Definition stats_slab_deallocate (slab_size : Z) : SM unit :=
  if CONFIG_STATS
  then modify_class (fun c => set_slab_allocated (u64 (slab_allocated c - slab_size)) c) else ret tt.

(** ** Allocation *)

(** The four sources of a slot: a cached empty slab, a purged free slab, a new
    slab, the first partial slab. Each ends by unlocking. *)

Definition allocate_from_empty (metadata requested_size size slots slab_size : Z) : SM Z :=
  let* d := get_meta metadata in
  modify_class (set_empty_slabs (next d)) ;;;
  modify_class (fun c => set_empty_slabs_total (u64 (empty_slabs_total c - slab_size)) c) ;;;
  update_meta metadata (set_next None) ;;;
  update_meta metadata (set_prev None) ;;;
  modify_class (set_partial_slabs (if slots >? 1 then Some metadata else None)) ;;;
  let* c := get_class in
  let slab := get_slab c slab_size metadata in
  let* d := get_meta metadata in
  let* slot := with_rng (get_free_slot slots d) in
  update_meta metadata (fun d => set_used_slot d slot) ;;;
  let p := slot_pointer size slab slot in
  (if negb (requested_size =? 0)
   then write_after_free_check p (size - canary_size) ;;; set_canary metadata p size
   else ret tt) ;;;
  stats_small_allocate size ;;;
  mutex_unlock ;;;
  ret p.

Definition allocate_from_free (metadata requested_size size slots slab_size : Z) : SM Z :=
  set_slab_canary_value metadata ;;;
  let* c := get_class in
  let slab := get_slab c slab_size metadata in
  let* protect_failed :=
    (if negb (requested_size =? 0) then on_world (memory_protect_rw slab slab_size) else ret false) in
  if protect_failed then mutex_unlock ;;; ret 0 else
  let* d := get_meta metadata in
  modify_class (set_free_slabs_head (next d)) ;;;
  (match next d with
   | None => modify_class (set_free_slabs_tail None)
   | Some _ => ret tt
   end) ;;;
  update_meta metadata (set_next None) ;;;
  update_meta metadata (set_prev None) ;;;
  modify_class (set_partial_slabs (if slots >? 1 then Some metadata else None)) ;;;
  let* d := get_meta metadata in
  let* slot := with_rng (get_free_slot slots d) in
  update_meta metadata (fun d => set_used_slot d slot) ;;;
  let p := slot_pointer size slab slot in
  (if negb (requested_size =? 0) then set_canary metadata p size else ret tt) ;;;
  stats_slab_allocate slab_size ;;;
  stats_small_allocate size ;;;
  mutex_unlock ;;;
  ret p.

Definition allocate_from_new (requested_size size slots slab_size : Z) : SM Z :=
  let* m := alloc_metadata slab_size (negb (requested_size =? 0)) in
  match m with
  | None => mutex_unlock ;;; ret 0
  | Some metadata =>
      set_slab_canary_value metadata ;;;
      modify_class (set_partial_slabs (if slots >? 1 then Some metadata else None)) ;;;
      let* c := get_class in
      let slab := get_slab c slab_size metadata in
      let* d := get_meta metadata in
      let* slot := with_rng (get_free_slot slots d) in
      update_meta metadata (fun d => set_used_slot d slot) ;;;
      let p := slot_pointer size slab slot in
      (if negb (requested_size =? 0) then set_canary metadata p size else ret tt) ;;;
      stats_slab_allocate slab_size ;;;
      stats_small_allocate size ;;;
      mutex_unlock ;;;
      ret p
  end.

Definition allocate_from_partial (metadata requested_size size slots slab_size : Z) : SM Z :=
  let* d := get_meta metadata in
  let* slot := with_rng (get_free_slot slots d) in
  update_meta metadata (fun d => set_used_slot d slot) ;;;
  let* d := get_meta metadata in
  (if negb (has_free_slots slots d) then
     modify_class (set_partial_slabs (next d)) ;;;
     match next d with
     | Some n => update_meta n (set_prev None)
     | None => ret tt
     end
   else ret tt) ;;;
  let* c := get_class in
  let slab := get_slab c slab_size metadata in
  let p := slot_pointer size slab slot in
  (if negb (requested_size =? 0)
   then write_after_free_check p (size - canary_size) ;;; set_canary metadata p size
   else ret tt) ;;;
  stats_small_allocate size ;;;
  mutex_unlock ;;;
  ret p.

(** [allocate_small] on the size class that [get_size_info] selects. *)
Definition allocate_small (requested_size : Z) : SM Z :=
  let info := get_size_info requested_size in
  let size := if negb (si_size info =? 0) then si_size info else 16 in
  let* c := get_class in
  let slots := slots c in
  let slab_size := slab_size c in
  mutex_lock ;;;
  match partial_slabs c, empty_slabs c, free_slabs_head c with
  | None, Some metadata, _ => allocate_from_empty metadata requested_size size slots slab_size
  | None, None, Some metadata => allocate_from_free metadata requested_size size slots slab_size
  | None, None, None => allocate_from_new requested_size size slots slab_size
  | Some metadata, _, _ => allocate_from_partial metadata requested_size size slots slab_size
  end.

(** ** Deallocation *)

Definition append_free_slab (substitute : Z) : SM unit :=
  let* c := get_class in
  (match free_slabs_tail c with
   | Some tail => update_meta tail (set_next (Some substitute))
   | None => modify_class (set_free_slabs_head (Some substitute))
   end) ;;;
  modify_class (set_free_slabs_tail (Some substitute)).

Definition enqueue_free_slab (metadata : Z) : SM unit :=
  update_meta metadata (set_next None) ;;;
  if negb (FREE_SLABS_QUARANTINE_RANDOM_LENGTH =? 0) then
    let* index := with_rng (get_random_u16_uniform FREE_SLABS_QUARANTINE_RANDOM_LENGTH) in
    let* c := get_class in
    let substitute := (free_slabs_quarantine c).[index] in
    modify_class (fun c => set_free_slabs_quarantine (free_slabs_quarantine c).[index <- Some metadata] c) ;;;
    match substitute with
    | None => ret tt
    | Some substitute => append_free_slab substitute
    end
  else append_free_slab metadata.

(** The two quarantines of a size class: [None] when the pointer stays there,
    or the pointer that leaves. *)
Definition quarantine_length (len size : Z) : Z :=
  let quarantine_shift := u64 (clz64 size - (63 - MAX_SLAB_SIZE_CLASS_SHIFT)) in
  u64 (Z.shiftl len quarantine_shift).

Definition quarantine_random_swap (size p : Z) : SM (option Z) :=
  if 0 <? SLAB_QUARANTINE_RANDOM_LENGTH then
    let slab_quarantine_random_length := quarantine_length SLAB_QUARANTINE_RANDOM_LENGTH size in
    let* random_index :=
      with_rng
        (if Z.shiftl SLAB_QUARANTINE_RANDOM_LENGTH (MAX_SLAB_SIZE_CLASS_SHIFT - MIN_SLAB_SIZE_CLASS_SHIFT)
              <=? 65535
         then get_random_u16_uniform slab_quarantine_random_length
         else get_random_u32_uniform slab_quarantine_random_length) in
    let* c := get_class in
    let random_substitute := (quarantine_random c).[random_index] in
    modify_class (fun c => set_quarantine_random (quarantine_random c).[random_index <- p] c) ;;;
    ret (if random_substitute =? 0 then None else Some random_substitute)
  else ret (Some p).

Definition quarantine_queue_swap (size p : Z) : SM (option Z) :=
  if 0 <? SLAB_QUARANTINE_QUEUE_LENGTH then
    let slab_quarantine_queue_length := quarantine_length SLAB_QUARANTINE_QUEUE_LENGTH size in
    let* c := get_class in
    let queue_substitute := (quarantine_queue c).[quarantine_queue_index c] in
    modify_class (fun c => set_quarantine_queue (quarantine_queue c).[quarantine_queue_index c <- p] c) ;;;
    let next_queue_index := u64 (quarantine_queue_index c + 1) in
    modify_class (set_quarantine_queue_index
      (if next_queue_index <? slab_quarantine_queue_length then next_queue_index else 0)) ;;;
    ret (if queue_substitute =? 0 then None else Some queue_substitute)
  else ret (Some p).

(** The tail of [deallocate_small], in its steps. *)

(** A slab that was full goes to the head of the partial list. *)
Definition push_partial (metadata : Z) : SM unit :=
  let* c := get_class in
  update_meta metadata (set_next (partial_slabs c)) ;;;
  update_meta metadata (set_prev None) ;;;
  (match partial_slabs c with
   | Some head => update_meta head (set_prev (Some metadata))
   | None => ret tt
   end) ;;;
  modify_class (set_partial_slabs (Some metadata)).

(** A slab that became empty leaves the partial list. *)
Definition unlink_partial (metadata : Z) : SM unit :=
  let* d := get_meta metadata in
  (match prev d with
   | Some pr => update_meta pr (set_next (next d))
   | None => modify_class (set_partial_slabs (next d))
   end) ;;;
  (match next d with
   | Some n => update_meta n (set_prev (prev d))
   | None => ret tt
   end) ;;;
  update_meta metadata (set_prev None).

Definition cache_slab (metadata slab_size : Z) : SM unit :=
  let* c := get_class in
  update_meta metadata (set_next (empty_slabs c)) ;;;
  modify_class (set_empty_slabs (Some metadata)) ;;;
  modify_class (fun c => set_empty_slabs_total (u64 (empty_slabs_total c + slab_size)) c) ;;;
  mutex_unlock.

(** An empty slab is cached, or purged and protected when enough are cached. *)
Definition retire_slab (class metadata slab_size : Z) : SM unit :=
  let* c := get_class in
  let slab := get_slab c slab_size metadata in
  if u64 (empty_slabs_total c + slab_size) >? max_empty_slabs_total then
    let* saved_errno := on_world (gets errno) in
    let* mapfail := on_world (memory_map_fixed slab slab_size) in
    if negb mapfail then
      on_world (label_slab slab slab_size class) ;;;
      stats_slab_deallocate slab_size ;;;
      enqueue_free_slab metadata ;;;
      mutex_unlock ;;;
      if CONFIG_LABEL_MEMORY then on_world (set_errno saved_errno) else ret tt
    else
      on_world (memory_purge slab slab_size) ;;;
      on_world (set_errno saved_errno) ;;;
      cache_slab metadata slab_size
  else cache_slab metadata slab_size.

Definition release_slot (class metadata slot slots slab_size : Z) : SM unit :=
  let* d := get_meta metadata in
  (if negb (has_free_slots slots d) then push_partial metadata else ret tt) ;;;
  update_meta metadata (fun d => clear_used_slot d slot) ;;;
  let* d := get_meta metadata in
  if is_free_slab d then
    unlink_partial metadata ;;;
    retire_slab class metadata slab_size
  else mutex_unlock.

(** The checks of [deallocate_small], which abort on an invalid pointer, and the
    erasure of the freed slot; the metadata and slot of [p]. *)
Definition check_and_clear (is_zero_size : bool) (p size slab_size : Z) : SM (Z * Z) :=
  let* metadata := get_metadata p in
  let* c := get_class in
  let slab := get_slab c slab_size metadata in
  let slot := libdivide_u32_do (u32 (p - slab)) (size_divisor c) in
  if negb (slot_pointer size slab slot =? p) then fatal_error "invalid unaligned free" else
  let* d := get_meta metadata in
  if negb (is_used_slot d slot) then fatal_error "double free" else
  (if negb is_zero_size then
     check_canary metadata p size ;;;
     if ZERO_ON_FREE then
       let* w := gets snd in on_world (set_mem (memset0 p (size - canary_size) (mem w)))
     else ret tt
   else ret tt) ;;;
  ret (metadata, slot).

(** The quarantine step of [deallocate_small]: the slot enters, and the slot that
    leaves, if any, is released. *)
Definition deallocate_quarantine (class metadata slot size slots slab_size p : Z) : SM unit :=
  let* d := get_meta metadata in
  if is_quarantine_slot d slot then fatal_error "double free (quarantine)" else
  update_meta metadata (fun d => set_quarantine_slot d slot) ;;;
  let* q := quarantine_random_swap size p in
  match q with
  | None => mutex_unlock
  | Some p =>
      let* q := quarantine_queue_swap size p in
      match q with
      | None => mutex_unlock
      | Some p =>
          let* metadata := get_metadata p in
          let* c := get_class in
          let slab := get_slab c slab_size metadata in
          let slot := libdivide_u32_do (u32 (p - slab)) (size_divisor c) in
          update_meta metadata (fun d => clear_quarantine_slot d slot) ;;;
          release_slot class metadata slot slots slab_size
      end
  end.

(** [deallocate_small] on the size class [class] that [slab_size_class] selects. *)
Definition deallocate_small (class p : Z) (expected_size : option Z) : SM unit :=
  let* c := get_class in
  let size := size c in
  let is_zero_size := class =? 0 in
  match expected_size with
  | Some e =>
      if negb ((if is_zero_size then 0 else size) =? e)
      then fatal_error "sized deallocation mismatch (small)" else ret tt
  | None => ret tt
  end ;;;
  let slots := slots c in
  let slab_size := slab_size c in
  mutex_lock ;;;
  stats_small_deallocate size ;;;
  let* ms := check_and_clear is_zero_size p size slab_size in
  let '(metadata, slot) := ms in
  if SLAB_QUARANTINE
  then deallocate_quarantine class metadata slot size slots slab_size p
  else release_slot class metadata slot slots slab_size.

End Slab.
