(* ===== verification/SlabLists.v ===== *)
(** The intrusive lists of slab metadata: what it means for the [next] and
    [prev] fields to form a list, and the list operations of h_malloc.c. *)

From S2P Require Import Prelude Config Util SizeClass Kernel RandomSource SlabMeta.

Section Lists.
Implicit Types (h : gmap Z slab_metadata) (l : list Z) (i j : Z).

(** Singly linked: each [next] is the following element, the last one NULL. *)
Definition slinks h l : Prop := forall k i, l !! k = Some i -> next h.[i] = l !! S k.

(** Doubly linked: moreover each [prev] is the preceding element. *)
Definition plinks h l : Prop :=
  forall k i, l !! k = Some i -> prev h.[i] = match k with O => None | S k => l !! k end.

Definition dlinks h l : Prop := slinks h l /\ plinks h l.

Lemma slinks_ext h h' l :
  slinks h l -> (forall i, i ∈ l -> next h'.[i] = next h.[i]) -> slinks h' l.
Proof. intros Hl He k i Hk. rewrite He by by eapply list_elem_of_lookup_2. by apply Hl. Qed.

Lemma plinks_ext h h' l :
  plinks h l -> (forall i, i ∈ l -> prev h'.[i] = prev h.[i]) -> plinks h' l.
Proof. intros Hl He k i Hk. rewrite He by by eapply list_elem_of_lookup_2. by apply Hl. Qed.

Lemma dlinks_ext h h' l :
  dlinks h l -> (forall i, i ∈ l -> next h'.[i] = next h.[i] /\ prev h'.[i] = prev h.[i]) -> dlinks h' l.
Proof.
  intros [Hs Hp] He. split.
  - eapply slinks_ext; [done|]. intros. by apply He.
  - eapply plinks_ext; [done|]. intros. by apply He.
Qed.

Lemma dlinks_nil h : dlinks h [].
Proof. by split. Qed.

Lemma slinks_nil h : slinks h [].
Proof. done. Qed.

Lemma slinks_cons h i l : slinks h (i :: l) <-> next h.[i] = head l /\ slinks h l.
Proof.
  split.
  - intros H. split; [by rewrite (H 0%nat i eq_refl), head_lookup|].
    intros k j Hk. by apply (H (S k)).
  - intros [Hn H] [|k] j Hk; cbn in *.
    + injection Hk as <-. by rewrite Hn, head_lookup.
    + by apply H.
Qed.

(** Popping the head of a doubly linked list. *)
Lemma dlinks_pop h h' i l :
  NoDup (i :: l) -> dlinks h (i :: l) ->
  (forall j, j ∈ l -> next h'.[j] = next h.[j]) ->
  (forall j, j ∈ l -> prev h'.[j] = if decide (next h.[i] = Some j) then None else prev h.[j]) ->
  dlinks h' l.
Proof.
  intros [Hi Hnd]%NoDup_cons [Hs Hp] Hn Hv. split.
  - intros k j Hk. rewrite Hn by by eapply list_elem_of_lookup_2. by apply (Hs (S k)).
  - intros k j Hk. rewrite Hv by by eapply list_elem_of_lookup_2.
    rewrite (Hs 0%nat i eq_refl). cbn [lookup list_lookup]. destruct k as [|k].
    + rewrite decide_True; done.
    + rewrite decide_False; [by apply (Hp (S (S k)))|]. intros E.
      pose proof (NoDup_lookup l 0 (S k) j Hnd E Hk). lia.
Qed.

(** Pushing a new head. *)
Lemma dlinks_push h h' i l :
  i ∉ l -> NoDup l -> dlinks h l -> next h'.[i] = head l -> prev h'.[i] = None ->
  (forall j, j ∈ l -> next h'.[j] = next h.[j]) ->
  (forall j, j ∈ l -> prev h'.[j] = if decide (head l = Some j) then Some i else prev h.[j]) ->
  dlinks h' (i :: l).
Proof.
  intros Hi Hnd [Hs Hp] Hni Hpi Hn Hv. split.
  - apply slinks_cons. split; [done|]. by eapply slinks_ext.
  - intros [|k] j Hk; cbn in *; [by injection Hk as <-|].
    rewrite Hv by by eapply list_elem_of_lookup_2. rewrite head_lookup. destruct k as [|k].
    + by rewrite decide_True.
    + rewrite decide_False; [by apply (Hp (S k))|]. intros E.
      pose proof (NoDup_lookup l 0 (S k) j Hnd E Hk). lia.
Qed.

(** Unlinking any element. *)
Lemma dlinks_ends h l1 i l2 :
  dlinks h (l1 ++ i :: l2) -> prev h.[i] = last l1 /\ next h.[i] = head l2.
Proof.
  intros [Hs Hp]. assert (Hi : (l1 ++ i :: l2) !! length l1 = Some i) by by apply list_lookup_middle.
  split.
  - rewrite (Hp _ _ Hi), last_lookup. destruct (length l1) as [|k] eqn:E; cbn.
    + by destruct l1.
    + rewrite lookup_app_l by lia. done.
  - rewrite (Hs _ _ Hi), head_lookup, lookup_app_r by lia.
    by replace (S (length l1) - length l1)%nat with 1%nat by lia.
Qed.

Lemma dlinks_unlink h h' l1 i l2 :
  NoDup (l1 ++ i :: l2) -> dlinks h (l1 ++ i :: l2) ->
  (forall j, j ∈ l1 ++ l2 ->
     next h'.[j] = if decide (prev h.[i] = Some j) then next h.[i] else next h.[j]) ->
  (forall j, j ∈ l1 ++ l2 ->
     prev h'.[j] = if decide (next h.[i] = Some j) then prev h.[i] else prev h.[j]) ->
  dlinks h' (l1 ++ l2).
Proof.
  intros Hnd Hd Hn Hv. destruct (dlinks_ends h l1 i l2 Hd) as [Epi Eni]. destruct Hd as [Hs Hp].
  assert (Hnd' : NoDup (l1 ++ l2)).
  { eapply sublist_NoDup; [exact Hnd|]. apply sublist_app; [done|]. by constructor. }
  assert (Hlo : forall k, (k < length l1)%nat -> (l1 ++ i :: l2) !! k = (l1 ++ l2) !! k).
  { intros k Hk. by rewrite !lookup_app_l by lia. }
  assert (Hhi : forall k, (length l1 <= k)%nat -> (l1 ++ i :: l2) !! S k = (l1 ++ l2) !! k).
  { intros k Hk. rewrite !lookup_app_r by lia. by replace (S k - length l1)%nat with (S (k - length l1)) by lia. }
  assert (Elast : last l1 = match length l1 with O => None | S k => (l1 ++ l2) !! k end).
  { rewrite last_lookup. destruct (length l1) eqn:E; cbn; [by destruct l1|]. by rewrite lookup_app_l by lia. }
  assert (Ehead : head l2 = (l1 ++ l2) !! length l1).
  { rewrite head_lookup, lookup_app_r by lia. by rewrite Nat.sub_diag. }
  split.
  - intros k j Hk. rewrite Hn by by eapply list_elem_of_lookup_2. rewrite Epi, Eni, Elast, Ehead.
    destruct (Nat.lt_ge_cases k (length l1)) as [Hlt|Hge].
    + pose proof Hk as Hk'. rewrite <- Hlo in Hk' by done. rewrite (Hs _ _ Hk').
      destruct (length l1) as [|n] eqn:E; [lia|].
      destruct (decide (k = n)) as [->|Hne].
      * by rewrite decide_True.
      * rewrite decide_False; [apply Hlo; lia|]. intros E'. apply Hne.
        by eapply NoDup_lookup; [exact Hnd'| |].
    + pose proof Hk as Hk'. rewrite <- Hhi in Hk' by done. rewrite (Hs _ _ Hk').
      rewrite decide_False; [apply Hhi; lia|]. destruct (length l1) as [|n] eqn:E; [done|].
      intros E'. assert (k = n) by (by eapply NoDup_lookup; [exact Hnd'| |]). lia.
  - intros k j Hk. rewrite Hv by by eapply list_elem_of_lookup_2. rewrite Epi, Eni, Elast, Ehead.
    destruct (Nat.lt_ge_cases k (length l1)) as [Hlt|Hge].
    + pose proof Hk as Hk'. rewrite <- Hlo in Hk' by done. rewrite (Hp _ _ Hk').
      rewrite decide_False.
      * destruct k; [done|]. apply Hlo. lia.
      * intros E'. assert (k = length l1) by (by eapply NoDup_lookup; [exact Hnd'| |]). lia.
    + pose proof Hk as Hk'. rewrite <- Hhi in Hk' by done. rewrite (Hp _ _ Hk').
      destruct (decide (k = length l1)) as [->|Hne].
      * rewrite decide_True by done. done.
      * rewrite decide_False; [|intros E'; apply Hne; by eapply NoDup_lookup; [exact Hnd'| |]].
        destruct k as [|k]; [lia|]. apply Hhi. lia.
Qed.

(** Appending at the tail of a singly linked list. *)
Lemma slinks_snoc h h' l i :
  NoDup l -> i ∉ l -> slinks h l -> next h'.[i] = None ->
  (forall j, j ∈ l -> next h'.[j] = if decide (last l = Some j) then Some i else next h.[j]) ->
  slinks h' (l ++ [i]).
Proof.
  intros Hnd Hi Hs Hni Hn k j Hk.
  destruct (Nat.lt_ge_cases k (length l)) as [Hlt|Hge].
  - rewrite lookup_app_l in Hk by done. rewrite Hn by by eapply list_elem_of_lookup_2.
    rewrite last_lookup. destruct (decide (k = pred (length l))) as [->|Hne].
    + rewrite decide_True by done. rewrite lookup_app_r by lia.
      by replace (S (pred (length l)) - length l)%nat with 0%nat by lia.
    + rewrite decide_False.
      * rewrite (Hs _ _ Hk), lookup_app_l by lia. done.
      * intros E. apply Hne. by eapply NoDup_lookup; [exact Hnd| |].
  - rewrite lookup_app_r in Hk by done. apply list_lookup_singleton_Some in Hk as [Hk <-].
    rewrite Hni. symmetry. apply lookup_ge_None. rewrite length_app. cbn. lia.
Qed.
End Lists.
