(* ===== verification/SlabHeap.v ===== *)
(** The invariant of the slab lists of a size class, and the pure transitions
    between consistent states that allocation and deallocation make. *)

From S2P Require Import Prelude Config Util Libdivide SizeClass Kernel RandomSource SlabMeta Slab SlabLists.

(** The fields of a size class that make up its lists of slabs. *)
Record heap := Heap {
  hp_meta : gmap Z slab_metadata;
  hp_partial : option Z;
  hp_empty : option Z;
  hp_head : option Z;
  hp_tail : option Z;
  hp_fsq : gmap Z (option Z)
}.

Definition heap_of {R} (c : size_class R) : heap :=
  Heap (slab_info c) (partial_slabs c) (empty_slabs c) (free_slabs_head c) (free_slabs_tail c)
    (free_slabs_quarantine c).

(** Slab [i] sits in the free slab quarantine. *)
Definition in_fsq (g : heap) (i : Z) : Prop := exists k, (hp_fsq g).[k] = Some i.

(** [heap_inv n lim g P E F]: with [n] slots per slab and [lim] slabs in use,
    the partial, empty and free lists of [g] are P, E and F. A slab is partial
    exactly when it has used and free slots; a slab on no list is full or has
    never been used. *)
Record heap_inv (n lim : Z) (g : heap) (P E F : list Z) : Prop := {
  hi_wf : forall i, meta_wf n (hp_meta g).[i];
  hi_quar : forall i s, is_quarantine_slot (hp_meta g).[i] s = true -> is_used_slot (hp_meta g).[i] s = true;
  hi_partial_links : dlinks (hp_meta g) P;
  hi_partial_head : hp_partial g = head P;
  hi_empty_links : slinks (hp_meta g) E;
  hi_empty_head : hp_empty g = head E;
  hi_free_links : slinks (hp_meta g) F;
  hi_free_head : hp_head g = head F;
  hi_free_tail : hp_tail g = last F;
  hi_nodup : NoDup (P ++ E ++ F);
  hi_fsq_inj : forall k k' i, (hp_fsq g).[k] = Some i -> (hp_fsq g).[k'] = Some i -> k = k';
  hi_fsq_disj : forall i, in_fsq g i -> i ∉ P ++ E ++ F;
  hi_fsq_next : forall i, in_fsq g i -> next (hp_meta g).[i] = None;
  hi_partial : forall i, i ∈ P <-> 0 < count (hp_meta g).[i] < n;
  hi_idle : forall i, i ∈ E ++ F \/ in_fsq g i -> count (hp_meta g).[i] = 0;
  hi_known : forall i, 0 < count (hp_meta g).[i] \/ i ∈ E ++ F \/ in_fsq g i -> 0 <= i < lim
}.

(** An unused slab that is on no list. *)
Record unlisted (lim : Z) (g : heap) (P E F : list Z) (i : Z) : Prop := {
  ul_lists : i ∉ P ++ E ++ F;
  ul_fsq : ~ in_fsq g i;
  ul_count : count (hp_meta g).[i] = 0;
  ul_known : 0 <= i < lim
}.

Section Heap.
Context (n lim : Z) (Hn : 1 <= n <= 256).
Implicit Types (g : heap) (h : gmap Z slab_metadata) (P E F : list Z).

Lemma heap_inv_lim lim' g P E F : lim <= lim' -> heap_inv n lim g P E F -> heap_inv n lim' g P E F.
Proof.
  intros Hl H. destruct H as [? ? ? ? ? ? ? ? ? ? ? ? ? ? ? Hk]. split; try done.
  intros i Hi. specialize (Hk i Hi). lia.
Qed.

(** The parts of a list do not share elements. *)
Lemma lists_disjoint P E F :
  NoDup (P ++ E ++ F) ->
  NoDup P /\ NoDup E /\ NoDup F /\
  (forall i, i ∈ P -> i ∉ E ++ F) /\ (forall i, i ∈ E -> i ∉ F).
Proof.
  intros H. apply NoDup_app in H as (HP & HPd & H). apply NoDup_app in H as (HE & HEd & HF). done.
Qed.

(** ** Unlisting the head of a list *)

Lemma heap_pop_empty g P E F i :
  heap_inv n lim g P (i :: E) F ->
  let g' := Heap (hp_meta g) (hp_partial g) (next (hp_meta g).[i]) (hp_head g) (hp_tail g) (hp_fsq g) in
  heap_inv n lim g' P E F /\ unlisted lim g' P E F i.
Proof.
  intros [Hwf Hq Hpl Hph Hel Heh Hfl Hfh Hft Hnd Hinj Hdisj Hfnx Hpart Hidle Hknown] g'.
  apply slinks_cons in Hel as [Hnext Hel].
  assert (Hin : i ∈ (i :: E) ++ F) by (apply elem_of_app; left; apply list_elem_of_here).
  assert (Hperm : P ++ (i :: E) ++ F ≡ₚ i :: P ++ E ++ F)
    by (symmetry; apply Permutation_middle).
  rewrite Hperm in Hnd. apply NoDup_cons in Hnd as [Hi Hnd].
  assert (Hsub : forall j, j ∈ E ++ F -> j ∈ (i :: E) ++ F) by (intros j; apply list_elem_of_further).
  split.
  - split; cbn; try done.
    + intros j Hj Hl. apply (Hdisj j Hj). rewrite Hperm. by apply list_elem_of_further.
    + intros j [Hj|Hj]; apply Hidle; auto.
    + intros j [Hj|[Hj|Hj]]; apply Hknown; auto.
  - split; cbn; [done| |by apply Hidle; left|apply Hknown; auto].
    intros Hf. apply (Hdisj i Hf). rewrite Hperm. apply list_elem_of_here.
Qed.

Lemma heap_pop_free g P E F i :
  heap_inv n lim g P E (i :: F) ->
  let nx := next (hp_meta g).[i] in
  let g' := Heap (hp_meta g) (hp_partial g) (hp_empty g) nx
              (match nx with None => None | Some _ => hp_tail g end) (hp_fsq g) in
  heap_inv n lim g' P E F /\ unlisted lim g' P E F i.
Proof.
  intros [Hwf Hq Hpl Hph Hel Heh Hfl Hfh Hft Hnd Hinj Hdisj Hfnx Hpart Hidle Hknown] nx g'.
  apply slinks_cons in Hfl as [Hnext Hfl].
  assert (Hin : i ∈ E ++ i :: F) by (apply elem_of_app; right; apply list_elem_of_here).
  assert (Hperm : P ++ E ++ i :: F ≡ₚ i :: P ++ E ++ F).
  { rewrite !app_assoc. symmetry. apply Permutation_middle. }
  rewrite Hperm in Hnd. apply NoDup_cons in Hnd as [Hi Hnd].
  assert (Hsub : forall j, j ∈ E ++ F -> j ∈ E ++ i :: F).
  { intros j. rewrite !elem_of_app, elem_of_cons. tauto. }
  split.
  - split; cbn; try done.
    + unfold nx. rewrite Hnext, Hft. by destruct F.
    + intros j Hj Hl. apply (Hdisj j Hj). rewrite Hperm. by apply list_elem_of_further.
    + intros j [Hj|Hj]; apply Hidle; auto.
    + intros j [Hj|[Hj|Hj]]; apply Hknown; auto.
  - split; cbn; [done| |by apply Hidle; left|apply Hknown; auto].
    intros Hf. apply (Hdisj i Hf). rewrite Hperm. apply list_elem_of_here.
Qed.

(** ** Changing the slots of one slab *)

(** Equal up to the list fields and the canary. *)
Definition same_slots (d d' : slab_metadata) : Prop :=
  bitmap d' = bitmap d /\ count d' = count d /\ quarantine_bitmap d' = quarantine_bitmap d.

Lemma same_slots_wf d d' : same_slots d d' -> meta_wf n d -> meta_wf n d'.
Proof. intros (Hb & Hc & Hq) [Hu Hqw Hcnt]. split; by rewrite ?Hb, ?Hc, ?Hq. Qed.

Lemma same_slots_used d d' s : same_slots d d' -> is_used_slot d' s = is_used_slot d s.
Proof. intros (Hb & _). unfold is_used_slot. by rewrite Hb. Qed.

Lemma same_slots_quarantine d d' s : same_slots d d' -> is_quarantine_slot d' s = is_quarantine_slot d s.
Proof. intros (_ & _ & Hq). unfold is_quarantine_slot. by rewrite Hq. Qed.

(** Slab [i] keeps its counter and its links. *)
Lemma heap_touch g P E F i d' :
  heap_inv n lim g P E F -> meta_wf n d' ->
  count d' = count (hp_meta g).[i] -> next d' = next (hp_meta g).[i] -> prev d' = prev (hp_meta g).[i] ->
  (forall s, is_quarantine_slot d' s = true -> is_used_slot d' s = true) ->
  heap_inv n lim (Heap (hp_meta g).[i <- d'] (hp_partial g) (hp_empty g) (hp_head g) (hp_tail g) (hp_fsq g))
    P E F.
Proof.
  intros [Hwf Hq Hpl Hph Hel Heh Hfl Hfh Hft Hnd Hinj Hdisj Hfnx Hpart Hidle Hknown] Hwf' Hcnt Hnx Hpv Hq'.
  set (h' := (hp_meta g).[i <- _]).
  assert (Hc : forall j, count h'.[j] = count (hp_meta g).[j] /\ next h'.[j] = next (hp_meta g).[j] /\
    prev h'.[j] = prev (hp_meta g).[j]).
  { intros j. unfold h'. rewrite aget_aset_case. by case_decide; subst. }
  split; cbn; try done.
  - intros j. unfold h'. rewrite aget_aset_case. by case_decide.
  - intros j s. unfold h'. rewrite aget_aset_case. case_decide; [apply Hq'|apply Hq].
  - eapply dlinks_ext; [done|]. intros j _. by destruct (Hc j) as (_ & ? & ?).
  - eapply slinks_ext; [done|]. intros j _. by destruct (Hc j) as (_ & ? & _).
  - eapply slinks_ext; [done|]. intros j _. by destruct (Hc j) as (_ & ? & _).
  - intros j Hj. destruct (Hc j) as (_ & -> & _). by apply Hfnx.
  - intros j. destruct (Hc j) as (-> & _). apply Hpart.
  - intros j Hj. destruct (Hc j) as (-> & _). by apply Hidle.
  - intros j Hj. destruct (Hc j) as (E1 & _). rewrite E1 in Hj. by apply Hknown.
Qed.

(** Only slab [i] changes its slots, it is on neither idle list, and the
    partial list is brought up to date. *)
Lemma heap_update g g' P P' E F i :
  heap_inv n lim g P E F ->
  (forall j, j <> i -> same_slots (hp_meta g).[j] (hp_meta g').[j]) ->
  meta_wf n (hp_meta g').[i] ->
  (forall s, is_quarantine_slot (hp_meta g').[i] s = true -> is_used_slot (hp_meta g').[i] s = true) ->
  i ∉ E ++ F -> ~ in_fsq g i -> 0 <= i < lim ->
  (forall j, j ∈ E ++ F \/ in_fsq g j -> next (hp_meta g').[j] = next (hp_meta g).[j]) ->
  hp_empty g' = hp_empty g -> hp_head g' = hp_head g -> hp_tail g' = hp_tail g -> hp_fsq g' = hp_fsq g ->
  dlinks (hp_meta g') P' -> hp_partial g' = head P' -> NoDup P' ->
  (forall j, j <> i -> j ∈ P' <-> j ∈ P) -> (i ∈ P' <-> 0 < count (hp_meta g').[i] < n) ->
  heap_inv n lim g' P' E F.
Proof.
  intros Hinv Hsame Hwfi Hqi Hil Hif Hik Hnext He Hh Ht Hf Hlinks Hhead Hndp Hmem Hmemi.
  destruct Hinv as [Hwf Hq Hpl Hph Hel Heh Hfl Hfh Hft Hnd Hinj Hdisj Hfnx Hpart Hidle Hknown].
  destruct (lists_disjoint P E F Hnd) as (HP & HE & HF & HPd & HEF).
  assert (Hfsq : forall j, in_fsq g' j <-> in_fsq g j) by (intros j; unfold in_fsq; by rewrite Hf).
  assert (Hcount : forall j, j <> i -> count (hp_meta g').[j] = count (hp_meta g).[j]).
  { intros j Hj. by destruct (Hsame j Hj) as (_ & ? & _). }
  assert (Hout : forall j, j ∈ P' -> j ∉ E ++ F).
  { intros j Hj. destruct (decide (j = i)) as [->|]; [done|]. apply HPd, Hmem; done. }
  split; rewrite ?He, ?Hh, ?Ht, ?Hf; try done.
  - intros j. destruct (decide (j = i)) as [->|Hj]; [done|].
    eapply same_slots_wf; [by apply Hsame|done].
  - intros j s. destruct (decide (j = i)) as [->|Hj]; [by apply Hqi|].
    rewrite (same_slots_used _ _ _ (Hsame j Hj)), (same_slots_quarantine _ _ _ (Hsame j Hj)). apply Hq.
  - eapply slinks_ext; [done|]. intros j Hj. apply Hnext. left. apply elem_of_app. by left.
  - eapply slinks_ext; [done|]. intros j Hj. apply Hnext. left. apply elem_of_app. by right.
  - apply NoDup_app. split; [done|]. split; [done|]. by apply NoDup_app in Hnd as (_ & _ & ?).
  - intros j Hj%Hfsq [Hl|Hl]%elem_of_app.
    + destruct (decide (j = i)) as [->|Hji]; [done|]. apply (Hdisj j Hj), elem_of_app. left.
      by apply Hmem.
    + apply (Hdisj j Hj), elem_of_app. by right.
  - intros j Hj%Hfsq. rewrite Hnext by by right. by apply Hfnx.
  - intros j. destruct (decide (j = i)) as [->|Hj]; [done|]. rewrite Hmem, Hcount by done. apply Hpart.
  - intros j Hj. destruct (decide (j = i)) as [->|Hji].
    + destruct Hj as [?|?%Hfsq]; done.
    + rewrite Hcount by done. apply Hidle. by rewrite <- Hfsq.
  - intros j Hj. destruct (decide (j = i)) as [->|Hji]; [done|].
    rewrite Hcount, Hfsq in Hj by done. by apply Hknown.
Qed.

(** Where a slab with used slots is. *)
Lemma used_apart g P E F i :
  heap_inv n lim g P E F -> 0 < count (hp_meta g).[i] ->
  i ∉ E ++ F /\ ~ in_fsq g i /\ 0 <= i < lim.
Proof.
  intros Hinv Hc. pose proof (hi_idle _ _ _ _ _ _ Hinv i) as Hidle.
  split; [intros ?; lia || (specialize (Hidle ltac:(auto)); lia)|].
  split; [intros ?; specialize (Hidle ltac:(auto)); lia|].
  apply (hi_known _ _ _ _ _ _ Hinv). by left.
Qed.

Lemma partial_apart g P E F i :
  heap_inv n lim g P E F -> i ∈ P -> i ∉ E ++ F /\ ~ in_fsq g i /\ 0 <= i < lim.
Proof. intros Hinv Hi. apply (used_apart g P); [done|]. by apply (hi_partial _ _ _ _ _ _ Hinv). Qed.

(** ** Taking a slot *)

(** The first slot of a slab that was on no list. *)
Lemma heap_start g E F i d' :
  heap_inv n lim g [] E F -> unlisted lim g [] E F i ->
  meta_wf n d' -> count d' = 1 -> next d' = None -> prev d' = None ->
  (forall s, is_quarantine_slot d' s = true -> is_used_slot d' s = true) ->
  let P' := if n >? 1 then [i] else [] in
  heap_inv n lim (Heap (hp_meta g).[i <- d'] (head P') (hp_empty g) (hp_head g) (hp_tail g) (hp_fsq g)) P' E F.
Proof.
  intros Hinv [Hl Hf Hc Hk] Hwf Hcount Hnx Hpv Hq P'. cbn [app] in Hl.
  apply heap_update with (g := g) (P := []) (i := i); cbn; rewrite ?aget_aset; try done.
  - intros j Hj. rewrite aget_aset_ne by done. done.
  - intros j Hj. rewrite aget_aset_ne; [done|]. intros ->. by destruct Hj.
  - unfold P'. destruct (n >? 1); [|by apply dlinks_nil]. split.
    + intros [|k] j; [|done]. intros [= <-]. by rewrite aget_aset.
    + intros [|k] j; [|done]. intros [= <-]. by rewrite aget_aset.
  - unfold P'. destruct (n >? 1); [apply NoDup_singleton|constructor].
  - unfold P'. intros j Hj. destruct (n >? 1); [|done]. rewrite list_elem_of_singleton.
    split; [done|]. intros H%not_elem_of_nil; done.
  - unfold P'. rewrite Hcount. destruct (n >? 1) eqn:En; rewrite Z.gtb_ltb in En.
    + apply Z.ltb_lt in En. rewrite list_elem_of_singleton. intuition lia.
    + apply Z.ltb_ge in En. split; [by intros ?%not_elem_of_nil|lia].
Qed.

(** A partial slab that stays partial. *)
Lemma heap_keep g P E F i d' :
  heap_inv n lim g P E F -> i ∈ P ->
  meta_wf n d' -> 0 < count d' < n -> next d' = next (hp_meta g).[i] -> prev d' = prev (hp_meta g).[i] ->
  (forall s, is_quarantine_slot d' s = true -> is_used_slot d' s = true) ->
  heap_inv n lim (Heap (hp_meta g).[i <- d'] (hp_partial g) (hp_empty g) (hp_head g) (hp_tail g) (hp_fsq g))
    P E F.
Proof.
  intros Hinv Hi Hwf Hcount Hnx Hpv Hq.
  destruct (partial_apart g P E F i Hinv Hi) as (Hl & Hf & Hk).
  apply heap_update with (g := g) (P := P) (i := i); cbn; rewrite ?aget_aset; try done.
  - intros j Hj. rewrite aget_aset_ne by done. done.
  - intros j Hj. rewrite aget_aset_ne; [done|]. intros ->. by destruct Hj.
  - eapply dlinks_ext; [by apply Hinv|]. intros j Hj. rewrite aget_aset_case. by case_decide; subst.
  - by apply Hinv.
  - by apply (lists_disjoint P E F), Hinv.
Qed.

(** The last free slot of the first partial slab, which leaves the list. *)
Lemma heap_alloc_full g g' P E F i d' :
  heap_inv n lim g (i :: P) E F ->
  meta_wf n d' -> count d' = n -> next d' = next (hp_meta g).[i] ->
  (forall s, is_quarantine_slot d' s = true -> is_used_slot d' s = true) ->
  (forall j, j <> i -> same_slots (hp_meta g).[j] (hp_meta g').[j] /\
     next (hp_meta g').[j] = next (hp_meta g).[j] /\
     prev (hp_meta g').[j] = if decide (next d' = Some j) then None else prev (hp_meta g).[j]) ->
  same_slots d' (hp_meta g').[i] ->
  hp_partial g' = next d' ->
  hp_empty g' = hp_empty g -> hp_head g' = hp_head g -> hp_tail g' = hp_tail g -> hp_fsq g' = hp_fsq g ->
  heap_inv n lim g' P E F.
Proof.
  intros Hinv Hwf Hcount Hnx Hq Hoth Hsame Hhead He Hh Ht Hf.
  destruct (lists_disjoint _ E F (hi_nodup _ _ _ _ _ _ Hinv)) as (HP & _ & _ & _ & _).
  pose proof (list_elem_of_here i P) as Hi. pose proof HP as [HiP HndP]%NoDup_cons.
  destruct (partial_apart g (i :: P) E F i Hinv Hi) as (Hil & Hif & Hik).
  pose proof (hi_partial_links _ _ _ _ _ _ Hinv) as Hl.
  destruct (dlinks_ends _ [] i P Hl) as [_ Hni].
  assert (Hni' : forall j, j ∈ P -> j <> i) by (intros j Hj ->; done).
  apply heap_update with (g := g) (P := i :: P) (i := i); try done.
  - intros j Hj. by apply Hoth.
  - by eapply same_slots_wf.
  - intros s. rewrite (same_slots_used _ _ _ Hsame), (same_slots_quarantine _ _ _ Hsame). apply Hq.
  - intros j Hj. apply Hoth. intros ->. by destruct Hj.
  - eapply dlinks_pop; [exact HP|done|..].
    + intros j Hj. by apply Hoth, Hni'.
    + intros j Hj. rewrite <- Hnx. by apply Hoth, Hni'.
  - by rewrite Hhead, Hnx.
  - intros j Hj. rewrite elem_of_cons. intuition congruence.
  - destruct Hsame as (_ & -> & _). rewrite Hcount. split; [done|lia].
Qed.

(** ** Giving a slot back *)

(** A full slab becomes the first partial slab. *)
Lemma heap_release_full g g' P E F i d' :
  heap_inv n lim g P E F -> count (hp_meta g).[i] = n -> 1 < n ->
  meta_wf n d' -> count d' = n - 1 ->
  (forall s, is_quarantine_slot d' s = true -> is_used_slot d' s = true) ->
  (hp_meta g').[i] = d' -> next d' = hp_partial g -> prev d' = None ->
  (forall j, j <> i -> same_slots (hp_meta g).[j] (hp_meta g').[j] /\
     next (hp_meta g').[j] = next (hp_meta g).[j] /\
     prev (hp_meta g').[j] = if decide (hp_partial g = Some j) then Some i else prev (hp_meta g).[j]) ->
  hp_partial g' = Some i ->
  hp_empty g' = hp_empty g -> hp_head g' = hp_head g -> hp_tail g' = hp_tail g -> hp_fsq g' = hp_fsq g ->
  heap_inv n lim g' (i :: P) E F.
Proof.
  intros Hinv Hfull H1 Hwf Hcount Hq Hi' Hnx Hpv Hoth Hpart He Hh Ht Hf.
  destruct (used_apart g P E F i Hinv ltac:(lia)) as (Hil & Hif & Hik).
  destruct (lists_disjoint P E F (hi_nodup _ _ _ _ _ _ Hinv)) as (HndP & _).
  pose proof (hi_partial_head _ _ _ _ _ _ Hinv) as Hhead.
  assert (HiP : i ∉ P) by (intros Hin%(hi_partial _ _ _ _ _ _ Hinv); lia).
  assert (Hni : forall j, j ∈ P -> j <> i) by (intros j Hj ->; done).
  apply heap_update with (g := g) (P := P) (i := i); rewrite ?Hi'; try done.
  - intros j Hj. by apply Hoth.
  - intros j Hj. apply Hoth. intros ->. by destruct Hj.
  - eapply dlinks_push; [done|done|by apply Hinv|..]; rewrite ?Hi'.
    + by rewrite Hnx, Hhead.
    + done.
    + intros j Hj. by apply Hoth, Hni.
    + intros j Hj. rewrite <- Hhead. by apply Hoth, Hni.
  - by constructor.
  - intros j Hj. rewrite elem_of_cons. intuition congruence.
  - split; [lia|]. intros _. apply list_elem_of_here.
Qed.

(** The last used slot of a partial slab: the slab leaves the list. *)
Lemma heap_release_last g g' l1 i l2 E F d' :
  heap_inv n lim g (l1 ++ i :: l2) E F ->
  meta_wf n d' -> count d' = 0 ->
  (forall s, is_quarantine_slot d' s = true -> is_used_slot d' s = true) ->
  same_slots d' (hp_meta g').[i] ->
  (forall j, j <> i -> same_slots (hp_meta g).[j] (hp_meta g').[j] /\
     next (hp_meta g').[j] = (if decide (prev (hp_meta g).[i] = Some j) then next (hp_meta g).[i]
                              else next (hp_meta g).[j]) /\
     prev (hp_meta g').[j] = if decide (next (hp_meta g).[i] = Some j) then prev (hp_meta g).[i]
                             else prev (hp_meta g).[j]) ->
  hp_partial g' = (match prev (hp_meta g).[i] with Some _ => hp_partial g | None => next (hp_meta g).[i] end) ->
  hp_empty g' = hp_empty g -> hp_head g' = hp_head g -> hp_tail g' = hp_tail g -> hp_fsq g' = hp_fsq g ->
  heap_inv n lim g' (l1 ++ l2) E F /\ unlisted lim g' (l1 ++ l2) E F i.
Proof.
  intros Hinv Hwf Hcount Hq Hsame Hoth Hpart He Hh Ht Hf.
  assert (HiP : i ∈ l1 ++ i :: l2) by (apply elem_of_app; right; apply list_elem_of_here).
  destruct (partial_apart g _ E F i Hinv HiP) as (Hil & Hif & Hik).
  destruct (lists_disjoint _ E F (hi_nodup _ _ _ _ _ _ Hinv)) as (HndP & _).
  pose proof (hi_partial_links _ _ _ _ _ _ Hinv) as Hl.
  destruct (dlinks_ends _ l1 i l2 Hl) as [Epi Eni].
  pose proof HndP as Hnd2. rewrite <- Permutation_middle in Hnd2. apply NoDup_cons in Hnd2 as [Hi12 Hnd2].
  assert (Hni : forall j, j ∈ l1 ++ l2 -> j <> i) by (intros j Hj ->; done).
  destruct Hsame as (Hb & Hc & Hqb).
  assert (Hlast : forall j, last l1 = Some j -> j ∈ l1 ++ l2).
  { intros j Hj. apply elem_of_app. left. by apply last_Some_elem_of in Hj. }
  split.
  - apply heap_update with (g := g) (P := l1 ++ i :: l2) (i := i); try done.
    + intros j Hj. by apply Hoth.
    + by eapply same_slots_wf.
    + intros s. unfold is_quarantine_slot, is_used_slot. rewrite Hb, Hqb. apply Hq.
    + intros j Hj. destruct (Hoth j) as (_ & -> & _); [intros ->; by destruct Hj|].
      rewrite decide_False; [done|]. rewrite Epi. intros Hjl%Hlast.
      assert (Hin : j ∈ l1 ++ i :: l2).
      { rewrite <- Permutation_middle. by apply list_elem_of_further. }
      destruct (partial_apart g _ E F j Hinv Hin) as (? & ? & _). by destruct Hj.
    + eapply dlinks_unlink; [exact HndP|done|..]; intros j Hj; by apply Hoth, Hni.
    + rewrite Hpart, Epi, Eni, (hi_partial_head _ _ _ _ _ _ Hinv).
      destruct l1 as [|x l1]; [done|]. destruct (last (x :: l1)) eqn:El; [done|].
      by apply last_None in El.
    + intros j Hj. rewrite <- Permutation_middle, elem_of_cons. intuition congruence.
    + rewrite Hc, Hcount. split; [done|lia].
  - split; [|by unfold in_fsq; rewrite Hf|by rewrite Hc|done].
    rewrite elem_of_app. intros [?|?]; done.
Qed.

(** The only slot of a slab with one slot. *)
Lemma heap_release_single g g' E F i P :
  heap_inv n lim g P E F -> n = 1 -> count (hp_meta g).[i] = n ->
  meta_wf n (hp_meta g').[i] -> count (hp_meta g').[i] = 0 ->
  (forall s, is_quarantine_slot (hp_meta g').[i] s = true -> is_used_slot (hp_meta g').[i] s = true) ->
  (forall j, j <> i -> (hp_meta g').[j] = (hp_meta g).[j]) ->
  hp_partial g' = None ->
  hp_empty g' = hp_empty g -> hp_head g' = hp_head g -> hp_tail g' = hp_tail g -> hp_fsq g' = hp_fsq g ->
  P = [] /\ heap_inv n lim g' [] E F /\ unlisted lim g' [] E F i.
Proof.
  intros Hinv Hone Hfull Hwf Hcount Hq Hoth Hpart He Hh Ht Hf.
  destruct (used_apart g P E F i Hinv ltac:(lia)) as (Hil & Hif & Hik).
  assert (P = []) as ->.
  { destruct P as [|j P]; [done|]. pose proof (list_elem_of_here j P) as Hj.
    apply (hi_partial _ _ _ _ _ _ Hinv) in Hj. lia. }
  split; [done|]. split.
  - apply heap_update with (g := g) (P := []) (i := i); try done.
    + intros j Hj. by rewrite Hoth.
    + intros j Hj. rewrite Hoth; [done|]. intros ->. by destruct Hj.
    + constructor.
    + rewrite Hcount. split; [by intros ?%not_elem_of_nil|lia].
  - split; [done|by unfold in_fsq; rewrite Hf|done|done].
Qed.

(** ** Listing an unused slab *)

Lemma same_slots_set_next x d : same_slots d (set_next x d).
Proof. done. Qed.

(** Only the next field of an unlisted slab changes. *)
Lemma set_next_wf (h : gmap Z slab_metadata) i x :
  (forall j, meta_wf n h.[j]) -> forall j, meta_wf n h.[i <- set_next x h.[i]].[j].
Proof.
  intros H j. rewrite aget_aset_case. case_decide; [|done]. eapply same_slots_wf; [apply same_slots_set_next|done].
Qed.

Lemma set_next_count (h : gmap Z slab_metadata) i x j :
  count h.[i <- set_next x h.[i]].[j] = count h.[j].
Proof. rewrite aget_aset_case. by case_decide; subst. Qed.

Lemma set_next_prev (h : gmap Z slab_metadata) i x j :
  prev h.[i <- set_next x h.[i]].[j] = prev h.[j].
Proof. rewrite aget_aset_case. by case_decide; subst. Qed.

Lemma set_next_slots (h : gmap Z slab_metadata) i x j s :
  is_used_slot h.[i <- set_next x h.[i]].[j] s = is_used_slot h.[j] s /\
  is_quarantine_slot h.[i <- set_next x h.[i]].[j] s = is_quarantine_slot h.[j] s.
Proof. rewrite aget_aset_case. by case_decide; subst. Qed.

(** The slabs of the free list and of the quarantine. *)
Lemma heap_push_empty g P E F i :
  heap_inv n lim g P E F -> unlisted lim g P E F i ->
  heap_inv n lim
    (Heap (hp_meta g).[i <- set_next (hp_empty g) (hp_meta g).[i]] (hp_partial g) (Some i) (hp_head g)
       (hp_tail g) (hp_fsq g)) P (i :: E) F.
Proof.
  intros [Hwf Hq Hpl Hph Hel Heh Hfl Hfh Hft Hnd Hinj Hdisj Hfnx Hpart Hidle Hknown] [Hl Hf Hc Hk].
  rewrite !not_elem_of_app in Hl. destruct Hl as (HiP & HiE & HiF).
  assert (Hnx : forall j, j <> i -> next (hp_meta g).[i <- set_next (hp_empty g) (hp_meta g).[i]].[j] = next (hp_meta g).[j]).
  { intros j Hj. by rewrite aget_aset_ne. }
  split; cbn; try done.
  - by apply set_next_wf.
  - intros j s. destruct (set_next_slots (hp_meta g) i (hp_empty g) j s) as [-> ->]. apply Hq.
  - eapply dlinks_ext; [done|]. intros j Hj. rewrite set_next_prev, Hnx; [done|]. by intros ->.
  - apply slinks_cons. rewrite aget_aset. split; [done|]. eapply slinks_ext; [done|].
    intros j Hj. apply Hnx. by intros ->.
  - eapply slinks_ext; [done|]. intros j Hj. apply Hnx. by intros ->.
  - assert (Hperm : P ++ (i :: E) ++ F ≡ₚ i :: P ++ E ++ F) by (symmetry; apply Permutation_middle).
    cbn in Hperm. rewrite Hperm. constructor; [|done]. rewrite !not_elem_of_app. done.
  - intros j Hj Hin. destruct (decide (j = i)) as [->|Hji]; [done|]. apply (Hdisj j Hj).
    revert Hin. rewrite !elem_of_app, elem_of_cons, elem_of_app. tauto.
  - intros j Hj. rewrite Hnx; [by apply Hfnx|]. by intros ->.
  - intros j. rewrite set_next_count. apply Hpart.
  - intros j Hj. rewrite set_next_count. destruct (decide (j = i)) as [->|Hji]; [done|].
    apply Hidle. destruct Hj as [Hj|Hj]; [left|by right]. by apply elem_of_cons in Hj as [?|?].
  - intros j Hj. rewrite set_next_count in Hj. destruct (decide (j = i)) as [->|Hji]; [done|].
    apply Hknown. destruct Hj as [?|[Hj|?]]; [by left|right; left|by right; right].
    by apply elem_of_cons in Hj as [?|?].
Qed.

(** Clearing the next field of an unlisted slab. *)
Lemma heap_clear_next g P E F i :
  heap_inv n lim g P E F -> unlisted lim g P E F i ->
  let g' := Heap (hp_meta g).[i <- set_next None (hp_meta g).[i]] (hp_partial g) (hp_empty g) (hp_head g)
              (hp_tail g) (hp_fsq g) in
  heap_inv n lim g' P E F /\ unlisted lim g' P E F i /\ next (hp_meta g').[i] = None.
Proof.
  intros Hinv Hu g'. pose proof Hinv as [Hwf Hq Hpl Hph Hel Heh Hfl Hfh Hft Hnd Hinj Hdisj Hfnx Hpart Hidle Hknown].
  pose proof Hu as [Hl Hf Hc Hk]. rewrite !not_elem_of_app in Hl. destruct Hl as (HiP & HiE & HiF).
  split; [|split].
  - apply heap_update with (g := g) (P := P) (i := i); cbn; try done.
    + intros j Hj. by rewrite aget_aset_ne.
    + by apply set_next_wf.
    + intros s. destruct (set_next_slots (hp_meta g) i None i s) as [-> ->]. apply Hq.
    + by rewrite not_elem_of_app.
    + intros j Hj. rewrite aget_aset_ne; [done|]. intros <-. rewrite elem_of_app in Hj. tauto.
    + eapply dlinks_ext; [done|]. intros j Hj. rewrite aget_aset_ne; [done|]. by intros ->.
    + by apply NoDup_app in Hnd as (? & _).
    + rewrite set_next_count, Hpart. done.
  - split; cbn; [by rewrite !not_elem_of_app|done|by rewrite set_next_count|done].
  - cbn. by rewrite aget_aset.
Qed.

(** Into an empty cell of the quarantine. *)
Lemma heap_fsq_put g P E F i k :
  heap_inv n lim g P E F -> unlisted lim g P E F i -> next (hp_meta g).[i] = None ->
  (hp_fsq g).[k] = None ->
  heap_inv n lim
    (Heap (hp_meta g) (hp_partial g) (hp_empty g) (hp_head g) (hp_tail g) (hp_fsq g).[k <- Some i]) P E F.
Proof.
  intros [Hwf Hq Hpl Hph Hel Heh Hfl Hfh Hft Hnd Hinj Hdisj Hfnx Hpart Hidle Hknown] [Hl Hf Hc Hk] Hnx Hcell.
  assert (Hin : forall j, in_fsq (Heap (hp_meta g) (hp_partial g) (hp_empty g) (hp_head g) (hp_tail g)
    (hp_fsq g).[k <- Some i]) j -> j = i \/ in_fsq g j).
  { intros j [k' Hk']. cbn in Hk'. rewrite aget_aset_case in Hk'.
    case_decide; [left; congruence|right; by exists k']. }
  split; cbn; try done.
  - intros a b j. rewrite !aget_aset_case. repeat case_decide; intros Ha Hb; try congruence.
    + destruct Hf. exists b. congruence.
    + destruct Hf. exists a. congruence.
    + by eapply Hinj.
  - intros j [->|Hj]%Hin; [done|by apply Hdisj].
  - intros j [->|Hj]%Hin; [done|by apply Hfnx].
  - intros j [Hj|[->|Hj]%Hin]; [apply Hidle; by left|done|apply Hidle; by right].
  - intros j [Hj|[Hj|[->|Hj]%Hin]]; [apply Hknown; by left|apply Hknown; by right; left|done|].
    apply Hknown. by right; right.
Qed.

(** Taking a slab out of the quarantine. *)
Lemma heap_fsq_take g P E F i k :
  heap_inv n lim g P E F -> (hp_fsq g).[k] = Some i ->
  let g' := Heap (hp_meta g) (hp_partial g) (hp_empty g) (hp_head g) (hp_tail g) (hp_fsq g).[k <- None] in
  heap_inv n lim g' P E F /\ unlisted lim g' P E F i /\ next (hp_meta g').[i] = None.
Proof.
  intros [Hwf Hq Hpl Hph Hel Heh Hfl Hfh Hft Hnd Hinj Hdisj Hfnx Hpart Hidle Hknown] Hcell g'.
  assert (Hold : in_fsq g i) by by exists k.
  assert (Hin : forall j, in_fsq g' j -> j <> i /\ in_fsq g j).
  { intros j [k' Hk']. cbn in Hk'. rewrite aget_aset_case in Hk'. case_decide as Hkk; [done|].
    split; [|by exists k']. intros ->. by apply Hkk, (Hinj k k' i). }
  split; [|split].
  - split; cbn; try done.
    + intros a b j. rewrite !aget_aset_case. repeat case_decide; try done. by eapply Hinj.
    + intros j [_ Hj]%Hin. by apply Hdisj.
    + intros j [_ Hj]%Hin. by apply Hfnx.
    + intros j [Hj|[_ Hj]%Hin]; apply Hidle; auto.
    + intros j [Hj|[Hj|[_ Hj]%Hin]]; apply Hknown; auto.
  - split; [by apply Hdisj| |apply Hidle; auto|apply Hknown; auto]. intros [? _]%Hin. done.
  - by apply Hfnx.
Qed.

(** Appending to the free list: the tail, if any, points to the new slab. *)
Lemma heap_append g P E F i :
  heap_inv n lim g P E F -> unlisted lim g P E F i -> next (hp_meta g).[i] = None ->
  heap_inv n lim
    (Heap (match hp_tail g with
           | Some t => (hp_meta g).[t <- set_next (Some i) (hp_meta g).[t]]
           | None => hp_meta g
           end) (hp_partial g) (hp_empty g)
       (match hp_tail g with Some _ => hp_head g | None => Some i end) (Some i) (hp_fsq g)) P E (F ++ [i]).
Proof.
  intros Hinv [Hl Hf Hc Hk] Hnx.
  pose proof Hinv as [Hwf Hq Hpl Hph Hel Heh Hfl Hfh Hft Hnd Hinj Hdisj Hfnx Hpart Hidle Hknown].
  rewrite !not_elem_of_app in Hl. destruct Hl as (HiP & HiE & HiF).
  destruct (lists_disjoint P E F Hnd) as (HndP & HndE & HndF & HPd & HEF).
  set (h' := match hp_tail g with Some t => _ | None => _ end).
  assert (Hcount : forall j, count h'.[j] = count (hp_meta g).[j]).
  { intros j. unfold h'. destruct (hp_tail g); [apply set_next_count|done]. }
  assert (Hprev : forall j, prev h'.[j] = prev (hp_meta g).[j]).
  { intros j. unfold h'. destruct (hp_tail g); [apply set_next_prev|done]. }
  assert (Hnext : forall j, next h'.[j] = if decide (last F = Some j) then Some i else next (hp_meta g).[j]).
  { intros j. unfold h'. rewrite Hft. destruct (last F) as [t|]; [|done].
    rewrite aget_aset_case. repeat case_decide; subst; try done; congruence. }
  assert (Htail : forall j, last F = Some j -> j ∈ F) by (intros j; apply last_Some_elem_of).
  split; cbn; try done.
  - intros j. unfold h'. destruct (hp_tail g); [by apply set_next_wf|done].
  - intros j s. unfold h'. destruct (hp_tail g) as [t|]; [|apply Hq].
    destruct (set_next_slots (hp_meta g) t (Some i) j s) as [-> ->]. apply Hq.
  - eapply dlinks_ext; [done|]. intros j Hj. rewrite Hprev, Hnext, decide_False; [done|].
    intros ?%Htail. apply (HPd j Hj), elem_of_app. by right.
  - eapply slinks_ext; [done|]. intros j Hj. rewrite Hnext, decide_False; [done|].
    intros ?%Htail. by apply (HEF j Hj).
  - eapply slinks_snoc; [done|done|exact Hfl| |].
    + rewrite Hnext, decide_False; [done|]. intros ?%Htail. done.
    + intros j Hj. apply Hnext.
  - rewrite Hft, Hfh. destruct F as [|x F]; [done|]. destruct (last (x :: F)) eqn:El; [done|].
    by apply last_None in El.
  - by rewrite last_snoc.
  - assert (Hperm : P ++ E ++ F ++ [i] ≡ₚ i :: P ++ E ++ F).
    { rewrite !app_assoc. rewrite (Permutation_app_comm _ [i]). done. }
    rewrite Hperm. constructor; [|done]. rewrite !not_elem_of_app. done.
  - intros j Hj Hin. destruct (decide (j = i)) as [->|Hji]; [done|]. apply (Hdisj j Hj).
    revert Hin. rewrite !elem_of_app, list_elem_of_singleton. tauto.
  - intros j Hj. rewrite Hnext, decide_False; [by apply Hfnx|]. intros Hjt%Htail.
    apply (Hdisj j Hj). rewrite !elem_of_app. auto.
  - intros j. rewrite Hcount. apply Hpart.
  - intros j Hj. rewrite Hcount. destruct (decide (j = i)) as [->|Hji]; [done|].
    apply Hidle. destruct Hj as [Hj|Hj]; [left|by right].
    revert Hj. rewrite !elem_of_app, list_elem_of_singleton. tauto.
  - intros j Hj. rewrite Hcount in Hj. destruct (decide (j = i)) as [->|Hji]; [done|].
    apply Hknown. destruct Hj as [?|[Hj|?]]; [by left|right; left|by right; right].
    revert Hj. rewrite !elem_of_app, list_elem_of_singleton. tauto.
Qed.
End Heap.
