(* ===== verification/SlabInv.v ===== *)
(** The invariant of a size class: its geometry, its lists of slabs, its
    metadata limits and its quarantine. *)

From S2P Require Import Prelude Config Util Libdivide SizeClass Kernel RandomSource SlabMeta Slab SlabLists SlabHeap.

(** Compute the fields of an updated size class. *)
Ltac sc :=
  cbn [fst snd lock class_region_start slab_info slab_info_addr size_divisor slab_size_divisor size slots
       slab_size partial_slabs empty_slabs empty_slabs_total free_slabs_head free_slabs_tail
       free_slabs_quarantine nmalloc ndalloc allocated slab_allocated rng metadata_allocated
       metadata_count metadata_count_unguarded quarantine_queue_index quarantine_queue
       quarantine_random set_lock set_slab_info set_partial_slabs set_empty_slabs
       set_empty_slabs_total set_free_slabs_head set_free_slabs_tail set_free_slabs_quarantine
       set_nmalloc set_ndalloc set_allocated set_slab_allocated set_rng set_metadata_allocated
       set_metadata_count set_metadata_count_unguarded set_quarantine_queue_index
       set_quarantine_queue set_quarantine_random heap_of hp_meta hp_partial hp_empty hp_head hp_tail
       hp_fsq].

(** One step of a program on a size class. *)
Ltac sc_step :=
  unfold get_class, modify_class, get_meta, update_meta, mutex_lock, mutex_unlock; wp_step; sc.

(** ** Geometry *)

(** The address of slot [s] of slab [i]. *)
Definition slot_address {R} (c : size_class R) (i s : Z) : Z :=
  class_region_start c + i * slab_size c + s * size c.

Record class_geometry `{Config} {R} (class : Z) (c : size_class R) : Prop := {
  cg_class : 0 <= class < N_SIZE_CLASSES;
  cg_size : size c = slot_size class;
  cg_slots : slots c = get_slots class;
  cg_slab_size : slab_size c = get_slab_size (slots c) (size c);
  cg_size_divisor : u32_divisor (size c) (size_divisor c);
  cg_slab_size_divisor : u64_divisor (slab_size c) (slab_size_divisor c);
  cg_start : 0 < class_region_start c;
  cg_page : (PAGE_SIZE | class_region_start c);
  cg_end : class_region_start c + CLASS_REGION_SIZE <= 2 ^ 63
}.

(** The slabs in use: below both the count and the allocated metadata. *)
Definition slab_limit {R} (c : size_class R) : Z := Z.min (metadata_count c) (metadata_allocated c).

Record metadata_inv `{Config} {R} (c : size_class R) : Prop := {
  mi_count : 0 <= metadata_count c <= metadata_allocated c + 1;
  mi_allocated : 0 <= metadata_allocated c <= get_metadata_max (slab_size c);
  mi_unguarded : 0 <= metadata_count_unguarded c < GUARD_SLABS_INTERVAL;
  mi_fresh : forall i, metadata_count c <= i -> (slab_info c).[i] = zero
}.

(** ** Quarantine

    A cell of one of the two arrays: the random one or the queue. *)
Definition qcell {R} (c : size_class R) (b : bool) (k : Z) : Z :=
  if b then (quarantine_random c).[k] else (quarantine_queue c).[k].

(** [p] is a quarantined slot. *)
Definition quarantined {R} (c : size_class R) (p : Z) : Prop :=
  exists i s, 0 <= i < slab_limit c /\ 0 <= s < slots c /\ p = slot_address c i s /\
    is_quarantine_slot (slab_info c).[i] s = true.

(** Every quarantined slot is in exactly one cell, [pend] being the pointer that
    the running deallocation holds in its hands. *)
Record quarantine_inv {R} (c : size_class R) (pend : option Z) : Prop := {
  qi_cells : forall b k, qcell c b k <> 0 -> quarantined c (qcell c b k);
  qi_inj : forall b k b' k', qcell c b k <> 0 -> qcell c b k = qcell c b' k' -> b = b' /\ k = k';
  qi_pend : forall p, pend = Some p -> quarantined c p /\ forall b k, qcell c b k <> p;
  qi_complete : forall p, quarantined c p -> (exists b k, qcell c b k = p) \/ pend = Some p
}.

(** ** The invariant *)

Record class_body `{Config} `{Kernel} {R} `{!RandomSource R} (class : Z) (c : size_class R)
    (P E F : list Z) (pend : option Z) : Prop := {
  cb_geometry : class_geometry class c;
  cb_rng : random_inv (rng c);
  cb_heap : heap_inv (slots c) (slab_limit c) (heap_of c) P E F;
  cb_total : empty_slabs_total c = Z.of_nat (length E) * slab_size c;
  cb_metadata : metadata_inv c;
  cb_quarantine : quarantine_inv c pend;
  cb_queue_index : 0 <= quarantine_queue_index c <
    Z.max 1 (quarantine_length SLAB_QUARANTINE_QUEUE_LENGTH (size c));
  cb_no_quarantine : SLAB_QUARANTINE = false ->
    forall i s, 0 <= s -> is_quarantine_slot (slab_info c).[i] s = false
}.

Definition class_inv `{Config} `{Kernel} {R} `{!RandomSource R} (class : Z) (c : size_class R)
    (P E F : list Z) : Prop :=
  lock c = false /\ class_body class c P E F None.

Section Geometry.
Context {Cfg : Config} {Cok : ConfigOk Cfg} {R : Type} (class : Z) (c : size_class R).
Context (Hg : class_geometry class c).

(** What the tables of size classes give. *)
Record geometry_facts : Prop := {
  gf_slots : 1 <= slots c <= 256;
  gf_size : 16 <= size c <= 131072;
  gf_size16 : (16 | size c);
  gf_slab : slots c * size c <= slab_size c <= 131072;
  gf_slab_page : (PAGE_SIZE | slab_size c);
  gf_max : 1 <= get_metadata_max (slab_size c);
  gf_region : get_metadata_max (slab_size c) * slab_size c <= CLASS_REGION_SIZE
}.

Lemma slab_geometry_facts : geometry_facts.
Proof.
  destruct Hg as [Hc Hs Hn Hsl _ _ _ _ _].
  destruct (slab_geometry_spec class Hc) as (? & ? & ? & ? & ? & ? & ? & ? & ? & ?).
  pose proof max_slab_size_class_bounds.
  split; rewrite ?Hsl, ?Hn, ?Hs; try done; lia.
Qed.

Lemma class_region_bound : CLASS_REGION_SIZE <= 2 ^ 40.
Proof. pose proof (cb_crs config_facts). unfold CLASS_REGION_SIZE. lia. Qed.

(** An address in the class region, relative to the start. *)
Lemma slab_offset_bound i :
  0 <= i < get_metadata_max (slab_size c) ->
  0 <= i * slab_size c /\ i * slab_size c + slab_size c <= CLASS_REGION_SIZE.
Proof. intros Hi. destruct slab_geometry_facts. split; nia. Qed.

Lemma get_slab_eq i :
  0 <= i < get_metadata_max (slab_size c) ->
  get_slab c (slab_size c) i = class_region_start c + i * slab_size c.
Proof.
  intros Hi. destruct (slab_offset_bound i Hi). pose proof class_region_bound.
  destruct Hg, slab_geometry_facts. unfold get_slab.
  rewrite (wrap_small 64 (i * _)) by (split; lia). apply wrap_small. split; lia.
Qed.

Lemma slot_offset_bound s :
  0 <= s < slots c -> 0 <= s * size c /\ s * size c + size c <= slab_size c.
Proof. intros Hs. destruct slab_geometry_facts. split; nia. Qed.

Lemma slot_pointer_eq i s :
  0 <= i < get_metadata_max (slab_size c) -> 0 <= s < slots c ->
  slot_pointer (size c) (get_slab c (slab_size c) i) s = slot_address c i s.
Proof.
  intros Hi Hs. destruct (slab_offset_bound i Hi), (slot_offset_bound s Hs). pose proof class_region_bound.
  destruct Hg, slab_geometry_facts. unfold slot_pointer. rewrite get_slab_eq by done.
  rewrite (wrap_small 64 (s * _)) by (split; lia). unfold slot_address. apply wrap_small. split; lia.
Qed.

Lemma slot_address_bound i s :
  0 <= i < get_metadata_max (slab_size c) -> 0 <= s < slots c ->
  class_region_start c <= slot_address c i s /\
  slot_address c i s + size c <= class_region_start c + CLASS_REGION_SIZE.
Proof.
  intros Hi Hs. destruct (slab_offset_bound i Hi), (slot_offset_bound s Hs). unfold slot_address. lia.
Qed.

(** Division recovers slab and slot. *)
Lemma slot_address_div i s d :
  0 <= s < slots c -> 0 <= d < size c ->
  (slot_address c i s + d - class_region_start c) / slab_size c = i /\
  (slot_address c i s + d - (class_region_start c + i * slab_size c)) / size c = s.
Proof.
  intros Hs Hd. destruct (slot_offset_bound s Hs), slab_geometry_facts. unfold slot_address. split.
  - symmetry. apply (Z.div_unique _ _ _ (s * size c + d)); lia.
  - symmetry. apply (Z.div_unique _ _ _ d); lia.
Qed.

Lemma slot_address_inj i s j t :
  0 <= s < slots c -> 0 <= t < slots c -> slot_address c i s = slot_address c j t -> i = j /\ s = t.
Proof.
  intros Hs Ht E. destruct slab_geometry_facts.
  destruct (slot_address_div i s 0 Hs ltac:(lia)) as [E1 E2].
  destruct (slot_address_div j t 0 Ht ltac:(lia)) as [E3 E4]. rewrite E in E1, E2.
  assert (i = j) by congruence. subst j. split; congruence.
Qed.
End Geometry.
