(* ===== verification/SlabRegion.v ===== *)
(** The slab region: one class region per arena and size class, placed at a
    random gap (the loop of [init_slow_path]), and the way back from an address
    to its size class ([slab_size_class], [slab_usable_size]). *)

From S2P Require Import Prelude Config Util Libdivide SizeClass Kernel RandomSource SlabMeta Slab SlabLists SlabHeap SlabInv.

Record slab_size_class_info := SlabSizeClassInfo { arena : Z; ssc_class : Z }.

Section Region.
Context `{Cfg : Config}.

(** [slab_region_start] is the field of [ro]. *)
Definition slab_size_class (slab_region_start p : Z) : slab_size_class_info :=
  let offset := u64 (p - slab_region_start) in
  if N_ARENA >? 1 then
    let arena := u32 (offset / ARENA_SIZE) in
    let offset := u64 (offset - u64 (arena * ARENA_SIZE)) in
    SlabSizeClassInfo arena (offset / REAL_CLASS_REGION_SIZE)
  else SlabSizeClassInfo 0 (offset / REAL_CLASS_REGION_SIZE).

Definition slab_usable_size (slab_region_start p : Z) : Z :=
  size_classes_at (ssc_class (slab_size_class slab_region_start p)).
End Region.

Section Init.
Context `{Cfg : Config} `{K : Kernel} {R : Type} `{!RandomSource R}.

(** The body of the loop of [init_slow_path] over arenas and size classes: the
    state of the class, on zeroed pages whose [slab_info] array is at
    [slab_info_addr]. The monad's own generator is [rng]. *)
Definition init_size_class (slab_region_start slab_info_addr arena class : Z) :
    M (R * world) (size_class R) :=
  let* class_rng := random_init_from random_zero in
  let bound := u64 (u64 (REAL_CLASS_REGION_SIZE - CLASS_REGION_SIZE) / PAGE_SIZE - 1) in
  let* v := get_random_u64_uniform bound in
  let gap := u64 (u64 (v + 1) * PAGE_SIZE) in
  let class_region_start :=
    u64 (slab_region_start + u64 (ARENA_SIZE * arena) + u64 (REAL_CLASS_REGION_SIZE * class) + gap) in
  on_world (label_slab class_region_start CLASS_REGION_SIZE class) ;;;
  let size := size_classes_at class in
  let size := if size =? 0 then 16 else size in
  let slots := get_slots class in
  let slab_size := get_slab_size slots size in
  let* size_divisor := of_fuel (libdivide_u32_gen size) in
  let* slab_size_divisor := of_fuel (libdivide_u64_gen slab_size) in
  ret (SizeClass false class_region_start ∅ slab_info_addr size_divisor slab_size_divisor size slots
         slab_size None None 0 None None ∅ 0 0 0 0 class_rng 0 0 0 0 ∅ ∅).
End Init.

(** ** Layout *)

Section Layout.
Context {Cfg : Config} {Cok : ConfigOk Cfg}.

(** The slab region as mmap returns it, for a page-aligned class region size. *)
Record region_placed (start : Z) : Prop := {
  rp_pos : 0 < start;
  rp_page : (PAGE_SIZE | start);
  rp_end : start + slab_region_size <= 2 ^ 63;
  rp_class : (PAGE_SIZE | CLASS_REGION_SIZE)
}.

(** The class region of [class] in [arena] starts at [p]. *)
Definition class_placed (start arena class p : Z) : Prop :=
  0 <= arena < N_ARENA /\ 0 <= class < N_SIZE_CLASSES /\
  exists gap, (PAGE_SIZE | gap) /\ PAGE_SIZE <= gap <= CLASS_REGION_SIZE - PAGE_SIZE /\
    p = start + ARENA_SIZE * arena + REAL_CLASS_REGION_SIZE * class + gap.

Lemma region_sizes :
  33554432 <= CLASS_REGION_SIZE <= 2 ^ 40 /\ REAL_CLASS_REGION_SIZE = 2 * CLASS_REGION_SIZE /\
  ARENA_SIZE = REAL_CLASS_REGION_SIZE * N_SIZE_CLASSES /\ slab_region_size = ARENA_SIZE * N_ARENA /\
  1 <= N_SIZE_CLASSES <= 49 /\ 1 <= N_ARENA <= 256.
Proof.
  pose proof config_facts as []. rewrite N_SIZE_CLASSES_eq.
  unfold slab_region_size, ARENA_SIZE, REAL_CLASS_REGION_SIZE, CLASS_REGION_SIZE. rewrite N_SIZE_CLASSES_eq.
  destruct CONFIG_EXTENDED_SIZE_CLASSES; lia.
Qed.

(** Where an address of the class region lies in its arena and in the slab region. *)
Lemma class_placed_offset start ar class p a :
  class_placed start ar class p -> p <= a < p + CLASS_REGION_SIZE ->
  let off := a - start - ARENA_SIZE * ar in
  REAL_CLASS_REGION_SIZE * class + PAGE_SIZE <= off < REAL_CLASS_REGION_SIZE * (class + 1) - PAGE_SIZE /\
  0 <= off < ARENA_SIZE /\ 0 <= a - start < slab_region_size.
Proof.
  intros (Har & Hcl & gap & _ & Hgap & ->) Ha off.
  destruct region_sizes as (Hc & HR & HA & HS & HN & HNA). rewrite PAGE_SIZE_eq in *.
  assert (H1 : REAL_CLASS_REGION_SIZE * class + 4096 <= off < REAL_CLASS_REGION_SIZE * (class + 1) - 4096)
    by (unfold off; lia).
  assert (H2 : 0 <= off < ARENA_SIZE) by (rewrite HA; nia).
  split; [done|]. split; [done|]. unfold off in H2. rewrite HS. nia.
Qed.

Lemma slab_size_class_spec start ar class p a :
  region_placed start -> class_placed start ar class p -> p <= a < p + CLASS_REGION_SIZE ->
  slab_size_class start a = SlabSizeClassInfo ar class.
Proof.
  intros [Hs0 _ Hend _] Hp Ha. destruct (class_placed_offset _ _ _ _ _ Hp Ha) as (H1 & H2 & H3).
  destruct region_sizes as (Hc & HR & HA & HS & HN & HNA), Hp as (Har & Hcl & _). rewrite PAGE_SIZE_eq in *.
  set (off := a - start - ARENA_SIZE * ar) in *.
  assert (Hdiv : off / REAL_CLASS_REGION_SIZE = class).
  { symmetry. apply (Z.div_unique _ _ _ (off - REAL_CLASS_REGION_SIZE * class)); lia. }
  unfold slab_size_class. rewrite (wrap_small 64 (a - start)) by (split; lia).
  destruct (N_ARENA >? 1) eqn:HN1; rewrite Z.gtb_ltb in HN1.
  - assert (Hd : (a - start) / ARENA_SIZE = ar).
    { symmetry. apply (Z.div_unique _ _ _ off); lia. }
    rewrite Hd, (wrap_small 32 ar) by (split; lia).
    rewrite (wrap_small 64 (ar * _)), (wrap_small 64) by (split; lia).
    f_equal. rewrite <- Hdiv. f_equal. unfold off. lia.
  - apply Z.ltb_ge in HN1. assert (ar = 0) as -> by lia. f_equal. rewrite <- Hdiv. f_equal. unfold off. lia.
Qed.
End Layout.

(** ** Initialisation *)

Section InitProofs.
Context {Cfg : Config} {Cok : ConfigOk Cfg} {K : Kernel} {Kok : KernelOk K} {R : Type}.
Context `{!RandomSource R} `{!RandomSourceOk R}.

Lemma metadata_inv_fresh (c : size_class R) :
  slab_info c = ∅ -> metadata_allocated c = 0 -> metadata_count c = 0 -> metadata_count_unguarded c = 0 ->
  1 <= get_metadata_max (slab_size c) -> metadata_inv c.
Proof.
  intros Hi Ha Hc Hu Hmax. pose proof (cb_gsi config_facts). split; rewrite ?Ha, ?Hc, ?Hu, ?Hi; try lia.
  intros i _. apply aget_empty.
Qed.

Lemma heap_inv_fresh n lim : heap_inv n lim (Heap ∅ None None None None ∅) [] [] [].
Proof.
  assert (Hz : forall i, (∅ : gmap Z slab_metadata).[i] = zero) by (intros; apply aget_empty).
  split; cbn; try done; intros; rewrite ?Hz in *.
  - apply meta_wf_zero.
  - constructor.
  - apply not_elem_of_nil.
  - split; [by intros ?%not_elem_of_nil|cbn; lia].
  - match goal with H : _ \/ _ |- _ => destruct H as [Hc|[Hin|[k Hk]]] end.
    + cbn in Hc. lia.
    + by apply not_elem_of_nil in Hin.
    + cbn in Hk. by rewrite aget_empty in Hk.
Qed.

Lemma no_quarantine_fresh i s : is_quarantine_slot (∅ : gmap Z slab_metadata).[i] s = false.
Proof.
  rewrite aget_empty. unfold is_quarantine_slot.
  rewrite bitmap_get_testbit. cbn [quarantine_bitmap zero slab_metadata_zeroed].
  by rewrite aget_empty_Z, Z.testbit_0_l.
Qed.

Lemma quarantine_inv_fresh (c : size_class R) :
  slab_info c = ∅ -> quarantine_random c = ∅ -> quarantine_queue c = ∅ -> quarantine_inv c None.
Proof.
  intros Hi Hr Hq.
  assert (Hcell : forall b k, qcell c b k = 0) by (intros [] k; unfold qcell; rewrite ?Hr, ?Hq; apply aget_empty).
  split; [|intros b k b' k'|done|].
  - intros b k []. apply Hcell.
  - intros []. apply Hcell.
  - intros p (i & s & _ & _ & _ & Hb). by rewrite Hi, no_quarantine_fresh in Hb.
Qed.

Lemma sum_fits s x y g :
  0 < s -> 0 <= x -> 0 <= y -> 0 <= g -> s + x + y + g < 2 ^ 63 -> u64 (s + u64 x + u64 y + g) = s + x + y + g.
Proof.
  intros. rewrite (wrap_small 64 x), (wrap_small 64 y) by (split; lia). apply wrap_small. split; lia.
Qed.

Lemma class_start_fits start ar class gap p :
  0 < start -> start + slab_region_size <= 2 ^ 63 -> 0 <= gap ->
  p = start + ARENA_SIZE * ar + REAL_CLASS_REGION_SIZE * class + gap -> class_placed start ar class p ->
  u64 (start + u64 (ARENA_SIZE * ar) + u64 (REAL_CLASS_REGION_SIZE * class) + gap) = p /\
  0 < p /\ p + CLASS_REGION_SIZE <= 2 ^ 63.
Proof.
  intros Hs0 Hend Hgap Ep Hplaced. destruct region_sizes as (Hc & HR & HA & _ & HN & _).
  assert (Hfirst : p <= p < p + CLASS_REGION_SIZE) by lia.
  assert (Hlast : p <= p + CLASS_REGION_SIZE - 1 < p + CLASS_REGION_SIZE) by lia.
  destruct (class_placed_offset start ar class p _ Hplaced Hfirst) as (_ & _ & H3).
  destruct (class_placed_offset start ar class p _ Hplaced Hlast) as (_ & _ & H4).
  destruct Hplaced as (Har & Hcl & _).
  assert (A2 : 0 <= REAL_CLASS_REGION_SIZE * class) by (apply Z.mul_nonneg_nonneg; lia).
  assert (A1 : 0 <= ARENA_SIZE * ar) by (rewrite HA; repeat apply Z.mul_nonneg_nonneg; lia).
  rewrite sum_fits; [split; [done|lia]|done..|lia].
Qed.

Lemma wp_init_size_class start addr ar class r w :
  region_placed start -> 0 <= ar < N_ARENA -> 0 <= class < N_SIZE_CLASSES -> random_inv r ->
  wp (init_size_class start addr ar class)
     (fun c s => class_inv class c [] [] [] /\ class_placed start ar class (class_region_start c) /\
        slab_info c = ∅ /\ random_inv (fst s) /\ mem (snd s) = mem w) random_halts (r, w).
Proof.
  intros Hp Har Hcl Hr. unfold init_size_class. apply wp_bind. eapply wp_conseq; [by apply init_from_ok|].
  intros crng [r1 w1] (Hcr & Hr1 & Hw1). cbn [fst snd] in *. cbv zeta.
  destruct region_sizes as (Hc & HR & HA & HS & HN & HNA), Hp as [Hs0 Hspg Hend Hcpg].
  rewrite PAGE_SIZE_eq in *. destruct Hcpg as [pages Hpages].
  assert (Hbound : u64 (u64 (REAL_CLASS_REGION_SIZE - CLASS_REGION_SIZE) / 4096 - 1) = pages - 1).
  { rewrite (wrap_small 64 (_ - CLASS_REGION_SIZE)) by (split; lia).
    replace (REAL_CLASS_REGION_SIZE - CLASS_REGION_SIZE) with (pages * 4096) by lia.
    rewrite Z.div_mul by lia. apply wrap_small. split; lia. }
  rewrite Hbound. apply wp_bind. eapply wp_conseq; [apply u64_uniform_ok; [done|lia]|].
  intros v [r2 w2] (Hv & Hr2 & Hw2). cbn [fst snd] in *.
  set (gap := (v + 1) * 4096).
  assert (Hgap : 4096 <= gap <= CLASS_REGION_SIZE - 4096) by (unfold gap; lia).
  rewrite (wrap_small 64 (v + 1)), (wrap_small 64 (_ * 4096)) by (split; lia). fold gap.
  set (p := start + ARENA_SIZE * ar + REAL_CLASS_REGION_SIZE * class + gap).
  assert (Hplaced : class_placed start ar class p).
  { split; [done|]. split; [done|]. exists gap. rewrite PAGE_SIZE_eq. split; [by exists (v + 1)|done]. }
  assert (Hpg : (4096 | p)).
  { unfold p, gap. rewrite HA, HR, Hpages. repeat apply Z.divide_add_r; [done|..].
    - exists (2 * pages * N_SIZE_CLASSES * ar). lia.
    - exists (2 * pages * class). lia.
    - by exists (v + 1). }
  destruct (class_start_fits start ar class gap p Hs0 Hend ltac:(lia) eq_refl Hplaced) as (Hp & Hp0 & Hp63).
  rewrite Hp. apply wp_bind, wp_on_world. cbn [fst snd]. unfold label_slab.
  apply wp_bind. eapply wp_conseq; [apply wp_memory_set_name|]. intros b w3 Hw3. apply wp_ret. cbn beta in Hw3.
  change (if size_classes_at class =? 0 then 16 else size_classes_at class) with (slot_size class).
  destruct (slab_geometry_spec class Hcl) as (Gs & G16 & Gsz & Gslab & _ & _ & Gpage & Gmax & Greg & _).
  pose proof max_slab_size_class_bounds as Hmx.
  set (sz := slot_size class) in *. set (slab := get_slab_size (get_slots class) sz) in *.
  destruct (u32_gen_ok sz ltac:(lia)) as [d1 Hd1], (u64_gen_ok slab ltac:(lia)) as [d2 Hd2].
  apply wp_bind. eapply wp_of_fuel; [apply Hd1|]. apply wp_bind. eapply wp_of_fuel; [apply Hd2|].
  apply wp_ret. split; [|by sc; repeat (split; [done|]); cbn; congruence].
  split; [done|]. split; sc; try done.
  - apply heap_inv_fresh.
  - apply metadata_inv_fresh; sc; done || lia.
  - by apply quarantine_inv_fresh.
  - lia.
  - intros _ i s Hs. by apply no_quarantine_fresh.
Qed.
End InitProofs.

(** ** Properties *)

Section Properties.
Context {Cfg : Config} {Cok : ConfigOk Cfg}.

(** C23: the two divisions of [slab_size_class] recover the arena and the size
    class of every address of every class region, wherever the random gaps put
    the regions; [slab_usable_size] is then the size of that class. *)
Theorem slab_size_class_correct start ar class p a :
  region_placed start -> class_placed start ar class p -> p <= a < p + CLASS_REGION_SIZE ->
  slab_size_class start a = SlabSizeClassInfo ar class /\
  slab_usable_size start a = size_classes_at class.
Proof.
  intros Hs Hp Ha. unfold slab_usable_size. by rewrite (slab_size_class_spec start ar class p a Hs Hp Ha).
Qed.

(** The class regions of different size classes or arenas are disjoint,
    inside the slab region, and at least two pages apart, so that no overflow
    of one slab region runs into another without crossing a gap. *)
Theorem class_regions_disjoint start ar class p ar' class' p' :
  class_placed start ar class p -> class_placed start ar' class' p' -> (ar, class) <> (ar', class') ->
  start <= p /\ p + CLASS_REGION_SIZE <= start + slab_region_size /\
  (p + CLASS_REGION_SIZE + 2 * PAGE_SIZE <= p' \/ p' + CLASS_REGION_SIZE + 2 * PAGE_SIZE <= p).
Proof.
  intros Hp Hp' Hne. destruct region_sizes as (Hc & HR & HA & HS & HN & HNA).
  assert (Hfirst : forall q, q <= q < q + CLASS_REGION_SIZE) by lia.
  assert (Hlast : forall q, q <= q + CLASS_REGION_SIZE - 1 < q + CLASS_REGION_SIZE) by lia.
  destruct (class_placed_offset start ar class p _ Hp (Hfirst p)) as (H1 & H2 & H3).
  destruct (class_placed_offset start ar class p _ Hp (Hlast p)) as (H4 & H5 & H6).
  destruct (class_placed_offset start ar' class' p' _ Hp' (Hfirst p')) as (G1 & G2 & _).
  destruct (class_placed_offset start ar' class' p' _ Hp' (Hlast p')) as (G4 & G5 & _).
  clear Hfirst Hlast.
  split; [lia|]. split; [lia|].
  destruct Hp as (Har & Hcl & _), Hp' as (Har' & Hcl' & _).
  assert (Horder : forall x y, x < y -> ARENA_SIZE * x + ARENA_SIZE <= ARENA_SIZE * y)
    by (intros x y Hxy; nia).
  assert (Hcorder : forall x y, x < y -> REAL_CLASS_REGION_SIZE * (x + 1) <= REAL_CLASS_REGION_SIZE * y)
    by (intros x y Hxy; apply Z.mul_le_mono_nonneg_l; lia).
  assert (Hin : forall k, 0 <= k < N_SIZE_CLASSES ->
    0 <= REAL_CLASS_REGION_SIZE * k /\ REAL_CLASS_REGION_SIZE * (k + 1) <= ARENA_SIZE).
  { intros k Hk. rewrite HA. split; [apply Z.mul_nonneg_nonneg; lia|apply Z.mul_le_mono_nonneg_l; lia]. }
  pose proof (Hin class Hcl). pose proof (Hin class' Hcl').
  destruct (Z.lt_total ar ar') as [Ha|[->|Ha]];
    [pose proof (Horder _ _ Ha); lia| |pose proof (Horder _ _ Ha); lia].
  destruct (Z.lt_total class class') as [Hk|[->|Hk]];
    [pose proof (Hcorder _ _ Hk); lia|done|pose proof (Hcorder _ _ Hk); lia].
Qed.

Section Init.
Context {K : Kernel} {Kok : KernelOk K} {R : Type} `{!RandomSource R} `{!RandomSourceOk R}.

(** For every size class and arena, [init_slow_path] sets up an unlocked
    class that satisfies the allocator's invariant with empty slab lists, with
    exact dividers for its slot and slab sizes, inside its own part of the slab
    region; it never aborts unless drawing random numbers does. *)
Theorem init_size_class_ok start addr ar class r w :
  region_placed start -> 0 <= ar < N_ARENA -> 0 <= class < N_SIZE_CLASSES -> random_inv r ->
  wp (init_size_class start addr ar class)
     (fun c s => class_inv class c [] [] [] /\ class_placed start ar class (class_region_start c) /\
        slab_info c = ∅ /\ random_inv (fst s) /\ mem (snd s) = mem w) random_halts (r, w).
Proof. apply wp_init_size_class. Qed.
End Init.
End Properties.

(** ** Witnesses *)

Section Witnesses.
#[local] Existing Instance default_config.

Lemma demo_region_placed : region_placed (2 ^ 40).
Proof. split; [done|by exists (2 ^ 28)|by vm_compute|by exists 8388608]. Qed.

(** The state of size class 3 (48 bytes) of arena 1 after initialisation. *)
Definition demo_class : size_class Z :=
  match init_size_class (2 ^ 40) (2 ^ 30) 1 3 (7, demo_world []) with
  | Ret c _ => c
  | Halt _ => SizeClass false 0 ∅ 0 (Libdivide 0 0) (Libdivide 0 0) 0 0 0 None None 0 None None ∅ 0 0 0 0 0 0 0 0 0 ∅ ∅
  end.

Lemma demo_class_ok : class_inv 3 demo_class [] [] [] /\ class_placed (2 ^ 40) 1 3 (class_region_start demo_class).
Proof.
  pose proof (wp_init_size_class (2 ^ 40) (2 ^ 30) 1 3 7 (demo_world []) demo_region_placed
    ltac:(vm_compute; done) ltac:(vm_compute; done) I) as H.
  unfold wp in H. unfold demo_class.
  assert (Hok : match init_size_class (2 ^ 40) (2 ^ 30) 1 3 (7, demo_world []) with
                | Ret _ _ => True | Halt _ => False end) by (vm_compute; done).
  destruct (init_size_class _ _ _ _ _) as [c s|h]; [|done]. by destruct H as (? & ? & _).
Qed.

Lemma slab_size_class_correct_witness :
  slab_size_class (2 ^ 40) (class_region_start demo_class + 100) = SlabSizeClassInfo 1 3 /\
  slab_usable_size (2 ^ 40) (class_region_start demo_class + 100) = 48.
Proof.
  exact (slab_size_class_correct (2 ^ 40) 1 3 (class_region_start demo_class)
    (class_region_start demo_class + 100) demo_region_placed (proj2 demo_class_ok) ltac:(vm_compute; done)).
Defined.

(** Size class 4 of arena 1 at the smallest gap. *)
Lemma demo_placed_4 :
  class_placed (2 ^ 40) 1 4 (2 ^ 40 + ARENA_SIZE * 1 + REAL_CLASS_REGION_SIZE * 4 + 4096).
Proof. split; [by vm_compute|]. split; [by vm_compute|]. exists 4096. split; [by exists 1|by vm_compute]. Qed.

Lemma class_regions_disjoint_witness :
  class_region_start demo_class + CLASS_REGION_SIZE <= 2 ^ 40 + slab_region_size.
Proof.
  exact (proj1 (proj2 (class_regions_disjoint (2 ^ 40) 1 3 _ 1 4 _ (proj2 demo_class_ok) demo_placed_4 ltac:(done)))).
Defined.

Lemma init_size_class_ok_witness :
  wp (init_size_class (2 ^ 40) (2 ^ 30) 0 0)
     (fun c s => class_inv 0 c [] [] [] /\ class_placed (2 ^ 40) 0 0 (class_region_start c) /\
        slab_info c = ∅ /\ random_inv (fst s) /\ mem (snd s) = ∅) no_halt (7, demo_world []).
Proof.
  exact (init_size_class_ok (2 ^ 40) (2 ^ 30) 0 0 7 (demo_world []) demo_region_placed
    ltac:(vm_compute; done) ltac:(vm_compute; done) I).
Defined.
End Witnesses.
