(* ===== verification/SlabAlloc.v ===== *)
(** [allocate_small]: every path hands out a fresh, aligned slot of its class,
    keeps the invariant and releases the lock. *)

From S2P Require Import Prelude Config Util Libdivide SizeClass Kernel RandomSource SlabMeta Slab SlabLists SlabHeap SlabInv SlabRegion.

(** Equal up to the statistics and the lock. *)
Record core_eq {R} (c c' : size_class R) : Prop := {
  ce_start : class_region_start c' = class_region_start c;
  ce_info : slab_info c' = slab_info c;
  ce_sd : size_divisor c' = size_divisor c;
  ce_ssd : slab_size_divisor c' = slab_size_divisor c;
  ce_size : size c' = size c;
  ce_slots : slots c' = slots c;
  ce_slab_size : slab_size c' = slab_size c;
  ce_partial : partial_slabs c' = partial_slabs c;
  ce_empty : empty_slabs c' = empty_slabs c;
  ce_total : empty_slabs_total c' = empty_slabs_total c;
  ce_head : free_slabs_head c' = free_slabs_head c;
  ce_tail : free_slabs_tail c' = free_slabs_tail c;
  ce_fsq : free_slabs_quarantine c' = free_slabs_quarantine c;
  ce_rng : rng c' = rng c;
  ce_ma : metadata_allocated c' = metadata_allocated c;
  ce_mc : metadata_count c' = metadata_count c;
  ce_mu : metadata_count_unguarded c' = metadata_count_unguarded c;
  ce_qi : quarantine_queue_index c' = quarantine_queue_index c;
  ce_qq : quarantine_queue c' = quarantine_queue c;
  ce_qr : quarantine_random c' = quarantine_random c
}.

Section Core.
Context {Cfg : Config} {K : Kernel} {R : Type} `{!RandomSource R}.
Implicit Types (c : size_class R) (w : world).

Lemma core_eq_refl c : core_eq c c.
Proof. by split. Qed.

Lemma core_eq_trans c c1 c2 : core_eq c c1 -> core_eq c1 c2 -> core_eq c c2.
Proof. intros [] []. split; congruence. Qed.

Lemma core_eq_lock b c : core_eq c (set_lock b c).
Proof. by split. Qed.

Lemma core_eq_body class c c' P E F pend :
  core_eq c c' -> class_body class c P E F pend -> class_body class c' P E F pend.
Proof.
  intros He [Hg Hr Hh Ht Hm Hq Hx Hnq]. destruct He. destruct c, c'; sc; cbn in *; subst.
  destruct Hg, Hm, Hq.
  constructor; [constructor|..|constructor|constructor| |]; assumption || reflexivity.
Qed.

(** ** Statistics *)

Lemma wp_stats_small_allocate sz c w (Q : unit -> size_class R * world -> Prop) E :
  (forall c', core_eq c c' -> lock c' = lock c -> Q tt (c', w)) -> wp (stats_small_allocate sz) Q E (c, w).
Proof.
  intros H. unfold stats_small_allocate. wp_step; [|apply wp_ret, H; [by apply core_eq_refl|done]].
  repeat sc_step. apply H; [by split|done].
Qed.

Lemma wp_stats_small_deallocate sz c w (Q : unit -> size_class R * world -> Prop) E :
  (forall c', core_eq c c' -> lock c' = lock c -> Q tt (c', w)) -> wp (stats_small_deallocate sz) Q E (c, w).
Proof.
  intros H. unfold stats_small_deallocate. wp_step; [|apply wp_ret, H; [by apply core_eq_refl|done]].
  repeat sc_step. apply H; [by split|done].
Qed.

Lemma wp_stats_slab_allocate sz c w (Q : unit -> size_class R * world -> Prop) E :
  (forall c', core_eq c c' -> lock c' = lock c -> Q tt (c', w)) -> wp (stats_slab_allocate sz) Q E (c, w).
Proof.
  intros H. unfold stats_slab_allocate. wp_step; [|apply wp_ret, H; [by apply core_eq_refl|done]].
  repeat sc_step. apply H; [by split|done].
Qed.

Lemma wp_stats_slab_deallocate sz c w (Q : unit -> size_class R * world -> Prop) E :
  (forall c', core_eq c c' -> lock c' = lock c -> Q tt (c', w)) -> wp (stats_slab_deallocate sz) Q E (c, w).
Proof.
  intros H. unfold stats_slab_deallocate. wp_step; [|apply wp_ret, H; [by apply core_eq_refl|done]].
  repeat sc_step. apply H; [by split|done].
Qed.

Lemma wp_with_rng {A} (m : M (R * world) A) (Q : A -> size_class R * world -> Prop) E c w :
  wp m (fun a t => Q a (set_rng (fst t) c, snd t)) E (rng c, w) -> wp (with_rng m) Q E (c, w).
Proof. intros H. unfold with_rng. apply wp_zoom. exact H. Qed.
End Core.

(** ** The other building blocks *)

Section Blocks.
Context {Cfg : Config} {Cok : ConfigOk Cfg} {K : Kernel} {Kok : KernelOk K} {R : Type}.
Context `{!RandomSource R} `{!RandomSourceOk R}.
Implicit Types (c : size_class R) (w : world).

(** Fields that no list operation writes. *)
Record static_eq c c' : Prop := {
  se_start : class_region_start c' = class_region_start c;
  se_sd : size_divisor c' = size_divisor c;
  se_ssd : slab_size_divisor c' = slab_size_divisor c;
  se_size : size c' = size c;
  se_slots : slots c' = slots c;
  se_slab_size : slab_size c' = slab_size c
}.

Record limits_eq c c' : Prop := {
  le_ma : metadata_allocated c' = metadata_allocated c;
  le_mc : metadata_count c' = metadata_count c;
  le_mu : metadata_count_unguarded c' = metadata_count_unguarded c;
  le_qr : quarantine_random c' = quarantine_random c;
  le_qq : quarantine_queue c' = quarantine_queue c;
  le_qi : quarantine_queue_index c' = quarantine_queue_index c
}.

Lemma class_geometry_static class c c' : static_eq c c' -> class_geometry class c -> class_geometry class c'.
Proof. intros [] []. split; congruence. Qed.

Lemma slot_address_static c c' i s : static_eq c c' -> slot_address c' i s = slot_address c i s.
Proof. intros []. unfold slot_address. congruence. Qed.

(** A used slot makes the count positive. *)
Lemma used_count n d s : 0 <= n -> meta_wf n d -> 0 <= s -> is_used_slot d s = true -> 0 < count d.
Proof.
  intros Hn Hwf Hs Hu. pose proof (meta_wf_count n d Hn Hwf).
  destruct (decide (count d = 0)) as [E|]; [|lia].
  assert (Hf : is_free_slab d = true) by by apply Z.eqb_eq.
  rewrite (is_free_slab_spec n) in Hf by done.
  destruct (Z.lt_ge_cases s n); [rewrite Hf in Hu; done|].
  destruct Hwf as [[_ Hb] _ _]. unfold is_used_slot in Hu. rewrite Hb in Hu; done.
Qed.

(** Quarantined slots are in slabs in use. *)
Lemma quarantine_slot_known c P E F i s :
  1 <= slots c <= 256 -> heap_inv (slots c) (slab_limit c) (heap_of c) P E F -> 0 <= s ->
  is_quarantine_slot (slab_info c).[i] s = true -> 0 <= i < slab_limit c.
Proof.
  intros Hn Hinv Hs Hq. apply (hi_known _ _ _ _ _ _ Hinv). left.
  apply used_count with (slots c) s; [lia|apply (hi_wf _ _ _ _ _ _ Hinv)|done|].
  by apply (hi_quar _ _ _ _ _ _ Hinv).
Qed.

(** The quarantine only depends on its arrays and on the quarantine bits. *)
Lemma quarantine_inv_frame c c' pend :
  static_eq c c' -> quarantine_random c' = quarantine_random c ->
  quarantine_queue c' = quarantine_queue c -> slab_limit c <= slab_limit c' ->
  (forall i s, 0 <= s -> is_quarantine_slot (slab_info c').[i] s = is_quarantine_slot (slab_info c).[i] s) ->
  (forall i s, 0 <= s < slots c -> is_quarantine_slot (slab_info c).[i] s = true -> 0 <= i < slab_limit c) ->
  quarantine_inv c pend -> quarantine_inv c' pend.
Proof.
  intros Hst Hr Hqq Hlim Hbits Hknown [Hc Hi Hp Hcomp].
  assert (Hcell : forall b k, qcell c' b k = qcell c b k).
  { intros b k. unfold qcell. by rewrite Hr, Hqq. }
  assert (Hq : forall p, quarantined c' p <-> quarantined c p).
  { intros p. unfold quarantined. rewrite (se_slots _ _ Hst).
    split; intros (i & s & Hi' & Hs & -> & Hb); exists i, s.
    - rewrite Hbits in Hb by lia. rewrite (slot_address_static c c') by done.
      split; [by eapply Hknown|done].
    - rewrite Hbits, (slot_address_static c c') by (done || lia). split; [lia|done]. }
  split.
  - intros b k. rewrite Hcell, Hq. apply Hc.
  - intros b k b' k'. rewrite !Hcell. apply Hi.
  - intros p Hpp. rewrite Hq. destruct (Hp p Hpp) as [? Hne]. split; [done|]. intros b k. by rewrite Hcell.
  - intros p. rewrite Hq. intros [(b & k & Hk)|]%Hcomp; [left; exists b, k; by rewrite Hcell|by right].
Qed.

(** Changing lists and slots, not limits or quarantine bits, keeps the invariant. *)
Lemma body_update class c c' P E F P' E' F' pend :
  class_body class c P E F pend -> static_eq c c' -> limits_eq c c' -> random_inv (rng c') ->
  heap_inv (slots c) (slab_limit c) (heap_of c') P' E' F' ->
  empty_slabs_total c' = Z.of_nat (length E') * slab_size c ->
  (forall i, metadata_count c <= i -> (slab_info c').[i] = (slab_info c).[i]) ->
  (forall i s, 0 <= s -> is_quarantine_slot (slab_info c').[i] s = is_quarantine_slot (slab_info c).[i] s) ->
  class_body class c' P' E' F' pend.
Proof.
  intros [Hg Hr Hh Ht Hm Hq Hx Hnq] Hst Hlim Hr' Hh' Ht' Hfresh Hbits.
  pose proof (slab_geometry_facts class c Hg) as Hgf.
  assert (El : slab_limit c' = slab_limit c) by (destruct Hlim; unfold slab_limit; congruence).
  split; try done.
  - by eapply class_geometry_static.
  - destruct Hst. by rewrite El, se_slots0.
  - by destruct Hst; rewrite se_slab_size0.
  - destruct Hm as [H1 H2 H3 H4], Hst, Hlim. split; rewrite ?le_ma0, ?le_mc0, ?le_mu0, ?se_slab_size0; try done.
    intros i Hi. rewrite Hfresh by done. by apply H4.
  - eapply quarantine_inv_frame; try done; [apply Hlim|apply Hlim|lia|].
    intros i s Hs Hb. apply (quarantine_slot_known c P E F i s); [apply Hgf|done|lia|done].
  - by rewrite (le_qi _ _ Hlim), (se_size _ _ Hst).
  - intros Hsq i s Hs. rewrite Hbits by done. by apply Hnq.
Qed.

(** ** Memory and random steps *)

(** The canary of slab [i] is in memory at [a]. *)
Definition canary_stored c (i a : Z) w : Prop :=
  SLAB_CANARY = true -> load64 (mem w) a = u64 (canary_value (slab_info c).[i]).

Lemma wp_set_canary metadata p sz c w (Q : unit -> size_class R * world -> Prop) E :
  (forall w', only_changes (p + sz - canary_size) canary_size (mem w) (mem w') ->
     canary_stored c metadata (p + sz - canary_size) w' -> Q tt (c, w')) ->
  wp (set_canary metadata p sz) Q E (c, w).
Proof.
  intros H. unfold set_canary. wp_step.
  - do 4 sc_step. apply wp_on_world. unfold set_mem. wp_step. apply H; cbn [snd mem].
    + unfold canary_size. rewrite Hb. apply store64_only.
    + intros _. apply load64_store64.
  - apply wp_ret, H; [by intros a _|]. unfold canary_stored. by rewrite Hb.
Qed.

(** The check reads exactly the bytes, so it cannot fire on a zero slot. *)
Lemma wp_write_after_free_check p n s (Q : unit -> size_class R * world -> Prop) (E : halt -> Prop) :
  (8 | n) -> Q tt s -> (ZERO_ON_FREE = true -> ~ zero_in p n (mem (snd s)) -> E (Fatal "detected write after free")) ->
  wp (write_after_free_check p n) Q E s.
Proof.
  intros [k ->] HQ HE. unfold write_after_free_check. wp_step; [done|]. apply negb_false_iff in Hb. apply wp_bind, wp_gets.
  lazymatch goal with |- wp (if negb (?x =? 0) then _ else _) _ _ _ => destruct (Z.eqb_spec x 0) as [Hacc|Hacc] end;
    cbn [negb]; [done|]. apply HE; [by apply (cb_wafc config_facts)|]. intros Hz. apply Hacc.
  assert (Ek : (k * 8 + 7) / 8 = k) by (symmetry; apply (Z.div_unique _ _ _ 7); lia). rewrite Ek in *.
  apply load64_or_zero. intros a Ha. apply Hz. lia.
Qed.

Lemma heap_inv_canary n lim g P E F i v :
  heap_inv n lim g P E F ->
  heap_inv n lim (Heap (hp_meta g).[i <- set_canary_value v (hp_meta g).[i]] (hp_partial g) (hp_empty g)
    (hp_head g) (hp_tail g) (hp_fsq g)) P E F.
Proof.
  intros H. apply heap_touch; try done; [|apply (hi_quar _ _ _ _ _ _ H)].
  eapply same_slots_wf; [|apply (hi_wf _ _ _ _ _ _ H)]. done.
Qed.
End Blocks.

(** [get_slab] depends on the start of the region only. *)
Ltac get_slab_of c :=
  repeat match goal with
  | |- context [get_slab ?c' ?sz ?i] =>
      lazymatch c' with c => fail | _ => change (get_slab c' sz i) with (get_slab c sz i) end
  end.

(** Name the current state of the size class. *)
Ltac name_state c2 := lazymatch goal with |- wp _ _ _ (?x, _) => set (c2 := x) end.

(** ** The paths of [allocate_small] *)

Section Paths.
Context {Cfg : Config} {Cok : ConfigOk Cfg} {K : Kernel} {Kok : KernelOk K} {R : Type}.
Context `{!RandomSource R} `{!RandomSourceOk R}.
Implicit Types (c : size_class R) (w : world).

(** The only change to the used bits is that slot [s] of slab [i] becomes used. *)
Definition took c c' (i s : Z) : Prop :=
  forall j t, 0 <= t ->
    is_used_slot (slab_info c').[j] t = ((i =? j) && (s =? t)) || is_used_slot (slab_info c).[j] t /\
    is_quarantine_slot (slab_info c').[j] t = is_quarantine_slot (slab_info c).[j] t.

Definition slots_unchanged c c' : Prop :=
  forall j t, 0 <= t ->
    is_used_slot (slab_info c').[j] t = is_used_slot (slab_info c).[j] t /\
    is_quarantine_slot (slab_info c').[j] t = is_quarantine_slot (slab_info c).[j] t.

(** A fresh slot was handed out at [p], of which at most the canary was written:
    it has its slab's, unless the class is that of empty requests. *)
Definition fresh_slot class c w (p : Z) c' w' : Prop :=
  exists i s, p = slot_address c i s /\ 0 <= i < slab_limit c' /\ 0 <= s < slots c /\
    is_used_slot (slab_info c).[i] s = false /\ took c c' i s /\
    only_changes (p + size c - canary_size) canary_size (mem w) (mem w') /\
    (class <> 0 -> canary_stored c' i (p + size c - canary_size) w').

(** The result of an allocation: NULL with errno set and nothing allocated, when
    no slab with a free slot was at hand, or a fresh slot. *)
Definition alloc_post class c w (p : Z) (s' : size_class R * world) : Prop :=
  static_eq c (fst s') /\ (exists P E F, class_inv class (fst s') P E F) /\
  (p = 0 /\ errno (snd s') = ENOMEM /\ partial_slabs c = None /\ empty_slabs c = None /\
   slots_unchanged c (fst s') /\ mem (snd s') = mem w \/
   fresh_slot class c w p (fst s') (snd s')).

(** A free slot that was written to. *)
Definition dirty_slot c w : Prop :=
  exists i s, 0 <= i < get_metadata_max (slab_size c) /\ 0 <= s < slots c /\ is_used_slot (slab_info c).[i] s = false /\
    ~ zero_in (slot_address c i s) (size c - canary_size) (mem w).

(** How an allocation may fail to return. *)
Definition alloc_halts class c w (h : halt) : Prop :=
  system_halts h \/
  h = Fatal "detected write after free" /\ class <> 0 /\ ZERO_ON_FREE = true /\ dirty_slot c w.

(** Marking a free slot of [d] used, as the rest of the invariant sees it. *)
Lemma set_used_facts n d s :
  n <= 256 -> 0 <= s < n -> is_used_slot d s = false -> meta_wf n d ->
  (forall t, is_quarantine_slot d t = true -> is_used_slot d t = true) ->
  meta_wf n (set_used_slot d s) /\ count (set_used_slot d s) = count d + 1 /\
  (forall t, is_used_slot (set_used_slot d s) t = (s =? t) || is_used_slot d t) /\
  (forall t, is_quarantine_slot (set_used_slot d s) t = is_quarantine_slot d t) /\
  (forall t, is_quarantine_slot (set_used_slot d s) t = true -> is_used_slot (set_used_slot d s) t = true).
Proof.
  intros Hn Hs Hf Hwf Hq. destruct (set_used_slot_wf n d s Hn Hs Hf Hwf) as [Hwf' Hc].
  assert (Hu : forall t, is_used_slot (set_used_slot d s) t = (s =? t) || is_used_slot d t)
    by (intros t; apply bitmap_get_set).
  split; [done|]. split; [done|]. split; [done|]. split; [done|].
  intros t Ht. rewrite Hu, (Hq t Ht). apply orb_true_r.
Qed.

(** [took] holds when only slab [i] changes, to a slab with [s] used. *)
Lemma took_aset c c' i s d :
  slab_info c' = (slab_info c).[i <- d] ->
  (forall t, is_used_slot d t = (s =? t) || is_used_slot (slab_info c).[i] t) ->
  (forall t, is_quarantine_slot d t = is_quarantine_slot (slab_info c).[i] t) -> took c c' i s.
Proof.
  intros E Hu Hq j t Ht. rewrite E, aget_aset_case. case_decide as Hij.
  - subst j. by rewrite Z.eqb_refl, Hu, Hq.
  - by rewrite (proj2 (Z.eqb_neq i j)).
Qed.

Lemma get_slab_static c c1 sz i : static_eq c c1 -> get_slab c1 sz i = get_slab c sz i.
Proof. intros Hst. unfold get_slab. by rewrite (se_start _ _ Hst). Qed.

(** The optional canary steps. *)
Lemma wp_optional_canary (b : bool) m p sz c w (Q : unit -> size_class R * world -> Prop) E :
  (forall w', only_changes (p + sz - canary_size) canary_size (mem w) (mem w') ->
     (b = true -> canary_stored c m (p + sz - canary_size) w') -> Q tt (c, w')) ->
  wp (if b then set_canary m p sz else ret tt) Q E (c, w).
Proof. intros H. destruct b; [by apply wp_set_canary; auto|]. apply wp_ret, H; [by intros a _|done]. Qed.

Lemma wp_optional_check (b : bool) m p sz c w (Q : unit -> size_class R * world -> Prop) (E : halt -> Prop) :
  (16 | sz) ->
  (forall w', only_changes (p + sz - canary_size) canary_size (mem w) (mem w') ->
     (b = true -> canary_stored c m (p + sz - canary_size) w') -> Q tt (c, w')) ->
  (b = true -> ZERO_ON_FREE = true -> ~ zero_in p (sz - canary_size) (mem w) -> E (Fatal "detected write after free")) ->
  wp (if b then write_after_free_check p (sz - canary_size) ;;; set_canary m p sz else ret tt) Q E (c, w).
Proof.
  intros H16 H HE. destruct b; [|apply wp_ret, H; [by intros a _|done]].
  apply wp_bind, wp_write_after_free_check; [|by apply wp_set_canary; auto|by apply HE].
  apply Z.divide_sub_r; [eapply Z.divide_trans; [|exact H16]; by exists 2|].
  destruct canary_size_bounds as [-> | ->]; [by exists 0|by exists 1].
Qed.

(** The state after a slot was taken from a slab that was on no list. *)
Lemma started_body class c c2 E F i s d0 :
  class_body class c [] E F None -> unlisted (slab_limit c) (heap_of c) [] E F i ->
  (slab_info c).[i] = d0 -> 0 <= s < slots c -> is_used_slot d0 s = false ->
  let d' := set_used_slot (set_prev None (set_next None d0)) s in
  static_eq c c2 -> limits_eq c c2 -> random_inv (rng c2) ->
  heap_of c2 = Heap (slab_info c).[i <- d'] (if slots c >? 1 then Some i else None)
    (empty_slabs c) (free_slabs_head c) (free_slabs_tail c) (free_slabs_quarantine c) ->
  empty_slabs_total c2 = empty_slabs_total c ->
  (exists P', class_body class c2 P' E F None) /\ took c c2 i s.
Proof.
  intros Hb Hu Hd Hs Hfree d' Hst Hlim Hr Hheap Htot.
  pose proof (cb_heap _ _ _ _ _ _ Hb) as Hh. pose proof (cb_geometry _ _ _ _ _ _ Hb) as Hg.
  destruct (slab_geometry_facts class c Hg) as [Hn _ _ _ _ _ _].
  pose proof (hi_wf _ _ _ _ _ _ Hh i) as Hwf. pose proof (hi_quar _ _ _ _ _ _ Hh i) as Hqu.
  cbn [heap_of hp_meta] in Hwf, Hqu. rewrite Hd in Hwf, Hqu.
  assert (Hwf1 : meta_wf (slots c) (set_prev None (set_next None d0))) by (by eapply same_slots_wf; [|exact Hwf]).
  destruct (set_used_facts (slots c) (set_prev None (set_next None d0)) s ltac:(lia) Hs Hfree Hwf1 Hqu) as (Hwf' & Hc' & Hu' & Hq' & Hqu').
  fold d' in Hwf', Hc', Hu', Hq', Hqu'. pose proof (ul_count _ _ _ _ _ _ Hu) as Hc0.
  cbn [heap_of hp_meta] in Hc0. rewrite Hd in Hc0.
  pose proof (heap_start (slots c) (slab_limit c) Hn (heap_of c) E F i d' Hh Hu Hwf'
    ltac:(rewrite Hc'; cbn; lia) ltac:(done) ltac:(done) Hqu') as Hinv.
  cbv zeta in Hinv. cbn [heap_of hp_meta hp_empty hp_head hp_tail hp_fsq] in Hinv.
  assert (Hinfo : slab_info c2 = (slab_info c).[i <- d']) by (by injection Hheap).
  assert (Htook : took c c2 i s).
  { apply took_aset with d'; [done| |]; intros t; rewrite Hd; [by rewrite Hu'|by rewrite Hq']. }
  split; [|done]. exists (if slots c >? 1 then [i] else []).
  eapply body_update; try done.
  - rewrite Hheap. destruct (slots c >? 1); exact Hinv.
  - rewrite Htot. by apply Hb.
  - intros j Hj. rewrite Hinfo, aget_aset_ne; [done|]. intros <-.
    pose proof (ul_known _ _ _ _ _ _ Hu). unfold slab_limit in *. lia.
  - intros j t Ht. by apply Htook.
Qed.

(** The cached empty slabs are distinct slabs in use. *)
Lemma empty_count_bound class c P E F pend :
  class_body class c P E F pend -> (length E <= Z.to_nat (slab_limit c))%nat.
Proof.
  intros Hb. pose proof (cb_heap _ _ _ _ _ _ Hb) as Hh.
  destruct (lists_disjoint P E F (hi_nodup _ _ _ _ _ _ Hh)) as (_ & HE & _).
  assert (Hsub : E ⊆+ seqZ 0 (slab_limit c)).
  { apply NoDup_submseteq; [done|]. intros i Hi. apply elem_of_seqZ.
    pose proof (hi_known _ _ _ _ _ _ Hh i) as Hk.
    specialize (Hk (or_intror (or_introl (proj2 (elem_of_app _ _ _) (or_introl Hi))))). lia. }
  apply submseteq_length in Hsub. by rewrite length_seqZ in Hsub.
Qed.

(** They fit the class region. *)
Lemma empty_total_bound class c P E F pend :
  class_body class c P E F pend ->
  0 <= Z.of_nat (length E) * slab_size c <= CLASS_REGION_SIZE.
Proof.
  intros Hb. pose proof (cb_geometry _ _ _ _ _ _ Hb) as Hg.
  destruct (slab_geometry_facts class c Hg) as [Hn Hsz _ Hslab _ Hmax Hreg].
  destruct (cb_metadata _ _ _ _ _ _ Hb) as [Hmc Hma _ _]. pose proof (empty_count_bound _ _ _ _ _ _ Hb) as Hcnt.
  assert (Z.of_nat (length E) <= get_metadata_max (slab_size c)) by (unfold slab_limit in Hcnt; lia).
  assert (0 <= slab_size c) by nia. split; nia.
Qed.

(** Popping the first cached empty slab. *)
Definition popped_empty c i : size_class R :=
  set_empty_slabs_total (u64 (empty_slabs_total c - slab_size c))
    (set_empty_slabs (next (slab_info c).[i]) c).

Lemma popped_empty_body class c i P E F pend :
  class_body class c P (i :: E) F pend ->
  class_body class (popped_empty c i) P E F pend /\
  unlisted (slab_limit c) (heap_of (popped_empty c i)) P E F i.
Proof.
  intros Hb. pose proof (cb_geometry _ _ _ _ _ _ Hb) as Hg.
  destruct (slab_geometry_facts class c Hg) as [Hn Hsz _ Hslab _ Hmax Hreg].
  destruct (heap_pop_empty (slots c) (slab_limit c) (heap_of c) P E F i (cb_heap _ _ _ _ _ _ Hb)) as [Hh1 Hu1].
  split; [|exact Hu1]. eapply body_update; try done; unfold popped_empty; sc; [exact (cb_rng _ _ _ _ _ _ Hb)|].
  pose proof (empty_total_bound _ _ _ _ _ _ Hb) as Hbound. pose proof (@class_region_bound Cfg Cok) as Hreg2.
  rewrite (cb_total _ _ _ _ _ _ Hb). cbn [length] in *. rewrite Nat2Z.inj_succ in *.
  replace (Z.succ (Z.of_nat (length E)) * slab_size c - slab_size c)
    with (Z.of_nat (length E) * slab_size c) by lia.
  assert (0 <= slab_size c) by nia. assert (0 <= Z.of_nat (length E) * slab_size c) by nia.
  apply wrap_small. split; lia.
Qed.

(** Choosing a slot in a slab that is on no list, and starting the partial list
    with it: [c1] is the state before, [c] the state at the call. *)
Lemma alloc_post_started class c c1 c2 c3 w w1 w2 i s E F :
  static_eq c c1 -> slots_unchanged c c1 -> mem w1 = mem w ->
  class_body class c1 [] E F None -> 0 <= i < slab_limit c1 -> 0 <= s < slots c ->
  is_used_slot (slab_info c1).[i] s = false ->
  (exists P', class_body class c2 P' E F None) -> took c1 c2 i s ->
  static_eq c1 c2 -> limits_eq c1 c2 ->
  core_eq c2 c3 -> lock c3 = false ->
  only_changes (slot_address c i s + size c - canary_size) canary_size (mem w1) (mem w2) ->
  (class <> 0 -> canary_stored c2 i (slot_address c i s + size c - canary_size) w2) ->
  alloc_post class c w (slot_address c i s) (c3, w2).
Proof.
  intros Hst Hun Hw Hb Hi Hs Hfree [P' Hb2] Htook Hst2 Hlim Hcore Hlock Hmem Hcan.
  assert (Hst3 : static_eq c c3) by (destruct Hst, Hst2, Hcore; split; congruence).
  split; [done|]. cbn [fst snd]. split.
  { exists P', E, F. split; [done|]. by eapply core_eq_body. }
  right. exists i, s. split; [done|]. split.
  { destruct Hlim, Hcore. unfold slab_limit in *. rewrite ce_ma0, ce_mc0, le_ma0, le_mc0. done. }
  split; [done|]. destruct (Hun i s ltac:(lia)) as [Hu _]. split; [by rewrite <- Hu|]. split.
  - intros j t Ht. rewrite (ce_info _ _ Hcore). destruct (Htook j t Ht) as [-> ->].
    destruct (Hun j t Ht) as [-> ->]. done.
  - split; [by rewrite <- Hw|]. unfold canary_stored in *. by rewrite (ce_info _ _ Hcore).
Qed.

(** A draw of a free slot inside a larger state. *)
Lemma wp_draw_slot c w n d (Q : Z -> size_class R * world -> Prop) (Eh : halt -> Prop) :
  1 <= n <= 256 -> meta_wf n d -> count d < n -> random_inv (rng c) -> (forall h, system_halts h -> Eh h) ->
  (forall s r w', 0 <= s < n -> is_used_slot d s = false -> random_inv r -> mem w' = mem w ->
     Q s (set_rng r c, w')) ->
  wp (with_rng (get_free_slot n d)) Q Eh (c, w).
Proof.
  intros Hn Hwf Hc Hr HE HQ. apply wp_with_rng. eapply wp_mono.
  - apply wp_get_free_slot; [done|done|by apply Z.ltb_lt|done].
  - intros s [r w'] ([Hs Hu] & Hr' & Hw'). by apply HQ.
  - intros h Hh. apply HE. by left.
Qed.

Lemma slots_unchanged_refl c : slots_unchanged c c.
Proof. done. Qed.

Lemma wp_allocate_from_empty class c w E F i requested_size :
  class_body class c [] (i :: E) F None -> (requested_size = 0 <-> class = 0) ->
  wp (allocate_from_empty i requested_size (size c) (slots c) (slab_size c))
     (alloc_post class c w) (alloc_halts class c w) (c, w).
Proof.
  intros Hb Hreq. pose proof (cb_geometry _ _ _ _ _ _ Hb) as Hg.
  destruct (slab_geometry_facts class c Hg) as [Hn Hsz _ Hslab _ Hmax Hreg].
  destruct (popped_empty_body class c i [] E F None Hb) as [Hb1 Hu1].
  pose proof (ul_known _ _ _ _ _ _ Hu1) as Hk. pose proof (ul_count _ _ _ _ _ _ Hu1) as Hc0.
  destruct (cb_metadata _ _ _ _ _ _ Hb) as [_ Hma _ _].
  assert (Himax : 0 <= i < get_metadata_max (slab_size c)) by (unfold slab_limit in Hk; lia).
  pose proof (hi_wf _ _ _ _ _ _ (cb_heap _ _ _ _ _ _ Hb1) i) as Hwf.
  unfold allocate_from_empty. repeat sc_step. autorewrite with arrays.
  eapply wp_draw_slot; [done|by eapply same_slots_wf; [|exact Hwf]|cbn in *; lia|apply Hb|by left|].
  intros s r w1 Hs Hfree Hr Hw1. do 2 sc_step. autorewrite with arrays.
  get_slab_of c. name_state c2. rewrite (slot_pointer_eq class c Hg i s Himax Hs).
  apply wp_bind, wp_optional_check; [apply (slab_geometry_facts class c Hg)| |].
  2: { rewrite Hw1. intros Hb0 Hzf Hd. right. apply negb_true_iff, Z.eqb_neq in Hb0.
       split; [done|]. split; [tauto|]. split; [done|]. by exists i, s. }
  intros w2 Hw2 Hcan. apply wp_bind, wp_stats_small_allocate. intros c3 Hc3 Hl3. repeat sc_step.
  destruct (started_body class (popped_empty c i) c2 E F i s (slab_info c).[i]) as [Hb2 Htook]; try done.
  eapply (alloc_post_started class c (popped_empty c i) c2); try done.
  - eapply core_eq_trans; [done|apply core_eq_lock].
  - intros Hcl. apply Hcan, negb_true_iff, Z.eqb_neq. tauto.
Qed.

(** ** A new slab *)

(** More slabs in use, everything else alike. *)
Lemma body_grow class c c' P E F pend :
  class_body class c P E F pend -> static_eq c c' -> heap_of c' = heap_of c ->
  empty_slabs_total c' = empty_slabs_total c -> rng c' = rng c ->
  quarantine_random c' = quarantine_random c -> quarantine_queue c' = quarantine_queue c ->
  quarantine_queue_index c' = quarantine_queue_index c -> metadata_inv c' -> slab_limit c <= slab_limit c' -> class_body class c' P E F pend.
Proof.
  intros [Hg Hr Hh Ht Hm Hq Hx Hnq] Hst Hheap Htot Hrng Hqr Hqq Hqi Hm' Hlim.
  pose proof (slab_geometry_facts class c Hg) as Hgf.
  assert (Hinfo : slab_info c' = slab_info c) by by injection Hheap.
  split; try done.
  - by eapply class_geometry_static.
  - by rewrite Hrng.
  - rewrite Hheap, (se_slots _ _ Hst). by eapply heap_inv_lim.
  - by rewrite Htot, (se_slab_size _ _ Hst).
  - eapply quarantine_inv_frame; try done; rewrite ?Hinfo; try done.
    intros i s Hs Hb. apply (quarantine_slot_known c P E F i s); [apply Hgf|done|lia|done].
  - by rewrite Hqi, (se_size _ _ Hst).
  - by rewrite Hinfo.
Qed.

Lemma sizeof_slab_metadata_bounds : 56 <= sizeof_slab_metadata <= 96.
Proof. unfold sizeof_slab_metadata, canary_size. destruct SLAB_CANARY, SLAB_QUARANTINE; lia. Qed.

(** The number of metadata entries after growing leaves room for the next one. *)
Lemma metadata_growth c :
  metadata_inv c -> get_metadata_max (slab_size c) <= 2 ^ 40 -> 1 <= get_metadata_max (slab_size c) ->
  metadata_allocated c <= metadata_count c < get_metadata_max (slab_size c) ->
  let a := max (u64 (metadata_allocated c * 2)) (PAGE_SIZE / sizeof_slab_metadata) in
  let a' := if a >? get_metadata_max (slab_size c) then get_metadata_max (slab_size c) else a in
  metadata_count c < a' <= get_metadata_max (slab_size c) /\ metadata_allocated c <= a'.
Proof.
  intros [Hc Ha _ _] Hmax Hmax1 Hfull a a'. pose proof sizeof_slab_metadata_bounds as Hsz.
  assert (Hu : u64 (metadata_allocated c * 2) = metadata_allocated c * 2) by (apply wrap_small; split; lia).
  assert (Hp : 42 <= PAGE_SIZE / sizeof_slab_metadata).
  { rewrite PAGE_SIZE_eq. apply Z.div_le_lower_bound; lia. }
  unfold a', a. rewrite Hu, max_spec, Z.gtb_ltb.
  destruct (Z.ltb_spec (get_metadata_max (slab_size c))
    (Z.max (metadata_allocated c * 2) (PAGE_SIZE / sizeof_slab_metadata))); lia.
Qed.

Definition new_slab_post class c w P E F (m : option Z) (s : size_class R * world) : Prop :=
  static_eq c (fst s) /\ slab_info (fst s) = slab_info c /\ lock (fst s) = lock c /\
  mem (snd s) = mem w /\ class_body class (fst s) P E F None /\
  partial_slabs (fst s) = partial_slabs c /\
  match m with
  | Some i => i = metadata_count c /\ unlisted (slab_limit (fst s)) (heap_of (fst s)) P E F i /\
              (slab_info c).[i] = zero
  | None => errno (snd s) = ENOMEM
  end.

(** The slab of the first unused metadata entry is on no list. *)
Lemma next_unlisted class c P E F lim :
  class_body class c P E F None -> metadata_count c < lim ->
  unlisted lim (heap_of c) P E F (metadata_count c) /\ (slab_info c).[metadata_count c] = zero.
Proof.
  intros Hb Hlim. pose proof (cb_heap _ _ _ _ _ _ Hb) as Hh.
  pose proof (cb_metadata _ _ _ _ _ _ Hb) as [Hc Ha Hu Hf].
  assert (Hzero : (slab_info c).[metadata_count c] = zero) by (apply Hf; lia).
  split; [|done]. pose proof (hi_known _ _ _ _ _ _ Hh (metadata_count c)) as Hk.
  assert (Hno : ~ (metadata_count c ∈ E ++ F \/ in_fsq (heap_of c) (metadata_count c))).
  { intros Hx. specialize (Hk (or_intror Hx)). unfold slab_limit in Hk. lia. }
  split; [|tauto|cbn; by rewrite Hzero|lia].
  rewrite elem_of_app. intros [Hx|Hx]; [|tauto].
  apply (hi_partial _ _ _ _ _ _ Hh) in Hx. cbn in Hx. rewrite Hzero in Hx. cbn in Hx. lia.
Qed.

Lemma metadata_max_bound class c :
  class_geometry class c -> 1 <= get_metadata_max (slab_size c) <= 2 ^ 40.
Proof.
  intros Hg. destruct (slab_geometry_facts class c Hg). pose proof (@class_region_bound Cfg Cok). nia.
Qed.

(** Counting the new slab, and the guard slab that may follow it. *)
Lemma new_slab_counted class c w w' P E F u k :
  class_body class c P E F None -> metadata_count c < metadata_allocated c -> 1 <= k <= 2 ->
  0 <= u < GUARD_SLABS_INTERVAL -> mem w' = mem w ->
  new_slab_post class c w P E F (Some (metadata_count c))
    (set_metadata_count_unguarded u (set_metadata_count (metadata_count c + k) c), w').
Proof.
  intros Hb Hroom Hk Hu Hw. destruct (cb_metadata _ _ _ _ _ _ Hb) as [Hc Ha _ Hf].
  destruct (next_unlisted class c P E F (Z.min (metadata_count c + k) (metadata_allocated c)) Hb ltac:(lia)) as [Hul Hz].
  repeat (split; [done|]). split; [|done].
  eapply body_grow; [exact Hb|done..| |unfold slab_limit; sc; lia].
  split; sc; [lia|done|done|]. intros i Hi. apply Hf. lia.
Qed.

(** The statements of [alloc_metadata] after the metadata was found. *)
Lemma wp_alloc_metadata_commit class c w w' P E F i :
  i = metadata_count c -> class_body class c P E F None -> metadata_count c < metadata_allocated c -> mem w' = mem w ->
  wp (modify_class (fun c => set_metadata_count (u64 (metadata_count c + 1)) c) ;;;
      modify_class (fun c => set_metadata_count_unguarded (u64 (metadata_count_unguarded c + 1)) c) ;;;
      let* c := get_class in
      (if metadata_count_unguarded c >=? GUARD_SLABS_INTERVAL
       then modify_class (fun c => set_metadata_count (u64 (metadata_count c + 1)) c) ;;;
            modify_class (set_metadata_count_unguarded 0)
       else ret tt) ;;;
      ret (Some i))
     (new_slab_post class c w P E F) system_halts (c, w').
Proof.
  intros -> Hb Hroom Hw.
  destruct (cb_metadata _ _ _ _ _ _ Hb) as [Hc Ha Hu Hf].
  pose proof (metadata_max_bound class c (cb_geometry _ _ _ _ _ _ Hb)) as Hmax.
  pose proof (cb_gsi config_facts) as Hgsi.
  assert (E1 : u64 (metadata_count c + 1) = metadata_count c + 1) by (apply wrap_small; split; lia).
  assert (E2 : u64 (metadata_count c + 1 + 1) = metadata_count c + 2)
    by (rewrite (wrap_small 64) by (split; lia); lia).
  destruct (wrap_fits 64 (metadata_count_unguarded c + 1) ltac:(lia)) as [Hw64 _].
  repeat sc_step; rewrite E1, ?E2.
  - apply (new_slab_counted class c w w' P E F 0 2); done || lia.
  - rewrite Z.geb_leb in Hb0. apply Z.leb_gt in Hb0.
    apply (new_slab_counted class c w w' P E F _ 1); done || lia.
Qed.

Definition metadata_grown class c w P E F (f : bool) (s : size_class R * world) : Prop :=
  mem (snd s) = mem w /\ (f = true -> errno (snd s) = ENOMEM) /\
  exists a, fst s = set_metadata_allocated a c /\ class_body class (fst s) P E F None /\
    (f = false -> metadata_count c < a).

Lemma set_metadata_allocated_id c : set_metadata_allocated (metadata_allocated c) c = c.
Proof. by destruct c. Qed.

Lemma wp_alloc_metadata class c w P E F nz :
  class_body class c P E F None ->
  wp (alloc_metadata (slab_size c) nz) (new_slab_post class c w P E F) system_halts (c, w).
Proof.
  intros Hb. unfold alloc_metadata. sc_step. sc_step. apply wp_bind.
  assert (Hstay : forall f w', mem w' = mem w -> (f = true -> errno w' = ENOMEM) ->
    (f = false -> metadata_count c < metadata_allocated c) -> metadata_grown class c w P E F f (c, w')).
  { intros f w' Hw He Hf. split; [done|]. split; [done|]. exists (metadata_allocated c). cbn [fst]. by rewrite set_metadata_allocated_id. }
  eapply (wp_mono _ (metadata_grown class c w P E F) _ system_halts).
  - destruct (metadata_count c >=? metadata_allocated c) eqn:Hfull; rewrite Z.geb_leb in Hfull;
      [apply Z.leb_le in Hfull|apply Z.leb_gt in Hfull; by apply wp_ret, Hstay].
    destruct (metadata_count c >=? get_metadata_max (slab_size c)) eqn:Hmx; rewrite Z.geb_leb in Hmx;
      [apply wp_bind, wp_on_world; unfold set_errno; wp_step; by apply wp_ret, Hstay|].
    apply Z.leb_gt in Hmx. apply wp_bind, wp_on_world.
    pose proof (metadata_max_bound class c (cb_geometry _ _ _ _ _ _ Hb)) as Hmax.
    destruct (metadata_growth c (cb_metadata _ _ _ _ _ _ Hb) ltac:(lia) ltac:(lia) ltac:(lia)) as [Hgr Hle].
    set (a := if _ >? _ then _ else _) in *.
    eapply (wp_mono _ _ _ memory_fatal); [apply wp_memory_protect_prot| |intros h Hh; by right].
    intros f w' [Hw He]. destruct f; [by apply wp_ret, Hstay|]. repeat sc_step. split; [done|]. split; [done|].
    exists a. split; [done|]. split; [|intros _; lia].
    destruct (cb_metadata _ _ _ _ _ _ Hb) as [? ? ? ?].
    eapply body_grow; [exact Hb|done..| |unfold slab_limit; sc; lia]. split; sc; done || lia.
  - intros f [c' w'] (Hw & He & a & E1 & Hb' & Hroom). cbn [fst snd] in *. subst c'.
    assert (Hnone : forall w2, mem w2 = mem w -> errno w2 = ENOMEM ->
      new_slab_post class c w P E F None (set_metadata_allocated a c, w2)).
    { intros w2 Hw2 He2. by repeat (split; [done|]). }
    destruct f; [by apply wp_ret, Hnone, He|]. specialize (Hroom eq_refl). apply wp_bind.
    eapply (wp_mono _ (fun b s' => fst s' = set_metadata_allocated a c /\ mem (snd s') = mem w /\
      (b = true -> errno (snd s') = ENOMEM)) _ memory_fatal).
    + destruct nz; [|by apply wp_ret]. apply wp_on_world. eapply wp_conseq; [apply wp_memory_protect_prot|].
      intros b w2 [Hw2 He2]. cbn. by rewrite Hw2.
    + intros b [c2 w2] (Hc2 & Hw2 & He2). cbn [fst snd] in Hc2, Hw2, He2. subst c2.
      destruct b; [by apply wp_ret, Hnone, He2|].
      eapply wp_conseq; [exact (wp_alloc_metadata_commit class _ w w2 P E F _ eq_refl Hb' Hroom Hw2)|].
      intros m s' [[] Hrest]. split; [by constructor|exact Hrest].
    + intros h Hh. by right.
  - done.
Qed.

(** A state between the call and the choice of a slot: only lists, limits and
    a canary have changed. *)
Record ready class c w c1 w1 P E F : Prop := {
  rd_static : static_eq c c1;
  rd_slots : slots_unchanged c c1;
  rd_mem : mem w1 = mem w;
  rd_body : class_body class c1 P E F None
}.

Lemma ready_trans class c w c1 w1 c2 w2 P E F P' E' F' :
  ready class c w c1 w1 P E F -> ready class c1 w1 c2 w2 P' E' F' -> ready class c w c2 w2 P' E' F'.
Proof.
  intros [[] Hu Hm _] [[] Hu' Hm' Hb]. split; [by split; congruence| |congruence|done].
  intros j t Ht. destruct (Hu j t Ht) as [<- <-]. by apply Hu'.
Qed.

(** The common end of the paths that start a slab: [c2] is [c1] with the links
    of [i] cleared and the partial list started. *)
Lemma wp_start_slab class c w c1 w1 c2 w2 E F i req :
  ready class c w c1 w1 [] E F -> unlisted (slab_limit c1) (heap_of c1) [] E F i -> static_eq c1 c2 -> limits_eq c1 c2 -> rng c2 = rng c1 -> mem w2 = mem w1 ->
  (slab_info c2).[i] = set_prev None (set_next None (slab_info c1).[i]) ->
  (forall x, (slab_info c2).[i <- x] = (slab_info c1).[i <- x]) ->
  (forall h, Heap h (partial_slabs c2) (empty_slabs c2) (free_slabs_head c2) (free_slabs_tail c2)
     (free_slabs_quarantine c2) = Heap h (if slots c >? 1 then Some i else None) (empty_slabs c1)
     (free_slabs_head c1) (free_slabs_tail c1) (free_slabs_quarantine c1)) ->
  empty_slabs_total c2 = empty_slabs_total c1 -> (req = 0 <-> class = 0) ->
  wp (let* d := get_meta i in
      let* slot := with_rng (get_free_slot (slots c) d) in
      update_meta i (fun d => set_used_slot d slot) ;;;
      let p := slot_pointer (size c) (get_slab c (slab_size c) i) slot in
      (if negb (req =? 0) then set_canary i p (size c) else ret tt) ;;;
      stats_slab_allocate (slab_size c) ;;;
      stats_small_allocate (size c) ;;;
      mutex_unlock ;;;
      ret p)
     (alloc_post class c w) system_halts (c2, w2).
Proof.
  intros [Hst Hun Hw Hb1] Hu1 Hst2 Hlim2 Hrng2 Hw2 Hi2 Hinfo Hheap Htot Hreq.
  assert (Hg : class_geometry class c).
  { pose proof (cb_geometry _ _ _ _ _ _ Hb1) as []. destruct Hst. split; congruence. }
  destruct (slab_geometry_facts class c Hg) as [Hn Hsz _ Hslab _ Hmax Hreg].
  pose proof (ul_known _ _ _ _ _ _ Hu1) as Hk. pose proof (ul_count _ _ _ _ _ _ Hu1) as Hc0.
  destruct (cb_metadata _ _ _ _ _ _ Hb1) as [_ Hma _ _].
  assert (Himax : 0 <= i < get_metadata_max (slab_size c)).
  { rewrite <- (se_slab_size _ _ Hst). unfold slab_limit in Hk. lia. }
  pose proof (hi_wf _ _ _ _ _ _ (cb_heap _ _ _ _ _ _ Hb1) i) as Hwf. rewrite (se_slots _ _ Hst) in Hwf.
  repeat sc_step. rewrite Hi2.
  eapply wp_draw_slot; [done|by eapply same_slots_wf; [|exact Hwf]|cbn in *; lia|rewrite Hrng2; apply Hb1|done|].
  intros s r w3 Hs Hfree Hr Hw3. do 2 sc_step. rewrite Hi2, Hinfo. name_state c3.
  rewrite (slot_pointer_eq class c Hg i s Himax Hs).
  apply wp_bind, wp_optional_canary. intros w4 Hw4 Hcan.
  apply wp_bind, wp_stats_slab_allocate. intros c4 Hc4 Hl4.
  apply wp_bind, wp_stats_small_allocate. intros c5 Hc5 Hl5. repeat sc_step.
  destruct (started_body class c1 c3 E F i s (slab_info c1).[i]) as [Hb2 Htook]; try done.
  - by rewrite (se_slots _ _ Hst).
  - destruct Hst2. by split.
  - destruct Hlim2. by split.
  - unfold c3, heap_of. sc. rewrite (se_slots _ _ Hst). apply Hheap.
  - eapply (alloc_post_started class c c1 c3); try done.
    + destruct Hst2. by split.
    + destruct Hlim2. by split.
    + eapply core_eq_trans; [done|]. eapply core_eq_trans; [done|apply core_eq_lock].
    + by rewrite <- Hw2, <- Hw3.
    + intros Hcl. apply Hcan, negb_true_iff, Z.eqb_neq. tauto.
Qed.

(** Drawing the canary of a slab in use. *)
Lemma wp_set_slab_canary class c w P E F i (Q : unit -> size_class R * world -> Prop) :
  class_body class c P E F None -> 0 <= i < slab_limit c ->
  (forall c1 w1, ready class c w c1 w1 P E F -> limits_eq c c1 -> lock c1 = lock c ->
     free_slabs_quarantine c1 = free_slabs_quarantine c -> count (slab_info c1).[i] = count (slab_info c).[i] ->
     next (slab_info c1).[i] = next (slab_info c).[i] -> prev (slab_info c1).[i] = prev (slab_info c).[i] ->
     Q tt (c1, w1)) ->
  wp (set_slab_canary_value i) Q system_halts (c, w).
Proof.
  intros Hb Hk HQ. unfold set_slab_canary_value. wp_step; [|by apply wp_ret, HQ].
  apply wp_bind, wp_with_rng. eapply wp_mono; [apply u64_ok, Hb| |by left].
  intros v [r w1] (_ & Hr & Hw1). repeat sc_step. cbn [fst snd] in Hr, Hw1.
  set (d := set_canary_value (Z.land v canary_mask) (slab_info c).[i]).
  assert (Hun : slots_unchanged c (set_slab_info (slab_info c).[i <- d] (set_rng r c))).
  { intros j t _. sc. rewrite aget_aset_case. by case_decide; subst. }
  apply HQ; sc; rewrite ?aget_aset; try done. split; try done.
  eapply body_update; [exact Hb|done|done|exact Hr| |apply Hb| |by apply Hun].
  - apply (heap_inv_canary _ _ (heap_of c)), Hb.
  - intros j Hj. sc. rewrite aget_aset_ne; [done|]. intros ->. unfold slab_limit in Hk. lia.
Qed.

(** Popping the first free slab, as [allocate_from_free] does. *)
Definition popped_free c i : size_class R :=
  let nx := next (slab_info c).[i] in
  set_free_slabs_tail (match nx with None => None | Some _ => free_slabs_tail c end)
    (set_free_slabs_head nx c).

Lemma popped_free_ready class c w E F i :
  class_body class c [] E (i :: F) None ->
  ready class c w (popped_free c i) w [] E F /\
  unlisted (slab_limit (popped_free c i)) (heap_of (popped_free c i)) [] E F i.
Proof.
  intros Hb. pose proof (gf_slots _ (slab_geometry_facts class c (cb_geometry _ _ _ _ _ _ Hb))) as Hn.
  destruct (heap_pop_free (slots c) (slab_limit c) Hn (heap_of c) [] E F i (cb_heap _ _ _ _ _ _ Hb)) as [Hh1 Hu1].
  split; [|exact Hu1]. split; try done.
  eapply body_update; try done; [exact (cb_rng _ _ _ _ _ _ Hb)|exact (cb_total _ _ _ _ _ _ Hb)].
Qed.

Lemma wp_allocate_from_free class c w E F i requested_size :
  class_body class c [] E (i :: F) None -> partial_slabs c = None -> empty_slabs c = None ->
  (requested_size = 0 <-> class = 0) ->
  wp (allocate_from_free i requested_size (size c) (slots c) (slab_size c))
     (alloc_post class c w) system_halts (c, w).
Proof.
  intros Hb Hpn Hen Hreq. pose proof (cb_heap _ _ _ _ _ _ Hb) as Hh.
  assert (Hk : 0 <= i < slab_limit c).
  { apply (hi_known _ _ _ _ _ _ Hh). right; left. rewrite elem_of_app. right. apply list_elem_of_here. }
  unfold allocate_from_free. apply wp_bind, (wp_set_slab_canary class c w [] E (i :: F)); [done|done|].
  intros c1 w1 Hrd Hlim Hlock _ _ _ _.
  sc_step. sc_step. apply wp_bind.
  eapply (wp_mono _ (fun b s' => fst s' = c1 /\ mem (snd s') = mem w1 /\
    (b = true -> errno (snd s') = ENOMEM)) _ memory_fatal).
  { destruct (negb _); [|by apply wp_ret]. apply wp_on_world. eapply wp_conseq; [apply wp_memory_protect_prot|].
    intros b w2 [Hw2 He2]. cbn. by rewrite Hw2. }
  2: { intros h Hh2. by right. }
  intros b [c1' w2] (E1 & Hw2 & He2). cbn [fst snd] in E1, Hw2, He2. subst c1'. pose proof Hrd as [Hst1 Hun1 Hm1 Hb1].
  destruct b.
  { repeat sc_step. split; [by destruct Hst1|]. split; [|left; split; [done|]; split; [by apply He2|]; split; [done|]; split; [done|]; split].
    - exists [], E, (i :: F). split; [done|]. eapply core_eq_body; [apply core_eq_lock|done].
    - done.
    - cbn [snd]. congruence. }
  destruct (popped_free_ready class c1 w1 E F i Hb1) as [Hrd2 Hu2].
  pose proof (ready_trans _ _ _ _ _ _ _ _ _ _ _ _ _ Hrd Hrd2) as Hrd3.
  sc_step; sc_step; sc_step; sc_step; sc_step.
  destruct (next (slab_info c1).[i]) eqn:Hnx.
  all: do 7 sc_step; name_state c2; rewrite (get_slab_static c c1) by done.
  all: autorewrite with arrays in c2.
  all: refine (wp_start_slab class c w (popped_free c1 i) w1 c2 w2 E F i requested_size Hrd3 Hu2 _ _ _ Hw2 _ _ _ _ Hreq).
  all: unfold c2, popped_free; sc; intros; autorewrite with arrays; rewrite ?Hnx; try done.
Qed.

Lemma wp_allocate_from_new class c w E F requested_size :
  class_body class c [] E F None -> partial_slabs c = None -> empty_slabs c = None ->
  (requested_size = 0 <-> class = 0) ->
  wp (allocate_from_new requested_size (size c) (slots c) (slab_size c))
     (alloc_post class c w) system_halts (c, w).
Proof.
  intros Hb Hpn Hen Hreq. unfold allocate_from_new. apply wp_bind.
  eapply wp_conseq; [exact (wp_alloc_metadata class c w [] E F _ Hb)|].
  intros [i|] [c1 w1] (Hst1 & Hi1 & Hl1 & Hm1 & Hb1 & Hp1 & Hrest); cbn [fst snd] in *.
  2: { repeat sc_step. split; [by destruct Hst1|]. split.
    - exists [], E, F. split; [done|]. eapply core_eq_body; [apply core_eq_lock|done].
    - left. split; [done|]. split; [done|]. split; [done|]. split; [done|]. split; [|done].
      intros j t _. sc. by rewrite Hi1. }
  destruct Hrest as (-> & Hu1 & Hz). pose proof (ul_known _ _ _ _ _ _ Hu1) as Hk.
  assert (Hrd1 : ready class c w c1 w1 [] E F).
  { split; try done. intros j t _. by rewrite Hi1. }
  apply wp_bind, (wp_set_slab_canary class c1 w1 [] E F); [done|done|].
  intros c2 w2 Hrd Hlim Hlock Hfsq Hcnt Hnx Hpv.
  pose proof (ready_trans _ _ _ _ _ _ _ _ _ _ _ _ _ Hrd1 Hrd) as Hrd2.
  assert (Hu2 : unlisted (slab_limit c2) (heap_of c2) [] E F (metadata_count c)).
  { destruct Hu1 as [? Hfs Hc ?], Hlim. split; [done| |by cbn; rewrite Hcnt|].
    2: unfold slab_limit in *; congruence.
    unfold in_fsq in *. cbn in *. by rewrite Hfsq. }
  do 4 sc_step. get_slab_of c2. name_state c3. rewrite (get_slab_static c c2) by apply Hrd2.
  refine (wp_start_slab class c w c2 w2 c3 w2 E F _ requested_size Hrd2 Hu2 _ _ _ _ _ _ _ _ Hreq); try done.
  unfold c3. sc. rewrite Hi1, Hz in Hnx, Hpv. cbn in Hnx, Hpv. destruct (slab_info c2).[metadata_count c]. cbn in *. by subst.
Qed.

(** Taking a slot of the first partial slab: the new state [c2] has the partial
    list [P'], and only slot [s] of slab [i] is taken. *)
Lemma partial_body class c c2 i s P E F P' :
  class_body class c (i :: P) E F None -> static_eq c c2 -> limits_eq c c2 -> random_inv (rng c2) ->
  empty_slabs_total c2 = empty_slabs_total c ->
  (forall j, j <> i -> same_slots (slab_info c).[j] (slab_info c2).[j]) ->
  same_slots (set_used_slot (slab_info c).[i] s) (slab_info c2).[i] ->
  (forall j, metadata_count c <= j -> (slab_info c2).[j] = (slab_info c).[j]) ->
  heap_inv (slots c) (slab_limit c) (heap_of c2) P' E F ->
  class_body class c2 P' E F None /\ took c c2 i s.
Proof.
  intros Hb Hst Hlim Hr Htot Hoth Hi Hfresh Hh.
  assert (Htook : took c c2 i s).
  { intros j t Ht. destruct (decide (i = j)) as [<-|Hij].
    - rewrite Z.eqb_refl, (same_slots_used _ _ _ Hi), (same_slots_quarantine _ _ _ Hi). split; [apply bitmap_get_set|done].
    - rewrite (same_slots_used _ _ _ (Hoth j (not_eq_sym Hij))), (same_slots_quarantine _ _ _ (Hoth j (not_eq_sym Hij))).
      by rewrite (proj2 (Z.eqb_neq i j)). }
  split; [|done]. eapply body_update; try done.
  - rewrite Htot. by apply Hb.
  - intros j t Ht. by apply Htook.
Qed.

(** The result of the partial path, from the state before the statistics. *)
Lemma alloc_post_partial class c c2 c3 w w2 i s P E F P' :
  class_body class c (i :: P) E F None -> 0 <= s < slots c -> is_used_slot (slab_info c).[i] s = false ->
  static_eq c c2 -> limits_eq c c2 -> class_body class c2 P' E F None /\ took c c2 i s ->
  core_eq c2 c3 -> lock c3 = false ->
  only_changes (slot_address c i s + size c - canary_size) canary_size (mem w) (mem w2) ->
  (class <> 0 -> canary_stored c2 i (slot_address c i s + size c - canary_size) w2) ->
  alloc_post class c w (slot_address c i s) (c3, w2).
Proof.
  intros Hb Hs Hfree Hst Hlim [Hb2 Htook] Hcore Hlock Hmem Hcan.
  destruct (partial_apart (slots c) (slab_limit c) (heap_of c) (i :: P) E F i (cb_heap _ _ _ _ _ _ Hb)
    ltac:(apply list_elem_of_here)) as (_ & _ & Hk).
  split; [cbn [fst]; destruct Hst, Hcore; split; congruence|]. cbn [fst snd]. split.
  { exists P', E, F. split; [done|]. by eapply core_eq_body. }
  right. exists i, s. split; [done|]. split.
  { destruct Hlim, Hcore. unfold slab_limit in *. rewrite ce_ma0, ce_mc0, le_ma0, le_mc0. done. }
  split; [done|]. split; [done|]. split; [|split; [done|]].
  - intros j t Ht. rewrite (ce_info _ _ Hcore). by apply Htook.
  - unfold canary_stored in *. by rewrite (ce_info _ _ Hcore).
Qed.

(** A specified program in the middle of another. *)
Lemma wp_prefix {A B D D' S} (m : M S A) (k : A -> M S B) (j : B -> M S D) (k' : D -> M S D') Q
    (Q' : D' -> S -> Prop) E E' s :
  wp (bind m (fun a => bind (k a) j)) Q E s -> (forall h, E h -> E' h) ->
  (forall b s', Q b s' -> wp (k' b) Q' E' s') ->
  wp (bind m (fun a => bind (k a) (fun b => bind (j b) k'))) Q' E' s.
Proof.
  unfold wp, bind. intros H HE H'. destruct (m s) as [a s1|]; [|by apply HE]. destruct (k a s1) as [b s2|]; [|by apply HE].
  destruct (j b s2) as [d s3|]; [by apply H'|by apply HE].
Qed.

Definition partial_taken class c w i s E F (s' : size_class R * world) : Prop :=
  snd s' = w /\ static_eq c (fst s') /\ limits_eq c (fst s') /\
  exists P', class_body class (fst s') P' E F None /\ took c (fst s') i s.

(** Taking the slot, and unlisting the slab when it is full. *)
Lemma wp_take_partial class c w P E F i s r :
  class_body class c (i :: P) E F None -> random_inv r ->
  0 <= s < slots c -> is_used_slot (slab_info c).[i] s = false ->
  wp (update_meta i (fun d => set_used_slot d s) ;;;
      let* d := get_meta i in
      if negb (has_free_slots (slots c) d) then
        modify_class (set_partial_slabs (next d)) ;;;
        match next d with
        | Some n => update_meta n (set_prev None)
        | None => ret tt
        end
      else ret tt)
     (fun _ => partial_taken class c w i s E F) system_halts (set_rng r c, w).
Proof.
  intros Hb Hr Hs Hfree. pose proof (cb_heap _ _ _ _ _ _ Hb) as Hh.
  pose proof (gf_slots _ (slab_geometry_facts class c (cb_geometry _ _ _ _ _ _ Hb))) as Hn.
  pose proof (list_elem_of_here i P) as Hin.
  destruct (partial_apart (slots c) (slab_limit c) (heap_of c) (i :: P) E F i Hh Hin) as (_ & _ & Hk).
  assert (Hcnt : 0 < count (slab_info c).[i] < slots c) by by apply (hi_partial _ _ _ _ _ _ Hh).
  destruct (set_used_facts (slots c) (slab_info c).[i] s ltac:(lia) Hs Hfree (hi_wf _ _ _ _ _ _ Hh i)
    (hi_quar _ _ _ _ _ _ Hh i)) as (Hwf' & Hc' & Hu' & Hq' & Hqu').
  assert (Hfresh : forall j, metadata_count c <= j -> j <> i).
  { intros j Hj ->. unfold slab_limit in Hk. lia. }
  do 4 sc_step. rewrite aget_aset. set (d' := set_used_slot (slab_info c).[i] s) in *.
  assert (Hnx : forall n, next d' = Some n -> n <> i /\ 0 <= n < slab_limit c).
  { intros n Hnx. pose proof (hi_partial_links _ _ _ _ _ _ Hh) as [Hsl _]. apply slinks_cons in Hsl as [Hnx' _].
    cbn in Hnx'. change (next d' = head P) in Hnx'. rewrite Hnx in Hnx'. symmetry in Hnx'.
    assert (Hnp : n ∈ P) by (destruct P; [done|]; injection Hnx' as ->; apply list_elem_of_here).
    destruct (lists_disjoint _ _ _ (hi_nodup _ _ _ _ _ _ Hh)) as (HP & _). apply NoDup_cons in HP as [HP _].
    split; [by intros ->|]. destruct (partial_apart (slots c) (slab_limit c) (heap_of c) (i :: P) E F n Hh) as (_ & _ & ?);
      [by apply list_elem_of_further|done]. }
  sc_step; unfold has_free_slots in Hb0; [apply negb_true_iff, Z.ltb_ge in Hb0|apply negb_false_iff, Z.ltb_lt in Hb0].
  - eapply (wp_mono _ (fun _ s' => s' = (set_partial_slabs (next d') (set_slab_info (match next d' with
      | Some n => (slab_info c).[i <- d'].[n <- set_prev None (slab_info c).[n]]
      | None => (slab_info c).[i <- d'] end) (set_rng r c)), w)) _ system_halts); [| |done].
    { do 2 sc_step. destruct (next d') as [n|] eqn:Hn'; sc_step; [|done].
      rewrite aget_aset_ne; [done|]. by intros <-; destruct (Hnx i). }
    intros _ s' ->. split; [done|]. split; [done|]. split; [done|]. exists P. cbn [fst].
    set (h2 := match next d' with Some n => _ | None => _ end).
    assert (Hh2 : h2.[i] = d' /\ forall j, j <> i -> h2.[j] =
      if decide (next d' = Some j) then set_prev None (slab_info c).[j] else (slab_info c).[j]).
    { unfold h2. destruct (next d') as [n|] eqn:Hn'.
      - destruct (Hnx n eq_refl) as [Hni _]. rewrite aget_aset_ne, aget_aset by done. split; [done|].
        intros j Hj. rewrite aget_aset_case. do 2 case_decide; try congruence. by rewrite aget_aset_ne.
      - rewrite aget_aset. split; [done|]. intros j Hj. rewrite aget_aset_ne by done. done. }
    destruct Hh2 as [Hi2 Hj2]. eapply partial_body; try done; sc.
    + intros j Hj. rewrite Hj2 by done. by case_decide.
    + by rewrite Hi2.
    + intros j Hj. rewrite Hj2 by by apply Hfresh. case_decide as Hd; [|done].
      apply Hnx in Hd as [_ Hd]. unfold slab_limit in Hd. lia.
    + apply (heap_alloc_full (slots c) (slab_limit c) Hn (heap_of c)) with (i := i) (d' := d'); try done; sc.
      * lia.
      * intros j Hj. rewrite Hj2 by done. by case_decide.
      * by rewrite Hi2.
  - wp_step. split; [done|]. split; [done|]. split; [done|]. exists (i :: P).
    eapply partial_body; try done; sc.
    + intros j Hj. by rewrite aget_aset_ne.
    + by rewrite aget_aset.
    + intros j Hj. rewrite aget_aset_ne; [done|]. by intros <-; apply (Hfresh i).
    + apply (heap_keep (slots c) (slab_limit c) (heap_of c)); try done; lia.
Qed.

Lemma wp_allocate_from_partial class c w P E F i requested_size :
  class_body class c (i :: P) E F None -> (requested_size = 0 <-> class = 0) ->
  wp (allocate_from_partial i requested_size (size c) (slots c) (slab_size c))
     (alloc_post class c w) (alloc_halts class c w) (c, w).
Proof.
  intros Hb Hreq. pose proof (cb_geometry _ _ _ _ _ _ Hb) as Hg.
  pose proof (gf_slots _ (slab_geometry_facts class c Hg)) as Hn.
  pose proof (cb_heap _ _ _ _ _ _ Hb) as Hh. pose proof (list_elem_of_here i P) as Hin.
  destruct (partial_apart (slots c) (slab_limit c) (heap_of c) (i :: P) E F i Hh Hin) as (_ & _ & Hk).
  assert (Himax : 0 <= i < get_metadata_max (slab_size c)).
  { destruct (cb_metadata _ _ _ _ _ _ Hb). unfold slab_limit in Hk. lia. }
  assert (Hcnt : 0 < count (slab_info c).[i] < slots c) by by apply (hi_partial _ _ _ _ _ _ Hh).
  unfold allocate_from_partial. repeat sc_step.
  eapply wp_draw_slot; [done|apply (hi_wf _ _ _ _ _ _ Hh)|lia|apply Hb|by left|].
  intros s r w1 Hs Hfree Hr Hw1.
  refine (wp_prefix _ _ _ _ _ _ _ _ _ (wp_take_partial class c w1 P E F i s r Hb Hr Hs Hfree) _ _); [by left|].
  intros _ [c2 w2] (Hw2 & Hst & Hlim & P' & Hb2). cbn [fst snd] in *. subst w2. do 2 sc_step.
  rewrite (get_slab_static c c2), (slot_pointer_eq class c Hg i s Himax Hs) by done.
  apply wp_bind, wp_optional_check; [apply (slab_geometry_facts class c Hg)| |].
  2: { rewrite Hw1. intros Hb0 Hzf Hd. right. apply negb_true_iff, Z.eqb_neq in Hb0.
       split; [done|]. split; [tauto|]. split; [done|]. by exists i, s. }
  rewrite Hw1. intros w2 Hw2 Hcan. apply wp_bind, wp_stats_small_allocate. intros c3 Hc3 Hl3. repeat sc_step.
  eapply (alloc_post_partial class c c2); try done.
  - eapply core_eq_trans; [done|apply core_eq_lock].
  - intros Hcl. apply Hcan, negb_true_iff, Z.eqb_neq. tauto.
Qed.
End Paths.

(** ** [allocate_small] *)

Section AllocateSmall.
Context {Cfg : Config} {Cok : ConfigOk Cfg} {K : Kernel} {Kok : KernelOk K} {R : Type}.
Context `{!RandomSource R} `{!RandomSourceOk R}.
Implicit Types (c : size_class R) (w : world).

(** The slot size of the class that [get_size_info] selects. *)
Lemma request_class req :
  0 <= req <= max_slab_size_class ->
  let info := get_size_info req in
  0 <= si_class info < N_SIZE_CLASSES /\
  slot_size (si_class info) = (if negb (si_size info =? 0) then si_size info else 16) /\
  req <= slot_size (si_class info).
Proof.
  intros Hreq info. destruct (decide (req = 0)) as [->|Hne].
  { pose proof N_SIZE_CLASSES_eq. split; [|by vm_compute]. rewrite N_SIZE_CLASSES_eq. cbn.
    by destruct CONFIG_EXTENDED_SIZE_CLASSES. }
  assert (Hreq' : 0 < req <= max_slab_size_class) by lia.
  destruct (get_size_info_class req Hreq') as (Hc & Ht & Hlo & Hhi). fold info in Hc, Ht, Hlo, Hhi.
  assert (Hpos : si_size info <> 0) by lia.
  unfold slot_size. rewrite Ht. rewrite (proj2 (Z.eqb_neq _ _) Hpos). cbn. lia.
Qed.

(** Only empty requests are served by class 0. *)
Lemma request_class_zero req : 0 <= req <= max_slab_size_class -> req = 0 <-> si_class (get_size_info req) = 0.
Proof.
  intros Hreq. split; [by intros ->|]. intros H0. destruct (decide (req = 0)) as [|Hne]; [done|].
  assert (Hpos : 0 < req <= max_slab_size_class) by lia. destruct (get_size_info_class req Hpos) as [[H1 _] _]. lia.
Qed.

(** Slots of a class do not overlap, and are aligned. *)
Lemma slot_address_disjoint class c i s j t :
  class_geometry class c -> 0 <= i -> 0 <= j -> 0 <= s < slots c -> 0 <= t < slots c -> (i, s) <> (j, t) ->
  slot_address c i s + size c <= slot_address c j t \/ slot_address c j t + size c <= slot_address c i s.
Proof.
  intros Hg Hi Hj Hs Ht Hne. destruct (slab_geometry_facts class c Hg).
  destruct (slot_offset_bound class c Hg s Hs), (slot_offset_bound class c Hg t Ht). unfold slot_address.
  destruct (Z.lt_total i j) as [Hij|[->|Hij]]; [left; nia| |right; nia].
  destruct (Z.lt_total s t) as [Hst|[->|Hst]]; [left; nia|done|right; nia].
Qed.

Lemma slot_address_aligned class c i s : class_geometry class c -> (min_align | slot_address c i s).
Proof.
  intros Hg. destruct (slab_geometry_facts class c Hg) as [_ _ H16 _ Hpage _ _].
  assert (Hd : (16 | PAGE_SIZE)) by (by exists 256). unfold slot_address, min_align.
  repeat apply Z.divide_add_r.
  - eapply Z.divide_trans; [exact Hd|apply Hg].
  - apply Z.divide_mul_r. by eapply Z.divide_trans.
  - by apply Z.divide_mul_r.
Qed.

Lemma wp_allocate_small class c w P E F req :
  0 <= req <= max_slab_size_class -> class = si_class (get_size_info req) -> class_inv class c P E F ->
  wp (allocate_small req) (alloc_post class c w) (alloc_halts class c w) (c, w).
Proof.
  intros Hreq Hcl [Hlock Hb]. assert (Hreq0 : req = 0 <-> class = 0) by (rewrite Hcl; by apply request_class_zero). subst class. set (class := si_class (get_size_info req)) in *.
  destruct (request_class req Hreq) as (_ & Hsz & _). fold class in Hsz.
  pose proof (cb_heap _ _ _ _ _ _ Hb) as Hh.
  pose proof (hi_partial_head _ _ _ _ _ _ Hh) as HP. pose proof (hi_empty_head _ _ _ _ _ _ Hh) as HE.
  pose proof (hi_free_head _ _ _ _ _ _ Hh) as HF. cbn in HP, HE, HF.
  unfold allocate_small. cbv zeta. rewrite <- Hsz, <- (cg_size _ _ (cb_geometry _ _ _ _ _ _ Hb)).
  do 2 sc_step. sc_step. sc_step. sc_step. rewrite Hlock. sc_step.
  set (c1 := set_lock true c).
  assert (Hb1 : class_body class c1 P E F None) by (eapply core_eq_body; [apply core_eq_lock|done]).
  assert (Hpost : forall p s', alloc_post class c1 w p s' -> alloc_post class c w p s').
  { intros p s' ([] & ? & Hres). split; [by split|done]. }
  eapply wp_conseq; [|exact Hpost]. rewrite HP, HE, HF.
  destruct P as [|i P]; [|by apply (wp_allocate_from_partial class c1 w P E F)].
  destruct E as [|i E]; [|by apply (wp_allocate_from_empty class c1 w E F)].
  eapply (wp_mono _ _ _ system_halts); [|done|by left].
  destruct F as [|i F]; cbn [head]; [by apply (wp_allocate_from_new class c1 w [] [])|].
  by apply (wp_allocate_from_free class c1 w [] F).
Qed.

(** ** Properties *)

(** C22: on any reachable state of a size class, [allocate_small] hands out the
    address of a slot that was free: aligned to 16 bytes, inside the class
    region, large enough for the request, and overlapping no slot in use. The
    invariant holds afterwards and the lock is free, that slot is now used, no
    other slot changes, and memory changes at most in the slot's canary, which
    is its slab's unless the request is for zero bytes. It returns NULL only with
    errno = ENOMEM and no partial or cached slab left. Aborting for write after
    free takes a free slot that is not zero; all else that can stop it is a
    system call failing with something other than ENOMEM, or a failing random
    source. *)
Theorem allocate_small_ok class c w P E F req :
  0 <= req <= max_slab_size_class -> class = si_class (get_size_info req) -> class_inv class c P E F ->
  wp (allocate_small req)
     (fun p '(c', w') =>
        (exists P' E' F', class_inv class c' P' E' F') /\
        (p = 0 /\ errno w' = ENOMEM /\ partial_slabs c = None /\ empty_slabs c = None /\
         slots_unchanged c c' /\ mem w' = mem w \/
         exists i s, p = slot_address c i s /\ 0 <= s < slots c /\ (min_align | p) /\ req <= size c /\
           class_region_start c <= p /\ p + size c <= class_region_start c + CLASS_REGION_SIZE /\
           is_used_slot (slab_info c).[i] s = false /\ took c c' i s /\
           (forall j t, 0 <= j -> 0 <= t < slots c -> is_used_slot (slab_info c).[j] t = true ->
              slot_address c j t + size c <= p \/ p + size c <= slot_address c j t) /\
           only_changes (p + size c - canary_size) canary_size (mem w) (mem w') /\
           (0 < req -> SLAB_CANARY = true ->
              load64 (mem w') (p + size c - canary_size) = u64 (canary_value (slab_info c').[i]))))
     (alloc_halts class c w) (c, w).
Proof.
  intros Hreq Hclass Hinv. eapply wp_conseq; [by eapply wp_allocate_small|].
  intros p [c' w'] (Hst & Hinv' & Hres). cbn [fst snd] in *. split; [done|].
  destruct Hres as [Hnull|(i & s & -> & Hi & Hs & Hfree & Htook & Hmem & Hcan)]; [by left|right].
  destruct Hinv as [_ Hb]. pose proof (cb_geometry _ _ _ _ _ _ Hb) as Hg.
  destruct Hinv' as (P' & E' & F' & _ & Hb').
  assert (Himax : 0 <= i < get_metadata_max (slab_size c)).
  { destruct (cb_metadata _ _ _ _ _ _ Hb'). rewrite <- (se_slab_size _ _ Hst). unfold slab_limit in Hi. lia. }
  destruct (slot_address_bound class c Hg i s Himax Hs). destruct (request_class req Hreq) as (_ & _ & Hsz).
  exists i, s. repeat (split; [done || by eapply slot_address_aligned|]).
  split; [by rewrite (cg_size _ _ Hg), Hclass|]. repeat (split; [done|]). split; [|split; [done|]].
  - intros j t Hj Ht Hu. apply (slot_address_disjoint class); [done|done|lia|done|done|].
    intros [= -> ->]. congruence.
  - intros Hpos. apply Hcan. rewrite Hclass. intros Hz%request_class_zero; lia.
Qed.
End AllocateSmall.

(** ** Witnesses *)

Section Witnesses.
#[local] Existing Instance default_config.

(** The class of 48-byte slots after one allocation. *)
Definition demo_allocation : Z * (size_class Z * world) :=
  returned (allocate_small 40) (demo_class, demo_world []) (0, (demo_class, demo_world [])).

Lemma demo_allocation_post : alloc_post 3 demo_class (demo_world []) (fst demo_allocation) (snd demo_allocation).
Proof.
  apply (wp_returned (allocate_small 40) (alloc_post 3 demo_class (demo_world [])) (alloc_halts 3 demo_class (demo_world []))); [|by vm_compute].
  apply (wp_allocate_small 3 demo_class (demo_world []) [] [] [] 40); [by vm_compute|by vm_compute|apply demo_class_ok].
Qed.

(** An allocation in the class of 48-byte slots. *)
Lemma allocate_small_ok_witness :
  wp (allocate_small 40)
     (fun p s' => (exists P E F, class_inv 3 (fst s') P E F) /\ (p = 0 \/ (min_align | p)))
     (alloc_halts 3 demo_class (demo_world [])) (demo_class, demo_world []).
Proof.
  eapply wp_conseq;
    [exact (allocate_small_ok 3 demo_class (demo_world []) [] [] [] 40 ltac:(vm_compute; done)
       ltac:(vm_compute; done) (proj1 demo_class_ok))|].
  intros p [c' w'] [Hinv Hres]; cbn [fst]. split; [done|]. destruct Hres as [[? _]|(i & s & _ & _ & Hal & _)]; [by left|by right].
Defined.
End Witnesses.
