(* ===== verification/SlabQuarantine.v ===== *)
(** The two quarantines of a size class: a freed slot enters with its quarantine
    bit set, passes through a random cell and the queue, and the slot that leaves
    has its bit cleared. *)

From S2P Require Import Prelude Config Util Libdivide SizeClass Kernel RandomSource SlabMeta Slab SlabLists SlabHeap SlabInv SlabRegion SlabAlloc.

(** A slot that the program holds: used and not quarantined. *)
Definition live {R} (c : size_class R) (i s : Z) : bool :=
  is_used_slot (slab_info c).[i] s && negb (is_quarantine_slot (slab_info c).[i] s).

Section Quarantine.
Context {Cfg : Config} {Cok : ConfigOk Cfg} {K : Kernel} {Kok : KernelOk K} {R : Type}.
Context `{!RandomSource R} `{!RandomSourceOk R}.
Implicit Types (c : size_class R) (w : world).

(** ** Lengths *)

Lemma quarantine_length_eq len sz :
  0 <= len <= 65536 -> 16 <= sz <= max_slab_size_class ->
  quarantine_length len sz = len * 2 ^ (MAX_SLAB_SIZE_CLASS_SHIFT - Z.log2 sz) /\
  4 <= Z.log2 sz /\ Z.log2 sz <= MAX_SLAB_SIZE_CLASS_SHIFT <= 17.
Proof.
  intros Hlen Hsz. pose proof max_slab_size_class_bounds.
  assert (Hl4 : 4 <= Z.log2 sz) by (change 4 with (Z.log2 16); apply Z.log2_le_mono; lia).
  assert (Hlm : Z.log2 sz <= MAX_SLAB_SIZE_CLASS_SHIFT <= 17).
  { unfold MAX_SLAB_SIZE_CLASS_SHIFT, max_slab_size_class in *. destruct CONFIG_EXTENDED_SIZE_CLASSES.
    - split; [|done]. change 17 with (Z.log2 131072). apply Z.log2_le_mono. lia.
    - split; [|done]. change 14 with (Z.log2 16384). apply Z.log2_le_mono. lia. }
  split; [|lia]. unfold quarantine_length.
  assert (Eclz : clz64 sz = 63 - Z.log2 sz) by (unfold clz64; lia).
  rewrite Eclz. replace (63 - Z.log2 sz - (63 - MAX_SLAB_SIZE_CLASS_SHIFT))
    with (MAX_SLAB_SIZE_CLASS_SHIFT - Z.log2 sz) by lia.
  rewrite (wrap_small 64 (_ - _)) by (split; lia). rewrite Z.shiftl_mul_pow2 by lia.
  apply wrap_small. split; [apply Z.mul_nonneg_nonneg; lia|].
  assert (2 ^ (MAX_SLAB_SIZE_CLASS_SHIFT - Z.log2 sz) <= 2 ^ 17) by (apply Z.pow_le_mono_r; lia). nia.
Qed.

Lemma quarantine_length_bounds len sz :
  0 < len <= 65536 -> 16 <= sz <= max_slab_size_class ->
  0 < quarantine_length len sz <= Z.shiftl len (MAX_SLAB_SIZE_CLASS_SHIFT - MIN_SLAB_SIZE_CLASS_SHIFT) /\
  quarantine_length len sz < 2 ^ 32.
Proof.
  intros Hlen Hsz. destruct (quarantine_length_eq len sz ltac:(lia) Hsz) as [-> Hl].
  rewrite Z.shiftl_mul_pow2 by (unfold MIN_SLAB_SIZE_CLASS_SHIFT; lia). unfold MIN_SLAB_SIZE_CLASS_SHIFT.
  assert (H1 : 0 < 2 ^ (MAX_SLAB_SIZE_CLASS_SHIFT - Z.log2 sz)) by (apply pow2_pos; lia).
  assert (H2 : 2 ^ (MAX_SLAB_SIZE_CLASS_SHIFT - Z.log2 sz) <= 2 ^ (MAX_SLAB_SIZE_CLASS_SHIFT - 4))
    by (apply Z.pow_le_mono_r; lia).
  assert (H3 : 2 ^ (MAX_SLAB_SIZE_CLASS_SHIFT - 4) <= 2 ^ 13) by (apply Z.pow_le_mono_r; lia).
  split; [split; nia|nia].
Qed.

(** ** Cells *)

(** Writing the pending pointer to a cell makes the old contents pending. *)
Lemma quarantine_inv_swap c c' b k p :
  quarantine_inv c (Some p) -> (forall q, quarantined c' q <-> quarantined c q) ->
  (forall q, quarantined c q -> q <> 0) ->
  (forall b' k', qcell c' b' k' = if decide (b' = b /\ k' = k) then p else qcell c b' k') ->
  quarantine_inv c' (if qcell c b k =? 0 then None else Some (qcell c b k)).
Proof.
  intros [Hc Hi Hp Hcomp] Hq Hpos Hcell. destruct (Hp p eq_refl) as [Hqp Hnp]. split.
  - intros b' k'. rewrite Hcell, Hq. case_decide; [done|apply Hc].
  - intros b1 k1 b2 k2. rewrite !Hcell. repeat case_decide; intros Hne E.
    + destruct_and!. by subst.
    + by destruct (Hnp b2 k2).
    + by destruct (Hnp b1 k1).
    + by apply Hi.
  - intros q. destruct (Z.eqb_spec (qcell c b k) 0) as [|Hne]; [done|]. intros [= <-]. rewrite Hq.
    split; [by apply Hc|]. intros b' k'. rewrite Hcell. case_decide as Hbk; intros E; [by apply (Hnp b k)|].
    apply Hbk. destruct (Hi b k b' k' Hne (eq_sym E)) as [-> ->]. done.
  - intros q Hqq%Hq. destruct (Hcomp q Hqq) as [(b' & k' & E)|[= ->]].
    + destruct (decide (b' = b /\ k' = k)) as [[-> ->]|Hbk].
      * right. rewrite E. by rewrite (proj2 (Z.eqb_neq q 0) (Hpos q Hqq)).
      * left. exists b', k'. by rewrite Hcell, decide_False.
    + left. exists b, k. by rewrite Hcell, decide_True.
Qed.

Lemma quarantined_pos class c q :
  class_geometry class c -> metadata_inv c -> quarantined c q -> q <> 0.
Proof.
  intros Hg [_ Hma _ _] (i & s & Hi & Hs & -> & _). unfold slab_limit in Hi.
  destruct (slot_address_bound class c Hg i s ltac:(lia) Hs). destruct Hg. lia.
Qed.

(** A class that differs in the cells, the queue index and the generator. *)
Lemma body_cells class c c' P E F pend pend' :
  class_body class c P E F pend -> static_eq c c' -> heap_of c' = heap_of c ->
  empty_slabs_total c' = empty_slabs_total c -> random_inv (rng c') ->
  metadata_allocated c' = metadata_allocated c -> metadata_count c' = metadata_count c ->
  metadata_count_unguarded c' = metadata_count_unguarded c ->
  0 <= quarantine_queue_index c' < Z.max 1 (quarantine_length SLAB_QUARANTINE_QUEUE_LENGTH (size c)) ->
  quarantine_inv c' pend' -> class_body class c' P E F pend'.
Proof.
  intros [Hg Hr Hh Ht Hm Hq Hx Hnq] Hst Hheap Htot Hr' Hma Hmc Hmu Hqi Hq'.
  assert (Hlim : slab_limit c' = slab_limit c) by (unfold slab_limit; congruence).
  assert (Hinfo : slab_info c' = slab_info c) by by injection Hheap.
  split; try done.
  - by eapply class_geometry_static.
  - by rewrite Hheap, Hlim, (se_slots _ _ Hst).
  - by rewrite Htot, (se_slab_size _ _ Hst).
  - destruct Hm. split; rewrite ?Hma, ?Hmc, ?Hmu, ?(se_slab_size _ _ Hst), ?Hinfo; done.
  - by rewrite (se_size _ _ Hst).
  - by rewrite Hinfo.
Qed.

(** What a quarantine step guarantees: only cells, index and generator change. *)
Definition swapped class c w P E F (q : option Z) (s' : size_class R * world) : Prop :=
  class_body class (fst s') P E F q /\ static_eq c (fst s') /\ slab_info (fst s') = slab_info c /\
  mem (snd s') = mem w.

Lemma quarantined_frame c c' q :
  static_eq c c' -> slab_info c' = slab_info c -> slab_limit c' = slab_limit c ->
  quarantined c' q <-> quarantined c q.
Proof.
  intros Hst Hinfo Hlim. unfold quarantined. rewrite Hlim, Hinfo, (se_slots _ _ Hst).
  split; intros (i & s & Hi & Hs & -> & Hb); exists i, s;
    rewrite (slot_address_static c c') by done; tauto.
Qed.

Lemma wp_quarantine_random_swap class c w P E F p :
  class_body class c P E F (Some p) ->
  wp (quarantine_random_swap (size c) p) (swapped class c w P E F) random_halts (c, w).
Proof.
  intros Hb. pose proof (cb_geometry _ _ _ _ _ _ Hb) as Hg.
  destruct (slab_geometry_facts class c Hg) as [_ Hsz _ _ _ _ _].
  unfold quarantine_random_swap. destruct (0 <? SLAB_QUARANTINE_RANDOM_LENGTH) eqn:Hlen; [|by apply wp_ret].
  apply Z.ltb_lt in Hlen. pose proof (cb_sqr config_facts) as Hmax.
  assert (Hszm : 16 <= size c <= max_slab_size_class).
  { rewrite (cg_size _ _ Hg). destruct (slab_geometry_spec class (cg_class _ _ Hg)) as (_ & _ & ? & _). lia. }
  destruct (quarantine_length_bounds SLAB_QUARANTINE_RANDOM_LENGTH (size c) (conj Hlen (proj2 Hmax)) Hszm) as [Hql Hq32].
  cbv zeta. set (len := quarantine_length _ _) in *.
  apply wp_bind, wp_with_rng.
  eapply (wp_conseq _ (drawn (fun v => 0 <= v < len) (rng c, w))).
  { destruct (_ <=? 65535) eqn:H16.
    - apply Z.leb_le in H16. apply u16_uniform_ok; [apply Hb|lia].
    - apply u32_uniform_ok; [apply Hb|lia]. }
  intros k [r w1] (Hk & Hr & Hw1). cbn [fst snd] in *. repeat sc_step.
  set (c' := set_quarantine_random _ _).
  split; [|done]. eapply body_cells; try done; [apply Hb|].
  assert (Hcell : forall b' k', qcell c' b' k' = if decide (b' = true /\ k' = k) then p else qcell c b' k').
  { intros [] k'; unfold qcell, c'; sc.
    - rewrite aget_aset_case. repeat case_decide; destruct_and?; subst; done || tauto.
    - by case_decide; destruct_and?. }
  apply (quarantine_inv_swap c c' true k p); [apply Hb|by intros; apply quarantined_frame| |exact Hcell].
  intros q. eapply quarantined_pos; [done|apply Hb].
Qed.

Lemma wp_quarantine_queue_swap class c w P E F p (Eh : halt -> Prop) :
  class_body class c P E F (Some p) ->
  wp (quarantine_queue_swap (size c) p) (swapped class c w P E F) Eh (c, w).
Proof.
  intros Hb. pose proof (cb_geometry _ _ _ _ _ _ Hb) as Hg.
  unfold quarantine_queue_swap. destruct (0 <? SLAB_QUARANTINE_QUEUE_LENGTH) eqn:Hlen; [|by apply wp_ret].
  apply Z.ltb_lt in Hlen. pose proof (cb_sqq config_facts) as Hmax.
  assert (Hszm : 16 <= size c <= max_slab_size_class).
  { rewrite (cg_size _ _ Hg). destruct (slab_geometry_spec class (cg_class _ _ Hg)) as (_ & _ & ? & _). lia. }
  destruct (quarantine_length_bounds SLAB_QUARANTINE_QUEUE_LENGTH (size c) (conj Hlen (proj2 Hmax)) Hszm) as [Hql Hq32].
  pose proof (cb_queue_index _ _ _ _ _ _ Hb) as Hqi. cbv zeta. repeat sc_step.
  set (len := quarantine_length _ _) in *. rewrite Z.max_r in Hqi by lia.
  rewrite (wrap_small 64 (quarantine_queue_index c + 1)) by (split; lia). set (k := quarantine_queue_index c) in *.
  set (c' := set_quarantine_queue_index _ _).
  split; [|done]. eapply body_cells; try done; [apply Hb| |].
  { unfold c'. sc. fold len. destruct (Z.ltb_spec (k + 1) len); lia. }
  assert (Hcell : forall b' k', qcell c' b' k' = if decide (b' = false /\ k' = k) then p else qcell c b' k').
  { intros [] k'; unfold qcell, c'; sc.
    - by case_decide; destruct_and?.
    - rewrite aget_aset_case. repeat case_decide; destruct_and?; subst; done || tauto. }
  apply (quarantine_inv_swap c c' false k p); [apply Hb|by intros; apply quarantined_frame| |exact Hcell].
  intros q. eapply quarantined_pos; [done|apply Hb].
Qed.

(** ** Entering and leaving *)

(** A used slot is in range, in a slab in use. *)
Lemma used_known class c P E F pend i s :
  class_body class c P E F pend -> 0 <= s -> is_used_slot (slab_info c).[i] s = true ->
  0 <= i < slab_limit c /\ 0 <= s < slots c.
Proof.
  intros Hb Hs Hu. pose proof (cb_heap _ _ _ _ _ _ Hb) as Hh.
  pose proof (gf_slots _ (slab_geometry_facts class c (cb_geometry _ _ _ _ _ _ Hb))) as Hn.
  pose proof (hi_wf _ _ _ _ _ _ Hh i) as Hwf. split.
  - apply (hi_known _ _ _ _ _ _ Hh). left. by eapply used_count; [|exact Hwf| |exact Hu]; [lia|].
  - split; [done|]. apply Z.lt_nge. intros Hge. destruct Hwf as [[_ Hout] _ _].
    unfold is_used_slot in Hu. cbn in Hout. by rewrite Hout in Hu.
Qed.

(** Changing the quarantine bits of one slab, the rest of the invariant. *)
Lemma body_quarantine_bits class c i d' P E F pend pend' :
  SLAB_QUARANTINE = true -> class_body class c P E F pend -> meta_wf (slots c) d' ->
  count d' = count (slab_info c).[i] -> next d' = next (slab_info c).[i] -> prev d' = prev (slab_info c).[i] ->
  (forall t, is_quarantine_slot d' t = true -> is_used_slot d' t = true) -> 0 <= i < slab_limit c ->
  quarantine_inv (set_slab_info (slab_info c).[i <- d'] c) pend' ->
  class_body class (set_slab_info (slab_info c).[i <- d'] c) P E F pend'.
Proof.
  intros Hsq [Hg Hr Hh Ht Hm Hq Hx Hnq] Hwf Hcnt Hnx Hpv Hqu Hi Hq'. split; try done.
  - by destruct Hg.
  - apply (heap_touch (slots c) (slab_limit c) (heap_of c)); done.
  - destruct Hm as [? ? ? Hfresh]. split; try done. intros j Hj. sc.
    rewrite aget_aset_ne; [by apply Hfresh|]. intros ->. unfold slab_limit in Hi. sc. cbn in Hj. lia.
  - by rewrite Hsq.
Qed.

(** How one quarantine bit changes the quarantined addresses. *)
Lemma quarantined_bit class c i s d' (b : bool) :
  class_geometry class c -> 0 <= i < slab_limit c -> 0 <= s < slots c ->
  (forall t, is_quarantine_slot d' t = if decide (s = t) then b else is_quarantine_slot (slab_info c).[i] t) ->
  forall q, quarantined (set_slab_info (slab_info c).[i <- d'] c) q <->
    (if decide (q = slot_address c i s) then b = true else quarantined c q).
Proof.
  intros Hg Hi Hs Hbit q. case_decide as Hq.
  - subst q. split.
    + intros (j & t & Hj & Ht & E & Hjt). sc. change (slot_address c i s = slot_address c j t) in E.
      destruct (slot_address_inj class c Hg i s j t Hs Ht E) as [<- <-].
      revert Hjt. sc. rewrite aget_aset, Hbit, decide_True by done. done.
    + intros ->. exists i, s. split; [done|]. split; [done|]. split; [done|]. sc.
      by rewrite aget_aset, Hbit, decide_True.
  - split; intros (j & t & Hj & Ht & E & Hjt); exists j, t; (split; [done|]; split; [done|]; split; [done|]);
      revert Hjt; sc; rewrite aget_aset_case; case_decide as Hij; try done; subst j;
      rewrite Hbit; rewrite decide_False; try done; intros ->; by apply Hq.
Qed.

Lemma quarantine_enter class c P E F i s :
  SLAB_QUARANTINE = true -> class_body class c P E F None -> 0 <= s -> live c i s = true ->
  class_body class (set_slab_info (slab_info c).[i <- set_quarantine_slot (slab_info c).[i] s] c) P E F
    (Some (slot_address c i s)).
Proof.
  intros Hsq Hb Hs Hl. unfold live in Hl. apply andb_true_iff in Hl as [Hu Hnq%negb_true_iff].
  destruct (used_known class c P E F None i s Hb Hs Hu) as [Hi Hs'].
  pose proof (cb_geometry _ _ _ _ _ _ Hb) as Hg. pose proof (cb_heap _ _ _ _ _ _ Hb) as Hh.
  set (d' := set_quarantine_slot (slab_info c).[i] s).
  assert (Hbit : forall t, is_quarantine_slot d' t = if decide (s = t) then true else is_quarantine_slot (slab_info c).[i] t).
  { intros t. unfold d', is_quarantine_slot. cbn [quarantine_bitmap set_quarantine_slot]. rewrite bitmap_get_set.
    case_decide as E1; [subst; by rewrite Z.eqb_refl|by rewrite (proj2 (Z.eqb_neq s t))]. }
  eapply body_quarantine_bits; try done.
  - apply set_quarantine_slot_wf; [lia|apply (hi_wf _ _ _ _ _ _ Hh)].
  - intros t. rewrite Hbit. case_decide as E1; [by subst t|apply (hi_quar _ _ _ _ _ _ Hh i)].
  - pose proof (quarantined_bit class c i s d' true Hg Hi Hs' Hbit) as Hq.
    destruct (cb_quarantine _ _ _ _ _ _ Hb) as [Hc Hinj _ Hcomp].
    assert (Hno : ~ quarantined c (slot_address c i s)).
    { intros (j & t & _ & Ht & E1 & Hjt). destruct (slot_address_inj class c Hg i s j t Hs' Ht E1) as [<- <-]. congruence. }
    split; try done.
    + intros b k Hne. rewrite Hq. case_decide; [done|by apply Hc].
    + intros p [= <-]. rewrite Hq, decide_True by done. split; [done|]. intros b k E1. apply Hno.
      rewrite <- E1. apply (Hc b k). change (qcell c b k <> 0). change (qcell c b k = slot_address c i s) in E1.
      rewrite E1. destruct (cb_metadata _ _ _ _ _ _ Hb) as [_ Hma _ _]. unfold slab_limit in Hi.
      destruct (slot_address_bound class c Hg i s ltac:(lia) Hs'). destruct Hg. lia.
    + intros p. rewrite Hq. case_decide as E1; [right; by subst|]. intros [?|]%Hcomp; [by left|done].
Qed.

(** The slot that leaves. *)
Lemma quarantine_leave class c P E F p :
  SLAB_QUARANTINE = true -> class_body class c P E F (Some p) ->
  exists i s, p = slot_address c i s /\ 0 <= i < slab_limit c /\ 0 <= s < slots c /\
    is_used_slot (slab_info c).[i] s = true /\ is_quarantine_slot (slab_info c).[i] s = true /\
    class_body class (set_slab_info (slab_info c).[i <- clear_quarantine_slot (slab_info c).[i] s] c) P E F None.
Proof.
  intros Hsq Hb. pose proof (cb_geometry _ _ _ _ _ _ Hb) as Hg. pose proof (cb_heap _ _ _ _ _ _ Hb) as Hh.
  destruct (cb_quarantine _ _ _ _ _ _ Hb) as [Hc Hinj Hpend Hcomp].
  destruct (Hpend p eq_refl) as [(i & s & Hi & Hs & Ep & Hqs) Hnp]. exists i, s.
  pose proof (hi_quar _ _ _ _ _ _ Hh i s Hqs) as Hu. cbn in Hu.
  repeat (split; [done|]). set (d' := clear_quarantine_slot (slab_info c).[i] s).
  assert (Hbit : forall t, is_quarantine_slot d' t = if decide (s = t) then false else is_quarantine_slot (slab_info c).[i] t).
  { intros t. unfold d', is_quarantine_slot. cbn [quarantine_bitmap clear_quarantine_slot]. rewrite bitmap_get_clear.
    case_decide as E1; [subst; by rewrite Z.eqb_refl|by rewrite (proj2 (Z.eqb_neq s t))]. }
  eapply body_quarantine_bits; try done.
  - apply clear_quarantine_slot_wf, (hi_wf _ _ _ _ _ _ Hh).
  - intros t. rewrite Hbit. case_decide; [done|apply (hi_quar _ _ _ _ _ _ Hh i)].
  - pose proof (quarantined_bit class c i s d' false Hg Hi Hs Hbit) as Hq.
    split; try done.
    + intros b k Hne. rewrite Hq. case_decide as E1; [|by apply Hc].
      exfalso. apply (Hnp b k). change (qcell c b k = p). rewrite Ep. exact E1.
    + intros q. rewrite Hq. case_decide as E1; [done|]. intros [?|[= <-]]%Hcomp; [by left|by destruct E1].
Qed.
End Quarantine.
