(* ===== verification/SlabRelease.v ===== *)
(** Giving a slot back: the last part of [deallocate_small], which relists the
    slab, and caches or purges a slab that became empty. *)

From S2P Require Import Prelude Config Util Libdivide SizeClass Kernel RandomSource SlabMeta Slab SlabLists SlabHeap SlabInv SlabRegion SlabAlloc SlabQuarantine.

Section Release.
Context {Cfg : Config} {Cok : ConfigOk Cfg} {K : Kernel} {Kok : KernelOk K} {R : Type}.
Context `{!RandomSource R} `{!RandomSourceOk R}.
Implicit Types (c : size_class R) (w : world).

(** At most the memory of slab [i] changed, to zero, and only if no slot of the
    slab is used any more. *)
Definition slab_memory c c' (i : Z) w w' : Prop :=
  mem w' = mem w \/
  let slab := class_region_start c + i * slab_size c in
  zero_in slab (slab_size c) (mem w') /\ same_outside slab (slab_size c) (mem w) (mem w') /\
  forall t, 0 <= t -> is_used_slot (slab_info c').[i] t = false.

Definition retire_post class c w i (s' : size_class R * world) : Prop :=
  static_eq c (fst s') /\ slots_unchanged c (fst s') /\
  (exists P E F, class_inv class (fst s') P E F) /\ slab_memory c (fst s') i w (snd s').

(** ** Empty slabs *)

Lemma unlisted_unused class c P E F i t :
  class_body class c P E F None -> unlisted (slab_limit c) (heap_of c) P E F i -> 0 <= t ->
  is_used_slot (slab_info c).[i] t = false.
Proof.
  intros Hb Hu Ht. apply not_true_iff_false. intros Hused. pose proof (cb_heap _ _ _ _ _ _ Hb) as Hh.
  pose proof (gf_slots _ (slab_geometry_facts class c (cb_geometry _ _ _ _ _ _ Hb))) as Hn.
  pose proof (ul_count _ _ _ _ _ _ Hu) as Hc. cbn in Hc.
  pose proof (used_count (slots c) _ t ltac:(lia) (hi_wf _ _ _ _ _ _ Hh i) Ht Hused). cbn in *. lia.
Qed.

Lemma set_next_unchanged c c' i x :
  slab_info c' = (slab_info c).[i <- set_next x (slab_info c).[i]] -> slots_unchanged c c'.
Proof. intros E j t _. rewrite E. apply set_next_slots. Qed.

Lemma wp_cache_slab class c w P E F i (Eh : halt -> Prop) :
  class_body class c P E F None -> unlisted (slab_limit c) (heap_of c) P E F i ->
  wp (cache_slab i (slab_size c))
     (fun _ s' => static_eq c (fst s') /\ slots_unchanged c (fst s') /\
        (exists P E F, class_inv class (fst s') P E F) /\ snd s' = w) Eh (c, w).
Proof.
  intros Hb Hu. pose proof (cb_geometry _ _ _ _ _ _ Hb) as Hg.
  pose proof (slab_geometry_facts class c Hg) as Hgf. pose proof (gf_slots _ Hgf) as Hn.
  pose proof (heap_push_empty (slots c) (slab_limit c) Hn (heap_of c) P E F i (cb_heap _ _ _ _ _ _ Hb) Hu) as Hh'.
  pose proof (empty_total_bound _ _ _ _ _ _ Hb) as Htot. pose proof (@class_region_bound Cfg Cok) as Hcrb.
  pose proof (gf_slab _ Hgf) as Hslab. pose proof (gf_size _ Hgf) as Hsz.
  assert (Hslab0 : 0 <= slab_size c) by nia.
  assert (Etot : u64 (empty_slabs_total c + slab_size c) = Z.of_nat (length (i :: E)) * slab_size c).
  { rewrite (cb_total _ _ _ _ _ _ Hb). cbn [length]. rewrite Nat2Z.inj_succ.
    rewrite wrap_small; [lia|]. split; lia. }
  unfold cache_slab. repeat sc_step. rewrite Etot.
  split; [done|]. split; [by eapply set_next_unchanged|]. split; [|done]. exists P, (i :: E), F.
  split; [done|]. pose proof (ul_known _ _ _ _ _ _ Hu) as Hk.
  eapply body_update; [exact Hb|done|done|apply Hb|exact Hh'|done| |].
  - intros j Hj. sc. rewrite aget_aset_ne; [done|]. intros ->. unfold slab_limit in Hk. lia.
  - intros j t _. sc. apply set_next_slots.
Qed.

(** [enqueue_free_slab] puts an unlisted slab in the free slab quarantine or at
    the end of the free list. *)
Lemma wp_append_free_slab class c w P E F i (Q : unit -> size_class R * world -> Prop) Eh :
  class_body class c P E F None -> unlisted (slab_limit c) (heap_of c) P E F i -> next (slab_info c).[i] = None ->
  (forall c', static_eq c c' -> slots_unchanged c c' -> class_body class c' P E (F ++ [i]) None -> Q tt (c', w)) ->
  wp (append_free_slab i) Q Eh (c, w).
Proof.
  intros Hb Hu Hnx HQ. pose proof (cb_geometry _ _ _ _ _ _ Hb) as Hg.
  pose proof (cb_heap _ _ _ _ _ _ Hb) as Hh.
  pose proof (gf_slots _ (slab_geometry_facts class c Hg)) as Hn.
  pose proof (heap_append (slots c) (slab_limit c) Hn (heap_of c) P E F i Hh Hu Hnx) as Hh'. cbn in Hh'.
  unfold append_free_slab. do 2 sc_step.
  destruct (free_slabs_tail c) as [tl|] eqn:Htl; repeat sc_step; apply HQ; try done.
  - by eapply set_next_unchanged.
  - eapply body_update; [exact Hb|done|done|apply Hb|exact Hh'|apply Hb| |].
    + intros j Hj. sc. rewrite aget_aset_ne; [done|]. intros ->.
      assert (Hin : j ∈ F).
      { pose proof (hi_free_tail _ _ _ _ _ _ Hh) as Hl. cbn in Hl. rewrite Htl in Hl. symmetry in Hl.
        by apply last_Some_elem_of in Hl. }
      pose proof (hi_known _ _ _ _ _ _ Hh j (or_intror (or_introl (proj2 (elem_of_app E F j) (or_intror Hin))))) as Hk.
      unfold slab_limit in Hk. lia.
    + intros j t _. sc. apply set_next_slots.
  - eapply body_update; [exact Hb|done|done|apply Hb|exact Hh'|apply Hb|done|done].
Qed.

(** Replacing a slab of the free slab quarantine by another. *)
Lemma heap_fsq_swap n lim g P E F i j k :
  heap_inv n lim g P E F -> unlisted lim g P E F i -> next (hp_meta g).[i] = None -> (hp_fsq g).[k] = Some j ->
  let g' := Heap (hp_meta g) (hp_partial g) (hp_empty g) (hp_head g) (hp_tail g) (hp_fsq g).[k <- Some i] in
  heap_inv n lim g' P E F /\ unlisted lim g' P E F j /\ next (hp_meta g').[j] = None.
Proof.
  intros Hh Hu Hnx Hcell g'. destruct (heap_fsq_take n lim g P E F j k Hh Hcell) as (Hh1 & Hu1 & Hnx1).
  cbv zeta in Hh1, Hu1, Hnx1. set (g1 := Heap _ _ _ _ _ _) in Hh1, Hu1, Hnx1.
  assert (Hij : j <> i) by (intros ->; by apply (ul_fsq _ _ _ _ _ _ Hu); exists k).
  assert (Hu1i : unlisted lim g1 P E F i).
  { destruct Hu as [? Hfs ? ?]. split; try done. intros [k' Hk']. apply Hfs. exists k'.
    cbn in Hk'. rewrite aget_aset_case in Hk'. by case_decide. }
  pose proof (heap_fsq_put n lim g1 P E F i k Hh1 Hu1i Hnx (aget_aset _ _ _)) as Hh2.
  cbn in Hh2. rewrite aset_aset in Hh2. split; [exact Hh2|]. split; [|exact Hnx1].
  destruct Hu1 as [? Hfs ? ?]. split; try done. intros [k' Hk']. cbn in Hk'. rewrite aget_aset_case in Hk'.
  case_decide as Hkk; [congruence|]. apply Hfs. exists k'. cbn. by rewrite aget_aset_ne.
Qed.

Lemma wp_enqueue_free_slab class c w P E F i (Q : unit -> size_class R * world -> Prop) :
  class_body class c P E F None -> unlisted (slab_limit c) (heap_of c) P E F i ->
  (forall c' w' F', static_eq c c' -> slots_unchanged c c' -> mem w' = mem w -> class_body class c' P E F' None ->
     Q tt (c', w')) ->
  wp (enqueue_free_slab i) Q system_halts (c, w).
Proof.
  intros Hb Hu HQ. pose proof (cb_geometry _ _ _ _ _ _ Hb) as Hg.
  pose proof (gf_slots _ (slab_geometry_facts class c Hg)) as Hn. pose proof (ul_known _ _ _ _ _ _ Hu) as Hk.
  destruct (heap_clear_next (slots c) (slab_limit c) Hn (heap_of c) P E F i (cb_heap _ _ _ _ _ _ Hb) Hu)
    as (Hh1 & Hu1 & Hnx1).
  set (c1 := set_slab_info (slab_info c).[i <- set_next None (slab_info c).[i]] c).
  assert (Hun1 : slots_unchanged c c1) by (by eapply set_next_unchanged).
  assert (Hb1 : class_body class c1 P E F None).
  { eapply body_update; [exact Hb|done|done|apply Hb|exact Hh1|apply Hb| |].
    - intros j Hj. unfold c1. sc. rewrite aget_aset_ne; [done|]. intros ->. unfold slab_limit in Hk. lia.
    - intros j t Ht. by apply Hun1. }
  unfold enqueue_free_slab. do 2 sc_step. fold c1.
  destruct (negb (FREE_SLABS_QUARANTINE_RANDOM_LENGTH =? 0)) eqn:Hlen.
  2: { apply (wp_append_free_slab class c1 w P E F i); [done|exact Hu1|exact Hnx1|].
       intros c' Hst Hun Hb'. apply (HQ c' w (F ++ [i])); [by destruct Hst| |done|done].
       intros j t Ht. destruct (Hun j t Ht) as [-> ->]. by apply Hun1. }
  apply negb_true_iff, Z.eqb_neq in Hlen. pose proof (cb_fsq config_facts) as Hfl.
  apply wp_bind, wp_with_rng. eapply (wp_mono _ _ _ random_halts); [apply u16_uniform_ok; [apply Hb|lia]| |by left].
  intros k [r w1] (_ & Hr & Hw1). cbn [fst snd] in Hr, Hw1. do 4 sc_step. unfold c1. sc. fold c1.
  destruct ((free_slabs_quarantine c).[k]) as [j|] eqn:Hcell.
  - destruct (heap_fsq_swap _ _ (heap_of c1) P E F i j k Hh1 Hu1 Hnx1 Hcell) as (Hh2 & Hu2 & Hnx2).
    eapply (wp_append_free_slab class _ w1 P E F j).
    + eapply body_update; [exact Hb1|done|done|exact Hr|exact Hh2|apply Hb1|done|done].
    + exact Hu2.
    + exact Hnx2.
    + intros c' Hst Hun Hb'. apply (HQ c' w1 (F ++ [j])); [by destruct Hst| |done|done].
      intros j' t Ht. destruct (Hun j' t Ht) as [-> ->]. by apply Hun1.
  - apply wp_ret, (HQ _ w1 F); [done| |done|].
    + intros j t Ht. by apply Hun1.
    + eapply body_update; [exact Hb1|done|done|exact Hr| |apply Hb1|done|done].
      by apply (heap_fsq_put _ _ (heap_of c1) P E F i k Hh1 Hu1 Hnx1).
Qed.

Lemma class_body_inv class c P E F : class_body class c P E F None -> class_inv class (set_lock false c) P E F.
Proof. intros Hb. split; [done|]. eapply core_eq_body; [apply core_eq_lock|done]. Qed.

Lemma wp_retire_slab class c w P E F i :
  class_body class c P E F None -> unlisted (slab_limit c) (heap_of c) P E F i ->
  wp (retire_slab class i (slab_size c)) (fun _ => retire_post class c w i) system_halts (c, w).
Proof.
  intros Hb Hu. pose proof (cb_geometry _ _ _ _ _ _ Hb) as Hg.
  pose proof (slab_geometry_facts class c Hg) as Hgf. pose proof (ul_known _ _ _ _ _ _ Hu) as Hk.
  destruct (cb_metadata _ _ _ _ _ _ Hb) as [_ Hma _ _].
  assert (Himax : 0 <= i < get_metadata_max (slab_size c)) by (unfold slab_limit in Hk; lia).
  assert (Hn : 0 < slab_size c <= 2 ^ 63) by (destruct Hgf; split; nia).
  assert (Hcache : forall w', slab_memory c c i w w' ->
    wp (cache_slab i (slab_size c)) (fun _ => retire_post class c w i) system_halts (c, w')).
  { intros w' Hm. eapply wp_conseq; [by apply (wp_cache_slab class c w' P E F)|].
    intros _ [c' w2] (Hst & Hun & Hinv & Hw2). cbn [fst snd] in *. subst w2.
    split; [done|]. split; [done|]. split; [done|]. destruct Hm as [Hm|(Hz & Ho & _)]; [by left|right].
    cbv zeta. split; [done|]. split; [done|]. intros t Ht. cbn [fst]. destruct (Hun i t Ht) as [-> _].
    by apply (unlisted_unused class c P E F). }
  assert (Hunused : forall t, 0 <= t -> is_used_slot (slab_info c).[i] t = false)
    by (intros t Ht; by apply (unlisted_unused class c P E F)).
  unfold retire_slab. do 2 sc_step. rewrite (get_slab_eq class c Hg i Himax).
  sc_step; [|apply Hcache; by left].
  apply wp_bind, wp_on_world, wp_gets. cbn [fst snd].
  apply wp_bind, wp_on_world. cbn [fst snd].
  eapply (wp_mono _ _ _ memory_fatal); [by apply wp_memory_map_fixed_prot| |by right].
  intros mapfail w1 Hcl. destruct mapfail; cbn [cleared negb] in *.
  - destruct Hcl as [Hw1 _]. apply wp_bind, wp_on_world. cbn [fst snd].
    eapply (wp_mono _ _ _ memory_fatal); [by apply wp_memory_purge| |by right].
    intros purgefail w2 Hp. apply wp_bind, wp_on_world. unfold set_errno. apply wp_modify. cbn [fst snd].
    apply Hcache. destruct purgefail; cbn [cleared] in Hp.
    + destruct Hp as [Hp _]. left. cbn. congruence.
    + right. cbv zeta. rewrite Hw1 in Hp. by destruct Hp.
  - apply wp_bind, wp_on_world. cbn [fst snd]. unfold label_slab. apply wp_bind.
    eapply wp_conseq; [apply wp_memory_set_name|]. intros b w2 Hw2. cbn beta in Hw2. apply wp_ret.
    apply wp_bind, wp_stats_slab_deallocate. intros c1 Hc1 _. cbn [fst snd].
    assert (Hb1 : class_body class c1 P E F None) by by eapply core_eq_body.
    apply wp_bind, (wp_enqueue_free_slab class c1 w2 P E F i); [done| |].
    { destruct Hu as [? Hfs Hc0 ?]. split; [done| | |].
      - unfold in_fsq, heap_of in *. cbn in *. by rewrite (ce_fsq _ _ Hc1).
      - cbn in *. by rewrite (ce_info _ _ Hc1).
      - unfold slab_limit in *. by rewrite (ce_ma _ _ Hc1), (ce_mc _ _ Hc1). }
    intros c2 w3 F' Hst Hun Hw3 Hb2. sc_step. sc_step.
    assert (Hpost : forall w4, mem w4 = mem w3 -> retire_post class c w i (set_lock false c2, w4)).
    { intros w4 Hw4. split; [destruct Hst, Hc1; split; cbn; congruence|]. split.
      - intros j t Ht. cbn. destruct (Hun j t Ht) as [-> ->]. by rewrite (ce_info _ _ Hc1).
      - split; [exists P, E, F'; by apply class_body_inv|]. right. cbv zeta. cbn [fst snd].
        rewrite Hw4, Hw3, Hw2. destruct Hcl as [Hz Ho]. split; [done|]. split; [done|].
        intros t Ht. cbn. destruct (Hun i t Ht) as [-> _]. rewrite (ce_info _ _ Hc1). by apply Hunused. }
    sc_step; [|by apply wp_ret, Hpost]. apply wp_on_world. unfold set_errno. apply wp_modify. by apply Hpost.
Qed.

(** ** The slot *)

(** The only change to the slots is that slot [s] of slab [i] is free. *)
Definition released c c' (i s : Z) : Prop :=
  forall j t, 0 <= t ->
    is_used_slot (slab_info c').[j] t = is_used_slot (slab_info c).[j] t && negb ((i =? j) && (s =? t)) /\
    is_quarantine_slot (slab_info c').[j] t = is_quarantine_slot (slab_info c).[j] t.

Definition release_post class c w i s (s' : size_class R * world) : Prop :=
  static_eq c (fst s') /\ released c (fst s') i s /\
  (exists P E F, class_inv class (fst s') P E F) /\ slab_memory c (fst s') i w (snd s').

Lemma clear_used_facts n d s :
  n <= 256 -> 0 <= s < n -> is_used_slot d s = true -> is_quarantine_slot d s = false -> meta_wf n d ->
  (forall t, is_quarantine_slot d t = true -> is_used_slot d t = true) ->
  let d' := clear_used_slot d s in
  meta_wf n d' /\ count d' = count d - 1 /\ 0 < count d /\
  (forall t, is_quarantine_slot d' t = true -> is_used_slot d' t = true).
Proof.
  intros Hn Hs Hu Hnq Hwf Hq d'. destruct (clear_used_slot_wf n d s Hn Hs Hu Hwf) as (Hwf' & Hc & Hpos).
  split; [done|]. split; [done|]. split; [done|]. intros t Ht.
  assert (Hqt : is_quarantine_slot d t = true) by exact Ht.
  assert (Hut : is_used_slot d' t = negb (s =? t) && is_used_slot d t) by apply bitmap_get_clear.
  rewrite Hut, (Hq t Hqt). destruct (Z.eqb_spec s t); [by subst; congruence|done].
Qed.

Lemma released_from c c' i s :
  (forall j, j <> i -> same_slots (slab_info c).[j] (slab_info c').[j]) ->
  same_slots (clear_used_slot (slab_info c).[i] s) (slab_info c').[i] -> released c c' i s.
Proof.
  intros Hoth Hi j t Ht. destruct (decide (i = j)) as [<-|Hij].
  - rewrite Z.eqb_refl, (same_slots_used _ _ _ Hi), (same_slots_quarantine _ _ _ Hi). split; [|done].
    unfold is_used_slot. cbn. rewrite bitmap_get_clear. apply andb_comm.
  - rewrite (same_slots_used _ _ _ (Hoth j (not_eq_sym Hij))), (same_slots_quarantine _ _ _ (Hoth j (not_eq_sym Hij))).
    rewrite (proj2 (Z.eqb_neq i j)) by done. cbn. by rewrite andb_true_r.
Qed.

(** The invariant after the lists were brought up to date. *)
Lemma released_body class c c' i s P E F P' :
  class_body class c P E F None -> static_eq c c' -> limits_eq c c' -> rng c' = rng c ->
  empty_slabs_total c' = empty_slabs_total c -> 0 <= i < slab_limit c ->
  (forall j, j <> i -> same_slots (slab_info c).[j] (slab_info c').[j]) ->
  same_slots (clear_used_slot (slab_info c).[i] s) (slab_info c').[i] ->
  (forall j, metadata_count c <= j -> (slab_info c').[j] = (slab_info c).[j]) ->
  heap_inv (slots c) (slab_limit c) (heap_of c') P' E F ->
  class_body class c' P' E F None /\ released c c' i s.
Proof.
  intros Hb Hst Hlim Hr Htot Hi Hoth Hsame Hfresh Hh.
  assert (Hrel : released c c' i s) by by apply released_from.
  split; [|done]. eapply body_update; try done.
  - rewrite Hr. apply Hb.
  - rewrite Htot. by apply Hb.
  - intros j t Ht. by apply Hrel.
Qed.

(** A slab that still has used slots. *)
Lemma release_post_busy class c c' w i s P E F :
  static_eq c c' -> class_body class c' P E F None /\ released c c' i s ->
  release_post class c w i s (set_lock false c', w).
Proof.
  intros Hst [Hb Hrel]. split; [by destruct Hst|]. split; [done|]. split; [|by left].
  exists P, E, F. by apply class_body_inv.
Qed.

(** A slab that is empty is retired. *)
Lemma wp_release_empty class c c' w i s P E F :
  static_eq c c' -> class_body class c' P E F None /\ released c c' i s ->
  unlisted (slab_limit c') (heap_of c') P E F i ->
  wp (retire_slab class i (slab_size c)) (fun _ => release_post class c w i s) system_halts (c', w).
Proof.
  intros Hst [Hb Hrel] Hu. rewrite <- (se_slab_size _ _ Hst).
  eapply wp_conseq; [by apply (wp_retire_slab class c' w P E F)|].
  intros _ [c2 w2] (Hst2 & Hun & Hinv & Hmem). split; [destruct Hst, Hst2; split; congruence|]. split; [|split; [done|]].
  - intros j t Ht. cbn [fst] in *. destruct (Hun j t Ht) as [-> ->]. by apply Hrel.
  - destruct Hmem as [|Hmem]; [by left|right]. by rewrite (se_start _ _ Hst), (se_slab_size _ _ Hst) in Hmem.
Qed.

(** Putting a full slab at the head of the partial list and freeing a slot. *)
Definition pushed c i s : size_class R :=
  let h := (slab_info c).[i <- set_prev None (set_next (partial_slabs c) (slab_info c).[i])] in
  let h := match partial_slabs c with
           | Some hd => h.[hd <- set_prev (Some i) (slab_info c).[hd]]
           | None => h
           end in
  set_slab_info h.[i <- clear_used_slot (set_prev None (set_next (partial_slabs c) (slab_info c).[i])) s]
    (set_partial_slabs (Some i) c).

Lemma wp_push_partial class c w P E F i s (Q : unit -> size_class R * world -> Prop) Eh :
  class_body class c P E F None -> count (slab_info c).[i] = slots c ->
  Q tt (pushed c i s, w) ->
  wp (push_partial i ;;; update_meta i (fun d => clear_used_slot d s)) Q Eh (c, w).
Proof.
  intros Hb Hfull HQ. pose proof (cb_heap _ _ _ _ _ _ Hb) as Hh.
  pose proof (gf_slots _ (slab_geometry_facts class c (cb_geometry _ _ _ _ _ _ Hb))) as Hn.
  pose proof (hi_partial_head _ _ _ _ _ _ Hh) as Hhd. cbn in Hhd.
  assert (Hne : forall hd, partial_slabs c = Some hd -> hd <> i).
  { intros hd E1 ->. rewrite E1 in Hhd. assert (Hin : i ∈ P) by (destruct P; [done|]; injection Hhd as ->; apply list_elem_of_here).
    apply (hi_partial _ _ _ _ _ _ Hh) in Hin. cbn in Hin. lia. }
  unfold push_partial, pushed in *. cbv zeta in HQ.
  destruct (partial_slabs c) as [hd|] eqn:Hp; repeat sc_step; rewrite Hp; repeat sc_step;
    autorewrite with arrays in *; [|exact HQ].
  specialize (Hne hd eq_refl).
  rewrite !(aget_aset_ne _ i hd), !(aget_aset_ne _ hd i), aget_aset by congruence. exact HQ.
Qed.

Lemma wp_regroup {A B D S} (m : M S A) (m2 : A -> M S B) (k : B -> M S D) (Q : D -> S -> Prop) E s :
  wp (bind m m2) (fun b s' => wp (k b) Q E s') E s -> wp (bind m (fun a => bind (m2 a) k)) Q E s.
Proof. unfold wp, bind. destruct (m s) as [a s1|]; [|done]. by destruct (m2 a s1). Qed.

(** The arrays of [pushed]. *)
Lemma pushed_info class c P E F i s :
  class_body class c P E F None -> count (slab_info c).[i] = slots c ->
  (slab_info (pushed c i s)).[i] = clear_used_slot (set_prev None (set_next (partial_slabs c) (slab_info c).[i])) s /\
  forall j, j <> i -> (slab_info (pushed c i s)).[j] =
    if decide (partial_slabs c = Some j) then set_prev (Some i) (slab_info c).[j] else (slab_info c).[j].
Proof.
  intros Hb Hfull. unfold pushed. sc. rewrite aget_aset. split; [done|]. intros j Hj.
  rewrite aget_aset_ne by done. destruct (partial_slabs c) as [hd|] eqn:Hp.
  - rewrite aget_aset_case. repeat case_decide; try congruence. by rewrite aget_aset_ne.
  - rewrite aget_aset_ne by done. done.
Qed.

(** A full slab with several slots. *)
Lemma wp_release_full class c w P E F i s :
  class_body class c P E F None -> 0 <= s -> live c i s = true ->
  count (slab_info c).[i] = slots c -> 1 < slots c ->
  wp (release_slot class i s (slots c) (slab_size c)) (fun _ => release_post class c w i s) system_halts (c, w).
Proof.
  intros Hb Hs Hl Hfull Hn1. unfold live in Hl. apply andb_true_iff in Hl as [Hu Hnq%negb_true_iff].
  destruct (used_known class c P E F None i s Hb Hs Hu) as [Hi Hs'].
  pose proof (cb_heap _ _ _ _ _ _ Hb) as Hh.
  pose proof (gf_slots _ (slab_geometry_facts class c (cb_geometry _ _ _ _ _ _ Hb))) as Hn.
  destruct (pushed_info class c P E F i s Hb Hfull) as [Hpi Hpj].
  set (d1 := set_prev None (set_next (partial_slabs c) (slab_info c).[i])) in *.
  destruct (clear_used_facts (slots c) d1 s (proj2 Hn) Hs' Hu Hnq
    (same_slots_wf _ (slab_info c).[i] d1 ltac:(done) (hi_wf _ _ _ _ _ _ Hh i)) (hi_quar _ _ _ _ _ _ Hh i))
    as (Hwf' & Hc' & _ & Hq').
  change (count d1) with (count (slab_info c).[i]) in Hc'.
  unfold release_slot. do 2 sc_step. unfold has_free_slots. rewrite Hfull, Z.ltb_irrefl. cbn [negb].
  apply wp_regroup, (wp_push_partial class c w P E F); [done|done|]. do 2 sc_step. rewrite Hpi.
  unfold is_free_slab. rewrite Hc', Hfull, (proj2 (Z.eqb_neq _ _)) by lia.
  repeat sc_step.
  apply (release_post_busy class c (pushed c i s) w i s (i :: P) E F); [done|].
  eapply released_body; try done.
  - intros j Hj. rewrite Hpj by done. by case_decide.
  - by rewrite Hpi.
  - intros j Hj. assert (j <> i) by (intros ->; unfold slab_limit in Hi; lia). rewrite Hpj by done.
    case_decide as Hp; [|done]. pose proof (hi_partial_head _ _ _ _ _ _ Hh) as Hhd. cbn in Hhd. rewrite Hp in Hhd.
    assert (Hin : j ∈ P) by (destruct P; [done|]; injection Hhd as ->; apply list_elem_of_here).
    destruct (partial_apart _ _ _ _ _ _ _ Hh Hin) as (_ & _ & Hk). unfold slab_limit in Hk. lia.
  - apply (heap_release_full (slots c) (slab_limit c) Hn (heap_of c)) with (d' := clear_used_slot d1 s); try done.
    + lia.
    + intros j Hj. sc. rewrite Hpj by done. case_decide; done.
Qed.

(** The state after [unlink_partial]. *)
Definition unlinked c i : size_class R :=
  let d := (slab_info c).[i] in
  let c1 := match prev d with
            | Some pr => set_slab_info (slab_info c).[pr <- set_next (next d) (slab_info c).[pr]] c
            | None => set_partial_slabs (next d) c
            end in
  let c2 := match next d with
            | Some n => set_slab_info (slab_info c1).[n <- set_prev (prev d) (slab_info c1).[n]] c1
            | None => c1
            end in
  set_slab_info (slab_info c2).[i <- set_prev None (slab_info c2).[i]] c2.

Lemma wp_unlink_partial c w i (Q : unit -> size_class R * world -> Prop) Eh :
  Q tt (unlinked c i, w) -> wp (unlink_partial i) Q Eh (c, w).
Proof.
  intros HQ. unfold unlink_partial, unlinked in *. cbv zeta in HQ.
  do 3 sc_step. destruct (prev (slab_info c).[i]), (next (slab_info c).[i]); repeat sc_step; exact HQ.
Qed.

Lemma unlinked_info c i :
  let d := (slab_info c).[i] in
  prev d <> Some i -> next d <> Some i ->
  (slab_info (unlinked c i)).[i] = set_prev None d /\
  (forall j, j <> i -> same_slots (slab_info c).[j] (slab_info (unlinked c i)).[j] /\
     next (slab_info (unlinked c i)).[j] = (if decide (prev d = Some j) then next d else next (slab_info c).[j]) /\
     prev (slab_info (unlinked c i)).[j] = (if decide (next d = Some j) then prev d else prev (slab_info c).[j]) /\
     (prev d <> Some j -> next d <> Some j -> (slab_info (unlinked c i)).[j] = (slab_info c).[j])) /\
  heap_of (unlinked c i) = Heap (slab_info (unlinked c i))
    (match prev d with Some _ => partial_slabs c | None => next d end) (empty_slabs c) (free_slabs_head c)
    (free_slabs_tail c) (free_slabs_quarantine c) /\
  static_eq c (unlinked c i) /\ limits_eq c (unlinked c i) /\ rng (unlinked c i) = rng c /\
  empty_slabs_total (unlinked c i) = empty_slabs_total c.
Proof.
  intros d Hpi Hni. unfold unlinked. fold d. cbv zeta.
  destruct (prev d) as [a|] eqn:Hp, (next d) as [b|] eqn:Hn; sc;
    (split; [|split; [intros j Hj|done]]).
  - rewrite aget_aset, !aget_aset_ne by congruence. done.
  - rewrite (aget_aset_ne _ i j) by done. rewrite !aget_aset_case. repeat case_decide; subst; try done; congruence.
  - rewrite aget_aset, !aget_aset_ne by congruence. done.
  - rewrite (aget_aset_ne _ i j) by done. rewrite !aget_aset_case. repeat case_decide; subst; try done; congruence.
  - rewrite aget_aset, !aget_aset_ne by congruence. done.
  - rewrite (aget_aset_ne _ i j) by done. rewrite !aget_aset_case. repeat case_decide; subst; try done; congruence.
  - rewrite aget_aset. done.
  - rewrite (aget_aset_ne _ i j) by done. done.
Qed.

(** A slab with one slot. *)
Lemma wp_release_single class c w P E F i s :
  class_body class c P E F None -> 0 <= s -> live c i s = true -> slots c = 1 ->
  wp (release_slot class i s (slots c) (slab_size c)) (fun _ => release_post class c w i s) system_halts (c, w).
Proof.
  intros Hb Hs Hl Hone. unfold live in Hl. apply andb_true_iff in Hl as [Hu Hnq%negb_true_iff].
  destruct (used_known class c P E F None i s Hb Hs Hu) as [Hi Hs'].
  pose proof (cb_heap _ _ _ _ _ _ Hb) as Hh.
  pose proof (gf_slots _ (slab_geometry_facts class c (cb_geometry _ _ _ _ _ _ Hb))) as Hn.
  assert (Hfull : count (slab_info c).[i] = slots c).
  { pose proof (used_count (slots c) _ s ltac:(lia) (hi_wf _ _ _ _ _ _ Hh i) Hs Hu) as Hpos.
    pose proof (meta_wf_count (slots c) _ ltac:(lia) (hi_wf _ _ _ _ _ _ Hh i)). cbn in *. lia. }
  assert (Hpart : partial_slabs c = None).
  { pose proof (hi_partial_head _ _ _ _ _ _ Hh) as Hhd. cbn in Hhd. rewrite Hhd. destruct P as [|x P]; [done|].
    pose proof (proj1 (hi_partial _ _ _ _ _ _ Hh x) (list_elem_of_here x P)). lia. }
  destruct (pushed_info class c P E F i s Hb Hfull) as [Hpi Hpj]. rewrite Hpart in Hpi, Hpj.
  set (d1 := set_prev None (set_next None (slab_info c).[i])) in *.
  destruct (clear_used_facts (slots c) d1 s (proj2 Hn) Hs' Hu Hnq
    (same_slots_wf _ (slab_info c).[i] d1 ltac:(done) (hi_wf _ _ _ _ _ _ Hh i)) (hi_quar _ _ _ _ _ _ Hh i))
    as (Hwf' & Hc' & _ & Hq').
  change (count d1) with (count (slab_info c).[i]) in Hc'.
  unfold release_slot. do 2 sc_step. unfold has_free_slots. rewrite Hfull, Z.ltb_irrefl. cbn [negb].
  apply wp_regroup, (wp_push_partial class c w P E F); [done|done|]. do 2 sc_step. rewrite Hpi.
  unfold is_free_slab. rewrite Hc', Hfull, Hone. cbn [Z.sub Z.eqb].
  apply wp_bind, wp_unlink_partial. set (c1 := pushed c i s) in *.
  destruct (unlinked_info c1 i ltac:(by rewrite Hpi) ltac:(by rewrite Hpi))
    as (Hi2 & Hj2 & Hheap2 & Hst2 & Hlim2 & Hr2 & Ht2).
  rewrite Hpi in Hi2, Hheap2. cbn [prev next clear_used_slot d1 set_prev set_next] in Hheap2.
  set (c2 := unlinked c1 i) in *.
  assert (Hoth : forall j, j <> i -> (slab_info c2).[j] = (slab_info c).[j]).
  { intros j Hj. destruct (Hj2 j Hj) as (_ & _ & _ & ->); [by rewrite Hpj|by rewrite Hpi..]. }
  destruct (heap_release_single (slots c) (slab_limit c) (heap_of c) (heap_of c2) E F i P) as (-> & Hh2 & Hu2);
    try done; try (rewrite Hheap2; done); sc; rewrite ?Hi2; try done.
  { change (count (clear_used_slot d1 s) = 0). lia. }
  assert (Hst : static_eq c c2) by (by destruct Hst2; split).
  assert (Hlim : limits_eq c c2) by (by destruct Hlim2; split).
  apply (wp_release_empty class c c2 w i s [] E F); [done| |].
  - eapply released_body; try done.
    + intros j Hj. by rewrite Hoth.
    + by rewrite Hi2.
    + intros j Hj. apply Hoth. intros ->. unfold slab_limit in Hi. lia.
  - unfold slab_limit in *. by rewrite (le_ma _ _ Hlim), (le_mc _ _ Hlim).
Qed.

(** A partial slab. *)
Lemma wp_release_partial class c w P E F i s :
  class_body class c P E F None -> 0 <= s -> live c i s = true -> count (slab_info c).[i] < slots c ->
  wp (release_slot class i s (slots c) (slab_size c)) (fun _ => release_post class c w i s) system_halts (c, w).
Proof.
  intros Hb Hs Hl Hroom. unfold live in Hl. apply andb_true_iff in Hl as [Hu Hnq%negb_true_iff].
  destruct (used_known class c P E F None i s Hb Hs Hu) as [Hi Hs'].
  pose proof (cb_heap _ _ _ _ _ _ Hb) as Hh.
  pose proof (gf_slots _ (slab_geometry_facts class c (cb_geometry _ _ _ _ _ _ Hb))) as Hn.
  destruct (clear_used_facts (slots c) _ s (proj2 Hn) Hs' Hu Hnq (hi_wf _ _ _ _ _ _ Hh i) (hi_quar _ _ _ _ _ _ Hh i))
    as (Hwf' & Hc' & Hpos & Hq').
  cbn [heap_of hp_meta] in Hwf', Hc', Hpos, Hq'. set (d' := clear_used_slot (slab_info c).[i] s) in *.
  assert (Hin : i ∈ P) by (apply (hi_partial _ _ _ _ _ _ Hh); cbn; lia).
  assert (Hfresh : forall j, metadata_count c <= j -> j <> i) by (intros j Hj ->; unfold slab_limit in Hi; lia).
  set (c1 := set_slab_info (slab_info c).[i <- d'] c).
  unfold release_slot. do 2 sc_step. unfold has_free_slots. rewrite (proj2 (Z.ltb_lt _ _) Hroom). cbn [negb].
  do 6 sc_step. fold d' c1. rewrite aget_aset. unfold is_free_slab. rewrite Hc'.
  destruct (Z.eqb_spec (count (slab_info c).[i] - 1) 0) as [Hone|Hmany].
  - apply list_elem_of_split in Hin as (l1 & l2 & ->).
    pose proof (hi_nodup _ _ _ _ _ _ Hh) as Hnd. destruct (lists_disjoint _ _ _ Hnd) as (HP & _ & _ & HPd & _).
    destruct (dlinks_ends _ _ _ _ (hi_partial_links _ _ _ _ _ _ Hh)) as [Hpv Hnx]. cbn in Hpv, Hnx.
    assert (Hmem : forall j, j ∈ l1 ++ l2 -> j <> i /\ 0 <= j < slab_limit c).
    { intros j Hj. rewrite <- Permutation_middle in HP. apply NoDup_cons in HP as [Hni _]. split; [by intros ->|].
      destruct (partial_apart _ _ _ _ _ _ j Hh) as (_ & _ & ?); [|done].
      rewrite <- Permutation_middle. by apply list_elem_of_further. }
    assert (Hpvn : forall j, prev d' = Some j -> j <> i /\ 0 <= j < slab_limit c).
    { intros j Hj. change (prev d') with (prev (slab_info c).[i]) in Hj. apply Hmem. rewrite Hpv in Hj.
      apply elem_of_app. left. by apply last_Some_elem_of. }
    assert (Hnxn : forall j, next d' = Some j -> j <> i /\ 0 <= j < slab_limit c).
    { intros j Hj. change (next d') with (next (slab_info c).[i]) in Hj. apply Hmem. rewrite Hnx in Hj.
      apply elem_of_app. right. destruct l2; [done|]. injection Hj as ->. apply list_elem_of_here. }
    assert (Hi1 : (slab_info c1).[i] = d') by apply aget_aset.
    assert (Hj1 : forall j, j <> i -> (slab_info c1).[j] = (slab_info c).[j]) by (intros j Hj; by apply aget_aset_ne).
    apply wp_bind, wp_unlink_partial.
    destruct (unlinked_info c1 i) as (Hi2 & Hj2 & Hheap2 & Hst2 & Hlim2 & Hr2 & Ht2).
    { rewrite Hi1. by intros [? _]%Hpvn. }
    { rewrite Hi1. by intros [? _]%Hnxn. }
    rewrite Hi1 in Hi2, Hheap2, Hj2. set (c2 := unlinked c1 i) in *.
    assert (Hst : static_eq c c2) by (by destruct Hst2; split).
    assert (Hlim : limits_eq c c2) by (by destruct Hlim2; split).
    destruct (heap_release_last (slots c) (slab_limit c) Hn (heap_of c) (heap_of c2) l1 i l2 E F d') as [Hh2 Hu2];
      try done; try (rewrite Hheap2; done); sc; rewrite ?Hi2; try done; try lia.
    { intros j Hj. destruct (Hj2 j Hj) as (Hsame & Hnj & Hpj & _). by rewrite Hj1 in Hsame, Hnj, Hpj. }
    apply (wp_release_empty class c c2 w i s (l1 ++ l2) E F); [done| |].
    + eapply released_body; try done.
      * intros j Hj. destruct (Hj2 j Hj) as (Hsame & _). by rewrite Hj1 in Hsame.
      * by rewrite Hi2.
      * intros j Hj. destruct (Hj2 j (Hfresh j Hj)) as (_ & _ & _ & ->); [by apply Hj1, Hfresh|..].
        -- intros [_ Hjl]%Hpvn. unfold slab_limit in Hjl. lia.
        -- intros [_ Hjl]%Hnxn. unfold slab_limit in Hjl. lia.
    + unfold slab_limit in *. by rewrite (le_ma _ _ Hlim), (le_mc _ _ Hlim).
  - repeat sc_step. apply (release_post_busy class c c1 w i s P E F); [done|].
    eapply released_body; try done.
    + intros j Hj. unfold c1. sc. by rewrite aget_aset_ne.
    + unfold c1. sc. by rewrite aget_aset.
    + intros j Hj. unfold c1. sc. rewrite aget_aset_ne; [done|]. by apply not_eq_sym, Hfresh.
    + apply (heap_keep (slots c) (slab_limit c) (heap_of c)); try done. rewrite Hc'. cbn. lia.
Qed.

Lemma wp_release_slot class c w P E F i s :
  class_body class c P E F None -> 0 <= s -> live c i s = true ->
  wp (release_slot class i s (slots c) (slab_size c)) (fun _ => release_post class c w i s) system_halts (c, w).
Proof.
  intros Hb Hs Hl.
  pose proof (gf_slots _ (slab_geometry_facts class c (cb_geometry _ _ _ _ _ _ Hb))) as Hn.
  pose proof (meta_wf_count (slots c) _ ltac:(lia) (hi_wf _ _ _ _ _ _ (cb_heap _ _ _ _ _ _ Hb) i)) as Hc. cbn in Hc.
  destruct (decide (count (slab_info c).[i] < slots c)); [by apply (wp_release_partial class c w P E F)|].
  destruct (decide (slots c = 1)); [by apply (wp_release_single class c w P E F)|].
  apply (wp_release_full class c w P E F); try done; lia.
Qed.
End Release.
