(* ===== verification/SlabFree.v ===== *)
(** [deallocate_small]: the checks on the pointer, the erasure of the slot, the
    quarantine and the release. *)

From S2P Require Import Prelude Config Util Libdivide SizeClass Kernel RandomSource SlabMeta Slab SlabLists SlabHeap SlabInv SlabRegion SlabAlloc SlabQuarantine SlabRelease.

Section Free.
Context {Cfg : Config} {Cok : ConfigOk Cfg} {K : Kernel} {Kok : KernelOk K} {R : Type}.
Context `{!RandomSource R} `{!RandomSourceOk R}.
Implicit Types (c : size_class R) (w : world).

(** ** From an address to its slab and slot *)

(** The slab index that [get_metadata] computes. *)
Definition slab_index c (p : Z) : Z := u64 (p - class_region_start c) / slab_size c.

Lemma get_metadata_run class c w p :
  class_geometry class c -> fits 64 p ->
  get_metadata p (c, w) =
    if slab_index c p >=? metadata_allocated c
    then Halt (Fatal "invalid free within a slab yet to be used") else Ret (slab_index c p) (c, w).
Proof.
  intros Hg Hp. unfold get_metadata, slab_index. cbn.
  rewrite (proj2 (cg_slab_size_divisor _ _ Hg)) by by apply wrap_fits. by destruct (_ >=? _).
Qed.

(** The slot index in slab [i], and the address it stands for. *)
Definition slot_index c (i p : Z) : Z := (p - get_slab c (slab_size c) i) / size c.

Lemma slab_index_bounds class c p :
  class_geometry class c -> metadata_inv c -> fits 64 p -> slab_index c p < metadata_allocated c ->
  0 <= slab_index c p < get_metadata_max (slab_size c) /\
  get_slab c (slab_size c) (slab_index c p) <= p < get_slab c (slab_size c) (slab_index c p) + slab_size c.
Proof.
  intros Hg [_ Hma _ _] Hp Hlt. destruct (slab_geometry_facts class c Hg) as [Hn Hsz _ Hslab _ Hmax Hreg].
  pose proof (@class_region_bound Cfg Cok) as Hcrb.
  pose proof (wrap_fits 64 (p - class_region_start c) ltac:(lia)) as [Hw0 Hw1].
  assert (Hsl : 0 < slab_size c) by nia.
  assert (Hi : 0 <= slab_index c p < get_metadata_max (slab_size c))
    by (split; [apply Z.div_pos; lia|lia]).
  split; [done|]. rewrite (get_slab_eq class c Hg) by done.
  pose proof (Z.div_mod (u64 (p - class_region_start c)) (slab_size c) ltac:(lia)) as Hdm.
  pose proof (Z.mod_pos_bound (u64 (p - class_region_start c)) (slab_size c) Hsl) as Hmb.
  fold (slab_index c p) in Hdm. destruct Hp as [Hp0 Hp1], Hg.
  assert (Hoff : u64 (p - class_region_start c) = p - class_region_start c).
  { destruct (Z.lt_ge_cases p (class_region_start c)) as [Hlow|Hhigh]; [|apply wrap_small; split; lia].
    exfalso.
    assert (Hw : u64 (p - class_region_start c) = p - class_region_start c + 2 ^ 64).
    { unfold wrap. rewrite <- (Z_mod_plus_full _ 1). apply Z.mod_small. lia. }
    assert (slab_index c p * slab_size c + slab_size c <= CLASS_REGION_SIZE) by nia. lia. }
  lia.
Qed.

(** The 32-bit division of [deallocate_small] is exact on a slab offset. *)
Lemma slot_division class c i p :
  class_geometry class c -> get_slab c (slab_size c) i <= p < get_slab c (slab_size c) i + slab_size c ->
  libdivide_u32_do (u32 (p - get_slab c (slab_size c) i)) (size_divisor c) = slot_index c i p /\
  0 <= slot_index c i p.
Proof.
  intros Hg Hp. destruct (slab_geometry_facts class c Hg) as [Hn Hsz _ Hslab _ _ _].
  rewrite (wrap_small 32) by (split; lia). split; [|apply Z.div_pos; lia].
  apply (proj2 (cg_size_divisor _ _ Hg)). split; lia.
Qed.

(** An address that passes the alignment check. *)
Lemma aligned_slot class c i p :
  class_geometry class c -> 0 <= i < get_metadata_max (slab_size c) ->
  get_slab c (slab_size c) i <= p < get_slab c (slab_size c) i + slab_size c ->
  slot_pointer (size c) (get_slab c (slab_size c) i) (slot_index c i p) = p <->
  p = slot_address c i (slot_index c i p).
Proof.
  intros Hg Hi Hp. destruct (slab_geometry_facts class c Hg) as [Hn Hsz _ Hslab _ Hmax Hreg].
  pose proof (@class_region_bound Cfg Cok) as Hcrb. destruct (slab_offset_bound class c Hg i Hi).
  destruct (slot_division class c i p Hg Hp) as [_ Hs0].
  assert (Hle : slot_index c i p * size c <= p - get_slab c (slab_size c) i)
    by (rewrite Z.mul_comm; apply Z.mul_div_le; lia).
  unfold slot_pointer, slot_address. rewrite (get_slab_eq class c Hg i Hi) in *. destruct Hg.
  rewrite (wrap_small 64 (slot_index c i p * size c)) by (split; nia).
  rewrite wrap_small by (split; nia). split; intros; congruence.
Qed.

(** Computing on the address of a slot. *)
Lemma slot_of_address class c i s :
  class_geometry class c -> metadata_inv c -> 0 <= i < metadata_allocated c -> 0 <= s < slots c ->
  let p := slot_address c i s in
  fits 64 p /\ slab_index c p = i /\ slot_index c i p = s /\
  get_slab c (slab_size c) i <= p < get_slab c (slab_size c) i + slab_size c.
Proof.
  intros Hg [_ Hma _ _] Hi Hs p. destruct (slab_geometry_facts class c Hg) as [Hn Hsz _ Hslab _ Hmax Hreg].
  assert (Himax : 0 <= i < get_metadata_max (slab_size c)) by lia.
  destruct (slot_address_bound class c Hg i s Himax Hs). fold p in H, H0.
  destruct (slot_address_div class c Hg i s 0 Hs ltac:(lia)) as [E1 E2]. rewrite Z.add_0_r in E1, E2. fold p in E1, E2.
  destruct (slot_offset_bound class c Hg s Hs). pose proof (@class_region_bound Cfg Cok) as Hcrb.
  unfold slab_index, slot_index. rewrite (get_slab_eq class c Hg i Himax).
  split; [destruct Hg; split; lia|]. split; [|split; [done|]].
  - rewrite wrap_small; [done|]. split; lia.
  - unfold p, slot_address. lia.
Qed.

(** ** The checks *)

(** What [deallocate_small] must say about its argument: the message of the
    abort, or [None] for a live slot of the class with an intact canary. *)
Definition canary_intact c w (i p : Z) : bool :=
  negb SLAB_CANARY || (load64 (mem w) (p + size c - canary_size) =? canary_value (slab_info c).[i]).

Definition slot_verdict (is_zero : bool) c w (p : Z) : option string :=
  let i := slab_index c p in
  let s := slot_index c i p in
  if metadata_allocated c <=? i then Some "invalid free within a slab yet to be used"%string
  else if negb (p =? slot_address c i s) then Some "invalid unaligned free"%string
  else if negb (is_used_slot (slab_info c).[i] s) then Some "double free"%string
  else if negb is_zero && negb (canary_intact c w i p) then Some "canary corrupted"%string
  else None.

(** The first of two messages. *)
Definition or_else (a b : option string) : option string :=
  match a with Some _ => a | None => b end.

Definition free_verdict (class : Z) c w (p : Z) (expected : option Z) : option string :=
  let i := slab_index c p in
  or_else
    (match expected with
     | Some e => if e =? (if class =? 0 then 0 else size c) then None
                 else Some "sized deallocation mismatch (small)"%string
     | None => None
     end)
    (or_else (slot_verdict (class =? 0) c w p)
       (if is_quarantine_slot (slab_info c).[i] (slot_index c i p)
        then Some "double free (quarantine)"%string else None)).

(** Every byte is as before or zero. *)
Definition same_or_zero (mm mm' : gmap Z Z) : Prop := forall a, mm'.[a] = mm.[a] \/ mm'.[a] = 0.

(** Clearing the slot: at most its bytes before the canary change, to zero. *)
Definition cleared_slot c (is_zero : bool) p w w' : Prop :=
  only_changes p (size c - canary_size) (mem w) (mem w') /\ same_or_zero (mem w) (mem w') /\
  (ZERO_ON_FREE = true -> is_zero = false -> zero_in p (size c - canary_size) (mem w')).

Lemma wp_check_canary c w i p (Q : unit -> size_class R * world -> Prop) (Eh : halt -> Prop) :
  (canary_intact c w i p = true -> Q tt (c, w)) -> (canary_intact c w i p = false -> Eh (Fatal "canary corrupted")) ->
  wp (check_canary i p (size c)) Q Eh (c, w).
Proof.
  intros HQ HE. unfold check_canary, canary_intact in *. destruct SLAB_CANARY; [|by apply wp_ret, HQ].
  cbn [negb orb] in *. do 4 sc_step. destruct (_ =? _); cbn [negb]; [by apply wp_ret, HQ|by apply wp_fatal, HE].
Qed.

Lemma wp_check_and_clear class c w P E F p z :
  class_body class c P E F None -> fits 64 p ->
  wp (check_and_clear z p (size c) (slab_size c))
     (fun '(i, s) '(c', w') => slot_verdict z c w p = None /\ i = slab_index c p /\ s = slot_index c i p /\
        c' = c /\ p = slot_address c i s /\ 0 <= s /\
        is_used_slot (slab_info c).[i] s = true /\ cleared_slot c z p w w')
     (fun h => exists msg, slot_verdict z c w p = Some msg /\ h = Fatal msg) (c, w).
Proof.
  intros Hb Hp. pose proof (cb_geometry _ _ _ _ _ _ Hb) as Hg.
  set (Eh := fun h => exists msg, slot_verdict z c w p = Some msg /\ h = Fatal msg).
  assert (Hmsg : forall msg, slot_verdict z c w p = Some msg -> Eh (Fatal msg)) by (intros msg Hm; by exists msg).
  clearbody Eh. unfold slot_verdict in *.
  unfold check_and_clear.
  apply wp_bind. unfold wp at 1. rewrite (get_metadata_run class c w p Hg Hp), Z.geb_leb.
  destruct (metadata_allocated c <=? slab_index c p) eqn:Hused; [by apply Hmsg|]. apply Z.leb_gt in Hused.
  destruct (slab_index_bounds class c p Hg (cb_metadata _ _ _ _ _ _ Hb) Hp Hused) as [Hi Hslab].
  set (i := slab_index c p) in *. destruct (slot_division class c i p Hg Hslab) as [Hdiv Hs].
  do 2 sc_step. rewrite Hdiv. set (s := slot_index c i p) in *.
  pose proof (aligned_slot class c i p Hg Hi Hslab) as Hal. fold s in Hal.
  destruct (Z.eqb_spec (slot_pointer (size c) (get_slab c (slab_size c) i) s) p) as [Hsp|Hsp]; cbn [negb].
  2: { apply wp_fatal, Hmsg. destruct (Z.eqb_spec p (slot_address c i s)) as [Hpa|]; [|done]. by apply Hal in Hpa. }
  apply Hal in Hsp. rewrite (proj2 (Z.eqb_eq _ _) Hsp) in *. cbn [negb] in *.
  do 2 sc_step. destruct (is_used_slot (slab_info c).[i] s) eqn:Hu; cbn [negb] in *; [|by apply wp_fatal, Hmsg].
  sc_step. destruct z; cbn [negb andb] in *.
  { repeat wp_step. assert (Hnone : cleared_slot c true p w w) by (split; [by intros a _|split; [by left|by intros _ ?]]).
    do 7 (split; [done|]). exact Hnone. }
  apply wp_bind, wp_check_canary.
  - intros ->. cbn [negb].
    eapply (wp_conseq _ (fun _ s' => fst s' = c /\ cleared_slot c false p w (snd s'))).
    + destruct ZERO_ON_FREE eqn:Hz.
      * do 2 sc_step. apply wp_on_world. unfold set_mem. wp_step. cbn. split; [done|].
        split; [apply memset0_only|]. split; [|intros _ _; apply memset0_zero]. intros a.
        destruct (decide (p <= a < p + (size c - canary_size))) as [Hin|Hout]; [by right; apply memset0_zero|left].
        apply memset0_only. lia.
      * apply wp_ret. split; [done|]. split; [by intros a _|]. split; [by left|]. by rewrite Hz.
    + intros _ [c' w'] [Hc' Hcl]. cbn [fst snd] in *. apply wp_ret. by repeat (split; [done|]).
  - intros Hci. apply Hmsg. by rewrite Hci.
Qed.

(** ** The whole deallocation *)

(** The memory of the slots that stay live and everything outside the class
    region are untouched, and changes are to zero. *)
Definition live_memory c c' w w' : Prop :=
  (forall j t a, 0 <= t -> live c' j t = true ->
     slot_address c j t <= a < slot_address c j t + size c -> (mem w').[a] = (mem w).[a]) /\
  only_changes (class_region_start c) CLASS_REGION_SIZE (mem w) (mem w') /\ same_or_zero (mem w) (mem w').

Definition free_post class c w p (s' : size_class R * world) : Prop :=
  exists i s, p = slot_address c i s /\ 0 <= s < slots c /\ live c i s = true /\
    static_eq c (fst s') /\ (exists P E F, class_inv class (fst s') P E F) /\
    (forall j t, 0 <= t -> live (fst s') j t = live c j t && negb ((i =? j) && (s =? t))) /\
    (SLAB_QUARANTINE = false -> is_used_slot (slab_info (fst s')).[i] s = false) /\
    live_memory c (fst s') w (snd s') /\
    (ZERO_ON_FREE = true -> class <> 0 -> zero_in p (size c - canary_size) (mem (snd s'))).

Lemma page_align_multiple n : 0 < n <= 2 ^ 63 -> (PAGE_SIZE | n) -> page_align n = n.
Proof.
  intros Hn [k Hk]. destruct (page_align_spec n) as [? [[j Hj] _]]; rewrite ?PAGE_SIZE_eq in *; lia.
Qed.

Lemma known_max class c P E F pend i :
  class_body class c P E F pend -> 0 <= i < slab_limit c -> 0 <= i < get_metadata_max (slab_size c).
Proof. intros Hb Hi. destruct (cb_metadata _ _ _ _ _ _ Hb). unfold slab_limit in Hi. lia. Qed.

(** Clearing one slot and purging one slab leave the other live slots alone and
    the freed slot zero. *)
Lemma freed_memory class c c' w w1 w2 P E F i s k z :
  class_body class c' P E F None -> static_eq c c' -> class_geometry class c ->
  0 <= s < slots c -> live c' i s = false -> 0 <= i < get_metadata_max (slab_size c) -> 0 <= k < get_metadata_max (slab_size c) ->
  cleared_slot c z (slot_address c i s) w w1 -> slab_memory c c' k w1 w2 ->
  live_memory c c' w w2 /\
  (ZERO_ON_FREE = true -> z = false -> zero_in (slot_address c i s) (size c - canary_size) (mem w2)).
Proof.
  intros Hb Hst Hg Hs Hdead Himax Hkmax (Honly & Hsz & Hzero) Hslab. pose proof (slab_geometry_facts class c Hg) as Hgf.
  assert (Hcan : 0 <= canary_size) by (destruct canary_size_bounds; lia).
  assert (Hpa : page_align (slab_size c) = slab_size c).
  { destruct Hgf. apply page_align_multiple; [nia|done]. }
  unfold slab_memory, same_outside in Hslab. cbv zeta in Hslab. rewrite Hpa in Hslab.
  assert (Hin : forall j t, 0 <= t < slots c -> class_region_start c + j * slab_size c <= slot_address c j t /\
    slot_address c j t + size c <= class_region_start c + j * slab_size c + slab_size c).
  { intros j t Ht. destruct (slot_offset_bound class c Hg t Ht). unfold slot_address. lia. }
  assert (Hdisj : forall j, j <> k -> class_region_start c + j * slab_size c + slab_size c <= class_region_start c + k * slab_size c \/
    class_region_start c + k * slab_size c + slab_size c <= class_region_start c + j * slab_size c).
  { intros j Hj. destruct Hgf. destruct (Z.lt_total j k) as [|[|]]; [left; nia|done|right; nia]. }
  split; [split; [|split]|].
  - intros j t a Ht Hl Ha. pose proof Hl as Hl'. unfold live in Hl'. apply andb_true_iff in Hl' as [Hu _].
    destruct (used_known class c' P E F None j t Hb Ht Hu) as [Hj Ht']. rewrite (se_slots _ _ Hst) in Ht'.
    assert (H1 : (mem w1).[a] = (mem w).[a]).
    { apply Honly. assert (Hne : (i, s) <> (j, t)) by (intros [= -> ->]; congruence).
      destruct (decide (i = j)) as [->|Hij].
      - unfold slot_address in *. destruct Hgf. destruct (Z.lt_total s t) as [|[->|]]; [right; nia|done|left; nia].
      - destruct (Hin i s Hs), (Hin j t Ht'). destruct Hgf.
        destruct (Z.lt_total i j) as [|[|]]; [right; nia|done|left; nia]. }
    rewrite <- H1. destruct Hslab as [->|(_ & Ho & Hfree)]; [done|]. apply Ho.
    destruct (Hin j t Ht'). destruct (Hdisj j); [intros ->; by rewrite Hfree in Hu|lia|lia].
  - intros a Ha. destruct (slot_address_bound class c Hg i s Himax Hs). transitivity ((mem w1).[a]); [|apply Honly; lia].
    destruct (slab_offset_bound class c Hg k Hkmax). destruct Hslab as [->|(_ & Ho & _)]; [done|]. apply Ho. lia.
  - intros a. destruct Hslab as [->|(Hz2 & Ho & _)]; [apply Hsz|].
    destruct (decide (class_region_start c + k * slab_size c <= a < class_region_start c + k * slab_size c + slab_size c));
      [right; by apply Hz2|]. rewrite Ho by lia. apply Hsz.
  - intros Hz Hzf. specialize (Hzero Hz Hzf). destruct Hslab as [->|(Hz2 & Ho & _)]; [done|].
    intros a Ha. destruct (Hin i s Hs). destruct (decide (i = k)) as [->|Hik].
    + apply Hz2. lia.
    + rewrite Ho by (destruct (Hdisj i Hik); lia). by apply Hzero.
Qed.

(** Without quarantine: release the slot itself. *)
Lemma wp_free_direct class c w w1 P E F i s z :
  class_body class c P E F None -> 0 <= s -> live c i s = true -> SLAB_QUARANTINE = false ->
  is_quarantine_slot (slab_info c).[i] s = false ->
  z = (class =? 0) -> cleared_slot c z (slot_address c i s) w w1 ->
  wp (release_slot class i s (slots c) (slab_size c)) (fun _ => free_post class c w (slot_address c i s))
     system_halts (c, w1).
Proof.
  intros Hb Hs Hl Hnq Hq -> Hcl. pose proof (cb_geometry _ _ _ _ _ _ Hb) as Hg.
  pose proof Hl as Hl'. unfold live in Hl'. apply andb_true_iff in Hl' as [Hu _].
  destruct (used_known class c P E F None i s Hb Hs Hu) as [Hk Hs'].
  pose proof (known_max class c P E F None i Hb Hk) as Himax.
  eapply wp_mono; [by apply (wp_release_slot class c w1 P E F)| |done].
  intros _ [c' w2] (Hst & Hrel & (P' & E' & F' & Hinv) & Hmem). cbn [fst snd] in *.
  assert (Hlive : forall j t, 0 <= t -> live c' j t = live c j t && negb ((i =? j) && (s =? t))).
  { intros j t Ht. unfold live. destruct (Hrel j t Ht) as [-> ->].
    destruct (is_used_slot _ t), (is_quarantine_slot _ t), ((i =? j) && (s =? t)); done. }
  destruct (freed_memory class c c' w w1 w2 P' E' F' i s i (class =? 0) (proj2 Hinv) Hst Hg Hs') as [Hm Hz]; try done.
  { rewrite Hlive by done. rewrite !Z.eqb_refl. apply andb_false_r. }
  exists i, s. split; [done|]. split; [done|]. split; [done|]. split; [done|]. split; [by exists P', E', F'|].
  split; [done|]. split; [|split; [done|]].
  - intros _. cbn [fst]. destruct (Hrel i s Hs) as [-> _]. rewrite !Z.eqb_refl. apply andb_false_r.
  - intros Hzf Hc0. apply Hz; [done|]. by apply Z.eqb_neq.
Qed.

(** What the slot of an address is, for the running program. *)
Lemma get_metadata_slot class c w P E F pend i s :
  class_body class c P E F pend -> 0 <= i < slab_limit c -> 0 <= s < slots c ->
  get_metadata (slot_address c i s) (c, w) = Ret i (c, w) /\
  libdivide_u32_do (u32 (slot_address c i s - get_slab c (slab_size c) i)) (size_divisor c) = s.
Proof.
  intros Hb Hi Hs. pose proof (cb_geometry _ _ _ _ _ _ Hb) as Hg.
  assert (Hia : 0 <= i < metadata_allocated c) by (unfold slab_limit in Hi; lia).
  destruct (slot_of_address class c i s Hg (cb_metadata _ _ _ _ _ _ Hb) Hia Hs) as (Hf & Hsi & Hso & Hslab).
  split.
  - rewrite (get_metadata_run class c w _ Hg Hf), Hsi.
    rewrite Z.geb_leb, (proj2 (Z.leb_gt _ _)) by lia. done.
  - rewrite (proj1 (slot_division class c i _ Hg Hslab)). done.
Qed.

(** The slot that leaves the quarantine is released. *)
Lemma wp_free_leaving class c c1 w w1 w2 P E F i s p z :
  class_body class c1 P E F (Some p) -> static_eq c c1 -> class_geometry class c -> mem w2 = mem w1 ->
  0 <= i < get_metadata_max (slab_size c) -> 0 <= s < slots c -> live c i s = true -> SLAB_QUARANTINE = true ->
  (forall j t, 0 <= t -> live c1 j t = live c j t && negb ((i =? j) && (s =? t))) ->
  z = (class =? 0) -> cleared_slot c z (slot_address c i s) w w1 ->
  wp (let* metadata := get_metadata p in
      let* c := get_class in
      let slab := get_slab c (slab_size c1) metadata in
      let slot := libdivide_u32_do (u32 (p - slab)) (size_divisor c) in
      update_meta metadata (fun d => clear_quarantine_slot d slot) ;;;
      release_slot class metadata slot (slots c1) (slab_size c1))
     (fun _ => free_post class c w (slot_address c i s)) system_halts (c1, w2).
Proof.
  intros Hb Hst Hg Hw2 Himax Hs Hl Hqt Hlive1 -> Hcl.
  destruct (quarantine_leave class c1 P E F p Hqt Hb) as (k & u & -> & Hk & Hu & Hused & Hquar & Hb2).
  pose proof (known_max class c1 P E F _ k Hb Hk) as Hkmax.
  destruct (get_metadata_slot class c1 w2 P E F _ k u Hb Hk Hu) as [Hmeta Hslot].
  apply wp_bind. unfold wp at 1. rewrite Hmeta. do 4 sc_step. rewrite Hslot.
  set (d' := clear_quarantine_slot (slab_info c1).[k] u) in *. set (c2 := set_slab_info _ c1) in *.
  assert (Hl2 : forall j t, 0 <= t -> live c2 j t = live c1 j t || ((k =? j) && (u =? t))).
  { intros j t Ht. unfold live, c2. sc. rewrite aget_aset_case. case_decide as Hj.
    - subst j. rewrite Z.eqb_refl. unfold d', is_quarantine_slot at 1. cbn [quarantine_bitmap clear_quarantine_slot].
      rewrite bitmap_get_clear. change (bitmap_get (quarantine_bitmap (slab_info c1).[k]) t) with (is_quarantine_slot (slab_info c1).[k] t).
      change (is_used_slot (clear_quarantine_slot (slab_info c1).[k] u) t) with (is_used_slot (slab_info c1).[k] t).
      destruct (Z.eqb_spec u t) as [<-|]; cbn; [by rewrite Hused, orb_true_r|by rewrite orb_false_r].
    - rewrite (proj2 (Z.eqb_neq k j)) by done. cbn. by rewrite orb_false_r. }
  assert (Hlu : live c2 k u = true) by (rewrite Hl2, !Z.eqb_refl by lia; apply orb_true_r).
  assert (Hdead : live c1 k u = false) by (unfold live; rewrite Hquar; apply andb_false_r).
  eapply wp_mono; [apply (wp_release_slot class c2 w2 P E F); [done|lia|done]| |done].
  intros _ [c' w3] (Hst3 & Hrel & (P' & E' & F' & Hinv) & Hmem). cbn [fst snd] in *.
  assert (Hst' : static_eq c c') by (destruct Hst, Hst3; split; cbn in *; congruence).
  assert (Hlive : forall j t, 0 <= t -> live c' j t = live c j t && negb ((i =? j) && (s =? t))).
  { intros j t Ht. rewrite <- Hlive1 by done. unfold live at 1. destruct (Hrel j t Ht) as [-> ->].
    transitivity (live c2 j t && negb ((k =? j) && (u =? t))).
    - unfold live. destruct (is_used_slot _ t), (is_quarantine_slot _ t), ((k =? j) && (u =? t)); done.
    - rewrite Hl2 by done. destruct (Z.eqb_spec k j) as [->|]; cbn; [|by rewrite orb_false_r, andb_true_r].
      destruct (Z.eqb_spec u t) as [->|]; cbn; [by rewrite Hdead|by rewrite orb_false_r, andb_true_r]. }
  assert (Hmem' : slab_memory c c' k w1 w3).
  { destruct Hmem as [Hmem|Hmem]; [left; congruence|right]. cbv zeta in *.
    change (class_region_start c2) with (class_region_start c1) in Hmem. change (slab_size c2) with (slab_size c1) in Hmem.
    by rewrite Hw2, (se_start _ _ Hst), (se_slab_size _ _ Hst) in Hmem. }
  destruct (freed_memory class c c' w w1 w3 P' E' F' i s k (class =? 0) (proj2 Hinv) Hst' Hg Hs) as [Hm Hz]; try done.
  { rewrite Hlive by lia. rewrite !Z.eqb_refl. apply andb_false_r. }
  { by rewrite <- (se_slab_size _ _ Hst). }
  exists i, s. split; [done|]. split; [done|]. split; [done|]. split; [done|]. split; [by exists P', E', F'|].
  split; [done|]. split; [by rewrite Hqt|]. split; [done|].
  intros Hzf Hc0. apply Hz; [done|]. by apply Z.eqb_neq.
Qed.

(** With quarantine: the slot enters, another may leave. *)
Lemma wp_deallocate_quarantine class c w w1 P E F i s :
  class_body class c P E F None -> 0 <= s < slots c -> is_used_slot (slab_info c).[i] s = true ->
  is_quarantine_slot (slab_info c).[i] s = false ->
  SLAB_QUARANTINE = true -> cleared_slot c (class =? 0) (slot_address c i s) w w1 ->
  wp (deallocate_quarantine class i s (size c) (slots c) (slab_size c) (slot_address c i s))
     (fun _ => free_post class c w (slot_address c i s)) system_halts (c, w1).
Proof.
  intros Hb Hs' Hu Hqs Hq Hcl. pose proof (cb_geometry _ _ _ _ _ _ Hb) as Hg. pose proof (proj1 Hs') as Hs.
  pose proof (known_max class c P E F None i Hb (proj1 (used_known class c P E F None i s Hb Hs Hu))) as Himax.
  unfold deallocate_quarantine.
  do 2 sc_step. rewrite Hqs.
  assert (Hl : live c i s = true) by (unfold live; by rewrite Hu, Hqs).
  pose proof (quarantine_enter class c P E F i s Hq Hb Hs Hl) as Hb1.
  do 2 sc_step. set (c1 := set_slab_info _ c) in *.
  assert (Hl1 : forall j t, live c1 j t = live c j t && negb ((i =? j) && (s =? t))).
  { intros j t. unfold live, c1. sc. rewrite aget_aset_case. case_decide as Hj.
    - subst j. rewrite Z.eqb_refl. unfold is_quarantine_slot at 1. cbn [quarantine_bitmap set_quarantine_slot].
      rewrite bitmap_get_set. rewrite negb_orb, andb_true_l.
      change (is_used_slot (set_quarantine_slot (slab_info c).[i] s) t) with (is_used_slot (slab_info c).[i] t).
      change (bitmap_get (quarantine_bitmap (slab_info c).[i]) t) with (is_quarantine_slot (slab_info c).[i] t).
      destruct (is_used_slot _ t), (is_quarantine_slot _ t), (s =? t); done.
    - rewrite (proj2 (Z.eqb_neq i j)) by done. cbn. by rewrite andb_true_r. }
  assert (Hstays : forall c2 w2, class_body class c2 P E F None -> static_eq c c2 -> slab_info c2 = slab_info c1 ->
    mem w2 = mem w1 -> free_post class c w (slot_address c i s) (set_lock false c2, w2)).
  { intros c2 w2 Hb2 Hst Hinfo Hw2.
    assert (Hlv : forall j t, live c2 j t = live c j t && negb ((i =? j) && (s =? t))).
    { intros j t. rewrite <- Hl1. unfold live. by rewrite Hinfo. }
    destruct (freed_memory class c c2 w w1 w2 P E F i s 0 (class =? 0) Hb2 Hst Hg Hs') as [Hm Hz]; try done.
    { rewrite Hlv, !Z.eqb_refl. apply andb_false_r. }
    { destruct (slab_geometry_facts class c Hg). lia. }
    { by left. }
    exists i, s. split; [done|]. split; [done|]. split; [done|]. split; [by destruct Hst|].
    split; [exists P, E, F; by apply class_body_inv|]. split; [by intros j t _; apply Hlv|].
    split; [by rewrite Hq|]. split; [done|]. intros Hzf Hc0. apply Hz; [done|]. by apply Z.eqb_neq. }
  apply wp_bind. eapply (wp_mono _ _ _ random_halts); [by apply (wp_quarantine_random_swap class c1 w1 P E F)| |by left].
  intros [q|] [c2 w2] (Hb2 & Hst2 & Hinfo2 & Hw2); cbn [fst snd] in *; [|repeat sc_step; apply Hstays; [done|by destruct Hst2; split|done|done]].
  apply wp_bind. assert (Hg2 : class_geometry class c2) by apply Hb2.
  assert (E2 : size c = size c2) by (symmetry; apply Hst2). rewrite E2.
  eapply (wp_conseq _ (swapped class c2 w2 P E F)); [by apply (wp_quarantine_queue_swap class c2 w2 P E F)|].
  intros [q'|] [c3 w3] (Hb3 & Hst3 & Hinfo3 & Hw3); cbn [fst snd] in *.
  2: { repeat sc_step. apply Hstays; [done| |congruence|congruence]. destruct Hst2, Hst3. split; cbn in *; congruence. }
  assert (Hst : static_eq c c3) by (destruct Hst2, Hst3; split; cbn in *; congruence).
  rewrite <- (se_slots _ _ Hst), <- (se_slab_size _ _ Hst).
  eapply (wp_free_leaving class c c3 w w1 w3 P E F i s q'); try done; [congruence|].
  intros j t _. rewrite <- Hl1. unfold live. by rewrite Hinfo3, Hinfo2.
Qed.

(** [free_post] only sees the class up to the statistics and the lock. *)
Lemma free_post_core class c c0 w p s' :
  core_eq c c0 -> free_post class c0 w p s' -> free_post class c w p s'.
Proof.
  intros Hc (i & s & Hp & Hs & Hl & Hst & Hinv & Hlive & Hnq & Hmem & Hz).
  assert (Haddr : forall j t, slot_address c0 j t = slot_address c j t).
  { intros j t. unfold slot_address. destruct Hc. congruence. }
  assert (Hlv : forall j t, live c0 j t = live c j t) by (intros j t; unfold live; by rewrite (ce_info _ _ Hc)).
  exists i, s. rewrite <- Haddr, <- (ce_slots _ _ Hc), <- Hlv. split; [done|]. split; [done|]. split; [done|].
  split; [destruct Hc, Hst; split; congruence|]. split; [done|]. split.
  { intros j t Ht. rewrite <- Hlv. by apply Hlive. }
  split; [done|]. split.
  - destruct Hmem as [Hmem Hout]. split; [|by rewrite <- (ce_start _ _ Hc)].
    intros j t a Ht Hlt Ha. apply (Hmem j t a Ht Hlt). by rewrite Haddr, (ce_size _ _ Hc).
  - by rewrite <- (ce_size _ _ Hc).
Qed.

Lemma free_verdict_core class c c0 w p expected :
  core_eq c c0 -> free_verdict class c0 w p expected = free_verdict class c w p expected.
Proof.
  intros H. unfold free_verdict, slot_verdict, canary_intact, slot_index, slot_address, slab_index, get_slab.
  by rewrite (ce_start _ _ H), (ce_info _ _ H), (ce_size _ _ H), (ce_slab_size _ _ H), (ce_ma _ _ H).
Qed.

Lemma wp_deallocate_small class c w P E F p expected :
  class_inv class c P E F -> fits 64 p ->
  wp (deallocate_small class p expected)
     (fun _ s' => free_verdict class c w p expected = None /\ free_post class c w p s')
     (fun h => match free_verdict class c w p expected with Some msg => h = Fatal msg | None => system_halts h end)
     (c, w).
Proof.
  intros [Hlock Hb] Hp. unfold deallocate_small. do 2 sc_step. apply wp_bind.
  lazymatch goal with |- wp _ _ ?E _ => set (Eh := E) end.
  eapply (wp_mono _ (fun _ s' => s' = (c, w) /\ free_verdict class c w p expected = free_verdict class c w p None)
    _ Eh); [| |done].
  { destruct expected as [e|]; [|by apply wp_ret]. unfold Eh, free_verdict. rewrite (Z.eqb_sym e).
    destruct ((if class =? 0 then 0 else size c) =? e); cbn [negb]; [by apply wp_ret|by apply wp_fatal]. }
  intros _ s' [-> Hexp]. unfold Eh. rewrite Hexp. clear Hexp Eh.
  do 3 sc_step. rewrite Hlock. do 2 sc_step.
  apply wp_stats_small_deallocate. intros c0 Hc0' Hl0.
  assert (Hc0 : core_eq c c0) by (eapply core_eq_trans; [apply core_eq_lock|done]).
  assert (Hb0 : class_body class c0 P E F None) by by eapply core_eq_body.
  rewrite <- (free_verdict_core class c c0 w p None Hc0).
  eapply (wp_conseq _ (fun _ s' => free_verdict class c0 w p None = None /\ free_post class c0 w p s'));
    [|intros u s' [Hv Hpost]; split; [exact Hv|by apply (free_post_core class c c0)]].
  rewrite <- (ce_size _ _ Hc0), <- (ce_slots _ _ Hc0), <- (ce_slab_size _ _ Hc0). clear dependent c.
  rename c0 into c, Hb0 into Hb. pose proof (cb_geometry _ _ _ _ _ _ Hb) as Hg.
  apply wp_bind. unfold free_verdict. eapply wp_mono; [by apply (wp_check_and_clear class c w P E F)| |].
  2: { intros h (msg & -> & ->). done. }
  intros [i s] [c' w1] (-> & -> & -> & -> & Hpa & Hs & Hu & Hcl).
  set (i := slab_index c p) in *. set (s := slot_index c i p) in *.
  destruct (used_known class c P E F None i s Hb Hs Hu) as [Hi Hs']. cbn [or_else].
  destruct SLAB_QUARANTINE eqn:Hq.
  - destruct (is_quarantine_slot (slab_info c).[i] s) eqn:Hqs.
    { unfold deallocate_quarantine. do 2 sc_step. rewrite Hqs. by apply wp_fatal. }
    rewrite Hpa in *.
    eapply wp_conseq; [by apply (wp_deallocate_quarantine class c w w1 P E F i s)|done].
  - assert (Hqs : is_quarantine_slot (slab_info c).[i] s = false)
      by by apply (cb_no_quarantine _ _ _ _ _ _ Hb).
    assert (Hl : live c i s = true) by (unfold live; by rewrite Hu, Hqs).
    rewrite Hqs, Hpa in *.
    eapply wp_conseq; [by eapply (wp_free_direct class c w w1 P E F i s)|done].
Qed.

(** The verdict is [None] exactly on live slots with an intact canary. *)
Lemma free_verdict_spec class c w P E F p :
  class_inv class c P E F -> fits 64 p ->
  free_verdict class c w p None = None <->
  exists i s, p = slot_address c i s /\ 0 <= s < slots c /\ live c i s = true /\
    (class = 0 \/ canary_intact c w i p = true).
Proof.
  intros [_ Hb] Hp. pose proof (cb_geometry _ _ _ _ _ _ Hb) as Hg. unfold free_verdict, slot_verdict, or_else. split.
  - destruct (Z.leb_spec (metadata_allocated c) (slab_index c p)) as [|Hused]; [done|].
    destruct (slab_index_bounds class c p Hg (cb_metadata _ _ _ _ _ _ Hb) Hp Hused) as [_ Hslab].
    destruct (slot_division class c (slab_index c p) p Hg Hslab) as [_ Hs].
    destruct (Z.eqb_spec p (slot_address c (slab_index c p) (slot_index c (slab_index c p) p))) as [Hpa|]; cbn [negb]; [|done].
    set (i := slab_index c p) in *. set (s := slot_index c i p) in *.
    destruct (is_used_slot (slab_info c).[i] s) eqn:Hu; cbn [negb]; [|done].
    destruct (negb (class =? 0) && negb (canary_intact c w i p)) eqn:Hc; [done|].
    destruct (is_quarantine_slot (slab_info c).[i] s) eqn:Hq; [done|]. intros _. exists i, s.
    destruct (used_known class c P E F None i s Hb Hs Hu) as [_ Hs'].
    split; [done|]. split; [done|]. unfold live. rewrite Hu, Hq. split; [done|].
    destruct (Z.eqb_spec class 0); [by left|right]. by destruct (canary_intact c w i p).
  - intros (i & s & -> & Hs & Hl & Hc). unfold live in Hl. apply andb_true_iff in Hl as [Hu Hq%negb_true_iff].
    destruct (used_known class c P E F None i s Hb (proj1 Hs) Hu) as [Hi _].
    assert (Hia : 0 <= i < metadata_allocated c) by (unfold slab_limit in Hi; lia).
    destruct (slot_of_address class c i s Hg (cb_metadata _ _ _ _ _ _ Hb) Hia Hs) as (_ & -> & -> & _).
    rewrite (proj2 (Z.leb_gt _ _)) by lia. rewrite Z.eqb_refl, Hu, Hq. cbn [negb].
    destruct Hc as [->| ->]; [done|]. by rewrite andb_false_r.
Qed.
End Free.

(** ** Properties *)

Section Properties.
Context {Cfg : Config} {Cok : ConfigOk Cfg} {K : Kernel} {Kok : KernelOk K} {R : Type}.
Context `{!RandomSource R} `{!RandomSourceOk R}.
Implicit Types (c : size_class R) (w : world).

(** C21: [deallocate_small] on any pointer at all either aborts with exactly the
    message the verdict prescribes, or frees the live slot the pointer names: the
    invariant holds and the lock is free afterwards, that slot and no other stops
    being live (without quarantine it is free at once), the memory of every slot
    that stays live is untouched even when a slab is purged, and with
    ZERO_ON_FREE the slot reads as zero. After the checks only a system call
    failing with something other than ENOMEM or the random source can stop it. *)
Theorem deallocate_small_ok class c w P E F p expected :
  class_inv class c P E F -> fits 64 p ->
  wp (deallocate_small class p expected)
     (fun _ '(c', w') =>
        free_verdict class c w p expected = None /\
        exists i s, p = slot_address c i s /\ 0 <= s < slots c /\ live c i s = true /\
          (exists P' E' F', class_inv class c' P' E' F') /\
          (forall j t, 0 <= t -> live c' j t = live c j t && negb ((i =? j) && (s =? t))) /\
          (SLAB_QUARANTINE = false -> is_used_slot (slab_info c').[i] s = false) /\
          live_memory c c' w w' /\
          (ZERO_ON_FREE = true -> class <> 0 -> zero_in p (size c - canary_size) (mem w')))
     (fun h => match free_verdict class c w p expected with Some msg => h = Fatal msg | None => system_halts h end)
     (c, w).
Proof.
  intros Hinv Hp. eapply wp_conseq; [by eapply wp_deallocate_small|].
  intros _ [c' w'] [Hv (i & s & Hpa & Hs & Hl & _ & Hinv' & Hlive & Hnq & Hmem & Hz)].
  split; [done|]. exists i, s. by repeat (split; [done|]).
Qed.

(** The checks of [deallocate_small] are exact: the address of a live slot
    whose canary is intact passes all of them (only a failing system call or
    random source can stop it then), and every other pointer, whether already
    free, quarantined, unaligned, in an unused slab or outside the class, aborts
    with a message before anything is freed. *)
Theorem free_checks_exact class c w P E F p :
  class_inv class c P E F -> fits 64 p ->
  let valid := exists i s, p = slot_address c i s /\ 0 <= s < slots c /\ live c i s = true /\
                 (class = 0 \/ canary_intact c w i p = true) in
  (valid -> wp (deallocate_small class p None) (fun _ _ => True) system_halts (c, w)) /\
  (~ valid -> exists msg, deallocate_small class p None (c, w) = Halt (Fatal msg)).
Proof.
  intros Hinv Hp valid. pose proof (free_verdict_spec class c w P E F p Hinv Hp) as Hspec. fold valid in Hspec.
  pose proof (wp_deallocate_small class c w P E F p None Hinv Hp) as H. split.
  - intros Hv%Hspec. eapply wp_mono; [exact H|done|]. by rewrite Hv.
  - intros Hv. destruct (free_verdict class c w p None) as [msg|] eqn:Hm; [|by destruct Hv; apply Hspec].
    exists msg. unfold wp in H. destruct (deallocate_small class p None (c, w)) as [[] s'|h]; [by destruct H|by rewrite H].
Qed.

(** Freeing the same pointer twice never returns, with or without
    quarantine and wherever the slot went in between. *)
Theorem double_free_aborts class c w P E F p e1 e2 :
  class_inv class c P E F -> fits 64 p ->
  wp (deallocate_small class p e1 ;;; deallocate_small class p e2) (fun _ _ => False)
     (fun h => (exists msg, h = Fatal msg) \/ system_halts h) (c, w).
Proof.
  intros Hinv Hp. apply wp_bind. eapply wp_mono; [by eapply wp_deallocate_small| |].
  - intros _ [c' w'] [_ (i & s & Hpa & Hs & Hl & Hst & (P' & E' & F' & Hinv') & Hlive & _)]. cbn [fst snd] in *.
    assert (Hdead : free_verdict class c' w' p None <> None).
    { intros (j & t & Hpa' & Ht & Hl' & _)%(free_verdict_spec class c' w' P' E' F'); [|done|done].
      rewrite (se_slots _ _ Hst) in Ht. rewrite (slot_address_static c c') in Hpa' by done. rewrite Hpa in Hpa'.
      destruct (slot_address_inj class c (cb_geometry _ _ _ _ _ _ (proj2 Hinv)) i s j t Hs Ht Hpa') as [<- <-].
      rewrite Hlive, !Z.eqb_refl, andb_false_r in Hl' by lia. done. }
    assert (Hdead2 : free_verdict class c' w' p e2 <> None).
    { unfold free_verdict in *. destruct e2 as [e|]; [|done]. by destruct (e =? _). }
    eapply wp_mono; [by eapply (wp_deallocate_small class c' w' P' E' F')| |].
    + by intros _ s' [Hv _].
    + intros h Hh. destruct (free_verdict class c' w' p e2) as [msg|]; [|done]. left. by exists msg.
  - intros h Hh. destruct (free_verdict class c w p e1) as [msg|]; [left; by exists msg|by right].
Qed.
End Properties.

(** ** Witnesses *)

Section Witnesses.
#[local] Existing Instance default_config.

(** The class of [demo_allocation] and the address it handed out. *)
Definition demo_live : size_class Z := fst (snd demo_allocation).

Lemma demo_live_inv : exists P E F, class_inv 3 demo_live P E F.
Proof. apply demo_allocation_post. Qed.

Lemma demo_address_fits : fits 64 (fst demo_allocation).
Proof. by vm_compute. Qed.

Lemma deallocate_small_ok_witness :
  wp (deallocate_small 3 (fst demo_allocation) (Some 48)) (fun _ '(c', _) => exists P E F, class_inv 3 c' P E F)
     (fun h => match free_verdict 3 demo_live (snd (snd demo_allocation)) (fst demo_allocation) (Some 48) with
               | Some msg => h = Fatal msg | None => system_halts h end) (demo_live, snd (snd demo_allocation)).
Proof.
  destruct demo_live_inv as (P & E & F & Hinv).
  eapply wp_conseq; [exact (deallocate_small_ok 3 demo_live (snd (snd demo_allocation)) P E F
    (fst demo_allocation) (Some 48) Hinv demo_address_fits)|].
  intros _ [c' w'] (_ & i & s & _ & _ & _ & H & _). exact H.
Defined.

Lemma demo_verdict : free_verdict 3 demo_live (snd (snd demo_allocation)) (fst demo_allocation) None = None.
Proof. vm_compute. reflexivity. Qed.

(** The pointer one byte into the slot is rejected. *)
Lemma demo_unaligned :
  free_verdict 3 demo_live (snd (snd demo_allocation)) (fst demo_allocation + 1) None = Some "invalid unaligned free"%string.
Proof. vm_compute. reflexivity. Qed.

Lemma demo_unaligned_fits : fits 64 (fst demo_allocation + 1).
Proof. by vm_compute. Qed.

Lemma free_checks_exact_witness :
  wp (deallocate_small 3 (fst demo_allocation) None) (fun _ _ => True) system_halts
     (demo_live, snd (snd demo_allocation)) /\
  exists msg, deallocate_small 3 (fst demo_allocation + 1) None (demo_live, snd (snd demo_allocation)) = Halt (Fatal msg).
Proof.
  destruct demo_live_inv as (P & E & F & Hinv). split.
  - apply (proj1 (free_checks_exact 3 demo_live (snd (snd demo_allocation)) P E F (fst demo_allocation) Hinv
      demo_address_fits)).
    exact (proj1 (free_verdict_spec 3 demo_live _ P E F _ Hinv demo_address_fits) demo_verdict).
  - apply (proj2 (free_checks_exact 3 demo_live (snd (snd demo_allocation)) P E F (fst demo_allocation + 1) Hinv
      demo_unaligned_fits)).
    intros Hv%(free_verdict_spec 3 demo_live _ P E F _ Hinv demo_unaligned_fits). rewrite demo_unaligned in Hv. done.
Defined.

Lemma double_free_aborts_witness :
  wp (deallocate_small 3 (fst demo_allocation) None ;;; deallocate_small 3 (fst demo_allocation) None)
     (fun _ _ => False) (fun h => (exists msg, h = Fatal msg) \/ system_halts h)
     (demo_live, snd (snd demo_allocation)).
Proof.
  destruct demo_live_inv as (P & E & F & Hinv).
  exact (double_free_aborts 3 demo_live (snd (snd demo_allocation)) P E F (fst demo_allocation) None None Hinv
    demo_address_fits).
Defined.
End Witnesses.
