(* ===== verification/SlabCanary.v ===== *)
(** Canary values stay: no operation of a size class changes the canary of a slab
    in use, so a canary that was written with a slot is the one the slot is
    checked against. *)

From S2P Require Import Prelude Config Util Kernel RandomSource SizeClass SlabMeta Slab SlabLists SlabHeap SlabInv SlabRegion SlabAlloc SlabQuarantine SlabFree.

(** Canary values are words. *)
Definition canary_words {R} (c : size_class R) : Prop := forall i, fits 64 (canary_value (slab_info c).[i]).

(** The canaries of all slabs but [x] are as before. *)
Definition canary_frame {R} (x : option Z) (c c' : size_class R) : Prop :=
  (forall i, x <> Some i -> canary_value (slab_info c').[i] = canary_value (slab_info c).[i]) /\
  (canary_words c -> canary_words c').

#[export] Instance canary_frame_preorder {R} (x : option Z) : PreOrder (canary_frame (R := R) x).
Proof.
  split; [done|]. intros c1 c2 c3 [H12 Hw] [H23 Hw']. split; [|auto].
  intros i Hi. by rewrite H23, H12.
Qed.

Lemma canary_frame_weaken {R} x (c c' : size_class R) : canary_frame None c c' -> canary_frame x c c'.
Proof. intros [Hc Hw]. split; [|done]. intros i _. by apply Hc. Qed.

Lemma canary_frame_aset {R} x i d (c c' : size_class R) :
  slab_info c' = (slab_info c).[i <- d] -> (x <> Some i -> canary_value d = canary_value (slab_info c).[i]) ->
  (fits 64 (canary_value (slab_info c).[i]) -> fits 64 (canary_value d)) -> canary_frame x c c'.
Proof.
  intros E Hd Hf. split.
  - intros j Hj. rewrite E, aget_aset_case. case_decide; subst; auto.
  - intros Hw j. rewrite E, aget_aset_case. case_decide; subst; [apply Hf|]; apply Hw.
Qed.

Class KeepsCanary `{Kernel} {R A} (x : option Z) (m : M (size_class R * world) A) : Prop :=
  keeps_canary s : wp m (fun _ s' => canary_frame x (fst s) (fst s')) (fun _ => True) s.

(** The fact joins any specification of the program. *)
Lemma wp_keeps_canary `{Kernel} {R A} x (m : M (size_class R * world) A) `{!KeepsCanary x m} (Q : A -> size_class R * world -> Prop) E s :
  wp m Q E s -> wp m (fun a s' => Q a s' /\ canary_frame x (fst s) (fst s')) E s.
Proof. pose proof (keeps_canary (x := x) (m := m) s) as Hm. unfold wp in *. by destruct (m s). Qed.

Section Structure.
Context {K : Kernel} {R : Type} {A B : Type}.

#[export] Instance canary_ret x (a : A) : KeepsCanary (R := R) x (ret a).
Proof. intros s. apply wp_ret. reflexivity. Qed.
#[export] Instance canary_gets x (f : size_class R * world -> A) : KeepsCanary x (gets f).
Proof. intros s. apply wp_gets. reflexivity. Qed.
#[export] Instance canary_fatal x msg : KeepsCanary (R := R) (A := A) x (fatal_error msg).
Proof. by intros s. Qed.
#[export] Instance canary_stuck x : KeepsCanary (R := R) (A := A) x stuck.
Proof. by intros s. Qed.
#[export] Instance canary_on_world x (m : M world A) : KeepsCanary (R := R) x (on_world m).
Proof. intros s. apply wp_on_world. unfold wp. destruct (m (snd s)); [reflexivity|done]. Qed.

Lemma canary_bind x (m : M (size_class R * world) A) (k : A -> M (size_class R * world) B) :
  KeepsCanary x m -> (forall a, KeepsCanary x (k a)) -> KeepsCanary x (bind m k).
Proof.
  intros Hm Hk s. apply wp_bind. eapply wp_conseq; [apply Hm|]. intros a s' Hs. cbn beta in *.
  eapply wp_conseq; [apply Hk|]. intros b s'' Hs'. cbn beta in *. by etransitivity.
Qed.

#[export] Instance canary_get_class x : KeepsCanary x (get_class (R := R)).
Proof. intros s. apply wp_gets. reflexivity. Qed.
#[export] Instance canary_get_meta x i : KeepsCanary x (get_meta (R := R) i).
Proof. intros s. apply wp_gets. reflexivity. Qed.
#[export] Instance canary_with_rng x (m : M (R * world) A) : KeepsCanary x (with_rng m).
Proof. intros s. unfold with_rng. apply wp_zoom. unfold wp. destruct (m _); [|done]. by split. Qed.

Lemma canary_modify_class x f :
  (forall c, slab_info (f c) = slab_info c) -> KeepsCanary x (modify_class (R := R) f).
Proof. intros Hf s. apply wp_modify. unfold canary_frame, canary_words. cbn [fst]. by rewrite Hf. Qed.

Lemma canary_update_meta x i f :
  (forall d, canary_value (f d) = canary_value d) -> KeepsCanary x (update_meta (R := R) i f).
Proof.
  intros Hf s. apply wp_modify. apply (canary_frame_aset x i (f (slab_info (fst s)).[i])); [done|..]; by rewrite Hf.
Qed.
End Structure.

(** Follow the structure of a program; the leaves are instances. *)
Ltac canary_step :=
  lazymatch goal with
  | |- KeepsCanary _ (bind _ _) => apply canary_bind; [|intros ?]
  | |- KeepsCanary _ (let _ := _ in _) => cbv zeta
  | |- KeepsCanary _ (match ?x with _ => _ end) => destruct x
  | |- KeepsCanary _ (modify_class _) => apply canary_modify_class; intros ?; reflexivity
  | |- KeepsCanary _ (update_meta _ _) => apply canary_update_meta; intros ?; reflexivity
  | |- KeepsCanary _ _ => apply _
  end.
Ltac canary := repeat canary_step.

Section Operations.
Context {Cfg : Config} {Cok : ConfigOk Cfg} {K : Kernel} {Kok : KernelOk K} {R : Type}.
Context `{!RandomSource R} `{!RandomSourceOk R}.
Implicit Types (c : size_class R) (w : world).

#[export] Instance canary_mutex_lock x : KeepsCanary x (mutex_lock (R := R)).
Proof. unfold mutex_lock. canary. Qed.
#[export] Instance canary_mutex_unlock x : KeepsCanary x (mutex_unlock (R := R)).
Proof. unfold mutex_unlock. canary. Qed.
#[export] Instance canary_get_metadata x p : KeepsCanary x (get_metadata (R := R) p).
Proof. unfold get_metadata. canary. Qed.
#[export] Instance canary_alloc_metadata x n b : KeepsCanary x (alloc_metadata (R := R) n b).
Proof. unfold alloc_metadata. canary. Qed.
#[export] Instance canary_waf_check x p n : KeepsCanary x (write_after_free_check (R := R) p n).
Proof. unfold write_after_free_check. canary. Qed.
#[export] Instance canary_set_canary x i p n : KeepsCanary x (set_canary (R := R) i p n).
Proof. unfold set_canary. canary. Qed.
#[export] Instance canary_check_canary x i p n : KeepsCanary x (check_canary (R := R) i p n).
Proof. unfold check_canary. canary. Qed.
#[export] Instance canary_stats_small_allocate x n : KeepsCanary x (stats_small_allocate (R := R) n).
Proof. unfold stats_small_allocate. canary. Qed.
#[export] Instance canary_stats_small_deallocate x n : KeepsCanary x (stats_small_deallocate (R := R) n).
Proof. unfold stats_small_deallocate. canary. Qed.
#[export] Instance canary_stats_slab_allocate x n : KeepsCanary x (stats_slab_allocate (R := R) n).
Proof. unfold stats_slab_allocate. canary. Qed.
#[export] Instance canary_stats_slab_deallocate x n : KeepsCanary x (stats_slab_deallocate (R := R) n).
Proof. unfold stats_slab_deallocate. canary. Qed.

(** Only the slab that gets a canary changes. *)
#[export] Instance canary_set_slab_canary i : KeepsCanary (Some i) (set_slab_canary_value (R := R) i).
Proof.
  unfold set_slab_canary_value. destruct SLAB_CANARY; [|apply _]. apply canary_bind; [apply _|]. intros v s.
  apply wp_modify. apply (canary_frame_aset (Some i) i (set_canary_value (Z.land v canary_mask) (slab_info (fst s)).[i]));
    [done|by intros []|]. intros _. cbn. apply testbit_high_fits; [lia|by apply Z.land_nonneg; right|].
  intros j Hj. rewrite Z.land_spec, (fits_testbit_high 64 canary_mask); [apply andb_false_r|by vm_compute|done].
Qed.

#[export] Instance canary_from_empty i a b n l : KeepsCanary None (allocate_from_empty (R := R) i a b n l).
Proof. unfold allocate_from_empty. canary. Qed.
#[export] Instance canary_from_partial i a b n l : KeepsCanary None (allocate_from_partial (R := R) i a b n l).
Proof. unfold allocate_from_partial. canary. Qed.
#[export] Instance canary_from_free i a b n l : KeepsCanary (Some i) (allocate_from_free (R := R) i a b n l).
Proof. unfold allocate_from_free. canary. Qed.

#[export] Instance canary_enqueue_free_slab i : KeepsCanary None (enqueue_free_slab (R := R) i).
Proof. unfold enqueue_free_slab, append_free_slab. canary. Qed.
#[export] Instance canary_release_slot class i s n m : KeepsCanary None (release_slot (R := R) class i s n m).
Proof. unfold release_slot, push_partial, unlink_partial, retire_slab, cache_slab. canary. Qed.

#[export] Instance canary_deallocate_small class p e : KeepsCanary None (deallocate_small (R := R) class p e).
Proof.
  unfold deallocate_small, check_and_clear, deallocate_quarantine, quarantine_random_swap, quarantine_queue_swap.
  canary.
Qed.

(** A program that ends with the value of its tail. *)
Lemma wp_tail {S A B} (m : M S A) (k : A -> M S B) (Q : B -> S -> Prop) s :
  (forall a s', wp (k a) Q (fun _ => True) s') -> wp (bind m k) Q (fun _ => True) s.
Proof. intros Hk. apply wp_bind. unfold wp at 1. destruct (m s); [apply Hk|done]. Qed.

(** A new slab is the first one that was never used. *)
Lemma alloc_metadata_result n b c w :
  wp (alloc_metadata n b) (fun m _ => m = None \/ m = Some (metadata_count c)) (fun _ => True) (c, w).
Proof.
  unfold alloc_metadata. apply wp_bind, wp_gets. cbn [fst]. apply wp_tail. intros [] s; [apply wp_ret; by left|].
  apply wp_tail. intros [] s'; [apply wp_ret; by left|]. do 4 (apply wp_tail; intros ? ?). apply wp_ret. by right.
Qed.

Lemma canary_from_new a b n l c w :
  wp (allocate_from_new a b n l) (fun _ s' => canary_frame (Some (metadata_count c)) c (fst s')) (fun _ => True) (c, w).
Proof.
  unfold allocate_from_new. apply wp_bind.
  eapply wp_conseq; [apply (wp_keeps_canary (Some (metadata_count c))); [apply _|apply alloc_metadata_result]|].
  assert (Hk : forall (k : M (size_class R * world) Z) s, KeepsCanary (Some (metadata_count c)) k -> canary_frame (Some (metadata_count c)) c (fst s) ->
    wp k (fun _ (s' : size_class R * world) => canary_frame (Some (metadata_count c)) c (fst s')) (fun _ => True) s).
  { intros k s Hk Hs. eapply wp_conseq; [apply Hk|]. intros z s'. cbn beta. intros. by etransitivity. }
  intros m s [[-> | ->] Hs]; (apply Hk; [|exact Hs]); canary.
Qed.

(** The slab that [allocate_small] may give a new canary has no slot in use. *)
Lemma wp_allocate_small_canary class c w P E F req :
  class_inv class c P E F ->
  wp (allocate_small req)
     (fun _ s' => exists i, count (slab_info c).[i] = 0 /\ canary_frame (Some i) c (fst s')) (fun _ => True) (c, w).
Proof.
  intros [Hlock Hb]. pose proof (cb_heap _ _ _ _ _ _ Hb) as Hh. unfold allocate_small, mutex_lock, modify_class. cbv zeta.
  do 3 (apply wp_bind, wp_gets || apply wp_bind); cbn [fst]. rewrite Hlock. apply wp_modify. cbn [fst snd].
  set (c1 := set_lock true c).
  assert (Hc : forall x c', canary_frame x c1 c' -> canary_frame x c c') by done.
  assert (Hsome : forall x i (k : M (size_class R * world) Z), KeepsCanary x k -> count (slab_info c).[i] = 0 -> x = None \/ x = Some i ->
    wp k (fun _ s' => exists i, count (slab_info c).[i] = 0 /\ canary_frame (Some i) c (fst s')) (fun _ => True) (c1, w)).
  { intros x i k Hk Hi Hx. eapply wp_conseq; [apply Hk|]. intros z s' Hs. exists i. split; [done|]. apply Hc.
    destruct Hx as [-> | ->]; [by apply canary_frame_weaken|done]. }
  assert (Hnew : count (slab_info c).[metadata_count c] = 0) by by rewrite (mi_fresh _ (cb_metadata _ _ _ _ _ _ Hb)).
  destruct (partial_slabs c) as [i|]; [by eapply Hsome; [apply _| |left]|].
  destruct (empty_slabs c) as [i|]; [by eapply Hsome; [apply _| |left]|].
  destruct (free_slabs_head c) as [i|] eqn:Hi.
  - eapply Hsome; [apply _| |by right]. apply (hi_idle _ _ _ _ _ _ Hh). left. apply elem_of_app. right.
    pose proof (hi_free_head _ _ _ _ _ _ Hh) as HF. cbn in HF. rewrite Hi in HF. destruct F; [done|].
    injection HF as ->. apply list_elem_of_here.
  - eapply wp_conseq; [apply canary_from_new|]. intros z s' Hs. exists (metadata_count c). by split.
Qed.

(** ** Guarded slots *)

(** The canary of slot [s] of slab [i] is in memory. *)
Definition slot_guarded c w (i s : Z) : Prop :=
  SLAB_CANARY = true -> load64 (mem w) (slot_address c i s + size c - canary_size) = canary_value (slab_info c).[i].

(** All slots that the program holds are guarded. *)
Definition slots_guarded class c w : Prop :=
  canary_words c /\ forall i s, class <> 0 -> 0 <= s -> live c i s = true -> slot_guarded c w i s.

(** A guarded slot passes the check of [deallocate_small]. *)
Lemma guarded_intact c w i s : slot_guarded c w i s -> canary_intact c w i (slot_address c i s) = true.
Proof. unfold slot_guarded, canary_intact. destruct SLAB_CANARY; [|done]. intros ->; [|done]. cbn. apply Z.eqb_refl. Qed.

(** Slots that stay held keep their guards when their bytes and the canary of
    their slab stay. *)
Lemma slots_guarded_keep class c c' w w' x P E F pend :
  class_body class c P E F pend -> static_eq c c' -> canary_frame x c c' ->
  (forall i, x = Some i -> count (slab_info c).[i] = 0) ->
  (forall j t, class <> 0 -> 0 <= t -> live c' j t = true -> slot_guarded c' w' j t \/
     live c j t = true /\ forall a, slot_address c j t <= a < slot_address c j t + size c -> (mem w').[a] = (mem w).[a]) ->
  slots_guarded class c w -> slots_guarded class c' w'.
Proof.
  intros Hb Hst [Hcan Hwords] Hx Hslots [Hw Hg]. split; [auto|]. intros j t Hcl Ht Hl.
  destruct (Hslots j t Hcl Ht Hl) as [|[Hlive Hm]]; [done|]. intros Hsc.
  pose proof Hlive as Hu. unfold live in Hu. apply andb_true_iff in Hu as [Hu _].
  destruct (slab_geometry_facts class c (cb_geometry _ _ _ _ _ _ Hb)) as [Hn Hsz _ _ _ _ _].
  assert (Hcount : 0 < count (slab_info c).[j]).
  { eapply used_count; [|apply (hi_wf _ _ _ _ _ _ (cb_heap _ _ _ _ _ _ Hb) j)|exact Ht|exact Hu]. lia. }
  rewrite Hcan by (intros ->; specialize (Hx j eq_refl); lia).
  rewrite (slot_address_static c c'), (se_size _ _ Hst) by done. rewrite <- (Hg j t Hcl Ht Hlive Hsc).
  apply load64_same. intros a Ha. apply Hm. destruct canary_size_bounds as [E0|E0]; unfold canary_size in *; rewrite Hsc in *; lia.
Qed.
End Operations.
