(* ===== verification/SlabMaps.v ===== *)
(** No operation of a size class takes a mapping away: a slab that is retired is
    replaced by a fresh fixed mapping, never unmapped. *)

From S2P Require Import Prelude Config Util Kernel Maps RandomSource SlabMeta Slab SlabRegion.

Section SlabMaps.
Context {Cfg : Config} {K : Kernel} {Kok : KernelOk K} {R : Type} `{!RandomSource R} `{!RandomSourceOk R}.

#[export] Instance keeps_with_rng {A} (m : M (R * world) A) : KeepsMaps m -> KeepsMaps (with_rng m).
Proof. intros Hm s. unfold with_rng. apply wp_zoom. apply Hm. Qed.

(** The steps that programs on a size class are made of. *)
#[export] Instance keeps_modify_class f : KeepsMaps (modify_class (R := R) f).
Proof. unfold modify_class. keeps. Qed.
#[export] Instance keeps_get_class : KeepsMaps (get_class (R := R)).
Proof. unfold get_class. keeps. Qed.
#[export] Instance keeps_get_meta i : KeepsMaps (get_meta (R := R) i).
Proof. unfold get_meta. keeps. Qed.
#[export] Instance keeps_update_meta i f : KeepsMaps (update_meta (R := R) i f).
Proof. unfold update_meta. keeps. Qed.
#[export] Instance keeps_mutex_lock : KeepsMaps (mutex_lock (R := R)).
Proof. unfold mutex_lock. keeps. Qed.
#[export] Instance keeps_mutex_unlock : KeepsMaps (mutex_unlock (R := R)).
Proof. unfold mutex_unlock. keeps. Qed.
#[export] Instance keeps_get_free_slot n d : KeepsMaps (get_free_slot (R := R) n d).
Proof. unfold get_free_slot. keeps. Qed.
#[export] Instance keeps_label_slab a n class : KeepsMaps (label_slab a n class).
Proof. unfold label_slab. keeps. Qed.
#[export] Instance keeps_get_metadata p : KeepsMaps (get_metadata (R := R) p).
Proof. unfold get_metadata. keeps. Qed.
#[export] Instance keeps_alloc_metadata n b : KeepsMaps (alloc_metadata (R := R) n b).
Proof. unfold alloc_metadata. keeps. Qed.
#[export] Instance keeps_write_after_free_check p n : KeepsMaps (write_after_free_check (R := R) p n).
Proof. unfold write_after_free_check. keeps. Qed.
#[export] Instance keeps_set_slab_canary_value i : KeepsMaps (set_slab_canary_value (R := R) i).
Proof. unfold set_slab_canary_value. keeps. Qed.
#[export] Instance keeps_set_canary i p n : KeepsMaps (set_canary (R := R) i p n).
Proof. unfold set_canary. keeps. Qed.
#[export] Instance keeps_check_canary i p n : KeepsMaps (check_canary (R := R) i p n).
Proof. unfold check_canary. keeps. Qed.
#[export] Instance keeps_stats_small_allocate n : KeepsMaps (stats_small_allocate (R := R) n).
Proof. unfold stats_small_allocate. keeps. Qed.
#[export] Instance keeps_stats_small_deallocate n : KeepsMaps (stats_small_deallocate (R := R) n).
Proof. unfold stats_small_deallocate. keeps. Qed.
#[export] Instance keeps_stats_slab_allocate n : KeepsMaps (stats_slab_allocate (R := R) n).
Proof. unfold stats_slab_allocate. keeps. Qed.
#[export] Instance keeps_stats_slab_deallocate n : KeepsMaps (stats_slab_deallocate (R := R) n).
Proof. unfold stats_slab_deallocate. keeps. Qed.

#[export] Instance keeps_allocate_small n : KeepsMaps (allocate_small (R := R) n).
Proof.
  unfold allocate_small, allocate_from_empty, allocate_from_free, allocate_from_new, allocate_from_partial. keeps.
Qed.

#[export] Instance keeps_enqueue_free_slab i : KeepsMaps (enqueue_free_slab (R := R) i).
Proof. unfold enqueue_free_slab, append_free_slab. keeps. Qed.

#[export] Instance keeps_release_slot class i s n m : KeepsMaps (release_slot (R := R) class i s n m).
Proof. unfold release_slot, push_partial, unlink_partial, retire_slab, cache_slab. keeps. Qed.

#[export] Instance keeps_deallocate_small class p e : KeepsMaps (deallocate_small (R := R) class p e).
Proof.
  unfold deallocate_small, check_and_clear, deallocate_quarantine, quarantine_random_swap, quarantine_queue_swap.
  keeps.
Qed.

#[export] Instance keeps_init_size_class start addr ar class :
  KeepsMaps (init_size_class (R := R) start addr ar class).
Proof. unfold init_size_class. keeps. Qed.
End SlabMaps.
