(* ===== verification/Regions.v ===== *)
(** The table of large allocations (h_malloc.c, [struct region_metadata] and
    [regions_grow] to [regions_delete]): an open-addressing hash table with
    downward linear probing and deletion by moving entries back. *)

From S2P Require Import Prelude Config Util SizeClass Kernel RandomSource.

(** A NULL [r_p] marks an empty cell. *)
Record region_metadata := RegionMetadata { r_p : Z; r_size : Z; r_guard_size : Z }.
#[export] Instance region_metadata_zeroed : Zeroed region_metadata := RegionMetadata 0 0 0.

Definition sizeof_region_metadata : Z := 24.

Record quarantine_info := QuarantineInfo { q_p : Z; q_size : Z }.
#[export] Instance quarantine_info_zeroed : Zeroed quarantine_info := QuarantineInfo 0 0.

Definition INITIAL_REGION_TABLE_SIZE : Z := 128.

(** [struct region_allocator] with the two tables of [ro.regions]; [regions] is
    the index in [ro.regions] of the table in use. *)
Record region_allocator (R : Type) := RegionAllocator {
  ra_lock : bool;
  regions : bool;
  total : Z;
  free : Z;
  ra_allocated : Z;
  ra_quarantine_random : gmap Z quarantine_info;
  ra_quarantine_queue : gmap Z quarantine_info;
  ra_quarantine_queue_index : Z;
  ra_rng : R;
  ro_regions : bool -> gmap Z region_metadata;
  ro_regions_addr : bool -> Z
}.
Arguments RegionAllocator {R}.
Arguments ra_lock {R}. Arguments regions {R}. Arguments total {R}. Arguments free {R}.
Arguments ra_allocated {R}. Arguments ra_quarantine_random {R}.
Arguments ra_quarantine_queue {R}. Arguments ra_quarantine_queue_index {R}.
Arguments ra_rng {R}. Arguments ro_regions {R}. Arguments ro_regions_addr {R}.

(** ** The table by itself *)

(** hash_page(p) & mask and (index - 1) & mask *)
Definition home (mask p : Z) : Z := Z.land (hash_page p) mask.
Definition prev_index (mask i : Z) : Z := Z.land (u64 (i - 1)) mask.

(** Probe downwards from [i] until the key of a cell satisfies [stop]. *)
Fixpoint probe (fuel : nat) (stop : Z -> bool) (t : gmap Z region_metadata) (mask i : Z) : option Z :=
  match fuel with
  | O => None
  | S fuel => if stop (r_p t.[i]) then Some i else probe fuel stop t mask (prev_index mask i)
  end.

(** Put an entry in the first empty cell from its home. *)
Definition table_insert (total : Z) (t : gmap Z region_metadata) (e : region_metadata) :
  option (gmap Z region_metadata) :=
  let mask := u64 (total - 1) in
  match probe (Z.to_nat total) (fun q => q =? 0) t mask (home mask (r_p e)) with
  | Some index => Some t.[index <- e]
  | None => None
  end.

(** The cell where [regions_find] stops. *)
Definition table_find (total : Z) (t : gmap Z region_metadata) (p : Z) : option Z :=
  let mask := u64 (total - 1) in
  probe (Z.to_nat total) (fun r => (r =? p) || (r =? 0)) t mask (home mask p).

(** ra->regions[i].p = NULL; ra->regions[i].size = 0; *)
Definition clear_cell (t : gmap Z region_metadata) (i : Z) : gmap Z region_metadata :=
  t.[i <- RegionMetadata 0 0 (r_guard_size t.[i])].

(** The two nested loops of [regions_delete]: [j] is the cell just cleared, [i]
    the last cell looked at. *)
Fixpoint delete_loop (fuel : nat) (t : gmap Z region_metadata) (mask j i : Z) :
  option (gmap Z region_metadata) :=
  match fuel with
  | O => None
  | S fuel =>
      let i := prev_index mask i in
      if r_p t.[i] =? 0 then Some t
      else
        let r := home mask (r_p t.[i]) in
        if ((i <=? r) && (r <? j)) || ((r <? j) && (j <? i)) || ((j <? i) && (i <=? r))
        then delete_loop fuel t mask j i
        else
          let t := t.[j <- t.[i]] in
          let t := clear_cell t i in
          delete_loop fuel t mask i i
  end.

Definition table_delete (total : Z) (t : gmap Z region_metadata) (i : Z) :
  option (gmap Z region_metadata) :=
  delete_loop (Z.to_nat total) (clear_cell t i) (u64 (total - 1)) i i.

(** The reinsertion loop of [regions_grow] over the cells [cells] of [old]. *)
Fixpoint rehash (newtotal : Z) (old p : gmap Z region_metadata) (cells : list Z) :
  option (gmap Z region_metadata) :=
  match cells with
  | [] => Some p
  | i :: cells =>
      if r_p old.[i] =? 0 then rehash newtotal old p cells
      else match table_insert newtotal p old.[i] with
           | Some p => rehash newtotal old p cells
           | None => None
           end
  end.

(** ** The operations *)

Section Operations.
Context `{Cfg : Config} `{K : Kernel} {R : Type}.

Definition MAX_REGION_TABLE_SIZE : Z := CLASS_REGION_SIZE / PAGE_SIZE / sizeof_region_metadata.

Definition set_ra_lock (b : bool) (ra : region_allocator R) : region_allocator R :=
  RegionAllocator b (regions ra) (total ra) (free ra) (ra_allocated ra) (ra_quarantine_random ra)
    (ra_quarantine_queue ra) (ra_quarantine_queue_index ra) (ra_rng ra) (ro_regions ra) (ro_regions_addr ra).
Definition set_ra_free (n : Z) (ra : region_allocator R) : region_allocator R :=
  RegionAllocator (ra_lock ra) (regions ra) (total ra) n (ra_allocated ra) (ra_quarantine_random ra)
    (ra_quarantine_queue ra) (ra_quarantine_queue_index ra) (ra_rng ra) (ro_regions ra) (ro_regions_addr ra).
Definition set_ra_total (n : Z) (ra : region_allocator R) : region_allocator R :=
  RegionAllocator (ra_lock ra) (regions ra) n (free ra) (ra_allocated ra) (ra_quarantine_random ra)
    (ra_quarantine_queue ra) (ra_quarantine_queue_index ra) (ra_rng ra) (ro_regions ra) (ro_regions_addr ra).
Definition set_ra_regions (b : bool) (ra : region_allocator R) : region_allocator R :=
  RegionAllocator (ra_lock ra) b (total ra) (free ra) (ra_allocated ra) (ra_quarantine_random ra)
    (ra_quarantine_queue ra) (ra_quarantine_queue_index ra) (ra_rng ra) (ro_regions ra) (ro_regions_addr ra).
Definition set_ra_allocated (n : Z) (ra : region_allocator R) : region_allocator R :=
  RegionAllocator (ra_lock ra) (regions ra) (total ra) (free ra) n (ra_quarantine_random ra)
    (ra_quarantine_queue ra) (ra_quarantine_queue_index ra) (ra_rng ra) (ro_regions ra) (ro_regions_addr ra).
Definition set_ra_rng (r : R) (ra : region_allocator R) : region_allocator R :=
  RegionAllocator (ra_lock ra) (regions ra) (total ra) (free ra) (ra_allocated ra) (ra_quarantine_random ra)
    (ra_quarantine_queue ra) (ra_quarantine_queue_index ra) r (ro_regions ra) (ro_regions_addr ra).
Definition set_ra_quarantine (rnd q : gmap Z quarantine_info) (i : Z) (ra : region_allocator R) :
  region_allocator R :=
  RegionAllocator (ra_lock ra) (regions ra) (total ra) (free ra) (ra_allocated ra) rnd q i
    (ra_rng ra) (ro_regions ra) (ro_regions_addr ra).
Definition set_ro_regions (which : bool) (t : gmap Z region_metadata) (ra : region_allocator R) :
  region_allocator R :=
  RegionAllocator (ra_lock ra) (regions ra) (total ra) (free ra) (ra_allocated ra) (ra_quarantine_random ra)
    (ra_quarantine_queue ra) (ra_quarantine_queue_index ra) (ra_rng ra)
    (fun b => if Bool.eqb b which then t else ro_regions ra b) (ro_regions_addr ra).

(** ra->regions as an array *)
Definition ra_table (ra : region_allocator R) : gmap Z region_metadata := ro_regions ra (regions ra).

Definition get_ra : M (region_allocator R * world) (region_allocator R) := gets fst.
Definition modify_ra (f : region_allocator R -> region_allocator R) : M (region_allocator R * world) unit :=
  modify (fun s => (f (fst s), snd s)).

Definition SIZE_MAX : Z := 2 ^ 64 - 1.

(** The old table's pages become zero: a fixed anonymous mapping and
    MADV_DONTNEED both give zero pages, and the last resort is memset. *)
Definition regions_grow : M (region_allocator R * world) bool :=
  let* ra := get_ra in
  if total ra >? SIZE_MAX / sizeof_region_metadata / 2 then ret true else
  let newtotal := u64 (total ra * 2) in
  let newsize := u64 (newtotal * sizeof_region_metadata) in
  if newtotal >? MAX_REGION_TABLE_SIZE then ret true else
  let which := negb (regions ra) in
  let* prot := on_world (memory_protect_rw_metadata (ro_regions_addr ra which) newsize) in
  if prot then ret true else
  let* p := of_fuel (rehash newtotal (ra_table ra) (ro_regions ra which) (seqZ 0 (total ra))) in
  modify_ra (set_ro_regions which p) ;;;
  let old := ro_regions_addr ra (regions ra) in
  let oldsize := total ra * sizeof_region_metadata in
  let* mapfail := on_world (memory_map_fixed old oldsize) in
  (if mapfail
   then let* purgefail := on_world (memory_purge old oldsize) in
        modify_ra (set_ro_regions (regions ra) ∅)
   else modify_ra (set_ro_regions (regions ra) ∅) ;;;
        on_world (memory_set_name old oldsize "malloc allocator_state") ;;; ret tt) ;;;
  modify_ra (fun ra => set_ra_free (u64 (free ra + total ra)) ra) ;;;
  modify_ra (set_ra_total newtotal) ;;;
  modify_ra (set_ra_regions which) ;;;
  ret false.

Definition regions_insert (p size guard_size : Z) : M (region_allocator R * world) bool :=
  let* ra := get_ra in
  let* grow_failed := (if u64 (free ra * 4) <? total ra then regions_grow else ret false) in
  if grow_failed then ret true else
  let* ra := get_ra in
  let* t := of_fuel (table_insert (total ra) (ra_table ra) (RegionMetadata p size guard_size)) in
  modify_ra (set_ro_regions (regions ra) t) ;;;
  modify_ra (fun ra => set_ra_free (u64 (free ra - 1)) ra) ;;;
  ret false.

(** A pointer to a region is the index of its cell. *)
Definition regions_find (p : Z) : M (region_allocator R * world) (option Z) :=
  let* ra := get_ra in
  let* index := of_fuel (table_find (total ra) (ra_table ra) p) in
  let r := r_p (ra_table ra).[index] in
  ret (if (r =? p) && negb (r =? 0) then Some index else None).

Definition regions_delete (region : Z) : M (region_allocator R * world) unit :=
  modify_ra (fun ra => set_ra_free (u64 (free ra + 1)) ra) ;;;
  let* ra := get_ra in
  let* t := of_fuel (table_delete (total ra) (ra_table ra) region) in
  modify_ra (set_ro_regions (regions ra) t).

(** The region allocator part of [init_slow_path], on zeroed state pages. *)
Definition init_region_allocator (rng : R) (regions_a regions_b : Z) : region_allocator R :=
  RegionAllocator false false INITIAL_REGION_TABLE_SIZE INITIAL_REGION_TABLE_SIZE 0 ∅ ∅ 0 rng
    (fun _ => ∅) (fun b => if b then regions_b else regions_a).

(** ** Statistics, modulo 2^64 *)

Definition stats_large_allocate (size : Z) : M (region_allocator R * world) unit :=
  if CONFIG_STATS
  then modify_ra (fun ra => set_ra_allocated (u64 (ra_allocated ra + size)) ra) else ret tt.

Definition stats_large_deallocate (size : Z) : M (region_allocator R * world) unit :=
  if CONFIG_STATS
  then modify_ra (fun ra => set_ra_allocated (u64 (ra_allocated ra - size)) ra) else ret tt.
End Operations.
