(* ===== verification/RegionTable.v ===== *)
(** The hash table of [Regions] implements a finite map from the address of a
    large allocation to its size and guard size. *)

From S2P Require Import Prelude Config Util SizeClass Kernel RandomSource Regions.

(** ** Distances around the table

    [dist N a b] is the number of downward steps from cell [a] to cell [b]. *)

Definition dist (N a b : Z) : Z := (a - b) mod N.

Definition in_table (N i : Z) : Prop := 0 <= i < N.

Lemma dist_cases N a b :
  in_table N a -> in_table N b ->
  0 <= dist N a b < N /\ (dist N a b = a - b \/ dist N a b = a - b + N).
Proof.
  unfold in_table, dist. intros Ha Hb. split; [apply Z.mod_pos_bound; lia|].
  destruct (Z.le_gt_cases b a).
  - left. apply Z.mod_small. lia.
  - right. rewrite <- (Z_mod_plus_full _ 1), Z.mul_1_l. apply Z.mod_small. lia.
Qed.

(** Arithmetic around the table: every distance in sight is one of two values. *)
Ltac cyc :=
  repeat match goal with
  | H : forall _ : Z, _ |- _ => clear H
  end;
  repeat match goal with
  | H : context [dist ?N ?a ?b] |- _ =>
      lazymatch goal with
      | _ : 0 <= dist N a b < N /\ _ |- _ => fail
      | _ => pose proof (dist_cases N a b ltac:(assumption) ltac:(assumption))
      end
  | |- context [dist ?N ?a ?b] =>
      lazymatch goal with
      | _ : 0 <= dist N a b < N /\ _ |- _ => fail
      | _ => pose proof (dist_cases N a b ltac:(assumption) ltac:(assumption))
      end
  end; unfold in_table in *; lia.

Section Table.
Context (n N : Z) (Hn : 0 <= n < 63) (HN : N = 2 ^ n).

Lemma N_pos : 0 < N < 2 ^ 63.
Proof. rewrite HN. split; [apply pow2_pos; lia|]. apply Z.pow_lt_mono_r; lia. Qed.

Lemma mask_eq : u64 (N - 1) = N - 1.
Proof. pose proof N_pos. apply wrap_small. split; lia. Qed.

Lemma home_eq p : home (u64 (N - 1)) p = hash_page p mod N.
Proof. unfold home. rewrite mask_eq, HN. apply land_low_ones. lia. Qed.

Lemma home_in p : in_table N (home (u64 (N - 1)) p).
Proof. rewrite home_eq. pose proof N_pos. apply Z.mod_pos_bound. lia. Qed.

Lemma prev_index_eq i :
  in_table N i -> prev_index (u64 (N - 1)) i = if i =? 0 then N - 1 else i - 1.
Proof.
  unfold in_table. intros Hi. pose proof N_pos. unfold prev_index. rewrite mask_eq.
  replace (N - 1) with (2 ^ n - 1) at 1 by lia. rewrite land_low_ones, u64_mod_pow2, <- HN by lia.
  destruct (Z.eqb_spec i 0) as [->|].
  - rewrite <- (Z_mod_plus_full _ 1), Z.mul_1_l, Z.mod_small by lia. lia.
  - apply Z.mod_small. lia.
Qed.

Lemma prev_index_in i : in_table N i -> in_table N (prev_index (u64 (N - 1)) i).
Proof.
  intros Hi. rewrite prev_index_eq by done. unfold in_table in *. pose proof N_pos.
  destruct (Z.eqb_spec i 0); lia.
Qed.

#[local] Hint Resolve home_in prev_index_in : core.

Lemma dist_prev a i :
  in_table N a -> in_table N i -> dist N a i + 1 < N ->
  dist N a (prev_index (u64 (N - 1)) i) = dist N a i + 1.
Proof.
  intros Ha Hi Hlt. pose proof (prev_index_in i Hi) as Hp.
  pose proof (prev_index_eq i Hi) as E. destruct (Z.eqb_spec i 0); cyc.
Qed.

(** Walking down from [i] towards [e] gets one step closer. *)
Lemma dist_prev_l i e :
  in_table N i -> in_table N e -> i <> e ->
  dist N (prev_index (u64 (N - 1)) i) e = dist N i e - 1.
Proof.
  intros Hi He Hne. pose proof (prev_index_in i Hi) as Hp.
  pose proof (prev_index_eq i Hi) as E. destruct (Z.eqb_spec i 0); cyc.
Qed.

#[local] Opaque home prev_index dist.

(** ** Probing *)

Lemma probe_spec stop t e i fuel :
  in_table N i -> in_table N e -> stop (r_p t.[e]) = true -> dist N i e < Z.of_nat fuel ->
  exists k, probe fuel stop t (u64 (N - 1)) i = Some k /\ in_table N k /\
    stop (r_p t.[k]) = true /\
    (forall k', in_table N k' -> dist N i k' < dist N i k -> stop (r_p t.[k']) = false).
Proof.
  intros Hi He Hstop. revert i Hi. induction fuel as [|fuel IH]; intros i Hi Hd; [cyc|].
  cbn [probe]. destruct (stop (r_p t.[i])) eqn:Hs.
  - exists i. split; [done|]. split; [done|]. split; [done|]. intros k' Hk' Hlt. exfalso. cyc.
  - assert (Hne : i <> e) by (intros ->; congruence).
    pose proof (dist_prev_l i e Hi He Hne) as Hd'.
    destruct (IH (prev_index (u64 (N - 1)) i) ltac:(auto) ltac:(lia)) as (k & Hrun & Hk & Hsk & Hall).
    exists k. split; [done|]. split; [done|]. split; [done|]. intros k' Hk' Hlt.
    destruct (decide (k' = i)) as [->|Hki]; [done|].
    assert (Hik : i <> k) by (intros ->; congruence).
    apply Hall; [done|]. rewrite !dist_prev_l by done. lia.
Qed.

(** ** Well-formed tables *)

Definition occupied (t : gmap Z region_metadata) (i : Z) : Prop := r_p t.[i] <> 0.

(** The home cell of the entry in cell [i]. *)
Definition home_of (t : gmap Z region_metadata) (i : Z) : Z := home (u64 (N - 1)) (r_p t.[i]).

(** [k] is on the probe path of the entry in cell [i]. *)
Definition on_path (t : gmap Z region_metadata) (i k : Z) : Prop :=
  dist N (home_of t i) k <= dist N (home_of t i) i.

Definition keys_distinct (t : gmap Z region_metadata) : Prop :=
  forall i j, in_table N i -> in_table N j -> occupied t i -> r_p t.[i] = r_p t.[j] -> i = j.

(** No probe path crosses an empty cell, except for the cells in [hole]. *)
Definition paths_full (t : gmap Z region_metadata) (hole : Z -> Prop) : Prop :=
  forall i k, in_table N i -> in_table N k -> occupied t i -> on_path t i k -> ~ hole k -> occupied t k.

(** The entries of the table are the bindings of the map. *)
Definition entries (t : gmap Z region_metadata) (m : gmap Z (Z * Z)) : Prop :=
  forall p v, m !! p = Some v <->
    p <> 0 /\ exists i, in_table N i /\ t.[i] = RegionMetadata p v.1 v.2.

Record table_reps (t : gmap Z region_metadata) (m : gmap Z (Z * Z)) : Prop := {
  tr_distinct : keys_distinct t;
  tr_paths : paths_full t (fun _ => False);
  tr_entries : entries t m
}.

Lemma entries_occupied t m i :
  entries t m -> in_table N i -> occupied t i ->
  m !! r_p t.[i] = Some (r_size t.[i], r_guard_size t.[i]).
Proof.
  intros He Hi Ho. apply He. split; [done|]. exists i. split; [done|]. by destruct t.[i].
Qed.

Lemma home_of_in t i : in_table N (home_of t i).
Proof. apply home_in. Qed.
#[local] Hint Resolve home_of_in : core.

(** Fewer bindings than cells leave an empty cell. *)
Lemma empty_cell t m :
  table_reps t m -> Z.of_nat (size m) < N -> exists e, in_table N e /\ ~ occupied t e.
Proof.
  intros [Hd _ He] Hsize.
  destruct (decide (Exists (fun i => r_p t.[i] = 0) (seqZ 0 N))) as [Hex|Hall].
  - apply Exists_exists in Hex as (e & Hin%elem_of_seqZ & H0). exists e.
    split; [unfold in_table; lia|]. unfold occupied. lia.
  - exfalso. apply not_Exists_Forall in Hall; [|apply _]. rewrite Forall_forall in Hall.
    set (keys := (fun i => r_p t.[i]) <$> seqZ 0 N).
    assert (Hnd : NoDup keys).
    { apply NoDup_fmap_2_strong; [|apply NoDup_seqZ].
      intros i j Hi Hj Heq. specialize (Hall i Hi). apply elem_of_seqZ in Hi, Hj.
      apply Hd; unfold in_table; lia || done. }
    assert (Hsub : list_to_set (C := gset Z) keys ⊆ dom m).
    { intros p Hp%elem_of_list_to_set. apply list_elem_of_fmap in Hp as (i & -> & Hi).
      specialize (Hall i Hi). apply elem_of_seqZ in Hi.
      apply elem_of_dom. exists (r_size t.[i], r_guard_size t.[i]).
      apply entries_occupied; [done|unfold in_table; lia|done]. }
    apply subseteq_size in Hsub. rewrite size_list_to_set, size_dom in Hsub by done.
    unfold keys in Hsub. rewrite length_fmap, length_seqZ in Hsub. lia.
Qed.

(** ** Find *)

Lemma table_find_spec t m p :
  table_reps t m -> Z.of_nat (size m) < N ->
  exists k, table_find N t p = Some k /\ in_table N k /\
    match m !! p with
    | Some v => t.[k] = RegionMetadata p v.1 v.2
    | None => ~ occupied t k
    end.
Proof.
  intros Hrep Hsize. destruct (empty_cell t m Hrep Hsize) as (e & He & Hempty).
  destruct Hrep as [Hd Hpath Hent]. unfold table_find. cbv zeta.
  assert (He0 : r_p t.[e] = 0) by (unfold occupied in Hempty; lia).
  destruct (probe_spec (fun r => (r =? p) || (r =? 0)) t e (home (u64 (N - 1)) p) (Z.to_nat N))
    as (k & -> & Hk & Hstop & Hbefore); [auto|done| | |].
  - rewrite He0. by rewrite Z.eqb_refl, orb_true_r.
  - pose proof (home_in p). cyc.
  - exists k. split; [done|]. split; [done|]. destruct (m !! p) as [v|] eqn:Em.
    + apply Hent in Em as (Hp & i & Hi & Hti).
      destruct (decide (k = i)) as [->|Hne]; [done|]. exfalso.
      assert (Hkey : r_p t.[i] = p) by (by rewrite Hti).
      assert (Hhome : home_of t i = home (u64 (N - 1)) p) by (unfold home_of; by rewrite Hkey).
      apply orb_true_iff in Hstop as [Hkp%Z.eqb_eq|Hk0%Z.eqb_eq].
      * apply Hne, Hd; [done|done|unfold occupied; congruence|congruence].
      * destruct (Z.lt_ge_cases (dist N (home_of t i) i) (dist N (home_of t i) k)) as [Hlt|Hge].
        -- specialize (Hbefore i Hi). rewrite <- Hhome in Hbefore. specialize (Hbefore Hlt).
           rewrite Hkey, Z.eqb_refl in Hbefore. done.
        -- apply (Hpath i k Hi Hk); [unfold occupied; congruence|done|tauto|done].
    + intros Hocc. apply orb_true_iff in Hstop as [Hkp%Z.eqb_eq|Hk0%Z.eqb_eq]; [|done].
      pose proof (entries_occupied t m k Hent Hk Hocc) as E. congruence.
Qed.

(** ** Insert *)

Lemma entries_insert t m k p s g :
  entries t m -> in_table N k -> ~ occupied t k -> p <> 0 -> m !! p = None ->
  entries t.[k <- RegionMetadata p s g] (<[p := (s, g)]> m).
Proof.
  intros He Hk Hempty Hp Hm q v. rewrite lookup_insert. case_decide as Hpq; [subst q|].
  - split.
    + intros E. injection E as <-. split; [done|]. exists k. by rewrite aget_aset.
    + intros (_ & i & Hi & E). rewrite aget_aset_case in E. case_decide as Hki.
      * injection E as -> ->. by destruct v.
      * assert (m !! p = Some v) by (apply He; split; [done|by exists i]). congruence.
  - rewrite (He q v). split; intros (Hq & i & Hi & E); (split; [done|]); exists i; (split; [done|]).
    + rewrite aget_aset_ne; [done|]. intros ->. unfold occupied in Hempty. rewrite E in Hempty.
      cbn in Hempty. lia.
    + rewrite aget_aset_case in E. case_decide; [|done]. injection E as E' _ _. lia.
Qed.

Lemma keys_distinct_insert t k p s g :
  keys_distinct t -> (forall i, in_table N i -> r_p t.[i] <> p) ->
  keys_distinct t.[k <- RegionMetadata p s g].
Proof.
  intros Hd Hfresh i j Hi Hj Ho. unfold occupied in Ho.
  pose proof (Hfresh i Hi). pose proof (Hfresh j Hj).
  rewrite !aget_aset_case in *. repeat case_decide; cbn [r_p] in *; intros E; try congruence.
  apply Hd; done.
Qed.

Lemma paths_full_insert t k p s g :
  paths_full t (fun _ => False) -> in_table N k -> p <> 0 ->
  (forall k', in_table N k' -> dist N (home (u64 (N - 1)) p) k' < dist N (home (u64 (N - 1)) p) k ->
   occupied t k') ->
  paths_full t.[k <- RegionMetadata p s g] (fun _ => False).
Proof.
  intros Hpath Hk Hp Hbefore i k' Hi Hk' Ho Hon _. unfold occupied, on_path, home_of in *.
  rewrite !aget_aset_case in *. destruct (decide (k = k')); [by cbn [r_p]|].
  case_decide as Ei; cbn [r_p] in *.
  - apply Hbefore; [done|]. subst i. pose proof (home_in p). cyc.
  - apply (Hpath i k'); done || tauto.
Qed.

Lemma table_insert_spec t m p s g :
  table_reps t m -> Z.of_nat (size m) < N -> p <> 0 -> m !! p = None ->
  exists t', table_insert N t (RegionMetadata p s g) = Some t' /\
    table_reps t' (<[p := (s, g)]> m).
Proof.
  intros Hrep Hsize Hp Hm. destruct (empty_cell t m Hrep Hsize) as (e & He & Hempty).
  destruct Hrep as [Hd Hpath Hent]. unfold table_insert. cbv zeta. cbn [r_p].
  assert (He0 : r_p t.[e] = 0) by (unfold occupied in Hempty; lia).
  destruct (probe_spec (fun q => q =? 0) t e (home (u64 (N - 1)) p) (Z.to_nat N))
    as (k & -> & Hk & Hstop%Z.eqb_eq & Hbefore); [auto|done|by rewrite He0| |].
  { pose proof (home_in p). cyc. }
  assert (Hke : ~ occupied t k) by (unfold occupied; lia).
  exists t.[k <- RegionMetadata p s g]. split; [done|].
  assert (Hfresh : forall i, in_table N i -> r_p t.[i] <> p).
  { intros i Hi Hip. assert (Ho : occupied t i) by (unfold occupied; congruence).
    pose proof (entries_occupied t m i Hent Hi Ho). congruence. }
  split; [by apply keys_distinct_insert| |by apply entries_insert].
  apply paths_full_insert; [done..|]. intros k' Hk' Hlt.
  specialize (Hbefore k' Hk' Hlt). unfold occupied. lia.
Qed.

(** ** Changing the size of an entry *)

Lemma table_resize_spec t m k p s g s' :
  table_reps t m -> in_table N k -> t.[k] = RegionMetadata p s g -> p <> 0 ->
  table_reps t.[k <- RegionMetadata p s' g] (<[p := (s', g)]> m).
Proof.
  intros [Hd Hpath He] Hk Hc Hp. set (t' := t.[k <- RegionMetadata p s' g]).
  assert (Hrp : forall i, r_p t'.[i] = r_p t.[i]).
  { intros i. unfold t'. rewrite aget_aset_case. case_decide as Hki; [|done]. subst i. by rewrite Hc. }
  split.
  - intros i j Hi Hj. unfold occupied. rewrite !Hrp. by apply Hd.
  - intros i j Hi Hj. unfold occupied, on_path, home_of. rewrite !Hrp. by apply Hpath.
  - intros q v. rewrite lookup_insert. case_decide as Hpq; [subst q|].
    + split.
      * intros E. injection E as <-. split; [done|]. exists k. split; [done|]. apply aget_aset.
      * intros (_ & i & Hi & E). assert (k = i) as <-.
        { apply Hd; [done|done|unfold occupied; by rewrite Hc|]. rewrite <- (Hrp i), E, Hc. done. }
        unfold t' in E. rewrite aget_aset in E. injection E as -> ->. by destruct v.
    + rewrite (He q v). unfold t'. split; intros (Hq & i & Hi & E); (split; [done|]); exists i; (split; [done|]).
      * rewrite aget_aset_ne; [done|]. intros ->. rewrite Hc in E. injection E as E _ _. done.
      * rewrite aget_aset_case in E. case_decide; [|done]. injection E as E' _ _. done.
Qed.

(** ** Delete

    The loop invariant, for the hole [j] and the cursor [i]: the hole is the
    only empty cell that a probe path may cross, and the cells between hole and
    cursor are occupied by entries whose path avoids the hole. *)

Record hole_inv (t : gmap Z region_metadata) (m : gmap Z (Z * Z)) (j i : Z) : Prop := {
  hi_distinct : keys_distinct t;
  hi_paths : paths_full t (fun k => k = j);
  hi_entries : entries t m;
  hi_hole : ~ occupied t j;
  hi_between : forall k, in_table N k -> 0 < dist N j k <= dist N j i ->
    occupied t k /\ ~ on_path t k j
}.

(** The condition of the inner loop: the path of cell [i] avoids the hole. *)
Lemma delete_condition i j r :
  in_table N i -> in_table N j -> in_table N r -> i <> j ->
  ((i <=? r) && (r <? j)) || ((r <? j) && (j <? i)) || ((j <? i) && (i <=? r)) = true <->
  ~ dist N r j <= dist N r i.
Proof.
  intros Hi Hj Hr Hne. rewrite !orb_true_iff, !andb_true_iff, !Z.leb_le, !Z.ltb_lt.
  split; intros H; cyc.
Qed.

Lemma clear_cell_get t i k :
  (clear_cell t i).[k] = if decide (i = k) then RegionMetadata 0 0 (r_guard_size t.[i]) else t.[k].
Proof. apply aget_aset_case. Qed.

Lemma clear_cell_occupied t i k : occupied (clear_cell t i) k <-> i <> k /\ occupied t k.
Proof. unfold occupied. rewrite clear_cell_get. case_decide; cbn [r_p]; intuition. Qed.

Lemma clear_cell_ne t i k : occupied (clear_cell t i) k -> (clear_cell t i).[k] = t.[k].
Proof. intros [? _]%clear_cell_occupied. rewrite clear_cell_get. by case_decide. Qed.

Lemma keys_distinct_clear t i : keys_distinct t -> keys_distinct (clear_cell t i).
Proof.
  intros Hd a b Ha Hb Ho E. assert (Hob : occupied (clear_cell t i) b).
  { unfold occupied in *. congruence. }
  rewrite !clear_cell_ne in E by done. apply clear_cell_occupied in Ho as [_ Ho]. by apply Hd.
Qed.

Lemma entries_clear t m i :
  keys_distinct t -> entries t m -> in_table N i -> occupied t i ->
  entries (clear_cell t i) (delete (r_p t.[i]) m).
Proof.
  intros Hd He Hi Ho q v. rewrite lookup_delete. case_decide as Hq.
  - split; [done|]. intros (Hq0 & k & Hk & E).
    assert (Hok : occupied (clear_cell t i) k) by (unfold occupied; by rewrite E).
    rewrite clear_cell_ne in E by done. apply clear_cell_occupied in Hok as [Hne Hok].
    destruct Hne. apply Hd; [done..|]. by rewrite E.
  - rewrite (He q v). split; intros (Hq0 & k & Hk & E); (split; [done|]); exists k; (split; [done|]).
    + rewrite clear_cell_ne; [done|]. apply clear_cell_occupied. unfold occupied. rewrite E.
      split; [|done]. intros <-. by rewrite E in Hq.
    + rewrite <- (clear_cell_ne t i); [done|]. unfold occupied. by rewrite E.
Qed.

Lemma paths_full_clear t i :
  paths_full t (fun _ => False) -> paths_full (clear_cell t i) (fun k => k = i).
Proof.
  intros Hp a k Ha Hk Ho Hon Hne. unfold on_path, home_of in Hon.
  rewrite clear_cell_ne in Hon by done. apply clear_cell_occupied in Ho as [? Ho].
  apply clear_cell_occupied. split; [congruence|]. apply (Hp a k); tauto.
Qed.

Lemma hole_inv_start t m i :
  table_reps t m -> in_table N i -> occupied t i ->
  hole_inv (clear_cell t i) (delete (r_p t.[i]) m) i i.
Proof.
  intros [Hd Hp He] Hi Ho. split.
  - by apply keys_distinct_clear.
  - by apply paths_full_clear.
  - by apply entries_clear.
  - rewrite clear_cell_occupied. tauto.
  - intros k Hk ?. exfalso. cyc.
Qed.

(** Reaching an empty cell, the hole is on no path. *)
Lemma hole_inv_done t m j i :
  hole_inv t m j i -> in_table N i -> in_table N j -> dist N j i + 1 < N ->
  ~ occupied t (prev_index (u64 (N - 1)) i) -> table_reps t m.
Proof.
  intros [Hd Hp He Hh Hb] Hi Hj Hlt Hempty. split; [done| |done].
  pose proof (prev_index_in i Hi) as Hi'. pose proof (dist_prev j i Hj Hi Hlt) as Hd'.
  set (i' := prev_index (u64 (N - 1)) i) in *.
  intros a k Ha Hk Ho Hon _. destruct (decide (k = j)) as [->|Hne]; [|by apply (Hp a k)].
  exfalso. assert (Haj : a <> j) by (intros ->; done).
  assert (Hai : a <> i') by (intros ->; done).
  destruct (Z.le_gt_cases (dist N j a) (dist N j i)) as [Hle|Hgt].
  - apply (Hb a Ha); [|done]. cyc.
  - apply Hempty, (Hp a i' Ha Hi' Ho); [|intros E; rewrite E in *; cyc].
    unfold on_path in *. pose proof (home_of_in t a). cyc.
Qed.

Definition moved (t : gmap Z region_metadata) (j i : Z) : gmap Z region_metadata :=
  clear_cell t.[j <- t.[i]] i.

Lemma moved_get t j i k :
  i <> j ->
  (moved t j i).[k] = if decide (i = k) then RegionMetadata 0 0 (r_guard_size t.[i])
                      else if decide (j = k) then t.[i] else t.[k].
Proof.
  intros. unfold moved. rewrite clear_cell_get, !aget_aset_case. repeat case_decide; congruence.
Qed.

(** The cell of the old table whose entry is now in cell [k]. *)
Definition origin (j i k : Z) : Z := if decide (j = k) then i else k.

Lemma moved_occupied t j i k :
  i <> j -> occupied t i ->
  occupied (moved t j i) k <-> i <> k /\ occupied t (origin j i k).
Proof.
  intros. unfold occupied, origin. rewrite moved_get by done.
  repeat case_decide; cbn [r_p]; intuition.
Qed.

Lemma moved_ne t j i k :
  i <> j -> occupied t i -> occupied (moved t j i) k -> (moved t j i).[k] = t.[origin j i k].
Proof.
  intros ? ? [? _]%moved_occupied; [|done..]. unfold origin. rewrite moved_get by done.
  repeat case_decide; congruence.
Qed.

(** An entry on whose path the hole lies moves into the hole. *)
Lemma hole_inv_move t m j i0 i :
  hole_inv t m j i0 ->
  in_table N i -> in_table N j -> i <> j -> occupied t i -> on_path t i j ->
  hole_inv (moved t j i) m i i.
Proof.
  intros [Hd Hp He Hh _] Hi Hj Hne Ho Hon.
  assert (Hor : forall k, in_table N k -> in_table N (origin j i k)).
  { intros k Hk. unfold origin. by case_decide. }
  split.
  - intros a b Ha Hb Hoa E. assert (Hob : occupied (moved t j i) b).
    { unfold occupied in *. congruence. }
    rewrite !moved_ne in E by done.
    apply moved_occupied in Hoa as [Hia Hoa]; [|done..].
    apply moved_occupied in Hob as [Hib Hob]; [|done..].
    pose proof (Hd _ _ (Hor a Ha) (Hor b Hb) Hoa E) as E'. unfold origin in E'.
    repeat case_decide; congruence.
  - intros a k Ha Hk Hoa Hona Hki. unfold on_path, home_of in Hona. rewrite moved_ne in Hona by done.
    apply moved_occupied in Hoa as [Hia Hoa]; [|done..].
    apply moved_occupied; [done..|]. split; [congruence|].
    unfold origin in *. destruct (decide (j = k)) as [->|Hjk]; [done|].
    destruct (decide (j = a)) as [->|Hja].
    + apply (Hp i k Hi Hk Ho); [|congruence]. unfold on_path, home_of in *. lia.
    + apply (Hp a k Ha Hk Hoa); [done|congruence].
  - intros q v. rewrite (He q v). split; intros (Hq0 & k & Hk & E); (split; [done|]).
    + assert (Hok : occupied t k) by (unfold occupied; by rewrite E).
      exists (if decide (k = i) then j else k). split; [by case_decide|].
      assert (j <> k) by (intros ->; done).
      rewrite moved_get by done. repeat case_decide; congruence.
    + exists (origin j i k). split; [auto|]. rewrite <- moved_ne; [done..|].
      unfold occupied. by rewrite E.
  - rewrite moved_occupied by done. tauto.
  - intros k Hk ?. exfalso. cyc.
Qed.

(** Stepping over an entry whose path avoids the hole. *)
Lemma hole_inv_skip t m j i :
  hole_inv t m j i -> in_table N i -> in_table N j -> dist N j i + 1 < N ->
  occupied t (prev_index (u64 (N - 1)) i) -> ~ on_path t (prev_index (u64 (N - 1)) i) j ->
  hole_inv t m j (prev_index (u64 (N - 1)) i).
Proof.
  intros [Hd Hp He Hh Hb] Hi Hj Hlt Ho Hon. split; [done..|].
  intros k Hk Hdk. rewrite dist_prev in Hdk by done.
  destruct (decide (dist N j k <= dist N j i)); [apply Hb; [done|lia]|].
  pose proof (prev_index_in i Hi). pose proof (dist_prev j i Hj Hi Hlt).
  replace k with (prev_index (u64 (N - 1)) i) by cyc. done.
Qed.

Lemma delete_loop_spec fuel : forall t m j i e,
  hole_inv t m j i -> in_table N i -> in_table N j ->
  in_table N e -> e <> j -> ~ occupied t e -> dist N i e < Z.of_nat fuel ->
  exists t', delete_loop fuel t (u64 (N - 1)) j i = Some t' /\ table_reps t' m.
Proof.
  induction fuel as [|fuel IH]; intros t m j i e Hinv Hi Hj He Hej Hee Hd; [cyc|].
  assert (Hie : i <> e).
  { intros ->. apply Hee, (hi_between _ _ _ _ Hinv); [done|]. cyc. }
  assert (Hlt : dist N j i < dist N j e).
  { destruct (Z.lt_ge_cases (dist N j i) (dist N j e)) as [|Hge]; [done|].
    destruct Hee. apply (hi_between _ _ _ _ Hinv); [done|]. cyc. }
  assert (Hlt' : dist N j i + 1 < N) by cyc.
  pose proof (prev_index_in i Hi) as Hi'. pose proof (dist_prev j i Hj Hi Hlt') as Hd1.
  pose proof (dist_prev_l i e Hi He Hie) as Hd2.
  pose proof (hole_inv_skip t m j i Hinv Hi Hj Hlt') as Hskip.
  pose proof (hole_inv_done t m j i Hinv Hi Hj Hlt') as Hdone.
  cbn [delete_loop]. cbv zeta. set (i' := prev_index (u64 (N - 1)) i) in *.
  destruct (Z.eqb_spec (r_p t.[i']) 0) as [H0|H0].
  { exists t. split; [done|]. apply Hdone. unfold occupied. lia. }
  assert (Hne : i' <> j) by (intros E; rewrite E in *; cyc).
  pose proof (delete_condition i' j _ Hi' Hj (home_of_in t i') Hne) as Hc.
  unfold home_of in Hc at 1 2 3 4.
  revert Hc. match goal with |- context [if ?b then delete_loop _ _ _ _ _ else _] => destruct b eqn:Eb end; intros Hc.
  - apply proj1 in Hc. specialize (Hc eq_refl).
    apply IH with e; [|done..|lia]. apply Hskip; [done|exact Hc].
  - assert (Hon : on_path t i' j).
    { apply Z.nlt_ge. intros Hgt. destruct Hc as [_ Hc].
      by specialize (Hc (proj1 (Z.lt_nge _ _) Hgt)). }
    assert (Hei : e <> i') by (intros ->; done).
    change (clear_cell t.[j <- t.[i']] i') with (moved t j i').
    apply IH with e; [|done..| |lia].
    + by apply hole_inv_move with i.
    + rewrite moved_occupied by done. unfold origin. case_decide; [congruence|tauto].
Qed.

Lemma table_delete_spec t m i :
  table_reps t m -> Z.of_nat (size m) < N -> in_table N i -> occupied t i ->
  exists t', table_delete N t i = Some t' /\ table_reps t' (delete (r_p t.[i]) m).
Proof.
  intros Hrep Hsize Hi Ho. destruct (empty_cell t m Hrep Hsize) as (e & He & Hempty).
  assert (Hei : e <> i) by (intros ->; done).
  unfold table_delete. apply delete_loop_spec with e; [by apply hole_inv_start|done..| |].
  - rewrite clear_cell_occupied. tauto.
  - cyc.
Qed.

(** ** Rehash *)

Lemma table_reps_empty : table_reps ∅ ∅.
Proof.
  assert (He : forall i, r_p (∅ : gmap Z region_metadata).[i] = 0) by (intros; by rewrite aget_empty).
  split.
  - intros i j _ _ Ho. destruct Ho. apply He.
  - intros i k _ _ Ho. destruct Ho. apply He.
  - intros p v. rewrite lookup_empty. split; [done|]. intros (Hp & i & _ & E).
    specialize (He i). rewrite E in He. done.
Qed.

Lemma rehash_spec old cells : forall p m,
  table_reps p m -> NoDup cells ->
  (forall i j, i ∈ cells -> j ∈ cells -> r_p old.[i] <> 0 -> r_p old.[i] = r_p old.[j] -> i = j) ->
  (forall i, i ∈ cells -> r_p old.[i] <> 0 -> m !! r_p old.[i] = None) ->
  Z.of_nat (size m) + Z.of_nat (length cells) < N ->
  exists p' m', rehash N old p cells = Some p' /\ table_reps p' m' /\
    forall q v, m' !! q = Some v <->
      m !! q = Some v \/ (q <> 0 /\ exists i, i ∈ cells /\ old.[i] = RegionMetadata q v.1 v.2).
Proof.
  induction cells as [|i cells IH]; intros p m Hrep Hnd Hdist Hfresh Hsize.
  { exists p, m. split; [done|]. split; [done|]. intros q v. split; [by left|].
    intros [?|(_ & i & Hi & _)]; [done|by apply not_elem_of_nil in Hi]. }
  apply NoDup_cons in Hnd as [Hi Hnd]. cbn [length] in Hsize. cbn [rehash].
  assert (Hdist' : forall a b, a ∈ cells -> b ∈ cells -> r_p old.[a] <> 0 ->
    r_p old.[a] = r_p old.[b] -> a = b) by (intros; apply Hdist; by try apply list_elem_of_further).
  destruct (Z.eqb_spec (r_p old.[i]) 0) as [H0|H0].
  - destruct (IH p m) as (p' & m' & Hrun & Hrep' & Hm'); [done..| | |].
    { intros a Ha. apply Hfresh. by apply list_elem_of_further. }
    { lia. }
    exists p', m'. split; [done|]. split; [done|]. intros q v. rewrite Hm'.
    split; (intros [?|(? & a & Ha & E)]; [by left|right; split; [done|]; exists a; split; [|done]]).
    + by apply list_elem_of_further.
    + apply elem_of_cons in Ha as [->|]; [|done]. rewrite E in H0. done.
  - specialize (Hfresh i (list_elem_of_here _ _)) as Hmi. specialize (Hmi H0).
    destruct (table_insert_spec p m (r_p old.[i]) (r_size old.[i]) (r_guard_size old.[i]))
      as (p1 & Hins & Hrep1); [done|lia|done..|].
    replace (RegionMetadata (r_p old.[i]) (r_size old.[i]) (r_guard_size old.[i])) with old.[i] in Hins
      by (by destruct old.[i]). rewrite Hins.
    destruct (IH p1 (<[r_p old.[i] := (r_size old.[i], r_guard_size old.[i])]> m))
      as (p' & m' & Hrun & Hrep' & Hm'); [done..| | |].
    { intros a Ha Ha0. rewrite lookup_insert_ne; [|intros E].
      - apply Hfresh; [by apply list_elem_of_further|done].
      - apply Hi. rewrite (Hdist i a); [done|apply list_elem_of_here|by apply list_elem_of_further|done..]. }
    { rewrite map_size_insert_None by done. lia. }
    exists p', m'. split; [done|]. split; [done|]. intros q v. rewrite Hm', lookup_insert_Some.
    split.
    + intros [[[Hq <-]|[Hq ?]]|(? & a & Ha & E)]; [right|by left|right].
      * split; [congruence|]. exists i. split; [apply list_elem_of_here|]. rewrite <- Hq.
        by destruct old.[i].
      * split; [done|]. exists a. split; [by apply list_elem_of_further|done].
    + intros [Hq|(? & a & Ha & E)].
      * left. right. split; [|done]. intros <-. congruence.
      * apply elem_of_cons in Ha as [->|Ha]; [|by right; eauto]. left. left.
        rewrite E. split; [done|]. by destruct v.
Qed.
End Table.

(** Growing: every entry of the old table is put in a table twice the size. *)
Lemma rehash_grow n t m :
  0 <= n < 62 -> table_reps (2 ^ n) t m -> Z.of_nat (size m) < 2 ^ n ->
  exists p, rehash (2 ^ (n + 1)) t ∅ (seqZ 0 (2 ^ n)) = Some p /\ table_reps (2 ^ (n + 1)) p m.
Proof.
  intros Hn [Hd Hp He] Hsize. pose proof (pow2_pos n ltac:(lia)).
  assert (Hpow : 2 ^ (n + 1) = 2 * 2 ^ n) by (rewrite Z.pow_add_r by lia; lia).
  destruct (rehash_spec (n + 1) (2 ^ (n + 1)) ltac:(lia) eq_refl t (seqZ 0 (2 ^ n)) ∅ ∅)
    as (p & m' & Hrun & Hrep & Hm').
  - by apply table_reps_empty.
  - apply NoDup_seqZ.
  - intros i j Hi Hj Hi0 E. apply elem_of_seqZ in Hi, Hj. apply Hd; unfold in_table; done || lia.
  - intros. apply lookup_empty.
  - rewrite map_size_empty, length_seqZ. lia.
  - exists p. split; [done|]. replace m with m'; [done|]. apply map_eq. intros q. apply option_eq.
    intros v. rewrite Hm', (He q v), lookup_empty. split.
    + intros [?|(? & i & Hi & E)]; [done|]. split; [done|]. exists i. apply elem_of_seqZ in Hi.
      split; [unfold in_table; lia|done].
    + intros (? & i & Hi & E). right. split; [done|]. exists i.
      split; [apply elem_of_seqZ; unfold in_table in Hi; lia|done].
Qed.
