(* ===== verification/RegionMap.v ===== *)
(** The refinement of the region table: [regions_insert], [regions_find],
    [regions_delete] and [regions_grow] implement insertion, lookup and
    deletion on a finite map from addresses to (size, guard size). *)

From S2P Require Import Prelude Config Util SizeClass Kernel RandomSource Regions RegionTable.

(** [regions_inv ra m]: the allocator's table represents the map [m]. *)
Record regions_inv `{Config} {R} (ra : region_allocator R) (m : gmap Z (Z * Z)) : Prop := {
  ri_total : exists n, 7 <= n /\ total ra = 2 ^ n;
  ri_max : total ra <= MAX_REGION_TABLE_SIZE;
  ri_free : free ra = total ra - Z.of_nat (size m);
  ri_load : total ra <= 4 * (free ra + 1);
  ri_table : table_reps (total ra) (ra_table ra) m;
  ri_spare : ro_regions ra (negb (regions ra)) = ∅
}.

(** What the table operations leave alone. *)
Definition regions_frame {R} (ra ra' : region_allocator R) : Prop :=
  ra_lock ra' = ra_lock ra /\ ra_allocated ra' = ra_allocated ra /\
  ra_quarantine_random ra' = ra_quarantine_random ra /\
  ra_quarantine_queue ra' = ra_quarantine_queue ra /\
  ra_quarantine_queue_index ra' = ra_quarantine_queue_index ra /\
  ra_rng ra' = ra_rng ra /\ ro_regions_addr ra' = ro_regions_addr ra.

(** Only the pages of the table in use at the start may have been purged. *)
Definition regions_memory `{Kernel} {R} (ra : region_allocator R) (w w' : world) : Prop :=
  same_outside (ro_regions_addr ra (regions ra)) (total ra * sizeof_region_metadata) (mem w) (mem w').

Section Refinement.
Context `{Cok : ConfigOk} {K : Kernel} {Kok : KernelOk K} {R : Type}.
Implicit Types (ra : region_allocator R) (m : gmap Z (Z * Z)).

Lemma max_region_table_bound : MAX_REGION_TABLE_SIZE < 2 ^ 24.
Proof.
  pose proof (cb_crs config_facts) as Hc. unfold MAX_REGION_TABLE_SIZE, CLASS_REGION_SIZE.
  rewrite PAGE_SIZE_eq. unfold sizeof_region_metadata.
  apply Z.div_lt_upper_bound; [lia|]. apply Z.div_lt_upper_bound; lia.
Qed.

Lemma regions_inv_total ra m :
  regions_inv ra m ->
  exists n, 7 <= n < 24 /\ total ra = 2 ^ n /\ 128 <= total ra < 2 ^ 24 /\
    Z.of_nat (size m) < total ra.
Proof.
  intros [(n & Hn & Ht) Hmax Hfree Hload _ _]. exists n.
  pose proof max_region_table_bound. pose proof (Z.pow_le_mono_r 2 7 n ltac:(lia) Hn).
  split; [split; [done|]|lia]. apply (Z.pow_lt_mono_r_iff 2); lia.
Qed.

(** Reading and writing the two tables. *)
Lemma ra_table_set ra t : ra_table (set_ro_regions (regions ra) t ra) = t.
Proof. unfold ra_table. cbn. by rewrite eqb_reflx. Qed.

Lemma ra_spare_set ra t :
  ro_regions (set_ro_regions (regions ra) t ra) (negb (regions ra)) = ro_regions ra (negb (regions ra)).
Proof. cbn. by destruct (regions ra). Qed.

Lemma regions_frame_refl ra : regions_frame ra ra.
Proof. by repeat split. Qed.

Lemma same_outside_refl p n (mm : gmap Z Z) : same_outside p n mm mm.
Proof. by intros a. Qed.
#[local] Hint Resolve regions_frame_refl same_outside_refl : core.

(** A table of twice the size with the same entries. *)
Lemma regions_inv_grown ra ra' m t :
  regions_inv ra m -> total ra * 2 <= MAX_REGION_TABLE_SIZE -> table_reps (total ra * 2) t m ->
  total ra' = total ra * 2 -> free ra' = free ra + total ra -> ra_table ra' = t ->
  ro_regions ra' (negb (regions ra')) = ∅ -> regions_inv ra' m.
Proof.
  intros Hinv Hmax Ht E1 E2 E3 E4.
  destruct (regions_inv_total ra m Hinv) as (n & Hn & Htot & Hb & Hsz).
  destruct Hinv as [_ _ Hfree Hload _ _]. split; rewrite ?E1, ?E2, ?E3; try done; try lia.
  exists (n + 1). split; [lia|]. rewrite Htot, Z.pow_add_r by lia. lia.
Qed.

(** The postcondition of growing: nothing happened, or the table is twice as
    large and represents the same map. *)
Definition grow_post ra m w (failed : bool) (s : region_allocator R * world) : Prop :=
  regions_frame ra (fst s) /\ regions_memory ra w (snd s) /\ regions_inv (fst s) m /\
  if failed then fst s = ra /\ mem (snd s) = mem w
  else total (fst s) = total ra * 2 /\ free (fst s) = free ra + total ra.

Lemma grow_post_failed ra m w w' :
  regions_inv ra m -> mem w' = mem w -> grow_post ra m w true (ra, w').
Proof.
  intros. split; [done|]. split; [|done]. unfold regions_memory. cbn. by rewrite H0.
Qed.

(** The old table is cleared by a fixed mapping, a purge or memset. *)
Lemma wp_clear_old {B} (p n : Z) (b : bool) ra w0 (k : M (region_allocator R * world) B)
    (Q : B -> region_allocator R * world -> Prop) w :
  0 < n <= 2 ^ 63 -> mem w = mem w0 ->
  (forall w', same_outside p n (mem w0) (mem w') ->
   wp k Q memory_fatal (set_ro_regions b ∅ ra, w')) ->
  wp (let* mapfail := on_world (memory_map_fixed p n) in
      (if mapfail
       then let* purgefail := on_world (memory_purge p n) in
            modify_ra (set_ro_regions b ∅)
       else modify_ra (set_ro_regions b ∅) ;;;
            on_world (memory_set_name p n "malloc allocator_state") ;;; ret tt) ;;;
      k)
     Q memory_fatal (ra, w).
Proof.
  intros Hn Hw HQ. apply wp_bind, wp_on_world.
  eapply wp_conseq; [by apply wp_memory_map_fixed_prot|]. intros mapfail w1 Hc. apply wp_bind. destruct mapfail; cbn in *.
  - destruct Hc as [Hc _]. apply wp_bind, wp_on_world. eapply wp_conseq; [by apply wp_memory_purge|].
    intros [] w2 Hc2; cbn in *; apply HQ; rewrite <- Hw.
    + destruct Hc2 as [Hc2 _]. congruence || (rewrite Hc2, Hc; apply same_outside_refl).
    + rewrite <- Hc. by destruct Hc2.
  - apply wp_bind, wp_modify. cbn. apply wp_bind, wp_on_world.
    eapply wp_conseq; [apply wp_memory_set_name|]. cbn. intros _ w2 E.
    apply HQ. rewrite E, <- Hw. by destruct Hc.
Qed.

Lemma wp_regions_grow ra m w :
  regions_inv ra m -> wp regions_grow (grow_post ra m w) memory_fatal (ra, w).
Proof.
  intros Hinv. destruct (regions_inv_total ra m Hinv) as (n & Hn & Htot & Hb & Hsz).
  pose proof max_region_table_bound as Hmaxb.
  unfold regions_grow, get_ra. repeat wp_step; [by apply grow_post_failed|by apply grow_post_failed|].
  cbn [fst snd] in *. apply wp_on_world.
  assert (Hnt : u64 (total ra * 2) = total ra * 2) by (apply wrap_small; split; lia).
  rewrite Hnt in *. rewrite Z.gtb_ltb in Hb1. apply Z.ltb_ge in Hb1.
  eapply wp_conseq; [apply wp_memory_protect_prot|]. intros prot w1 [Hw1 _]. cbn [fst snd].
  wp_step; [by apply grow_post_failed|].
  destruct (rehash_grow n (ra_table ra) m) as (t & Hrun & Ht); [lia| |lia|].
  { rewrite <- Htot. by apply ri_table. }
  assert (Hpow : 2 ^ (n + 1) = total ra * 2) by (rewrite Htot, Z.pow_add_r by lia; lia).
  rewrite Hpow, <- Htot in *. wp_step. eapply wp_of_fuel.
  { rewrite (ri_spare ra m Hinv). exact Hrun. }
  apply wp_bind. unfold modify_ra at 1. apply wp_modify. cbn [fst snd].
  cbv zeta. apply wp_clear_old with (w0 := w); [unfold sizeof_region_metadata; lia|done|].
  intros w2 Hw2. unfold modify_ra. repeat wp_step. cbn.
  split; [by repeat split|]. split; [exact Hw2|].
  assert (Hft : u64 (free ra + total ra) = free ra + total ra).
  { destruct Hinv as [_ _ Hfree _ _ _]. apply wrap_small. split; lia. }
  cbn. split; [|done]. apply (regions_inv_grown ra _ m t); try done.
  - unfold ra_table. cbn. by destruct (regions ra).
  - cbn. by destruct (regions ra).
Qed.

(** Insertion *)
Lemma regions_inv_insert ra m t p v :
  regions_inv ra m -> total ra <= 4 * free ra -> m !! p = None ->
  table_reps (total ra) t (<[p := v]> m) ->
  regions_inv (set_ra_free (free ra - 1) (set_ro_regions (regions ra) t ra)) (<[p := v]> m).
Proof.
  intros Hinv Hfree Hm Ht. destruct Hinv as [Htot Hmax Hf Hload _ Hs]. split; cbn.
  - done.
  - done.
  - rewrite map_size_insert_None by done. lia.
  - lia.
  - by rewrite <- (ra_table_set ra t) in Ht.
  - rewrite <- Hs. by destruct (regions ra).
Qed.

Definition insert_post ra m p v w (failed : bool) (s : region_allocator R * world) : Prop :=
  regions_frame ra (fst s) /\ regions_memory ra w (snd s) /\
  if failed then fst s = ra /\ mem (snd s) = mem w
  else regions_inv (fst s) (<[p := v]> m).

(** Insertion first makes sure that a quarter of the cells is free. *)
Definition room_post ra m w (failed : bool) (s : region_allocator R * world) : Prop :=
  if failed then fst s = ra /\ mem (snd s) = mem w
  else regions_frame ra (fst s) /\ regions_memory ra w (snd s) /\
       regions_inv (fst s) m /\ total (fst s) <= 4 * free (fst s).

Lemma wp_make_room ra m w :
  regions_inv ra m ->
  wp (if u64 (free ra * 4) <? total ra then regions_grow else ret false)
     (room_post ra m w) memory_fatal (ra, w).
Proof.
  intros Hinv. destruct (regions_inv_total ra m Hinv) as (n & Hn & Htot & Hb & Hsz).
  pose proof (ri_free ra m Hinv) as Hfree.
  assert (Hf4 : u64 (free ra * 4) = free ra * 4) by (apply wrap_small; split; lia).
  rewrite Hf4. wp_step.
  - eapply wp_conseq; [by apply wp_regions_grow|]. intros [] s1 (Hfr & Hmem & Hinv1 & H); [done|].
    split; [done|]. split; [done|]. split; [done|]. destruct H as [-> ->]. lia.
  - apply wp_ret. split; [done|]. split; [by apply same_outside_refl|]. split; [done|]. cbn.
    apply Z.ltb_ge in Hb0. lia.
Qed.

Lemma wp_regions_insert ra m p size guard_size w :
  regions_inv ra m -> p <> 0 -> m !! p = None ->
  wp (regions_insert p size guard_size) (insert_post ra m p (size, guard_size) w) memory_fatal (ra, w).
Proof.
  intros Hinv Hp Hm. unfold regions_insert, get_ra. do 3 wp_step. cbn [fst snd].
  eapply wp_conseq; [by apply wp_make_room|]. intros failed [ra1 w1] H. cbn beta.
  destruct failed; cbn [room_post fst snd] in H.
  { destruct H as [-> Hw]. apply wp_ret. split; [done|]. split; [|done].
    unfold regions_memory. cbn. by rewrite Hw. }
  destruct H as (Hfr & Hmem & Hinv1 & Hload).
  destruct (regions_inv_total ra1 m Hinv1) as (n1 & Hn1 & Htot1 & Hb1 & Hsz1).
  destruct (table_insert_spec n1 (total ra1) ltac:(lia) Htot1 (ra_table ra1) m p size guard_size)
    as (t & Hrun & Ht); [by apply ri_table|lia|done|done|].
  unfold modify_ra. do 3 wp_step. cbn [fst snd]. eapply wp_of_fuel; [exact Hrun|].
  repeat wp_step. cbn [fst snd]. split; [done|]. split; [done|]. cbn.
  pose proof (ri_free ra1 m Hinv1).
  assert (Hf1 : u64 (free ra1 - 1) = free ra1 - 1) by (apply wrap_small; split; lia).
  rewrite Hf1. by apply regions_inv_insert.
Qed.

(** Deletion and lookup *)
Lemma regions_inv_delete ra m t p v :
  regions_inv ra m -> m !! p = Some v -> table_reps (total ra) t (delete p m) ->
  regions_inv (set_ro_regions (regions ra) t (set_ra_free (free ra + 1) ra)) (delete p m).
Proof.
  intros Hinv Hm Ht. destruct Hinv as [Htot Hmax Hf Hload _ Hs]. split; cbn.
  - done.
  - done.
  - rewrite map_size_delete_Some by eauto. assert (size m <> 0)%nat; [|lia].
    intros E%map_size_empty_inv. rewrite E, lookup_empty in Hm. done.
  - lia.
  - unfold ra_table. cbn. by rewrite eqb_reflx.
  - rewrite <- Hs. by destruct (regions ra).
Qed.

(** [cell_of ra i p v]: cell [i] of the table in use holds the binding of [p]. *)
Definition cell_of ra (i p : Z) (v : Z * Z) : Prop :=
  in_table (total ra) i /\ (ra_table ra).[i] = RegionMetadata p v.1 v.2.

Lemma wp_regions_find ra m p w :
  regions_inv ra m ->
  wp (regions_find p)
     (fun r s => s = (ra, w) /\
        match r with
        | Some i => exists v, m !! p = Some v /\ cell_of ra i p v
        | None => m !! p = None
        end) no_halt (ra, w).
Proof.
  intros Hinv. destruct (regions_inv_total ra m Hinv) as (n & Hn & Htot & Hb & Hsz).
  pose proof (ri_table ra m Hinv) as Ht.
  unfold regions_find, get_ra. do 3 wp_step. cbn [fst].
  destruct (table_find_spec n (total ra) ltac:(lia) Htot (ra_table ra) m p) as (k & Hrun & Hk & Hcase);
    [done|lia|].
  eapply wp_of_fuel; [exact Hrun|]. apply wp_ret. split; [done|]. destruct (m !! p) as [v|] eqn:Em.
  - rewrite Hcase. cbn [r_p]. assert (p <> 0) by (by apply (tr_entries _ _ _ Ht) in Em as [? _]).
    rewrite Z.eqb_refl, (proj2 (Z.eqb_neq p 0)) by done. exists v. done.
  - assert (r_p (ra_table ra).[k] = 0) as -> by (unfold occupied in Hcase; lia).
    by rewrite Z.eqb_refl, andb_false_r.
Qed.

Lemma wp_regions_delete ra m i p v w :
  regions_inv ra m -> m !! p = Some v -> cell_of ra i p v ->
  wp (regions_delete i)
     (fun _ s => regions_frame ra (fst s) /\ snd s = w /\ regions_inv (fst s) (delete p m))
     no_halt (ra, w).
Proof.
  intros Hinv Hm [Hi Hcell]. destruct (regions_inv_total ra m Hinv) as (n & Hn & Htot & Hb & Hsz).
  pose proof (ri_table ra m Hinv) as Ht.
  assert (Hp : p <> 0) by (by apply (tr_entries _ _ _ Ht) in Hm as [? _]).
  destruct (table_delete_spec n (total ra) ltac:(lia) Htot (ra_table ra) m i) as (t & Hrun & Ht');
    [done|lia|done|unfold occupied; by rewrite Hcell|].
  rewrite Hcell in Ht'. cbn [r_p] in Ht'. pose proof (ri_free ra m Hinv) as Hfree.
  assert (Hf1 : u64 (free ra + 1) = free ra + 1) by (apply wrap_small; split; lia).
  unfold regions_delete, modify_ra, get_ra. repeat wp_step. cbn [fst snd]. rewrite Hf1.
  eapply wp_of_fuel; [exact Hrun|]. repeat wp_step. cbn [fst snd].
  split; [done|]. split; [done|]. by apply (regions_inv_delete ra m t p v).
Qed.

(** The tables of a fresh allocator are empty. *)
Lemma regions_inv_init (rng : R) a b : regions_inv (init_region_allocator rng a b) ∅.
Proof.
  pose proof (cb_crs config_facts) as Hc.
  split; cbn; unfold INITIAL_REGION_TABLE_SIZE; rewrite ?map_size_empty; try done || lia.
  - by exists 7.
  - unfold MAX_REGION_TABLE_SIZE, CLASS_REGION_SIZE. rewrite PAGE_SIZE_eq. unfold sizeof_region_metadata.
    apply Z.div_le_lower_bound; [lia|]. apply Z.div_le_lower_bound; lia.
  - apply table_reps_empty.
Qed.

(** ** Properties *)

(** C33: [regions_find] always returns, changes nothing, and finds the cell that
    holds the size and guard size of [p] exactly when [p] is in the map that the
    table represents; otherwise it returns NULL. *)
Theorem regions_find_refines ra m p w :
  regions_inv ra m ->
  exists r, regions_find p (ra, w) = Ret r (ra, w) /\
    match r with
    | Some i => exists size guard_size, m !! p = Some (size, guard_size) /\
                  (ra_table ra).[i] = RegionMetadata p size guard_size
    | None => m !! p = None
    end.
Proof.
  intros Hinv. destruct (wp_no_halt _ _ _ (wp_regions_find ra m p w Hinv)) as (r & s & Hrun & -> & H).
  exists r. split; [done|]. destruct r as [i|]; [|done].
  destruct H as ([size guard_size] & Hm & _ & Hc). by exists size, guard_size.
Qed.

(** C32: [regions_insert] of a new address either adds the binding, doubling the
    table first when fewer than a quarter of the cells are free, or reports
    failure with the allocator and memory unchanged. It never loops for ever:
    the only other outcome is the abort of a system call wrapper. *)
Theorem regions_insert_refines ra m p size guard_size w :
  regions_inv ra m -> p <> 0 -> m !! p = None ->
  match regions_insert p size guard_size (ra, w) with
  | Ret false (ra', w') => regions_inv ra' (<[p := (size, guard_size)]> m) /\
                             regions_frame ra ra' /\ regions_memory ra w w'
  | Ret true (ra', w') => ra' = ra /\ mem w' = mem w
  | Halt h => memory_fatal h
  end.
Proof.
  intros Hinv Hp Hm. pose proof (wp_regions_insert ra m p size guard_size w Hinv Hp Hm) as H.
  unfold wp in H. destruct (regions_insert _ _ _ _) as [[] [ra' w']|h]; [by apply H| |done].
  by destruct H as (? & ? & ?).
Qed.

(** C31: [regions_delete] of the cell of [p] always returns with exactly that
    binding removed: moving later entries back keeps every other entry
    reachable, whatever the order of the cells around the wrap-around. *)
Theorem regions_delete_refines ra m i p size guard_size w :
  regions_inv ra m -> m !! p = Some (size, guard_size) -> in_table (total ra) i ->
  (ra_table ra).[i] = RegionMetadata p size guard_size ->
  exists ra', regions_delete i (ra, w) = Ret tt (ra', w) /\
    regions_inv ra' (delete p m) /\ regions_frame ra ra'.
Proof.
  intros Hinv Hm Hi Hc.
  destruct (wp_no_halt _ _ _ (wp_regions_delete ra m i p (size, guard_size) w Hinv Hm (conj Hi Hc)))
    as ([] & [ra' w'] & Hrun & Hf & Hw & Hinv'). cbn in *. subst w'. by exists ra'.
Qed.

(** [regions_grow] either fails with nothing changed, or rehashes the same
    entries into a table of exactly twice the size, accounts for the new free
    cells and leaves the old table zero, ready for the next growth. *)
Theorem regions_grow_refines ra m w :
  regions_inv ra m ->
  match regions_grow (ra, w) with
  | Ret false (ra', w') => regions_inv ra' m /\ total ra' = 2 * total ra /\
                             free ra' = free ra + total ra /\ regions_memory ra w w'
  | Ret true (ra', w') => ra' = ra /\ mem w' = mem w
  | Halt h => memory_fatal h
  end.
Proof.
  intros Hinv. pose proof (wp_regions_grow ra m w Hinv) as H. unfold wp in H.
  destruct (regions_grow _) as [[] [ra' w']|h]; [by apply H| |done].
  destruct H as (_ & Hmem & Hinv' & Ht & Hf). cbn in *. rewrite Ht. split; [done|].
  split; [lia|]. split; [done|]. done.
Qed.

End Refinement.

(** ** Witnesses *)

Section Witnesses.
#[local] Existing Instance default_config.

Definition demo_ra : region_allocator Z := init_region_allocator 0 65536 131072.

(** The allocator after inserting one allocation. *)
Definition demo_ra1 : region_allocator Z :=
  match regions_insert 4096 8192 12288 (demo_ra, demo_world []) with
  | Ret _ s => fst s
  | Halt _ => demo_ra
  end.

Lemma demo_ra1_inv : regions_inv demo_ra1 {[4096 := (8192, 12288)]}.
Proof.
  pose proof (wp_regions_insert demo_ra ∅ 4096 8192 12288 (demo_world []) (regions_inv_init _ _ _)
    ltac:(lia) (lookup_empty _)) as H.
  unfold demo_ra1. unfold wp in H.
  assert (Hok : match regions_insert 4096 8192 12288 (demo_ra, demo_world []) with
                | Ret b _ => b = false | Halt _ => False end) by (vm_compute; done).
  destruct (regions_insert _ _ _ _) as [[] s|h]; [done| |done].
  destruct H as (_ & _ & H). by rewrite insert_empty in H.
Qed.

Lemma regions_insert_refines_witness :
  match regions_insert 4096 8192 12288 (demo_ra, demo_world []) with
  | Ret b (ra', w') => b = false /\ regions_inv ra' {[4096 := (8192, 12288)]}
  | Halt h => False
  end.
Proof.
  pose proof (regions_insert_refines demo_ra ∅ 4096 8192 12288 (demo_world []) (regions_inv_init _ _ _)
    ltac:(lia) (lookup_empty _)) as H.
  assert (Hok : match regions_insert 4096 8192 12288 (demo_ra, demo_world []) with
                | Ret b _ => b = false | Halt _ => False end) by (vm_compute; done).
  destruct (regions_insert _ _ _ _) as [[] [ra' w']|h]; [done| |done].
  split; [done|]. destruct H as (H & _). by rewrite insert_empty in H.
Defined.

Lemma regions_find_refines_witness :
  exists i, regions_find 4096 (demo_ra1, demo_world []) = Ret (Some i) (demo_ra1, demo_world []) /\
    (ra_table demo_ra1).[i] = RegionMetadata 4096 8192 12288.
Proof.
  destruct (regions_find_refines demo_ra1 {[4096 := (8192, 12288)]} 4096 (demo_world []) demo_ra1_inv)
    as ([i|] & Hrun & H); [|done].
  exists i. split; [done|]. destruct H as (size & guard_size & Hm & Hc).
  rewrite Hc. rewrite lookup_singleton in Hm. by injection Hm as <- <-.
Defined.

Lemma regions_delete_refines_witness :
  exists ra', regions_delete (home 127 4096) (demo_ra1, demo_world []) = Ret tt (ra', demo_world []) /\
    regions_inv ra' ∅.
Proof.
  destruct (regions_delete_refines demo_ra1 {[4096 := (8192, 12288)]} (home 127 4096) 4096 8192 12288
    (demo_world []) demo_ra1_inv) as (ra' & Hrun & Hinv & _).
  - done.
  - split; vm_compute; [discriminate|reflexivity].
  - vm_compute. reflexivity.
  - exists ra'. split; [exact Hrun|]. by rewrite delete_singleton in Hinv.
Defined.

Lemma regions_grow_refines_witness :
  match regions_grow (demo_ra1, demo_world []) with
  | Ret b (ra', _) => b = false /\ total ra' = 256 /\ regions_inv ra' {[4096 := (8192, 12288)]}
  | Halt _ => False
  end.
Proof.
  pose proof (regions_grow_refines demo_ra1 {[4096 := (8192, 12288)]} (demo_world []) demo_ra1_inv) as H.
  assert (Hok : match regions_grow (demo_ra1, demo_world []) with
                | Ret b _ => b = false | Halt _ => False end) by (vm_compute; done).
  assert (Ht : total demo_ra1 = 128) by (vm_compute; done).
  destruct (regions_grow _) as [[] [ra' w']|h]; [done| |done].
  destruct H as (H & E & _). rewrite Ht in E. done.
Defined.
End Witnesses.
