(* ===== verification/Large.v ===== *)
(** Large allocations (h_malloc.c, [get_guard_size], [allocate_large],
    [deallocate_large], [regions_quarantine_deallocate_pages] and the large paths
    of [allocate_aligned] and [h_realloc]). Programs run on the region allocator
    and the machine. *)

From S2P Require Import Prelude Config Util SizeClass Kernel Maps Pages RandomSource Regions.

(** if (unlikely(!is_init())) fatal_error(...); on the [slab_region_end] of [ro]. *)
Definition is_init (slab_region_end : Z) : bool := negb (slab_region_end =? 0).
Definition enforce_init {S} (slab_region_end : Z) : M S unit :=
  if negb (is_init slab_region_end) then fatal_error "invalid uninitialized allocator usage" else ret tt.

(** What the large part of [h_realloc] leaves to do: nothing, with the result
    [p], or a copy of the contents of an allocation of [old_size] bytes. *)
Inductive realloc_step : Type :=
| Reallocated (p : Z)
| CopyNeeded (old_size : Z).

Section Large.
Context `{Cfg : Config} `{K : Kernel} {R : Type} `{!RandomSource R}.

Definition LM (A : Type) : Type := M (region_allocator R * world) A.

Definition with_ra_rng {A} (m : M (R * world) A) : LM A :=
  zoom (fun s => (ra_rng (fst s), snd s)) (fun t s => (set_ra_rng (fst t) (fst s), snd t)) m.

(** mutex_lock(&ra->lock) and mutex_unlock(&ra->lock) *)
Definition region_lock : LM unit :=
  let* ra := get_ra in
  if ra_lock ra then stuck else modify_ra (set_ra_lock true).
Definition region_unlock : LM unit := modify_ra (set_ra_lock false).

Definition get_guard_size (size : Z) : M (R * world) Z :=
  let* v := get_random_u64_uniform (size / PAGE_SIZE / GUARD_SIZE_DIVISOR) in
  ret (u64 (u64 (v + 1) * PAGE_SIZE)).

(** The parts that [allocate_large] and [allocate_aligned] share, by critical
    sections: draw a guard size; enter the block at [p] in the table, or give its
    pages back. *)
Definition draw_guard_size (size : Z) : LM Z :=
  region_lock ;;;
  let* guard_size := with_ra_rng (get_guard_size size) in
  region_unlock ;;;
  ret guard_size.

Definition enter_large (p size guard_size : Z) : LM bool :=
  region_lock ;;;
  let* insert_failed := regions_insert p size guard_size in
  (if insert_failed then ret tt else stats_large_allocate size) ;;;
  region_unlock ;;;
  ret insert_failed.

Definition register_large (p size guard_size : Z) : LM bool :=
  let* insert_failed := enter_large p size guard_size in
  if insert_failed then on_world (deallocate_pages p size guard_size) ;;; ret true else ret false.

Definition allocate_large (size : Z) : LM Z :=
  let size := get_large_size_class size in
  if size =? 0 then on_world (set_errno ENOMEM) ;;; ret 0 else
  let* guard_size := draw_guard_size size in
  let* p := on_world (allocate_pages size guard_size true "malloc large") in
  if p =? 0 then ret 0 else
  let* insert_failed := register_large p size guard_size in
  if insert_failed then on_world (set_errno ENOMEM) ;;; ret 0 else ret p.

(** The branch of [allocate_aligned] for an alignment above the page size: its
    return value and the pointer it stores through [memptr]. *)
Definition allocate_aligned_large (alignment size : Z) : LM (Z * option Z) :=
  let size := get_large_size_class size in
  if size =? 0 then ret (ENOMEM, None) else
  let* guard_size := draw_guard_size size in
  let* p := on_world (allocate_pages_aligned size alignment guard_size "malloc large") in
  if p =? 0 then ret (ENOMEM, None) else
  let* insert_failed := register_large p size guard_size in
  if insert_failed then ret (ENOMEM, None) else ret (0, Some p).

(** ** The region quarantine *)

(** The random array: [None] when the block stays there, or what leaves. *)
Definition region_quarantine_random_swap (target : quarantine_info) : LM (option quarantine_info) :=
  if 0 <? REGION_QUARANTINE_RANDOM_LENGTH then
    let* index := with_ra_rng (get_random_u64_uniform REGION_QUARANTINE_RANDOM_LENGTH) in
    let* ra := get_ra in
    let random_substitute := (ra_quarantine_random ra).[index] in
    modify_ra (fun ra => set_ra_quarantine (ra_quarantine_random ra).[index <- target]
                           (ra_quarantine_queue ra) (ra_quarantine_queue_index ra) ra) ;;;
    ret (if q_p random_substitute =? 0 then None else Some random_substitute)
  else ret (Some target).

Definition region_quarantine_queue_swap (target : quarantine_info) : LM quarantine_info :=
  if 0 <? REGION_QUARANTINE_QUEUE_LENGTH then
    let* ra := get_ra in
    let queue_substitute := (ra_quarantine_queue ra).[ra_quarantine_queue_index ra] in
    modify_ra (fun ra => set_ra_quarantine (ra_quarantine_random ra)
                           (ra_quarantine_queue ra).[ra_quarantine_queue_index ra <- target]
                           ((ra_quarantine_queue_index ra + 1) mod REGION_QUARANTINE_QUEUE_LENGTH) ra) ;;;
    ret queue_substitute
  else ret target.

(** The contents of a quarantined block are dropped: fresh inaccessible pages in
    its place, or cleared pages when that fails. *)
Definition drop_contents (p size : Z) : M world unit :=
  let* map_failed := memory_map_fixed p size in
  if map_failed then
    let* purge_failed := memory_purge p size in
    if purge_failed then
      let* w := gets id in
      set_mem (memset0 p size (mem w))
    else ret tt
  else memory_set_name p size "malloc large quarantine" ;;; ret tt.

(** Both arrays, under the lock: the range that leaves the quarantine, if any. *)
Definition region_quarantine_swap (target : quarantine_info) : LM (option quarantine_info) :=
  region_lock ;;;
  let* random_substitute := region_quarantine_random_swap target in
  match random_substitute with
  | None => region_unlock ;;; ret None
  | Some target =>
      let* target := region_quarantine_queue_swap target in
      region_unlock ;;;
      ret (Some target)
  end.

Definition unmap_target (target : option quarantine_info) : M world unit :=
  match target with
  | Some target => if negb (q_p target =? 0) then memory_unmap (q_p target) (q_size target) ;;; ret tt else ret tt
  | None => ret tt
  end.

Definition regions_quarantine_deallocate_pages (p size guard_size : Z) : LM unit :=
  if negb REGION_QUARANTINE || (size >=? REGION_QUARANTINE_SKIP_THRESHOLD)
  then on_world (deallocate_pages p size guard_size)
  else
    on_world (drop_contents p size) ;;;
    let* target := region_quarantine_swap (QuarantineInfo (u64 (p - guard_size)) (u64 (size + u64 (guard_size * 2)))) in
    on_world (unmap_target target).

(** The critical section of [deallocate_large]: the size and the guard size of the
    block at [p], which leaves the table. *)
Definition remove_large (p : Z) (expected_size : option Z) : LM (Z * Z) :=
  region_lock ;;;
  let* region := regions_find p in
  match region with
  | None => fatal_error "invalid free"
  | Some region =>
      let* ra := get_ra in
      let size := r_size (ra_table ra).[region] in
      match expected_size with
      | Some e => if negb (size =? get_large_size_class e)
                  then fatal_error "sized deallocation mismatch (large)" else ret tt
      | None => ret tt
      end ;;;
      let guard_size := r_guard_size (ra_table ra).[region] in
      regions_delete region ;;;
      stats_large_deallocate size ;;;
      region_unlock ;;;
      ret (size, guard_size)
  end.

Definition deallocate_large (slab_region_end p : Z) (expected_size : option Z) : LM unit :=
  enforce_init slab_region_end ;;;
  let* block := remove_large p expected_size in
  regions_quarantine_deallocate_pages p (fst block) (snd block).

(** ** Reallocation *)

(** region->size = size; *)
Definition set_region_size (region size : Z) (ra : region_allocator R) : region_allocator R :=
  let e := (ra_table ra).[region] in
  set_ro_regions (regions ra) (ra_table ra).[region <- RegionMetadata (r_p e) size (r_guard_size e)] ra.

(** The second lookup of [h_realloc], which cannot miss in a sequential run. *)
Definition find_for_realloc (old : Z) : LM Z :=
  let* region := regions_find old in
  match region with
  | None => fatal_error "invalid realloc"
  | Some region => ret region
  end.

Definition shrink_large (old old_size old_guard_size size : Z) : LM Z :=
  let new_end := u64 (old + size) in
  let* map_failed := on_world (memory_map_fixed new_end old_guard_size) in
  if map_failed then ret 0 else
  on_world (memory_set_name new_end old_guard_size "malloc large") ;;;
  let new_guard_end := u64 (new_end + old_guard_size) in
  regions_quarantine_deallocate_pages new_guard_end (u64 (old_size - size)) 0 ;;;
  region_lock ;;;
  let* region := find_for_realloc old in
  modify_ra (set_region_size region size) ;;;
  stats_large_deallocate (u64 (old_size - size)) ;;;
  region_unlock ;;;
  ret old.

Definition move_large (old old_size old_guard_size size copy_size : Z) : LM Z :=
  let* new := allocate_large size in
  if new =? 0 then ret 0 else
  region_lock ;;;
  let* region := find_for_realloc old in
  regions_delete region ;;;
  stats_large_deallocate old_size ;;;
  region_unlock ;;;
  let* remap_failed := on_world (memory_remap_fixed old old_size new size) in
  (if remap_failed then
     let* w := gets snd in
     on_world (set_mem (memcpy new old copy_size (mem w))) ;;;
     on_world (deallocate_pages old old_size old_guard_size)
   else
     on_world (memory_unmap (u64 (old - old_guard_size)) old_guard_size) ;;;
     on_world (memory_unmap (u64 (old + page_align old_size)) old_guard_size) ;;; ret tt) ;;;
  ret new.

Definition realloc_large (slab_region_end old size : Z) : LM realloc_step :=
  enforce_init slab_region_end ;;;
  region_lock ;;;
  let* region := find_for_realloc old in
  let* ra := get_ra in
  let old_size := r_size (ra_table ra).[region] in
  let old_guard_size := r_guard_size (ra_table ra).[region] in
  if old_size =? size then region_unlock ;;; ret (Reallocated old) else
  region_unlock ;;;
  if size >? max_slab_size_class then
    if size <? old_size then
      let* p := shrink_large old old_size old_guard_size size in ret (Reallocated p)
    else
      let copy_size := min size old_size in
      if copy_size >=? MREMAP_MOVE_THRESHOLD then
        let* p := move_large old old_size old_guard_size size copy_size in ret (Reallocated p)
      else ret (CopyNeeded old_size)
  else ret (CopyNeeded old_size).

End Large.
