(* ===== verification/LargeInv.v ===== *)
(** Who owns the address space: the allocator's state pages, the rest of the
    process the region allocator must not touch, every block of the table with its
    guards, and every range in the region quarantine. The invariant of the region
    allocator is that all of these are mapped and pairwise disjoint. *)

From S2P Require Import Prelude Config Util SizeClass Kernel Maps Pages RandomSource Regions RegionTable RegionMap Large.

Inductive owner : Type :=
| OState
| ORest
| OBlock (p : Z)
| ORandom (k : Z)
| OQueue (k : Z)
| OPending.

#[export] Instance owner_eq_dec : EqDecision owner.
Proof. solve_decision. Defined.

(** ** Ownership of addresses *)

Section Ownership.
Context `{K : Kernel}.
Implicit Types (own : owner -> Z -> Prop) (k : kstate).

Record ownership k own : Prop := {
  ow_mapped : forall o a, own o a -> mapped k a;
  ow_disjoint : forall o o' a, own o a -> own o' a -> o = o'
}.

(** Exchange two owners. *)
Definition exchange (x y o : owner) : owner :=
  if decide (o = x) then y else if decide (o = y) then x else o.

Lemma exchange_inj x y o o' : exchange x y o = exchange x y o' -> o = o'.
Proof. unfold exchange. repeat case_decide; congruence. Qed.

(** A range changes hands; nothing is unmapped. *)
Lemma ownership_exchange x y k k' own own' :
  ownership k own -> maps_grow k k' -> (forall o a, own' o a -> own (exchange x y o) a) -> ownership k' own'.
Proof.
  intros [Hm Hd] Hk Hown. split.
  - intros o a Ho. by eapply Hk, Hm, Hown.
  - intros o o' a Ho Ho'. eapply (exchange_inj x y), Hd; by apply Hown.
Qed.

Lemma ownership_mono k k' own own' :
  ownership k own -> maps_grow k k' -> (forall o a, own' o a -> own o a) -> ownership k' own'.
Proof. intros [Hm Hd] Hk Hown. split; intros; [by eapply Hk, Hm, Hown|by eapply Hd; apply Hown]. Qed.

(** A range that was not mapped gets an owner. *)
Lemma ownership_add x (r : Z -> Prop) k k' own own' :
  ownership k own -> maps_grow k k' -> (forall a, r a -> mapped k' a /\ ~ mapped k a) ->
  (forall o a, own' o a -> own o a \/ o = x /\ r a) -> ownership k' own'.
Proof.
  intros [Hm Hd] Hk Hr Hown. split.
  - intros o a [Ho|[_ Ho]]%Hown; [by eapply Hk, Hm|by apply Hr].
  - intros o o' a Ho Ho'. apply Hown in Ho as [Ho|[-> Ho]], Ho' as [Ho'|[-> Ho']]; [by eapply Hd|..|done];
      edestruct Hr as [_ Hn]; try done; destruct Hn; by eapply Hm.
Qed.

(** A range of [x] is divided between [x] and [y], which held nothing. *)
Lemma ownership_split x y k k' own own' :
  ownership k own -> maps_grow k k' -> (forall a, ~ own y a) ->
  (forall o a, own' o a -> own o a \/ o = y /\ own x a) -> (forall a, own' x a -> own' y a -> False) ->
  ownership k' own'.
Proof.
  intros [Hm Hd] Hk Hy Hown Hxy. split.
  - intros o a [Ho|[_ Ho]]%Hown; by eapply Hk, Hm.
  - intros o o' a Ho Ho'. pose proof (Hown _ _ Ho) as [H1|[-> H1]]; pose proof (Hown _ _ Ho') as [H2|[-> H2]].
    + by eapply Hd.
    + assert (o = x) as -> by by eapply Hd. by destruct (Hxy a).
    + assert (o' = x) as -> by by eapply Hd. by destruct (Hxy a).
    + done.
Qed.

(** A range is unmapped and has no owner any more. *)
Lemma ownership_drop x k k' own own' :
  ownership k own -> (forall a, mapped k a -> ~ own x a -> mapped k' a) ->
  (forall o a, own' o a -> own o a /\ o <> x) -> ownership k' own'.
Proof.
  intros [Hm Hd] Hk Hown. split.
  - intros o a [Ho Hx]%Hown. apply Hk; [by eapply Hm|]. intros Hox. by destruct Hx; eapply Hd.
  - intros o o' a Ho Ho'. eapply Hd; by apply Hown.
Qed.
End Ownership.

(** ** The owners of a region allocator *)

Definition quarantine_range (q : quarantine_info) (a : Z) : Prop := q_p q <> 0 /\ pages (q_p q) (q_size q) a.

(** [m] is the map of the table; [pend] what a running deallocation holds. *)
Definition owned `{Config} {R} (rest : Z -> Prop) (ra : region_allocator R) (m : gmap Z (Z * Z))
    (pend : option quarantine_info) (o : owner) (a : Z) : Prop :=
  match o with
  | OState => exists b, pages (ro_regions_addr ra b) (MAX_REGION_TABLE_SIZE * sizeof_region_metadata) a
  | ORest => rest a
  | OBlock p => exists v, m !! p = Some v /\ block p v.1 v.2 a
  | ORandom k => quarantine_range (ra_quarantine_random ra).[k] a
  | OQueue k => quarantine_range (ra_quarantine_queue ra).[k] a
  | OPending => exists q, pend = Some q /\ quarantine_range q a
  end.

(** An allocation: a block between guards whose size is a large size class. *)
Definition large_class `{Config} (size : Z) : Prop := exists request, fits 64 request /\ size = get_large_size_class request.

Definition large_block `{Config} (p size guard : Z) : Prop :=
  held_block p size guard /\ 0 < guard /\ large_class size.

(** A range that munmap accepts. *)
Definition valid_range (q : quarantine_info) : Prop := q_p q <> 0 -> 0 < q_size q <= 2 ^ 63.

(** [mt] is the map of the table and [m] that of the blocks; they differ only
    while a reallocation shrinks a block. *)
Record large_state `{Config} `{Kernel} {R} `{!RandomSource R} (rest : Z -> Prop) (ra : region_allocator R)
    (mt m : gmap Z (Z * Z)) (pend : option quarantine_info) (w : world) : Prop := {
  lb_rng : random_inv (ra_rng ra);
  lb_regions : regions_inv ra mt;
  lb_held : forall p size guard, m !! p = Some (size, guard) -> large_block p size guard;
  lb_random : forall k, valid_range (ra_quarantine_random ra).[k];
  lb_queue : forall k, valid_range (ra_quarantine_queue ra).[k];
  lb_pend : forall q, pend = Some q -> valid_range q;
  lb_index : 0 <= ra_quarantine_queue_index ra < Z.max 1 REGION_QUARANTINE_QUEUE_LENGTH;
  lb_own : ownership (kern w) (owned rest ra m pend)
}.

Abbreviation large_body rest ra m := (large_state rest ra m m).

(** Between critical sections: [m] maps the address of every large allocation to
    its size and guard size. *)
Definition large_unlocked `{Config} `{Kernel} {R} `{!RandomSource R} (rest : Z -> Prop) (ra : region_allocator R)
    (mt m : gmap Z (Z * Z)) (w : world) : Prop :=
  ra_lock ra = false /\ large_state rest ra mt m None w.

Abbreviation large_inv rest ra m := (large_unlocked rest ra m m).

(** The memory that a call must leave alone: the rest of the process and the
    allocations in [m]. *)
Definition kept (rest : Z -> Prop) (m : gmap Z (Z * Z)) (a : Z) : Prop :=
  rest a \/ exists p v, m !! p = Some v /\ block p v.1 v.2 a.

Definition kept_memory (rest : Z -> Prop) (m : gmap Z (Z * Z)) (mm mm' : gmap Z Z) : Prop :=
  forall a, kept rest m a -> mm'.[a] = mm.[a].
