(* ===== verification/LargeAlloc.v ===== *)
(** Allocating large blocks: guard sizes, registration in the table, and the
    invariant of the address space. *)

From S2P Require Import Prelude Config Util SizeClass Kernel Maps Pages RandomSource Regions RegionTable RegionMap Large LargeInv.

(** One step of a program on the region allocator. *)
Ltac la_step := unfold get_ra, modify_ra, region_unlock; wp_step; cbn [fst snd].

Section RegionMaps.
Context {Cfg : Config} {K : Kernel} {Kok : KernelOk K} {R : Type} `{!RandomSource R} `{!RandomSourceOk R}.

#[export] Instance keeps_modify_ra f : KeepsMaps (modify_ra (R := R) f).
Proof. unfold modify_ra. keeps. Qed.
#[export] Instance keeps_get_ra : KeepsMaps (get_ra (R := R)).
Proof. unfold get_ra. keeps. Qed.
#[export] Instance keeps_with_ra_rng {A} (m : M (R * world) A) : KeepsMaps m -> KeepsMaps (with_ra_rng m).
Proof. intros Hm s. unfold with_ra_rng. apply wp_zoom. apply Hm. Qed.
#[export] Instance keeps_regions_grow : KeepsMaps (regions_grow (R := R)).
Proof. unfold regions_grow. keeps. Qed.
#[export] Instance keeps_regions_insert p s g : KeepsMaps (regions_insert (R := R) p s g).
Proof. unfold regions_insert. keeps. Qed.
#[export] Instance keeps_drop_contents p n : KeepsMaps (drop_contents p n).
Proof. unfold drop_contents. keeps. Qed.
#[export] Instance keeps_get_guard_size n : KeepsMaps (get_guard_size (R := R) n).
Proof. unfold get_guard_size. keeps. Qed.
End RegionMaps.

(** Any large size class is at least the request, or 0 for no such class. *)
Lemma large_class_holds `{Cok : ConfigOk} sz :
  fits 64 sz -> get_large_size_class sz = 0 \/ sz <= get_large_size_class sz < 2 ^ 64 /\ 0 < get_large_size_class sz.
Proof.
  intros [H0 H1]. destruct (Z.leb_spec sz 16384) as [Hle|Hgt].
  - unfold get_large_size_class. destruct CONFIG_LARGE_SIZE_CLASSES.
    + right. rewrite max_spec, PAGE_SIZE_eq. pose proof max_slab_size_class_bounds as Hmax.
      assert (Hsz : 0 < Z.max sz 4096 <= max_slab_size_class) by lia.
      destruct (get_size_info_class _ Hsz) as (Hc & Ht & _ & Hge). rewrite <- Ht in *.
      assert (Hcl : 0 <= si_class (get_size_info (Z.max sz 4096)) < N_SIZE_CLASSES) by lia.
      pose proof (size_classes_at_le _ Hcl). lia.
    + destruct (page_align_spec sz) as (? & _); rewrite PAGE_SIZE_eq in *; lia.
  - destruct (get_large_size_class_spec sz) as [Hin Hout]; [lia|].
    destruct (Z.le_gt_cases sz (if CONFIG_LARGE_SIZE_CLASSES then 7 * 2 ^ 61 else 2 ^ 64 - PAGE_SIZE)) as [Hle|Hlt].
    + right. apply Hin in Hle as ((? & ?) & _ & _). lia.
    + left. apply Hout. lia.
Qed.

Section Alloc.
Context {Cfg : Config} {Cok : ConfigOk Cfg} {K : Kernel} {Kok : KernelOk K} {R : Type}.
Context `{!RandomSource R} `{!RandomSourceOk R}.
Implicit Types (ra : region_allocator R) (m : gmap Z (Z * Z)) (w : world).

(** Whole pages, at least one, and not more than fit in size_t. *)
Definition guard_ok (g : Z) : Prop := fits 64 g /\ (PAGE_SIZE | g) /\ 0 < g.

Lemma wp_get_guard_size size (s : R * world) :
  fits 64 size -> random_inv (fst s) ->
  wp (get_guard_size size)
     (fun g s' => guard_ok g /\ random_inv (fst s') /\ mem (snd s') = mem (snd s)) random_halts s.
Proof.
  intros [Hs0 Hs1] Hr. unfold get_guard_size. pose proof (cb_gsd config_facts) as Hd.
  rewrite PAGE_SIZE_eq. set (b := size / 4096 / GUARD_SIZE_DIVISOR).
  assert (Hb : 0 <= b < 2 ^ 52).
  { split; [repeat apply Z.div_pos; lia|]. unfold b. apply Z.div_lt_upper_bound; [lia|].
    assert (size / 4096 < 2 ^ 52) by (apply Z.div_lt_upper_bound; lia). nia. }
  apply wp_bind. apply (wp_conseq _ (drawn (fun v => 0 <= v < Z.max 1 b) s)).
  - destruct (decide (b = 0)) as [->|Hb0].
    + eapply wp_conseq; [by apply u64_uniform_zero|]. intros v s' (-> & ?). split; [lia|done].
    + rewrite Z.max_r by lia. apply u64_uniform_ok; [done|lia].
  - intros v s' (Hv & Hr' & Hm). apply wp_ret. split; [|done].
    rewrite (wrap_small 64 (v + 1)), wrap_small by (split; lia).
    split; [split; lia|]. split; [by exists (v + 1)|lia].
Qed.

(** ** Frames *)

(** The fields that ownership and the table do not see differ. *)
Record same_owned ra ra' : Prop := {
  so_addr : ro_regions_addr ra' = ro_regions_addr ra;
  so_random : ra_quarantine_random ra' = ra_quarantine_random ra;
  so_queue : ra_quarantine_queue ra' = ra_quarantine_queue ra;
  so_index : ra_quarantine_queue_index ra' = ra_quarantine_queue_index ra
}.

Lemma same_owned_own ra ra' rest m pend o a :
  same_owned ra ra' -> owned rest ra' m pend o a <-> owned rest ra m pend o a.
Proof. intros [Ha Hr Hq _]. destruct o; cbn; rewrite ?Ha, ?Hr, ?Hq; done. Qed.

Lemma regions_inv_same ra ra' m :
  regions_inv ra m -> total ra' = total ra -> free ra' = free ra -> regions ra' = regions ra ->
  ro_regions ra' = ro_regions ra -> regions_inv ra' m.
Proof.
  intros [] Ht Hf Hr Ho. unfold ra_table in *. split; unfold ra_table; rewrite ?Ht, ?Hf, ?Hr, ?Ho; done.
Qed.

Lemma large_body_update rest ra ra' mt mt' m pend w w' :
  large_state rest ra mt m pend w -> same_owned ra ra' -> random_inv (ra_rng ra') -> regions_inv ra' mt' ->
  maps_grow (kern w) (kern w') -> large_state rest ra' mt' m pend w'.
Proof.
  intros [] Hs Hr Hinv Hk. split; try done.
  - intros k. by rewrite (so_random _ _ Hs).
  - intros k. by rewrite (so_queue _ _ Hs).
  - by rewrite (so_index _ _ Hs).
  - eapply ownership_mono; [done|done|]. intros o a Ho. by apply (same_owned_own ra ra').
Qed.

(** Statistics, the lock and the generator. *)
Lemma large_body_quiet rest ra ra' mt m pend w w' :
  large_state rest ra mt m pend w -> same_owned ra ra' -> random_inv (ra_rng ra') ->
  total ra' = total ra -> free ra' = free ra -> regions ra' = regions ra -> ro_regions ra' = ro_regions ra ->
  maps_grow (kern w) (kern w') -> large_state rest ra' mt m pend w'.
Proof. intros Hb ? ? ? ? ? ? ?. eapply large_body_update; try done. eapply regions_inv_same; [apply Hb|done..]. Qed.

(** Everything with an owner but the allocator's own state is as before. *)
Definition steady rest ra m pend w w' : Prop :=
  forall o a, o <> OState -> owned rest ra m pend o a -> (mem w').[a] = (mem w).[a].

Lemma steady_kept rest ra m pend w w' : steady rest ra m pend w w' -> kept_memory rest m (mem w) (mem w').
Proof. intros Hs a [Ha|(p & v & Hp)]; [by apply (Hs ORest)|]. apply (Hs (OBlock p)); [done|]. by exists v. Qed.

Lemma undisturbed_steady rest ra mt m pend w w' :
  large_state rest ra mt m pend w -> undisturbed w w' -> steady rest ra m pend w w'.
Proof. intros Hb [_ Hm] o a _ Ho. apply Hm. by eapply (ow_mapped _ _ (lb_own _ _ _ _ _ _ Hb)). Qed.

(** A table operation only changes pages of the allocator's state. *)
Lemma regions_memory_steady rest ra m pend w w' :
  large_body rest ra m pend w -> regions_memory ra w w' -> steady rest ra m pend w w'.
Proof.
  intros Hb Hm o a Hne Ho. destruct (decide ((mem w').[a] = (mem w).[a])) as [|Hch]; [done|].
  assert (Hin : owned rest ra m pend OState a); [|by destruct Hne; eapply (ow_disjoint _ _ (lb_own _ _ _ _ _ _ Hb))].
  exists (regions ra). destruct (regions_inv_total ra m (lb_regions _ _ _ _ _ _ Hb)) as (n & _ & _ & Htot & _).
  pose proof (ri_max _ _ (lb_regions _ _ _ _ _ _ Hb)) as Hmax. pose proof max_region_table_bound as Hmb.
  unfold regions_memory, same_outside, sizeof_region_metadata, pages in *.
  assert (Hmono : page_align (total ra * 24) <= page_align (MAX_REGION_TABLE_SIZE * 24)).
  { destruct (page_align_spec (total ra * 24)) as (_ & _ & ->); [rewrite PAGE_SIZE_eq; lia|].
    destruct (page_align_spec (MAX_REGION_TABLE_SIZE * 24)) as (_ & _ & ->); [rewrite PAGE_SIZE_eq; lia|].
    rewrite PAGE_SIZE_eq. apply Z.mul_le_mono_nonneg_r; [lia|]. apply Z.div_le_mono; lia. }
  apply dec_stable. intros Hout. apply Hch, Hm. lia.
Qed.

(** ** Steps *)

(** The draw of a guard size under the lock. *)
Lemma wp_draw_guard_size rest ra m w size :
  large_inv rest ra m w -> fits 64 size ->
  wp (draw_guard_size size)
     (fun g s' => guard_ok g /\ large_inv rest (fst s') m (snd s') /\ mem (snd s') = mem w /\ maps_grow (kern w) (kern (snd s')))
     system_halts (ra, w).
Proof.
  intros [Hlock Hb] Hsize. unfold draw_guard_size, region_lock. do 3 la_step. rewrite Hlock. la_step. unfold with_ra_rng.
  do 2 la_step. eapply wp_mono; [apply wp_keeps; [apply _|]; apply wp_get_guard_size; [done|apply Hb]| |intros h Hh; by left].
  intros g [r1 w1] [(Hg & Hr1 & Hm1) Hgrow]. cbn [fst snd] in *. do 3 la_step.
  split; [done|]. split; [|done]. split; [done|]. by eapply large_body_quiet.
Qed.

(** The range of a block with its guards, as the quarantine records it. *)
Definition block_range (p size guard : Z) : quarantine_info := QuarantineInfo (p - guard) (size + 2 * guard).

Lemma block_range_pages p size guard a :
  held_block p size guard -> quarantine_range (block_range p size guard) a <-> block p size guard a.
Proof.
  intros Hb. pose proof (held_block_range p size guard a Hb) as (_ & _ & _ & Hr). unfold quarantine_range. cbn.
  pose proof (hb_pos _ _ _ Hb). rewrite Hr. split; [tauto|]. split; [lia|done].
Qed.

Lemma block_range_valid p size guard : held_block p size guard -> valid_range (block_range p size guard).
Proof. intros Hb _. by destruct (held_block_range p size guard 0 Hb) as (_ & _ & ? & _). Qed.

Lemma fresh_block_held p size guard w w' :
  fresh_block p size guard w w' -> 0 < size -> guard_ok guard -> held_block p size guard.
Proof. intros [] Hs (_ & Hp & Hg). by split; try lia. Qed.

(** A fresh block is pending until it is registered. *)
Lemma large_body_fresh rest ra m w p size guard w' :
  large_body rest ra m None w -> fresh_block p size guard w w' -> held_block p size guard ->
  large_body rest ra m (Some (block_range p size guard)) w'.
Proof.
  intros Hb Hf Hh. destruct Hb. split; try done.
  - intros q [= <-]. by apply block_range_valid.
  - eapply (ownership_add OPending (block p size guard)); [done| | |].
    + by apply (fresh_block_undisturbed p size guard w w').
    + intros a Ha. split; [apply (fb_maps _ _ _ _ _ Hf); by right|by apply (fb_fresh _ _ _ _ _ Hf)].
    + intros o a Ho. destruct o; try (by left). right. split; [done|].
      destruct Ho as (q & [= <-] & Hq). by apply block_range_pages.
Qed.

(** The pages of a pending block are in no allocation. *)
Lemma pending_not_mapped rest ra m w p size guard :
  large_body rest ra m (Some (block_range p size guard)) w -> held_block p size guard -> m !! p = None.
Proof.
  intros Hb Hh. destruct (m !! p) as [[s g]|] eqn:Hm; [|done]. exfalso.
  assert (H1 : owned rest ra m (Some (block_range p size guard)) (OBlock p) p).
  { exists (s, g). split; [done|]. destruct (proj1 (lb_held _ _ _ _ _ _ Hb p s g Hm)) as [? ? ? [? ?] ? ?]. unfold block. cbn. lia. }
  assert (H2 : owned rest ra m (Some (block_range p size guard)) OPending p).
  { exists (block_range p size guard). split; [done|]. apply block_range_pages; [done|].
    destruct Hh as [? ? ? [? ?] ? ?]. unfold block. lia. }
  by pose proof (ow_disjoint _ _ (lb_own _ _ _ _ _ _ Hb) _ _ _ H1 H2).
Qed.

(** A pending block enters the table. *)
Lemma large_body_register rest ra ra' m w p size guard w' :
  large_body rest ra m (Some (block_range p size guard)) w -> large_block p size guard ->
  same_owned ra ra' -> random_inv (ra_rng ra') -> regions_inv ra' (<[p := (size, guard)]> m) ->
  maps_grow (kern w) (kern w') -> large_body rest ra' (<[p := (size, guard)]> m) None w'.
Proof.
  intros Hb [Hh Hl] Hs Hr Hinv Hk. pose proof (pending_not_mapped _ _ _ _ _ _ _ Hb Hh) as Hm. split; try done.
  - intros q s g. destruct (decide (q = p)) as [->|Hne]; [by rewrite lookup_insert_eq; intros [= <- <-]|].
    rewrite lookup_insert_ne by done. apply (lb_held _ _ _ _ _ _ Hb).
  - intros k. rewrite (so_random _ _ Hs). apply Hb.
  - intros k. rewrite (so_queue _ _ Hs). apply Hb.
  - rewrite (so_index _ _ Hs). apply Hb.
  - eapply (ownership_exchange OPending (OBlock p)); [apply Hb|done|]. intros o a Ho.
    apply (same_owned_own ra ra') in Ho; [|done]. unfold exchange. destruct (decide (o = OPending)) as [->|Hne].
    { by destruct Ho as (q & [=] & _). }
    destruct (decide (o = OBlock p)) as [->|Hne'].
    + destruct Ho as (v & Hv & Ha). rewrite lookup_insert_eq in Hv. injection Hv as <-.
      exists (block_range p size guard). split; [done|]. by apply block_range_pages.
    + destruct o; try done. destruct Ho as (v & Hv & Ha). exists v.
      rewrite lookup_insert_ne in Hv by congruence. done.
Qed.

Lemma regions_frame_owned ra ra' : regions_frame ra ra' -> same_owned ra ra'.
Proof. by intros (_ & _ & ? & ? & ? & _ & ?). Qed.

Lemma wp_stats_large_allocate size ra w (Q : unit -> region_allocator R * world -> Prop) E :
  (forall n, Q tt (set_ra_allocated n ra, w)) -> wp (stats_large_allocate size) Q E (ra, w).
Proof.
  intros HQ. unfold stats_large_allocate, modify_ra. destruct CONFIG_STATS; [by apply wp_modify|].
  apply wp_ret. specialize (HQ (ra_allocated ra)). by destruct ra.
Qed.

(** Only pages of the pending block went away. *)
Lemma large_state_dropped rest ra mt m w p size guard w' :
  large_state rest ra mt m (Some (block_range p size guard)) w -> held_block p size guard ->
  (forall a, ~ block p size guard a -> mapped (kern w) a -> mapped (kern w') a) ->
  large_state rest ra mt m None w'.
Proof.
  intros [] Hh Hmap. split; try done. eapply (ownership_drop OPending); [done| |].
  - intros a Ha Hno. apply Hmap; [|done]. intros Hbl. apply Hno. exists (block_range p size guard).
    split; [done|]. by apply block_range_pages.
  - intros o a Ho. destruct o; try done. by destruct Ho as (q & [=] & _).
Qed.

(** A change inside the pending block is invisible to everything else. *)
Lemma steady_pending rest ra mt m w w' p size guard :
  large_state rest ra mt m (Some (block_range p size guard)) w -> held_block p size guard ->
  (forall a, ~ block p size guard a -> (mem w').[a] = (mem w).[a]) -> steady rest ra m None w w'.
Proof.
  intros Hb Hh Hm o a _ Ho. apply Hm. intros Ha.
  assert (Hp : owned rest ra m (Some (block_range p size guard)) OPending a).
  { exists (block_range p size guard). split; [done|]. by apply block_range_pages. }
  assert (Ho' : owned rest ra m (Some (block_range p size guard)) o a).
  { destruct o; try done; by destruct Ho as (q & [=] & _). }
  pose proof (ow_disjoint _ _ (lb_own _ _ _ _ _ _ Hb) _ _ _ Hp Ho'). subst o. by destruct Ho as (q & [=] & _).
Qed.

(** What is left of a block that was given back. *)
Lemma large_body_given_back rest ra mt m w p size guard w' :
  large_state rest ra mt m (Some (block_range p size guard)) w -> held_block p size guard ->
  only_in (block p size guard) w w' -> large_state rest ra mt m None w' /\ steady rest ra m None w w'.
Proof.
  intros Hb Hh Hin. split.
  - eapply large_state_dropped; [done..|]. intros a Ha. by apply (Hin a).
  - eapply steady_pending; [done..|]. intros a Ha. by apply (Hin a).
Qed.

Lemma wp_enter_large rest ra m w p size guard :
  ra_lock ra = false -> large_body rest ra m (Some (block_range p size guard)) w -> large_block p size guard ->
  wp (enter_large p size guard)
     (fun failed s' =>
        if failed then ra_lock (fst s') = false /\ mem (snd s') = mem w /\
          large_body rest (fst s') m (Some (block_range p size guard)) (snd s')
        else large_inv rest (fst s') (<[p := (size, guard)]> m) (snd s') /\
             kept_memory rest (<[p := (size, guard)]> m) (mem w) (mem (snd s'))) memory_fatal (ra, w).
Proof.
  intros Hlock Hb Hl. pose proof (proj1 Hl) as Hh. pose proof (pending_not_mapped _ _ _ _ _ _ _ Hb Hh) as Hm.
  unfold enter_large, region_lock. do 3 la_step. rewrite Hlock. do 2 la_step.
  set (ra1 := set_ra_lock true ra).
  assert (Hb1 : large_body rest ra1 m (Some (block_range p size guard)) w)
    by (eapply large_body_quiet; [exact Hb|done|apply Hb|done..]).
  eapply wp_conseq; [apply wp_keeps; [apply _|]; apply (wp_regions_insert ra1 m); [apply Hb1| |done]|].
  { pose proof (hb_pos _ _ _ Hh). pose proof (hb_guard _ _ _ Hh). lia. }
  intros [] [ra2 w2] [(Hfr & Hmem & Hpost) Hgrow]; cbn [fst snd] in *.
  - destruct Hpost as [-> Hw2]. do 5 la_step. split; [done|]. split; [done|].
    eapply large_body_quiet; [exact Hb|done|apply Hb|done..].
  - la_step. apply wp_stats_large_allocate. intros n. do 3 la_step.
    assert (Hb2 : large_body rest ra2 (<[p := (size, guard)]> m) None w2).
    { eapply (large_body_register rest ra1); try done; [by apply regions_frame_owned|].
      destruct Hfr as (_ & _ & _ & _ & _ & -> & _). apply Hb. }
    split.
    + split; [done|]. eapply large_body_quiet; [exact Hb2|done|apply Hb2|done..].
    + pose proof (regions_memory_steady _ _ _ _ _ _ Hb1 Hmem) as Hst. intros a [Ha|(q & v & Hq & Ha)].
      * by apply (Hst ORest).
      * destruct (decide (q = p)) as [->|Hne].
        { rewrite lookup_insert_eq in Hq. injection Hq as <-. apply (Hst OPending); [done|].
          exists (block_range p size guard). split; [done|]. by apply block_range_pages. }
        rewrite lookup_insert_ne in Hq by done. apply (Hst (OBlock q)); [done|]. by exists v.
Qed.

Lemma wp_register_large rest ra m w p size guard :
  ra_lock ra = false -> large_body rest ra m (Some (block_range p size guard)) w -> large_block p size guard ->
  wp (register_large p size guard)
     (fun failed s' =>
        if failed then large_inv rest (fst s') m (snd s') /\ kept_memory rest m (mem w) (mem (snd s'))
        else large_inv rest (fst s') (<[p := (size, guard)]> m) (snd s') /\
             kept_memory rest (<[p := (size, guard)]> m) (mem w) (mem (snd s'))) memory_fatal (ra, w).
Proof.
  intros Hlock Hb Hl. pose proof (proj1 Hl) as Hh. unfold register_large. la_step.
  eapply wp_conseq; [by apply wp_enter_large|]. intros [] [ra2 w2] Hpost; cbn [fst snd] in *; [|by la_step].
  destruct Hpost as (Hlock2 & Hw2 & Hb2). la_step. apply wp_on_world. cbn [fst snd].
  eapply wp_conseq; [by apply wp_deallocate_pages|]. intros _ w3 [Hin _]. cbn [fst snd]. apply wp_ret.
  destruct (large_body_given_back _ _ _ _ _ _ _ _ _ Hb2 Hh Hin) as [Hb3 Hst]. split; [done|].
  rewrite <- Hw2. by eapply steady_kept.
Qed.

(** ** Allocation *)

(** Nothing was allocated. *)
Definition large_failed rest m w (s' : region_allocator R * world) : Prop :=
  large_inv rest (fst s') m (snd s') /\ kept_memory rest m (mem w) (mem (snd s')).

(** The block at [p] is registered, zeroed, and on pages that were not mapped. *)
Definition large_allocated rest m w (size p : Z) (s' : region_allocator R * world) : Prop :=
  m !! p = None /\ 0 < p /\ (PAGE_SIZE | p) /\ zero_in p size (mem (snd s')) /\
  exists guard, guard_ok guard /\ large_inv rest (fst s') (<[p := (size, guard)]> m) (snd s') /\
    kept_memory rest m (mem w) (mem (snd s')) /\ (forall a, block p size guard a -> ~ mapped (kern w) a).

(** The draw of the guard size comes before. *)
Lemma large_allocated_before rest m w w1 size p s' :
  mem w1 = mem w -> maps_grow (kern w) (kern w1) -> large_allocated rest m w1 size p s' -> large_allocated rest m w size p s'.
Proof.
  intros Hm Hk (? & ? & ? & ? & g & ? & ? & Hkept & Hfresh). rewrite Hm in Hkept. split_and!; try done. exists g.
  split_and!; try done. intros a Ha Hma. by apply (Hfresh a Ha), Hk.
Qed.

Lemma kept_memory_insert rest m p v mm mm' :
  m !! p = None -> kept_memory rest (<[p := v]> m) mm mm' -> kept_memory rest m mm mm'.
Proof.
  intros Hm Hk a Ha. apply Hk. destruct Ha as [Ha|(q & u & Hq & Ha)]; [by left|right].
  exists q, u. split; [|done]. rewrite lookup_insert_ne; [done|]. by intros ->; rewrite Hm in Hq.
Qed.

Lemma kept_memory_trans rest m (mm1 mm2 mm3 : gmap Z Z) :
  kept_memory rest m mm1 mm2 -> kept_memory rest m mm2 mm3 -> kept_memory rest m mm1 mm3.
Proof. intros H12 H23 a Ha. by rewrite H23, H12. Qed.

Lemma large_inv_undisturbed rest ra m w w' :
  large_inv rest ra m w -> undisturbed w w' ->
  large_inv rest ra m w' /\ kept_memory rest m (mem w) (mem w').
Proof.
  intros [Hlock Hb] Hu. split; [split; [done|]|].
  - eapply large_body_quiet; [exact Hb|done|apply Hb|done..|apply Hu].
  - by eapply steady_kept, undisturbed_steady.
Qed.

(** A fresh block at [p], for either kind of allocation. *)
Lemma wp_register_fresh rest ra m w w1 p size guard :
  large_inv rest ra m w -> fresh_block p size guard w w1 -> 0 < size -> large_class size -> guard_ok guard ->
  wp (register_large p size guard)
     (fun failed s' => if failed then large_failed rest m w s' else large_allocated rest m w size p s')
     memory_fatal (ra, w1).
Proof.
  intros Hinv Hf Hs Hclass Hg. assert (Hh : held_block p size guard) by by eapply fresh_block_held.
  assert (Hl : large_block p size guard) by (split; [done|split; [apply Hg|done]]).
  assert (Hb1 : large_body rest ra m (Some (block_range p size guard)) w1)
    by by (eapply large_body_fresh; [apply Hinv| |]).
  assert (Hm : m !! p = None) by by eapply pending_not_mapped.
  assert (Hkept : kept_memory rest m (mem w) (mem w1)).
  { eapply steady_kept, undisturbed_steady; [apply Hinv|]. by eapply fresh_block_undisturbed. }
  eapply wp_conseq; [apply wp_register_large; [apply Hinv|done|done]|].
  intros [] s' [Hinv' Hk]; [split; [done|by eapply kept_memory_trans]|].
  split; [done|]. split; [destruct Hh; lia|]. split; [apply Hh|]. split.
  - intros a Ha. rewrite (Hk a); [apply (fb_zero _ _ _ _ _ Hf); destruct Hh; lia|]. right.
    exists p, (size, guard). rewrite lookup_insert_eq. split; [done|]. unfold block. cbn. destruct Hh. lia.
  - exists guard. split; [done|]. split; [done|]. split; [eapply kept_memory_trans; [done|]; by eapply kept_memory_insert|]. apply (fb_fresh _ _ _ _ _ Hf).
Qed.

Lemma wp_allocate_large rest ra m w size :
  large_inv rest ra m w -> fits 64 size ->
  wp (allocate_large size)
     (fun p s' => p = 0 /\ errno (snd s') = ENOMEM /\ large_failed rest m w s' \/
                  large_allocated rest m w (get_large_size_class size) p s')
     system_halts (ra, w).
Proof.
  intros Hinv Hsize. unfold allocate_large. cbv zeta.
  destruct (large_class_holds size Hsize) as [->|[Hsz Hpos]].
  { cbn [Z.eqb]. apply wp_bind, wp_on_world, wp_modify, wp_ret. left. split; [done|]. split; [done|]. cbn [fst snd].
    apply large_inv_undisturbed; [done|]. by split. }
  set (sz := get_large_size_class size) in *. rewrite (proj2 (Z.eqb_neq sz 0)) by lia.
  apply wp_bind. eapply wp_conseq; [apply (wp_draw_guard_size rest ra m w sz); [done|split; lia]|].
  intros g [ra1 w1] (Hg & Hinv1 & Hm1 & Hgrow). cbn [fst snd] in *.
  apply wp_bind, wp_on_world. cbn [fst snd].
  eapply wp_mono; [apply wp_allocate_pages; [split; lia|apply Hg..]| |intros h Hh; by right].
  intros p w2 [(-> & He & Hu)|Hf].
  { apply wp_ret. left. split; [done|]. split; [done|]. unfold large_failed. rewrite <- Hm1.
    by apply large_inv_undisturbed. }
  rewrite (proj2 (Z.eqb_neq p 0)) by (destruct Hf, Hg as (_ & _ & ?); lia).
  apply wp_bind. eapply wp_mono; [apply (wp_register_fresh rest ra1 m w1); try done; by exists size| |intros h Hh; by right].
  intros [] [ra3 w3] H; cbn beta iota in *.
  - apply wp_bind, wp_on_world, wp_modify, wp_ret. left. split; [done|]. split; [done|].
    destruct H as [[Hl Hb] Hk]. unfold large_failed. rewrite <- Hm1. split; [|done]. split; [done|]. by eapply large_body_quiet; [exact Hb|done|apply Hb|..].
  - apply wp_ret. right. by eapply large_allocated_before.
Qed.

Lemma wp_allocate_aligned_large rest ra m w k size :
  large_inv rest ra m w -> fits 64 size -> 12 <= k < 64 ->
  wp (allocate_aligned_large (2 ^ k) size)
     (fun r s' => r = (ENOMEM, None) /\ large_failed rest m w s' \/
                  exists p, r = (0, Some p) /\ (2 ^ k | p) /\
                    large_allocated rest m w (get_large_size_class size) p s')
     system_halts (ra, w).
Proof.
  intros Hinv Hsize Hk. unfold allocate_aligned_large. cbv zeta.
  destruct (large_class_holds size Hsize) as [->|[Hsz Hpos]].
  { cbn [Z.eqb]. apply wp_ret. left. split; [done|]. cbn [fst snd]. by split. }
  set (sz := get_large_size_class size) in *. rewrite (proj2 (Z.eqb_neq sz 0)) by lia.
  apply wp_bind. eapply wp_conseq; [apply (wp_draw_guard_size rest ra m w sz); [done|split; lia]|].
  intros g [ra1 w1] (Hg & Hinv1 & Hm1 & Hgrow). cbn [fst snd] in *.
  apply wp_bind, wp_on_world. cbn [fst snd].
  eapply wp_mono; [apply wp_allocate_pages_aligned; [split; lia|apply Hg..|done]| |intros h Hh; by right].
  intros p w2 [(-> & He & Hu)|[Hf Hp]].
  { apply wp_ret. left. split; [done|]. unfold large_failed. rewrite <- Hm1. by apply large_inv_undisturbed. }
  rewrite (proj2 (Z.eqb_neq p 0)) by (destruct Hf, Hg as (_ & _ & ?); lia).
  apply wp_bind. eapply wp_mono; [apply (wp_register_fresh rest ra1 m w1); try done; by exists size| |intros h Hh; by right].
  intros [] [ra3 w3] H; cbn beta iota in *; apply wp_ret.
  - left. split; [done|]. unfold large_failed in *. by rewrite <- Hm1.
  - right. exists p. split; [done|]. split; [done|]. by eapply large_allocated_before.
Qed.

End Alloc.
