(* ===== verification/LargeFree.v ===== *)
(** Freeing large blocks: the checks of [deallocate_large] and the region
    quarantine, which keeps freed ranges mapped and inaccessible for a while. *)

From S2P Require Import Prelude Config Util SizeClass Kernel Maps Pages RandomSource Regions RegionTable RegionMap Large LargeInv LargeAlloc.

Section Quarantine.
Context {Cfg : Config} {Cok : ConfigOk Cfg} {K : Kernel} {Kok : KernelOk K} {R : Type}.
Context `{!RandomSource R} `{!RandomSourceOk R}.
Implicit Types (ra : region_allocator R) (m : gmap Z (Z * Z)) (w : world) (q : quarantine_info).

(** [q] is in one of the two arrays. *)
Definition region_quarantined ra q : Prop :=
  (exists k, (ra_quarantine_random ra).[k] = q) \/ (exists k, (ra_quarantine_queue ra).[k] = q).

(** The pending range may be forgotten; it stays mapped. *)
Lemma large_body_forget rest ra mt m pend w : large_state rest ra mt m pend w -> large_state rest ra mt m None w.
Proof.
  intros []. split; try done. eapply ownership_mono; [done|reflexivity|].
  intros o a Ho. destruct o; try done. by destruct Ho as (q & [=] & _).
Qed.

(** The pending range and the content of a cell change places. *)
Lemma large_body_swap rest ra mt m q w (b : bool) k i :
  large_state rest ra mt m (Some q) w -> 0 <= i < Z.max 1 REGION_QUARANTINE_QUEUE_LENGTH ->
  let q0 := (if b then ra_quarantine_random ra else ra_quarantine_queue ra).[k] in
  let ra' := if b then set_ra_quarantine (ra_quarantine_random ra).[k <- q] (ra_quarantine_queue ra) i ra
             else set_ra_quarantine (ra_quarantine_random ra) (ra_quarantine_queue ra).[k <- q] i ra in
  large_state rest ra' mt m (Some q0) w.
Proof.
  intros Hb Hi q0 ra'. destruct Hb as [Hr Hinv Hheld Hrnd Hque Hpend _ Hown].
  assert (Hq : valid_range q) by by apply Hpend.
  split; try by destruct b.
  - destruct b; eapply regions_inv_same; done.
  - intros j. destruct b; cbn; [|done]. rewrite aget_aset_case. by case_decide.
  - intros j. destruct b; cbn; [done|]. rewrite aget_aset_case. by case_decide.
  - intros q' [= <-]. unfold q0. by destruct b.
  - eapply (ownership_exchange OPending (if b then ORandom k else OQueue k)); [exact Hown|reflexivity|].
    intros o a Ho. unfold exchange. destruct (decide (o = OPending)) as [->|Hne].
    { destruct Ho as (q' & [= <-] & Ha). by destruct b. }
    destruct (decide (o = _)) as [->|Hne'].
    + exists q. split; [done|]. destruct b; cbn in Ho; by rewrite aget_aset in Ho.
    + destruct b, o; cbn in *; try done; by rewrite aget_aset_ne in Ho by congruence.
Qed.

(** What one quarantine does with [q]: it keeps it, and hands out [out]. *)
Definition swap_post rest ra mt m q w (out : option quarantine_info) (s' : region_allocator R * world) : Prop :=
  large_state rest (fst s') mt m out (snd s') /\ ra_lock (fst s') = ra_lock ra /\ mem (snd s') = mem w /\
  (out = Some q \/ region_quarantined (fst s') q) /\
  (forall q', region_quarantined (fst s') q' -> q' = q \/ region_quarantined ra q').

Lemma region_quarantined_set rnd que i ra q :
  region_quarantined (set_ra_quarantine rnd que i ra) q <-> (exists k, rnd.[k] = q) \/ (exists k, que.[k] = q).
Proof. done. Qed.

Lemma wp_region_quarantine_random_swap rest ra mt m q w :
  large_state rest ra mt m (Some q) w ->
  wp (region_quarantine_random_swap q)
     (fun out s' => swap_post rest ra mt m q w out s' /\
        (0 < REGION_QUARANTINE_RANDOM_LENGTH -> exists k, (ra_quarantine_random (fst s')).[k] = q) /\
        (REGION_QUARANTINE_RANDOM_LENGTH <= 0 -> out = Some q))
     random_halts (ra, w).
Proof.
  intros Hb. unfold region_quarantine_random_swap. pose proof (cb_rqr config_facts) as Hlen.
  destruct (Z.ltb_spec 0 REGION_QUARANTINE_RANDOM_LENGTH) as [Hpos|Hzero].
  2: { apply wp_ret. split; [|split; [lia|done]]. split_and!; try done; [by left|intros; by right]. }
  unfold with_ra_rng. do 2 la_step.
  eapply wp_conseq; [apply wp_keeps; [apply _|]; apply u64_uniform_ok; [apply Hb|lia]|].
  intros k [r1 w1] [(Hk & Hr1 & Hm1) Hgrow]. cbn [fst snd] in *. do 5 la_step.
  assert (Hb1 : large_state rest (set_ra_rng r1 ra) mt m (Some q) w1) by by eapply large_body_quiet.
  pose proof (large_body_swap rest _ mt m q w1 true k (ra_quarantine_queue_index ra) Hb1 (lb_index _ _ _ _ _ _ Hb)) as Hb2.
  cbn in Hb2. split; [|split; [intros _; exists k; apply aget_aset|lia]]. split; [|split; [done|split; [done|split]]].
  - destruct (_ =? 0); [by eapply large_body_forget|done].
  - right. left. exists k. apply aget_aset.
  - intros q' [[j Hj]|Hj]; [|right; by right]. cbn in Hj. rewrite aget_aset_case in Hj.
    case_decide; [by left|right; left; by exists j].
Qed.

Lemma wp_region_quarantine_queue_swap rest ra mt m q w :
  large_state rest ra mt m (Some q) w ->
  wp (region_quarantine_queue_swap q)
     (fun q' s' => swap_post rest ra mt m q w (Some q') s' /\ ra_quarantine_random (fst s') = ra_quarantine_random ra /\
        (0 < REGION_QUARANTINE_QUEUE_LENGTH -> exists k, (ra_quarantine_queue (fst s')).[k] = q))
     no_halt (ra, w).
Proof.
  intros Hb. unfold region_quarantine_queue_swap. pose proof (lb_index _ _ _ _ _ _ Hb) as Hidx.
  destruct (Z.ltb_spec 0 REGION_QUARANTINE_QUEUE_LENGTH) as [Hpos|Hzero].
  2: { apply wp_ret. split; [|split; [done|lia]]. split_and!; try done; [by left|intros; by right]. }
  do 5 la_step. pose proof (Z.mod_pos_bound (ra_quarantine_queue_index ra + 1) _ Hpos) as Hmod.
  assert (Hi : 0 <= (ra_quarantine_queue_index ra + 1) mod REGION_QUARANTINE_QUEUE_LENGTH <
    Z.max 1 REGION_QUARANTINE_QUEUE_LENGTH) by lia.
  pose proof (large_body_swap rest ra mt m q w false (ra_quarantine_queue_index ra) _ Hb Hi) as Hb2. cbn in Hb2.
  split; [|split; [done|intros _; eexists; apply aget_aset]]. split; [done|split; [done|split; [done|split]]].
  - right. right. eexists. apply aget_aset.
  - intros q' [Hj|[j Hj]]; [right; by left|]. cbn in Hj. rewrite aget_aset_case in Hj.
    case_decide; [by left|right; right; by exists j].
Qed.

(** [drop_contents] clears the block; nothing else changes and nothing goes. *)
Lemma wp_drop_contents p size w :
  0 < size <= 2 ^ 63 ->
  wp (drop_contents p size)
     (fun _ w' => zero_in p size (mem w') /\ same_outside p size (mem w) (mem w') /\
        maps_grow (kern w) (kern w')) memory_fatal w.
Proof.
  intros Hs.
  apply (wp_conseq _ (fun _ w' => (zero_in p size (mem w') /\ same_outside p size (mem w) (mem w')) /\
    maps_grow (kernel_of w) (kernel_of w'))); [|by intros _ w' [[? ?] ?]].
  apply wp_keeps; [apply _|]. unfold drop_contents. apply wp_bind.
  eapply wp_conseq; [by apply wp_memory_map_fixed_prot|]. intros [] w1 Hw1; cbn in Hw1.
  - destruct Hw1 as [Hm1 _]. apply wp_bind. eapply wp_conseq; [by apply wp_memory_purge|].
    intros [] w2 Hw2; cbn in Hw2.
    + destruct Hw2 as [Hm2 _]. apply wp_bind, wp_gets, wp_modify. cbn.
      split; [apply memset0_zero|]. intros a Ha. pose proof (page_align_ge size Hs).
      rewrite memset0_only by lia. by rewrite Hm2, Hm1.
    + apply wp_ret. by rewrite <- Hm1.
  - eapply wp_skip; [apply wp_memory_set_name|]. intros w2 Hm2. apply wp_ret. by rewrite Hm2.
Qed.

(** Unmapping the pending range. *)
Lemma wp_unmap_pending rest ra mt m q w (Q : unit -> region_allocator R * world -> Prop) :
  large_state rest ra mt m (Some q) w -> q_p q <> 0 ->
  (forall w', large_state rest ra mt m None w' -> steady rest ra m None w w' -> Q tt (ra, w')) ->
  wp (on_world (memory_unmap (q_p q) (q_size q)) ;;; ret tt) Q memory_fatal (ra, w).
Proof.
  intros Hb Hq HQ. pose proof (lb_pend _ _ _ _ _ _ Hb q eq_refl Hq) as Hv.
  assert (Hpend : forall a, pages (q_p q) (q_size q) a -> owned rest ra m (Some q) OPending a) by (intros; by exists q).
  assert (Hother : forall o a, owned rest ra m None o a -> owned rest ra m (Some q) o a /\ o <> OPending).
  { intros o a Ho. destruct o; try done. by destruct Ho as (q' & [=] & _). }
  apply wp_bind, wp_on_world. eapply wp_conseq; [by apply wp_memory_unmap_confined|]. intros failed w1 Hkeep. apply wp_ret.
  apply HQ.
  - destruct Hb. split; try done. eapply (ownership_drop OPending); [done| |exact Hother].
    intros a Ha Hno. apply (Hkeep a); [|done]. by intros Hp%Hpend.
  - intros o a _ Ho. apply (Hkeep a). intros Hp%Hpend. destruct (Hother o a Ho) as [Ho' Hne].
    by destruct Hne; eapply (ow_disjoint _ _ (lb_own _ _ _ _ _ _ Hb)).
Qed.

Definition quarantine_active (size : Z) : bool :=
  negb (negb REGION_QUARANTINE || (size >=? REGION_QUARANTINE_SKIP_THRESHOLD)).

(** The block is gone; when the quarantine is active it is still owned by it. *)
Definition released_post rest mt m w (p size guard : Z) (s' : region_allocator R * world) : Prop :=
  large_unlocked rest (fst s') mt m (snd s') /\ kept_memory rest m (mem w) (mem (snd s')) /\
  (quarantine_active size = true -> region_quarantined (fst s') (block_range p size guard)).

Lemma steady_trans rest ra ra' m w1 w2 w3 :
  kept_memory rest m (mem w1) (mem w2) -> steady rest ra m None w2 w3 -> kept_memory rest m (mem w1) (mem w3).
Proof. intros H12 H23. eapply kept_memory_trans; [done|]. by eapply steady_kept. Qed.

(** Both quarantines: [q] is in one of them, and another range may leave. *)
Lemma wp_region_quarantine_swap rest ra mt m q w :
  ra_lock ra = false -> large_state rest ra mt m (Some q) w -> REGION_QUARANTINE = true ->
  wp (region_quarantine_swap q)
     (fun out s' => ra_lock (fst s') = false /\ large_state rest (fst s') mt m out (snd s') /\
        mem (snd s') = mem w /\ region_quarantined (fst s') q) random_halts (ra, w).
Proof.
  intros Hlock Hb Hactive. unfold region_quarantine_swap, region_lock. do 3 la_step. rewrite Hlock. do 2 la_step.
  assert (Hb1 : large_state rest (set_ra_lock true ra) mt m (Some q) w)
    by (eapply large_body_quiet; [exact Hb|done|apply Hb|done..]).
  eapply wp_conseq; [by apply wp_region_quarantine_random_swap|].
  intros [q1|] [ra1 w1] [(Hb2 & _ & Hm1 & Hq & _) Hcell]; cbn [fst snd] in *.
  2: { do 3 la_step. split; [done|]. split; [eapply large_body_quiet; [exact Hb2|done|apply Hb2|done..]|]. split; [done|].
       by destruct Hq as [[=]|Hq]. }
  apply wp_bind. eapply wp_mono; [by apply wp_region_quarantine_queue_swap| |done].
  intros q2 [ra2 w2] [(Hb3 & _ & Hm2 & Hq1 & _) [Hrnd Hcell2]]; cbn [fst snd] in *. do 3 la_step.
  split; [done|]. split; [eapply large_body_quiet; [exact Hb3|done|apply Hb3|done..]|]. split; [congruence|].
  unfold REGION_QUARANTINE in Hactive. destruct (Z.ltb_spec 0 REGION_QUARANTINE_RANDOM_LENGTH) as [Hpos|Hzero].
  - left. cbn. rewrite Hrnd. by apply Hcell.
  - right. apply Z.ltb_lt in Hactive. destruct Hcell as [_ Hcell]. injection (Hcell Hzero) as ->. by apply Hcell2.
Qed.

(** The range that left the quarantine. *)
Lemma wp_unmap_target rest ra mt m out w (Q : unit -> region_allocator R * world -> Prop) :
  large_state rest ra mt m out w ->
  (forall w', large_state rest ra mt m None w' -> steady rest ra m None w w' -> Q tt (ra, w')) ->
  wp (on_world (unmap_target out)) Q memory_fatal (ra, w).
Proof.
  intros Hb HQ. assert (Hnone : Q tt (ra, w)) by (apply HQ; [by eapply large_body_forget|done]).
  apply wp_on_world. unfold unmap_target. destruct out as [q|]; [|by apply wp_ret].
  destruct (Z.eqb_spec (q_p q) 0) as [Hz|Hnz]; cbn [negb]; [by apply wp_ret|]. apply wp_bind. cbn [snd].
  pose proof (wp_unmap_pending rest ra mt m q w Q Hb Hnz HQ) as Hu. unfold wp, bind, on_world, zoom in *. cbn [fst snd] in *.
  by destruct (memory_unmap (q_p q) (q_size q) w).
Qed.

Lemma wp_regions_quarantine_deallocate_pages rest ra mt m w p size guard :
  ra_lock ra = false -> large_state rest ra mt m (Some (block_range p size guard)) w -> held_block p size guard ->
  wp (regions_quarantine_deallocate_pages p size guard)
     (fun _ => released_post rest mt m w p size guard) system_halts (ra, w).
Proof.
  intros Hlock Hb Hh. unfold regions_quarantine_deallocate_pages.
  assert (Hact : quarantine_active size = negb (negb REGION_QUARANTINE || (size >=? REGION_QUARANTINE_SKIP_THRESHOLD)))
    by done.
  destruct (negb REGION_QUARANTINE || _) eqn:Hq; cbn [negb] in Hact.
  - apply wp_on_world. eapply wp_mono; [by apply wp_deallocate_pages| |intros h Hf; by right].
    intros _ w1 [Hin _]. cbn [fst snd].
    destruct (large_body_given_back _ _ _ _ _ _ _ _ _ Hb Hh Hin) as [Hb1 Hst].
    split; [done|]. split; [by eapply steady_kept|by rewrite Hact].
  - apply orb_false_iff in Hq as [Hq%negb_false_iff _].
    assert (Hsz : 0 < size <= 2 ^ 63) by (destruct Hh; lia).
    apply wp_bind, wp_on_world. cbn [fst snd].
    eapply wp_mono; [by apply wp_drop_contents| |intros h Hf; by right]. intros _ w1 (Hz & Hout & Hgrow).
    destruct (held_block_range p size guard 0 Hh) as (E1 & E2 & _). rewrite E1, E2. fold (block_range p size guard).
    assert (Hb1 : large_state rest ra mt m (Some (block_range p size guard)) w1)
      by (eapply large_body_quiet; [exact Hb|done|apply Hb|done..]).
    assert (Hk1 : kept_memory rest m (mem w) (mem w1)).
    { eapply steady_kept, (steady_pending rest ra mt m w w1 p size guard); [done|done|]. intros a Ha. apply Hout.
      unfold block in Ha. destruct Hh. lia. }
    apply wp_bind. eapply wp_mono; [by apply wp_region_quarantine_swap| |intros h Hf; by left].
    intros out [ra2 w2] (Hlock2 & Hb2 & Hm2 & Hin). cbn [fst snd] in *.
    eapply wp_mono; [apply (wp_unmap_target rest ra2 mt m out w2 (fun _ => released_post rest mt m w p size guard) Hb2)|done|intros h Hf; by right].
    intros w3 Hb3 Hst. split; [done|]. split; [|by rewrite Hact]. rewrite <- Hm2 in Hk1. by eapply steady_trans.
Qed.

(** ** [deallocate_large] *)

(** The message a free of [p] must abort with, if any. *)
Definition table_verdict m (p : Z) (expected : option Z) : option string :=
  match m !! p, expected with
  | None, _ => Some "invalid free"%string
  | Some (size, _), Some e =>
      if size =? get_large_size_class e then None else Some "sized deallocation mismatch (large)"%string
  | Some _, None => None
  end.

Definition large_verdict (slab_region_end : Z) m (p : Z) (expected : option Z) : option string :=
  if negb (is_init slab_region_end) then Some "invalid uninitialized allocator usage"%string
  else table_verdict m p expected.

Definition verdict_halts (verdict : option string) (h : halt) : Prop :=
  match verdict with Some msg => h = Fatal msg | None => system_halts h end.

(** A block leaves the table and is pending. *)
Lemma large_body_remove rest ra ra' m w p size guard :
  large_body rest ra m None w -> m !! p = Some (size, guard) -> same_owned ra ra' -> random_inv (ra_rng ra') ->
  regions_inv ra' (delete p m) -> large_body rest ra' (delete p m) (Some (block_range p size guard)) w.
Proof.
  intros Hb Hm Hs Hr Hinv. pose proof (proj1 (lb_held _ _ _ _ _ _ Hb p size guard Hm)) as Hh. split; try done.
  - intros q s g [_ Hq]%lookup_delete_Some. by apply (lb_held _ _ _ _ _ _ Hb).
  - intros k. rewrite (so_random _ _ Hs). apply Hb.
  - intros k. rewrite (so_queue _ _ Hs). apply Hb.
  - intros q [= <-]. by apply block_range_valid.
  - rewrite (so_index _ _ Hs). apply Hb.
  - eapply (ownership_exchange OPending (OBlock p)); [apply Hb|reflexivity|]. intros o a Ho.
    apply (same_owned_own ra ra') in Ho; [|done]. unfold exchange. destruct (decide (o = OPending)) as [->|Hne].
    { destruct Ho as (q & [= <-] & Ha). exists (size, guard). split; [done|]. by apply block_range_pages in Ha. }
    destruct (decide (o = OBlock p)) as [->|Hne'].
    + destruct Ho as (v & Hv & Ha). by rewrite lookup_delete_eq in Hv.
    + destruct o; try done. destruct Ho as (v & [_ Hv]%lookup_delete_Some & Ha). by exists v.
Qed.

Lemma wp_stats_large_deallocate size ra w (Q : unit -> region_allocator R * world -> Prop) E :
  (forall n, Q tt (set_ra_allocated n ra, w)) -> wp (stats_large_deallocate size) Q E (ra, w).
Proof.
  intros HQ. unfold stats_large_deallocate, modify_ra. destruct CONFIG_STATS; [by apply wp_modify|].
  apply wp_ret. specialize (HQ (ra_allocated ra)). by destruct ra.
Qed.

(** The tail of [deallocate_large] and of [move_large]: delete the cell of [p]. *)
Lemma wp_unregister {A} rest ra m w p size guard i n (k : LM A) (Q : A -> region_allocator R * world -> Prop) Eh :
  large_body rest ra m None w -> m !! p = Some (size, guard) -> cell_of ra i p (size, guard) ->
  (forall ra', ra_lock ra' = false -> large_body rest ra' (delete p m) (Some (block_range p size guard)) w ->
     wp k Q Eh (ra', w)) ->
  wp (regions_delete i ;;; stats_large_deallocate n ;;; region_unlock ;;; k) Q Eh (ra, w).
Proof.
  intros Hb Hm Hc Hk. la_step. eapply wp_mono; [by apply (wp_regions_delete ra m i p (size, guard)); [apply Hb|..]| |done].
  intros _ [ra1 w1] (Hfr & Hw & Hinv). cbn [fst snd] in *. subst w1. la_step. apply wp_stats_large_deallocate. intros x.
  do 2 la_step. apply Hk; [done|].
  assert (Hb1 : large_body rest ra1 (delete p m) (Some (block_range p size guard)) w).
  { eapply large_body_remove; [exact Hb|done|by apply regions_frame_owned| |done].
    destruct Hfr as (_ & _ & _ & _ & _ & -> & _). apply Hb. }
  eapply large_body_quiet; [exact Hb1|done|apply Hb1|done..].
Qed.

Lemma wp_remove_large rest ra m w p expected :
  large_inv rest ra m w ->
  wp (remove_large p expected)
     (fun r s' => table_verdict m p expected = None /\ m !! p = Some r /\ snd s' = w /\ ra_lock (fst s') = false /\
        large_body rest (fst s') (delete p m) (Some (block_range p r.1 r.2)) w)
     (fun e => exists msg, table_verdict m p expected = Some msg /\ e = Fatal msg) (ra, w).
Proof.
  intros [Hlock Hb]. unfold remove_large, table_verdict, region_lock. do 3 la_step. rewrite Hlock. do 2 la_step.
  set (ra1 := set_ra_lock true ra).
  assert (Hb1 : large_body rest ra1 m None w) by (eapply large_body_quiet; [exact Hb|done|apply Hb|done..]).
  eapply wp_mono; [apply (wp_regions_find ra1 m p w), Hb1| |done]. intros [i|] s' [-> Hfind].
  2: { rewrite Hfind. apply wp_fatal. by eexists. }
  destruct Hfind as ([size guard] & Hm & Hc). rewrite Hm. do 2 la_step. cbn [fst snd]. cbv zeta.
  rewrite (proj2 Hc). cbn [r_size r_guard_size fst snd].
  apply wp_bind. assert (Hgo : forall (P : Prop), P ->
    wp (regions_delete i ;;; stats_large_deallocate size ;;; region_unlock ;;; ret (size, guard))
      (fun r s' => P /\ Some (size, guard) = Some r /\ snd s' = w /\ ra_lock (fst s') = false /\
        large_body rest (fst s') (delete p m) (Some (block_range p r.1 r.2)) w)
      (fun e => exists msg, table_verdict m p expected = Some msg /\ e = Fatal msg) (ra1, w)).
  { intros P HP. eapply wp_unregister; [done..|]. intros ra2 Hl2 Hb2. by apply wp_ret. }
  unfold table_verdict in Hgo. rewrite Hm in Hgo. destruct expected as [e|]; [|by apply wp_ret, Hgo].
  destruct (size =? get_large_size_class e); cbn [negb]; [by apply wp_ret, Hgo|]. apply wp_fatal. by eexists.
Qed.

Lemma wp_deallocate_large rest ra m w slab_region_end p expected :
  large_inv rest ra m w ->
  wp (deallocate_large slab_region_end p expected)
     (fun _ s' => large_verdict slab_region_end m p expected = None /\
        exists size guard, m !! p = Some (size, guard) /\ released_post rest (delete p m) (delete p m) w p size guard s')
     (verdict_halts (large_verdict slab_region_end m p expected)) (ra, w).
Proof.
  intros Hinv. unfold deallocate_large, enforce_init, large_verdict.
  destruct (is_init slab_region_end); cbn [negb]; [|by apply wp_bind, wp_fatal].
  apply wp_bind, wp_ret, wp_bind. eapply wp_mono; [by apply (wp_remove_large rest ra m w)| |].
  2: { intros e (msg & -> & ->). done. }
  intros [size guard] [ra2 w2] (-> & Hm & Hw & Hl2 & Hb2). cbn [fst snd] in *. subst w2.
  eapply wp_conseq; [apply (wp_regions_quarantine_deallocate_pages rest ra2 (delete p m) (delete p m)); [done|done|]|].
  - by eapply (lb_held _ _ _ _ _ _ (proj2 Hinv)).
  - intros ? s' Hs. split; [done|]. by exists size, guard.
Qed.
End Quarantine.
