(* ===== verification/LargeRealloc.v ===== *)
(** Reallocating large blocks in place: shrinking, and moving pages with mremap. *)

From S2P Require Import Prelude Config Util SizeClass Kernel Maps Pages RandomSource Regions RegionTable RegionMap Large LargeInv LargeAlloc LargeFree.

(** *** Large size classes again *)

Section Classes.
Context {Cfg : Config} {Cok : ConfigOk Cfg}.

(** The representation q * 2^k with 5 <= q <= 8 is unique. *)
Lemma spaced_unique k q k' q' :
  0 <= k -> 0 <= k' -> 5 <= q <= 8 -> 5 <= q' <= 8 -> (q' - 1) * 2 ^ k' < q * 2 ^ k <= q' * 2 ^ k' -> q' = q /\ k' = k.
Proof.
  intros Hk Hk' Hq Hq' Hr. pose proof (pow2_pos k Hk). pose proof (pow2_pos k' Hk').
  assert (E : k' = k).
  { destruct (Z.lt_total k k') as [Hlt|[->|Hlt]]; [|done|].
    - pose proof (Z.pow_le_mono_r 2 (k + 1) k' ltac:(lia) ltac:(lia)) as Hp. rewrite Z.pow_add_r in Hp by lia. nia.
    - pose proof (Z.pow_le_mono_r 2 (k' + 1) k ltac:(lia) ltac:(lia)) as Hp. rewrite Z.pow_add_r in Hp by lia. nia. }
  subst k'. split; [nia|done].
Qed.

(** A large size class is its own class. *)
Lemma get_large_size_class_idem sz :
  2 ^ 14 < sz < 2 ^ 64 -> get_large_size_class sz <> 0 ->
  get_large_size_class (get_large_size_class sz) = get_large_size_class sz.
Proof.
  intros Hsz Hnz. destruct (get_large_size_class_spec sz Hsz) as [Hin Hout].
  destruct (Z.le_gt_cases sz (if CONFIG_LARGE_SIZE_CLASSES then 7 * 2 ^ 61 else 2 ^ 64 - PAGE_SIZE)) as [Hle|Hlt];
    [|by destruct Hnz; apply Hout; lia].
  destruct (Hin Hle) as ((Hge & Hfit) & Hpage & _). clear Hin Hout.
  destruct CONFIG_LARGE_SIZE_CLASSES eqn:HL.
  - pose proof PAGE_SIZE_eq as HP.
    rewrite (get_large_size_class_spaced (get_large_size_class sz)) by (done || lia).
    rewrite (get_large_size_class_spaced sz) in * by (done || lia).
    destruct (spaced_size_info_spec sz ltac:(lia)) as (k & q & Hk & Hq & Hr & Hs & _).
    assert (Hqk : q * 2 ^ k < 2 ^ 64).
    { assert (Hcase : k <= 60 \/ k = 61) by lia. destruct Hcase as [Hk60| ->].
      - pose proof (Z.pow_le_mono_r 2 k 60). nia.
      - destruct (decide (q = 8)) as [->|]; [by rewrite Hs in Hnz|nia]. }
    rewrite Hs, wrap_small by (pose proof (pow2_pos k ltac:(lia)); split; nia).
    destruct (spaced_size_info_spec (q * 2 ^ k)) as (k' & q' & Hk' & Hq' & Hr' & Hs' & _).
    { split; [|done]. lia. }
    assert (E : q' = q /\ k' = k) by (apply spaced_unique; lia). destruct E as [-> ->].
    rewrite Hs'. apply wrap_small. pose proof (pow2_pos k ltac:(lia)). split; nia.
  - unfold get_large_size_class in *. rewrite HL in *. set (c := page_align sz) in *.
    pose proof PAGE_SIZE_eq as HP. rewrite HP in *. destruct Hpage as [a Ha].
    destruct (page_align_spec c) as (Hc & [b Hb] & _); rewrite ?PAGE_SIZE_eq in *; lia.
Qed.

Lemma large_class_pages size :
  large_class size -> max_slab_size_class < size ->
  fits 64 size /\ (PAGE_SIZE | size) /\ get_large_size_class size = size.
Proof.
  intros (x & Hx & ->) Hmax. pose proof max_slab_size_class_bounds.
  assert (Hx14 : 2 ^ 14 < x).
  { apply Z.nle_gt. intros Hle. unfold get_large_size_class in Hmax. destruct Hx. destruct CONFIG_LARGE_SIZE_CLASSES.
    - rewrite max_spec, PAGE_SIZE_eq in Hmax.
      assert (Hsz : 0 < Z.max x 4096 <= max_slab_size_class) by lia.
      destruct (get_size_info_class _ Hsz) as (Hc & Ht & _). rewrite <- Ht in Hmax.
      assert (Hcl : 0 <= si_class (get_size_info (Z.max x 4096)) < N_SIZE_CLASSES) by lia.
      pose proof (size_classes_at_le _ Hcl). lia.
    - destruct (page_align_spec x) as (Hlt & [a Ha] & _); rewrite ?PAGE_SIZE_eq in *; lia. }
  destruct (get_large_size_class_spec x) as [Hin Hout]; [destruct Hx; lia|].
  destruct (Z.le_gt_cases x (if CONFIG_LARGE_SIZE_CLASSES then 7 * 2 ^ 61 else 2 ^ 64 - PAGE_SIZE)) as [Hle|Hlt].
  - destruct (Hin Hle) as ((? & ?) & ? & _). split; [split; lia|]. split; [done|].
    apply get_large_size_class_idem; [destruct Hx; lia|lia].
  - rewrite Hout in Hmax by lia. lia.
Qed.
End Classes.

(** ** Shrinking *)

Section Realloc.
Context {Cfg : Config} {Cok : ConfigOk Cfg} {K : Kernel} {Kok : KernelOk K} {R : Type}.
Context `{!RandomSource R} `{!RandomSourceOk R}.
Implicit Types (ra : region_allocator R) (m : gmap Z (Z * Z)) (w : world).

Lemma wp_find_for_realloc ra mt p w (Q : Z -> region_allocator R * world -> Prop) (Eh : halt -> Prop) :
  regions_inv ra mt -> (mt !! p = None -> Eh (Fatal "invalid realloc")) ->
  (forall i v, mt !! p = Some v -> cell_of ra i p v -> Q i (ra, w)) ->
  wp (find_for_realloc p) Q Eh (ra, w).
Proof.
  intros Hinv HE Hk. unfold find_for_realloc. apply wp_bind.
  eapply wp_mono; [by apply wp_regions_find| |done]. intros [i|] s' [-> Hfind].
  - apply wp_ret. destruct Hfind as (v & Hv & Hc). by eapply Hk.
  - by apply wp_fatal, HE.
Qed.

(** The two parts of a shrunk block. *)
Record shrinkable (old old_size guard size : Z) : Prop := {
  sk_block : large_block old old_size guard;
  sk_class : large_class size;
  sk_size : max_slab_size_class < size < old_size
}.

Lemma shrink_layout old old_size guard size :
  shrinkable old old_size guard size ->
  page_align size = size /\ page_align old_size = old_size /\ page_align guard = guard /\
  large_block old size guard /\ held_block (old + size + guard) (old_size - size) 0 /\
  (forall a, block (old + size + guard) (old_size - size) 0 a <-> old + size + guard <= a < old + old_size + guard).
Proof.
  intros [[Hh [Hg Hcl]] Hc Hs]. pose proof max_slab_size_class_bounds.
  destruct (large_class_pages size Hc) as (_ & Hp & _); [lia|].
  destruct (large_class_pages old_size Hcl) as (_ & Hpo & _); [lia|].
  destruct Hh as [Hpos Hpage Hend [Hs0 Hs1] Hg0 Hgp].
  assert (E1 : page_align size = size) by (apply page_align_id; [lia|done]).
  assert (E2 : page_align old_size = old_size) by (apply page_align_id; [lia|done]).
  assert (E3 : page_align (old_size - size) = old_size - size) by (apply page_align_id; [lia|by apply Z.divide_sub_r]).
  split; [done|]. split; [done|]. split; [apply page_align_id; [lia|done]|].
  split; [split; [split; rewrite ?E1; try done; lia|done]|]. split.
  - split; rewrite ?E3; try lia; [|by exists 0]. repeat apply Z.divide_add_r; done.
  - intros a. unfold block. rewrite E3. lia.
Qed.

(** The end of the block is pending, the table still has the old size. *)
Lemma large_state_shrink rest ra m w w' old old_size guard size :
  large_inv rest ra m w -> m !! old = Some (old_size, guard) -> shrinkable old old_size guard size ->
  maps_grow (kern w) (kern w') ->
  large_state rest ra m (<[old := (size, guard)]> m) (Some (block_range (old + size + guard) (old_size - size) 0)) w'.
Proof.
  intros [_ Hb] Hm Hsk Hk. destruct (shrink_layout _ _ _ _ Hsk) as (E1 & E2 & E3 & Hl & Hh & Hrange).
  assert (Hneg : 0 < size < old_size) by (destruct Hsk; pose proof max_slab_size_class_bounds; lia).
  split; try apply Hb.
  - intros p s g. rewrite lookup_insert. case_decide; [subst p; by intros [= <- <-]|apply Hb].
  - intros q [= <-]. by apply block_range_valid.
  - eapply (ownership_split (OBlock old) OPending); [apply Hb|done| | |].
    + by intros a (q & [=] & _).
    + intros o a Ho. destruct o; try (by left).
      * destruct Ho as (v & Hv & Ha). rewrite lookup_insert in Hv. case_decide; [subst p|by left; exists v].
        injection Hv as <-. left. exists (old_size, guard). split; [done|]. unfold block in *. cbn in *. lia.
      * right. split; [done|]. destruct Ho as (q & [= <-] & Ha). exists (old_size, guard). split; [done|].
        apply block_range_pages, Hrange in Ha; [|done]. unfold block. cbn. destruct Hsk as [[[] [? _]] _ _]. lia.
    + intros a (v & Hv & Ha) (q & [= <-] & Ha'). rewrite lookup_insert_eq in Hv. injection Hv as <-.
      apply block_range_pages, Hrange in Ha'; [|done]. unfold block in Ha. cbn in Ha. lia.
Qed.

(** The size in the table catches up. *)
Lemma large_state_resized rest ra m w p size guard size' i n :
  large_unlocked rest ra m (<[p := (size', guard)]> m) w -> m !! p = Some (size, guard) -> cell_of ra i p (size, guard) ->
  large_inv rest (set_ra_lock false (set_ra_allocated n (set_region_size i size' (set_ra_lock true ra))))
    (<[p := (size', guard)]> m) w.
Proof.
  intros [_ Hb] Hm [Hi Hc]. split; [done|]. eapply large_body_update; [exact Hb|done|apply Hb| |reflexivity].
  destruct (lb_regions _ _ _ _ _ _ Hb) as [Htot Hmax Hfree Hload Ht Hs]. unfold set_region_size.
  assert (Hp : p <> 0) by (by apply (tr_entries _ _ _ Ht) in Hm as [? _]).
  pose proof (table_resize_spec _ _ m i p size guard size' Ht Hi Hc Hp) as Ht'.
  split; cbn; try done.
  - rewrite map_size_insert_Some; [done|by eexists].
  - unfold ra_table in *. cbn. rewrite eqb_reflx, Hc. exact Ht'.
  - unfold ra_table in *. cbn. by destruct (regions ra).
Qed.

Definition shrunk rest m w (old size guard p : Z) (s' : region_allocator R * world) : Prop :=
  p = 0 /\ errno (snd s') = ENOMEM /\ large_failed rest m w s' \/
  p = old /\ large_inv rest (fst s') (<[old := (size, guard)]> m) (snd s') /\
    kept_memory rest (delete old m) (mem w) (mem (snd s')) /\
    (forall a, old <= a < old + size -> (mem (snd s')).[a] = (mem w).[a]).

Lemma wp_shrink_large rest ra m w old old_size guard size :
  large_inv rest ra m w -> m !! old = Some (old_size, guard) -> shrinkable old old_size guard size ->
  wp (shrink_large old old_size guard size) (shrunk rest m w old size guard) system_halts (ra, w).
Proof.
  intros Hinv Hm Hsk. destruct (shrink_layout _ _ _ _ Hsk) as (E1 & E2 & E3 & Hl & Hh & Hrange).
  assert (Hneg : 0 < size < old_size) by (destruct Hsk; pose proof max_slab_size_class_bounds; lia).
  destruct (sk_block _ _ _ _ Hsk) as [Hold [Hg _]]. pose proof (hb_end _ _ _ Hold). pose proof (hb_pos _ _ _ Hold).
  unfold shrink_large. cbv zeta. rewrite (wrap_small 64 (old + size)) by (split; lia).
  rewrite (wrap_small 64 (old + size + guard)), (wrap_small 64 (old_size - size)) by (split; lia).
  apply wp_bind, wp_on_world. cbn [fst snd].
  eapply wp_mono; [apply wp_keeps; [apply _|]; apply wp_memory_map_fixed_prot; lia| |intros h Hf; by right].
  intros [] w1 [Hw1 Hgrow]; cbn [cleared] in Hw1.
  { apply wp_ret. left. destruct Hw1 as [Hm1 He]. split; [done|]. split; [done|].
    unfold large_failed. cbn [fst snd]. apply large_inv_undisturbed; [done|]. split; [done|]. intros a _. by rewrite Hm1. }
  destruct Hw1 as [_ Hout]. apply wp_bind, wp_on_world. cbn [fst snd].
  eapply wp_mono; [apply wp_memory_set_name_quiet| |intros h Hf; by right]. intros _ w2 [Hm2 Hs2]. cbn [fst snd].
  pose proof (large_state_shrink rest ra m w w2 old old_size guard size Hinv Hm Hsk) as Hst.
  assert (Hst2 : maps_grow (kern w) (kern w2)) by (etransitivity; [exact Hgrow|by apply same_maps_grow]).
  apply wp_bind. eapply wp_mono; [apply (wp_regions_quarantine_deallocate_pages rest ra m (<[old := (size, guard)]> m));
    [apply Hinv|by apply Hst|done]| |done].
  intros _ [ra3 w3] (Hinv3 & Hk3 & _). cbn [fst snd] in *.
  unfold region_lock. do 3 la_step. rewrite (proj1 Hinv3). do 2 la_step.
  apply (wp_find_for_realloc _ m); [by eapply regions_inv_same; [apply Hinv3|..]|by rewrite Hm|]. intros i v Hv Hc. rewrite Hm in Hv. injection Hv as <-.
  do 3 la_step. apply wp_stats_large_deallocate. intros n. do 3 la_step. right. split; [done|]. cbn [fst snd].
  split; [by eapply large_state_resized|].
  assert (Hmem : forall a, (exists o, o <> OBlock old /\ o <> OState /\ owned rest ra m None o a) \/ old <= a < old + size ->
    (mem w2).[a] = (mem w).[a]).
  { intros a Ha. rewrite Hm2. apply Hout. rewrite E3. destruct Ha as [(o & Hne & _ & Ho)|Ha]; [|lia].
    destruct (decide (a < old + size \/ old + size + guard <= a)) as [|Hin]; [done|]. destruct Hne.
    eapply (ow_disjoint _ _ (lb_own _ _ _ _ _ _ (proj2 Hinv))); [exact Ho|]. exists (old_size, guard).
    split; [done|]. unfold block. cbn. lia. }
  split.
  - intros a [Ha|(q & v & [Hne Hq]%lookup_delete_Some & Ha)].
    + rewrite (Hk3 a); [|by left]. apply Hmem. left. by exists ORest.
    + rewrite (Hk3 a); [|right; exists q, v; by rewrite lookup_insert_ne]. apply Hmem. left. exists (OBlock q).
      split; [congruence|]. split; [done|]. by exists v.
  - intros a Ha. rewrite (Hk3 a); [apply Hmem; by right|]. right. exists old, (size, guard).
    rewrite lookup_insert_eq. split; [done|]. unfold block. cbn. lia.
Qed.

(** ** Moving *)

(** The contents of [old] are at [new], followed by zeros. *)
Definition moved_contents (old old_size new size : Z) w w' : Prop :=
  (forall i, 0 <= i < old_size -> (mem w').[new + i] = (mem w).[old + i]) /\
  (forall i, page_align old_size <= i < size -> (mem w').[new + i] = 0).

(** The pages of the old block, its guards gone, are behind the new one. *)
Definition move_post rest ra m w (old old_size new size guard : Z) (s' : region_allocator R * world) : Prop :=
  fst s' = ra /\ large_body rest ra m None (snd s') /\ moved_contents old old_size new size w (snd s') /\
  forall o a, o <> OState -> o <> OBlock new -> owned rest ra m None o a -> (mem (snd s')).[a] = (mem w).[a].

Lemma wp_unmap_guards ra old old_size guard w :
  held_block old old_size guard -> 0 < guard ->
  wp (on_world (memory_unmap (u64 (old - guard)) guard) ;;;
      on_world (memory_unmap (u64 (old + page_align old_size)) guard) ;;; ret tt)
     (fun _ s' => fst s' = ra /\ confined (fun a => block old old_size guard a /\ ~ pages old old_size a) w (snd s'))
     memory_fatal (ra, w).
Proof.
  intros [Hpos Hpage Hend [Hs0 Hs1] Hg0 Hgp] Hg.
  rewrite (wrap_small 64 (old - guard)), (wrap_small 64 (old + _)) by (split; lia).
  assert (E : page_align guard = guard) by (apply page_align_id; [lia|done]).
  apply wp_bind, wp_on_world. cbn [fst snd]. eapply wp_conseq; [apply wp_memory_unmap_confined; lia|]. intros b1 w1 Hw1.
  apply wp_bind, wp_on_world. cbn [fst snd]. eapply wp_conseq; [apply wp_memory_unmap_confined; lia|]. intros b2 w2 Hw2.
  apply wp_ret. split; [done|]. intros a Ha. cbn [snd].
  unfold confined, pages, block in *. rewrite E in *.
  assert (Ha1 : ~ old - guard <= a < old - guard + guard) by lia.
  assert (Ha2 : ~ old + page_align old_size <= a < old + page_align old_size + guard) by lia.
  destruct (Hw1 a Ha1) as [M1 ?], (Hw2 a Ha2) as [M2 ?]. split; [congruence|tauto].
Qed.

Section MovePages.
Context (rest : Z -> Prop) (m : gmap Z (Z * Z)) (old old_size new size guard guard' : Z).
Context (Hh : held_block old old_size guard) (Hg : 0 < guard) (Hnew : m !! new = Some (size, guard')).
Context (Hsize : 0 < old_size <= size).

(** Where the two ranges lie. *)
Lemma move_ranges ra w :
  large_body rest ra m (Some (block_range old old_size guard)) w ->
  held_block new size guard' /\ (forall a, block old old_size guard a -> ~ block new size guard' a) /\
  (forall a, pages old old_size a -> block old old_size guard a) /\ (forall a, pages new size a -> block new size guard' a).
Proof.
  intros Hb. destruct (lb_held _ _ _ _ _ _ Hb new size guard' Hnew) as [Hn _]. split; [done|]. split.
  - intros a Ha Ha'.
    assert (H1 : owned rest ra m (Some (block_range old old_size guard)) OPending a)
      by (exists (block_range old old_size guard); split; [done|by apply block_range_pages]).
    assert (H2 : owned rest ra m (Some (block_range old old_size guard)) (OBlock new) a) by by exists (size, guard').
    by pose proof (ow_disjoint _ _ (lb_own _ _ _ _ _ _ Hb) _ _ _ H1 H2).
  - destruct Hh, Hn. split; intros a; unfold pages, block; lia.
Qed.

(** A change that is confined to the pages of the old block and the new one. *)
Lemma move_post_intro ra w w' :
  large_body rest ra m (Some (block_range old old_size guard)) w ->
  (forall a, ~ block old old_size guard a -> mapped (kern w) a -> mapped (kern w') a) ->
  (forall a, ~ block old old_size guard a -> ~ pages new size a -> (mem w').[a] = (mem w).[a]) ->
  moved_contents old old_size new size w w' -> move_post rest ra m w old old_size new size guard (ra, w').
Proof.
  intros Hb Hmap Hmem Hc. destruct (move_ranges ra w Hb) as (Hn & Hdis & _ & Hnp).
  split; [done|]. split; [by eapply large_state_dropped|]. split; [done|].
  intros o a Hns Hnn Ho. cbn [snd].
  assert (Ho' : owned rest ra m (Some (block_range old old_size guard)) o a).
  { destruct o; try done. by destruct Ho as (q & [=] & _). }
  apply Hmem.
  - intros Ha. assert (H1 : owned rest ra m (Some (block_range old old_size guard)) OPending a)
      by (exists (block_range old old_size guard); split; [done|by apply block_range_pages]).
    pose proof (ow_disjoint _ _ (lb_own _ _ _ _ _ _ Hb) _ _ _ H1 Ho'). subst o. by destruct Ho as (q & [=] & _).
  - intros Ha%Hnp. assert (H2 : owned rest ra m (Some (block_range old old_size guard)) (OBlock new) a) by by exists (size, guard').
    by destruct Hnn; eapply (ow_disjoint _ _ (lb_own _ _ _ _ _ _ Hb)).
Qed.

Lemma wp_move_pages ra w :
  large_body rest ra m (Some (block_range old old_size guard)) w -> zero_in new size (mem w) ->
  wp (let* remap_failed := on_world (memory_remap_fixed old old_size new size) in
      (if remap_failed then
         let* w := gets snd in
         on_world (set_mem (memcpy new old old_size (mem w))) ;;;
         on_world (deallocate_pages old old_size guard)
       else
         on_world (memory_unmap (u64 (old - guard)) guard) ;;;
         on_world (memory_unmap (u64 (old + page_align old_size)) guard) ;;; ret tt) ;;;
      ret new)
     (fun p s' => p = new /\ move_post rest ra m w old old_size new size guard s') memory_fatal (ra, w).
Proof.
  intros Hb Hz. destruct (move_ranges ra w Hb) as (Hn & Hdis & Hop & Hnp).
  apply wp_bind, wp_on_world. cbn [fst snd].
  assert (Hpages : forall a, pages old old_size a -> ~ pages new size a) by (intros a Ha%Hop Ha'%Hnp; by eapply Hdis).
  assert (Hn63 : 0 < size <= 2 ^ 63 /\ 0 < old_size <= 2 ^ 63) by (destruct Hn, Hh; lia).
  destruct Hn63 as [Hn63 Ho63]. eapply wp_conseq; [by apply wp_memory_remap_fixed|]. intros remap_failed w1 Hw1. apply wp_bind.
  eapply (wp_conseq _ (fun _ s' => move_post rest ra m w old old_size new size guard s')); [|intros u s' Hs; apply wp_ret; done].
  destruct remap_failed; cbn [moved_pages] in Hw1.
  - destruct Hw1 as (Hm1 & _ & Hs1). apply wp_bind, wp_gets. cbn [snd]. unfold set_mem.
    apply wp_bind, wp_on_world, wp_modify. cbn [fst snd kern mem errno]. apply wp_on_world. cbn [fst snd].
    eapply wp_conseq; [by apply wp_deallocate_pages|]. intros _ w2 [Hin _]. cbn [fst snd kern mem] in *. rewrite Hm1 in *.
    assert (Hget : forall a, ~ block old old_size guard a -> (mem w2).[a] = (memcpy new old old_size (mem w)).[a]).
    { intros a Ha. by apply (Hin a). }
    apply move_post_intro; [done| | |].
    + intros a Ha Hma. apply (Hin a); [done|]. by apply Hs1.
    + intros a Ha Hna. rewrite Hget, memcpy_get by done. rewrite decide_False; [done|]. destruct Hn. unfold pages in Hna. lia.
    + split; intros i Hi; (assert (Hi0 : 0 <= i < size) by (destruct Hh; lia));
        rewrite Hget by (intros Ha; eapply Hdis; [exact Ha|]; apply Hnp; destruct Hn; unfold pages; lia); rewrite memcpy_get.
      * rewrite decide_True by lia. f_equal. lia.
      * rewrite decide_False by (destruct Hh; lia). apply Hz. lia.
  - destruct Hw1 as (Hmove & Hother & Hmaps). eapply wp_conseq; [by apply wp_unmap_guards|].
    intros u [ra2 w2] [Hra Hconf]. cbn [fst snd] in *. subst ra2.
    assert (Hc : forall a, ~ block old old_size guard a ->
      (mem w2).[a] = (mem w1).[a] /\ (mapped (kern w1) a -> mapped (kern w2) a)).
    { intros a Ha. apply Hconf. tauto. }
    apply move_post_intro; [done| | |].
    + intros a Ha Hma. apply (Hc a Ha), Hmaps. right. split; [done|]. by intros Hp%Hop.
    + intros a Ha Hna. rewrite (proj1 (Hc a Ha)). apply Hother; [by intros Hp%Hop|done].
    + assert (Hi : forall i, 0 <= i < size ->
        (mem w2).[new + i] = if i <? page_align old_size then (mem w).[old + i] else 0).
      { intros i Hi. rewrite <- Hmove by done. apply Hc. intros Ha. eapply Hdis; [exact Ha|]. apply Hnp.
        destruct Hn. unfold pages. lia. }
      destruct Hh as [? ? ? [? ?] ? ?]. split; intros i Hir; rewrite Hi by lia; [by rewrite (proj2 (Z.ltb_lt _ _)) by lia|].
      by rewrite (proj2 (Z.ltb_ge _ _)) by lia.
Qed.
End MovePages.

(** The block is at [p] now, with the old contents and zeros after them. *)
Definition moved rest m w (old old_size size p : Z) (s' : region_allocator R * world) : Prop :=
  p = 0 /\ errno (snd s') = ENOMEM /\ large_failed rest m w s' \/
  m !! p = None /\ 0 < p /\ (PAGE_SIZE | p) /\ moved_contents old old_size p size w (snd s') /\
  exists guard, guard_ok guard /\ large_inv rest (fst s') (<[p := (size, guard)]> (delete old m)) (snd s') /\
    kept_memory rest (delete old m) (mem w) (mem (snd s')).

Lemma wp_move_large rest ra m w old old_size guard size :
  large_inv rest ra m w -> m !! old = Some (old_size, guard) -> large_class size -> max_slab_size_class < size ->
  old_size <= size ->
  wp (move_large old old_size guard size old_size) (moved rest m w old old_size size) system_halts (ra, w).
Proof.
  intros Hinv Hm Hc Hmax Hle. destruct (large_class_pages size Hc Hmax) as (Hfit & _ & Hidem).
  destruct (lb_held _ _ _ _ _ _ (proj2 Hinv) old old_size guard Hm) as [Hh [Hg _]].
  unfold move_large. apply wp_bind. eapply wp_conseq; [by apply wp_allocate_large|].
  intros new [ra1 w1] [(-> & He & Hf)|(Hnew & Hpos & Hpage & Hz & g' & Hg' & Hinv1 & Hk1 & _)]; cbn [fst snd] in *.
  { apply wp_ret. by left. }
  rewrite Hidem in *. rewrite (proj2 (Z.eqb_neq new 0)) by lia.
  assert (Hne : new <> old) by (intros ->; by rewrite Hm in Hnew).
  assert (Hm1 : <[new := (size, g')]> m !! old = Some (old_size, guard)) by by rewrite lookup_insert_ne.
  unfold region_lock. do 3 la_step. rewrite (proj1 Hinv1). do 2 la_step.
  set (ra1' := set_ra_lock true ra1).
  assert (Hb1 : large_body rest ra1' (<[new := (size, g')]> m) None w1)
    by (eapply large_body_quiet; [apply Hinv1|done|apply Hinv1|done..]).
  apply (wp_find_for_realloc _ (<[new := (size, g')]> m)); [apply Hb1|by rewrite Hm1|]. intros i v Hv Hcell.
  rewrite Hm1 in Hv. injection Hv as <-.
  apply (wp_unregister rest ra1' (<[new := (size, g')]> m) w1 old old_size guard i); [done..|].
  intros ra2 Hl2 Hb2.
  assert (Hdel : delete old (<[new := (size, g')]> m) = <[new := (size, g')]> (delete old m)) by by rewrite delete_insert_ne.
  rewrite Hdel in *. eapply wp_mono; [apply (wp_move_pages rest (<[new := (size, g')]> (delete old m)) old old_size new size guard g' Hh Hg); [apply lookup_insert_eq|destruct Hh; lia|done|done]| |intros h Hf; by right].
  intros p [ra3 w3] [-> (Hra3 & Hb3 & Hcont & Hmem)]. cbn [fst snd] in *. subst ra3. right.
  split; [done|]. split; [done|]. split; [done|].
  assert (Hkept : kept_memory rest (delete old m) (mem w) (mem w3)).
  { intros a Ha. transitivity ((mem w1).[a]).
    - destruct Ha as [Ha|(q & v & Hq & Ha)]; [by apply (Hmem ORest)|].
      assert (Hqn : q <> new) by (intros ->; apply lookup_delete_Some in Hq as [_ Hq]; congruence).
      apply (Hmem (OBlock q)); [done|congruence|]. exists v. by rewrite lookup_insert_ne.
    - apply Hk1. destruct Ha as [Ha|(q & v & [_ Hq]%lookup_delete_Some & Ha)]; [by left|right; by exists q, v]. }
  assert (Hold : forall j, 0 <= j < old_size -> (mem w1).[old + j] = (mem w).[old + j]).
  { intros j Hj. apply Hk1. right. exists old, (old_size, guard). split; [done|].
    destruct Hh as [? ? ? [? ?] ? ?]. unfold block. cbn. lia. }
  split; [split; [|apply Hcont]|].
  - intros j Hj. rewrite (proj1 Hcont) by done. by apply Hold.
  - exists g'. split; [done|]. split; [by split|done].
Qed.

(** ** [realloc_large] *)

(** The message a reallocation of [p] must abort with, if any. *)
Definition realloc_verdict (slab_region_end : Z) m (p : Z) : option string :=
  if negb (is_init slab_region_end) then Some "invalid uninitialized allocator usage"%string
  else match m !! p with None => Some "invalid realloc"%string | Some _ => None end.

(** The four ways to resize a block of [old_size] bytes to [size]. *)
Definition realloc_post rest m w (old old_size guard size : Z) (r : realloc_step)
    (s' : region_allocator R * world) : Prop :=
  match r with
  | Reallocated p =>
      size = old_size /\ p = old /\ large_inv rest (fst s') m (snd s') /\ mem (snd s') = mem w \/
      max_slab_size_class < size < old_size /\ shrunk rest m w old size guard p s' \/
      max_slab_size_class < size /\ old_size < size /\ MREMAP_MOVE_THRESHOLD <= old_size /\
        moved rest m w old old_size size p s'
  | CopyNeeded n =>
      n = old_size /\ size <> old_size /\
      (size <= max_slab_size_class \/ old_size < size /\ old_size < MREMAP_MOVE_THRESHOLD) /\
      large_inv rest (fst s') m (snd s') /\ mem (snd s') = mem w
  end.

Lemma wp_realloc_large rest ra m w slab_region_end old size :
  large_inv rest ra m w -> size <= max_slab_size_class \/ large_class size ->
  wp (realloc_large slab_region_end old size)
     (fun r s' => realloc_verdict slab_region_end m old = None /\
        exists old_size guard, m !! old = Some (old_size, guard) /\ realloc_post rest m w old old_size guard size r s')
     (verdict_halts (realloc_verdict slab_region_end m old)) (ra, w).
Proof.
  intros Hinv Hsize. pose proof (proj1 Hinv) as Hlock. unfold realloc_large, enforce_init, realloc_verdict.
  destruct (is_init slab_region_end); cbn [negb]; [|by apply wp_bind, wp_fatal].
  apply wp_bind, wp_ret. unfold region_lock. do 3 la_step. rewrite Hlock. do 2 la_step.
  apply (wp_find_for_realloc _ m); [eapply regions_inv_same; [apply Hinv|done..]|by intros ->|].
  intros i [old_size guard] Hm [Hi Hc]. rewrite Hm. do 2 la_step. cbn [fst snd]. cbv zeta. rewrite Hc.
  cbn [r_size r_guard_size fst snd].
  assert (Hinv' : large_inv rest (set_ra_lock false (set_ra_lock true ra)) m w)
    by (split; [done|]; eapply large_body_quiet; [apply Hinv|done|apply Hinv|done..]).
  set (ra' := set_ra_lock false _) in *.
  assert (Hok : forall r s', realloc_post rest m w old old_size guard size r s' ->
    (None : option string) = None /\ exists s0 g0, Some (old_size, guard) = Some (s0, g0) /\
      realloc_post rest m w old s0 g0 size r s') by (intros; split; [done|by exists old_size, guard]).
  destruct (Z.eqb_spec old_size size) as [<-|Hne]; [do 3 la_step; apply Hok; by left|].
  do 2 la_step. fold ra'. rewrite Z.gtb_ltb. destruct (Z.ltb_spec max_slab_size_class size) as [Hlarge|Hsmall].
  2: { apply wp_ret, Hok. split_and!; try done. by left. }
  destruct Hsize as [|Hsize]; [lia|].
  destruct (Z.ltb_spec size old_size) as [Hlt|Hge].
  - apply wp_bind. eapply wp_conseq; [apply wp_shrink_large; [exact Hinv'|done|]|].
    { split; [by eapply (lb_held _ _ _ _ _ _ (proj2 Hinv))|done|lia]. }
    intros p s' Hs. apply wp_ret, Hok. right. left. by split.
  - rewrite min_spec, Z.min_r by lia. rewrite Z.geb_leb. destruct (Z.leb_spec MREMAP_MOVE_THRESHOLD old_size) as [Hthr|Hthr].
    + apply wp_bind. eapply wp_conseq; [apply wp_move_large; [exact Hinv'|done..|lia]|].
      intros p s' Hs. apply wp_ret, Hok. right. right. split_and!; try done. lia.
    + apply wp_ret, Hok. split_and!; try done. right. lia.
Qed.
End Realloc.
