(* ===== verification/LargeSpec.v ===== *)
(** What large allocations promise to the program: fresh zeroed blocks, exact
    error checks, and reallocation that keeps the contents. *)

From S2P Require Import Prelude Config Util SizeClass Kernel Maps Pages RandomSource Regions RegionTable RegionMap Large LargeInv LargeAlloc LargeFree LargeRealloc.

(** ** A start state: the tables of an initialised allocator are mapped *)

Section Start.
Context {Cfg : Config} {Cok : ConfigOk Cfg} {K : Kernel} {Kok : KernelOk K} {R : Type}.
Context `{!RandomSource R} `{!RandomSourceOk R}.

Lemma large_inv_init (rest : Z -> Prop) (rng : R) a b w :
  random_inv rng ->
  (forall x, pages a (MAX_REGION_TABLE_SIZE * sizeof_region_metadata) x \/
             pages b (MAX_REGION_TABLE_SIZE * sizeof_region_metadata) x -> mapped (kern w) x /\ ~ rest x) ->
  (forall x, rest x -> mapped (kern w) x) ->
  large_inv rest (init_region_allocator rng a b) ∅ w.
Proof.
  intros Hrng Hab Hrest. split; [done|]. split; try done.
  - apply regions_inv_init.
  - cbn. lia.
  - assert (Hempty : forall k x, ~ quarantine_range ((∅ : gmap Z quarantine_info).[k]) x)
      by (intros k x [Hq _]; unfold aget in Hq; by rewrite lookup_empty in Hq).
    assert (Hstate : forall c x, pages (if c : bool then b else a) (MAX_REGION_TABLE_SIZE * sizeof_region_metadata) x ->
      mapped (kern w) x /\ ~ rest x) by (intros [] x Hx; apply Hab; tauto).
    split.
    + intros [] x; cbn; try (by intros []%Hempty); [intros [c Hc]; by eapply Hstate|by apply Hrest|..].
      * by intros (v & Hv & _).
      * by intros (q & [=] & _).
    + intros o o' x Ho Ho'. destruct o, o'; cbn in *; try done;
        repeat match goal with
        | H : exists _, _ !! _ = _ /\ _ |- _ => by destruct H as (? & Hv & _)
        | H : exists _, None = _ /\ _ |- _ => by destruct H as (? & [=] & _)
        | H : quarantine_range _ _ |- _ => by apply Hempty in H
        | H : exists c, pages _ _ _ |- _ => destruct H as [? H]; apply Hstate in H as [? H]
        end; done.
Qed.
End Start.

(** ** The promises *)

Section Spec.
Context {Cfg : Config} {Cok : ConfigOk Cfg} {K : Kernel} {Kok : KernelOk K} {R : Type}.
Context `{!RandomSource R} `{!RandomSourceOk R}.
Implicit Types (ra : region_allocator R) (m : gmap Z (Z * Z)) (w : world).

(** C25: allocate_large returns NULL with ENOMEM and nothing allocated, or a
    zeroed, page-aligned block of at least the requested size, between guards of
    at least a page each, registered in the table, on pages that were mapped by
    nobody before; every other allocation and the rest of the process keep their
    contents. It aborts only when the kernel or the random source fail. *)
Theorem allocate_large_ok rest ra m w size :
  large_inv rest ra m w -> fits 64 size ->
  wp (allocate_large size)
     (fun p s' =>
        p = 0 /\ errno (snd s') = ENOMEM /\ large_inv rest (fst s') m (snd s') /\
          kept_memory rest m (mem w) (mem (snd s')) \/
        exists block_size guard, size <= block_size /\ block_size = get_large_size_class size /\ PAGE_SIZE <= guard /\
          m !! p = None /\ 0 < p /\ (PAGE_SIZE | p) /\ zero_in p block_size (mem (snd s')) /\
          large_inv rest (fst s') (<[p := (block_size, guard)]> m) (snd s') /\
          kept_memory rest m (mem w) (mem (snd s')) /\ (forall a, block p block_size guard a -> ~ mapped (kern w) a))
     system_halts (ra, w).
Proof.
  intros Hinv Hsize. eapply wp_conseq; [by apply wp_allocate_large|].
  intros p s' [(-> & He & Hi & Hk)|(Hm & Hp & Hpage & Hz & g & Hg & Hi & Hk & Hf)]; [by left|right].
  exists (get_large_size_class size), g. split_and!; try done.
  - destruct (large_class_holds size Hsize) as [E|]; [|lia].
    assert (Hl : large_block p (get_large_size_class size) g)
      by (eapply (lb_held _ _ _ _ _ _ (proj2 Hi)); apply lookup_insert_eq).
    destruct Hl as [[] _]. lia.
  - destruct Hg as (_ & [x ->] & Hg). rewrite PAGE_SIZE_eq in *. lia.
Qed.

(** The path of allocate_aligned for alignments above the page size gives the
    same promises for every power of two, with the block aligned to it; NULL is
    never stored and the only error is ENOMEM. *)
Theorem allocate_aligned_large_ok rest ra m w k size :
  large_inv rest ra m w -> fits 64 size -> 12 <= k < 64 ->
  wp (allocate_aligned_large (2 ^ k) size)
     (fun r s' =>
        r = (ENOMEM, None) /\ large_inv rest (fst s') m (snd s') /\ kept_memory rest m (mem w) (mem (snd s')) \/
        exists p guard, r = (0, Some p) /\ (2 ^ k | p) /\ 0 < p /\ m !! p = None /\ guard_ok guard /\
          zero_in p (get_large_size_class size) (mem (snd s')) /\
          large_inv rest (fst s') (<[p := (get_large_size_class size, guard)]> m) (snd s') /\
          kept_memory rest m (mem w) (mem (snd s')) /\
          (forall a, block p (get_large_size_class size) guard a -> ~ mapped (kern w) a))
     system_halts (ra, w).
Proof.
  intros Hinv Hsize Hk. eapply wp_conseq; [by apply wp_allocate_aligned_large|].
  intros r s' [(-> & Hi & Hm)|(p & -> & Hd & Hm & Hp & Hpage & Hz & g & Hg & Hi & Hkept & Hf)]; [by left|right].
  by exists p, g.
Qed.

(** C24: deallocate_large aborts with exactly the prescribed message (use before
    initialisation, a pointer that is no large allocation, a wrong size), and
    otherwise removes exactly that allocation: the others keep their contents,
    and with the region quarantine active the freed range with its guards is in
    it, still mapped and owned. *)
Theorem deallocate_large_ok rest ra m w slab_region_end p expected :
  large_inv rest ra m w ->
  wp (deallocate_large slab_region_end p expected)
     (fun _ s' => large_verdict slab_region_end m p expected = None /\
        exists size guard, m !! p = Some (size, guard) /\
          large_inv rest (fst s') (delete p m) (snd s') /\
          kept_memory rest (delete p m) (mem w) (mem (snd s')) /\
          (quarantine_active size = true -> region_quarantined (fst s') (block_range p size guard)))
     (verdict_halts (large_verdict slab_region_end m p expected)) (ra, w).
Proof. intros Hinv. exact (wp_deallocate_large rest ra m w slab_region_end p expected Hinv). Qed.

(** A large allocation cannot be freed twice: the second call never returns. *)
Theorem large_double_free_aborts rest ra m w slab_region_end p e1 e2 :
  large_inv rest ra m w ->
  wp (deallocate_large slab_region_end p e1 ;;; deallocate_large slab_region_end p e2)
     (fun _ _ => False) (fun _ => True) (ra, w).
Proof.
  intros Hinv. apply wp_bind. eapply wp_mono; [by apply wp_deallocate_large| |done].
  intros _ [ra1 w1] (Hv & size & guard & Hm & Hinv1 & _). cbn [fst snd] in *.
  eapply wp_mono; [by apply (wp_deallocate_large rest ra1 (delete p m))| |done].
  intros _ s2 (Hv2 & size2 & guard2 & Hm2 & _). by rewrite lookup_delete_eq in Hm2.
Qed.

(** C26: The large paths of h_realloc abort with exactly the prescribed message, or
    resize the block: equal sizes return it unchanged; a smaller large size
    shrinks it in place, keeping the prefix, or fails with NULL, ENOMEM and the
    block intact; a larger size at or above the threshold moves it to a fresh
    block with the old contents and zeros after them, or fails in the same way;
    otherwise nothing changes and a copy is left to the caller. *)
Theorem realloc_large_ok rest ra m w slab_region_end old size :
  large_inv rest ra m w -> size <= max_slab_size_class \/ large_class size ->
  wp (realloc_large slab_region_end old size)
     (fun r s' => realloc_verdict slab_region_end m old = None /\
        exists old_size guard, m !! old = Some (old_size, guard) /\ realloc_post rest m w old old_size guard size r s')
     (verdict_halts (realloc_verdict slab_region_end m old)) (ra, w).
Proof. intros Hinv Hsize. exact (wp_realloc_large rest ra m w slab_region_end old size Hinv Hsize). Qed.
End Spec.

(** ** Witnesses *)

Section Witnesses.
#[local] Existing Instance default_config.

Definition demo_tables : demo_state :=
  DemoState [(true, (2 ^ 41, page_align (MAX_REGION_TABLE_SIZE * sizeof_region_metadata)));
             (true, (2 ^ 40, page_align (MAX_REGION_TABLE_SIZE * sizeof_region_metadata)))] [].
Definition demo_large_ra : region_allocator Z := init_region_allocator 0 (2 ^ 40) (2 ^ 41).
Definition demo_large_world : world := World _ demo_tables ∅ 0.

Lemma demo_large_inv : large_inv (fun _ => False) demo_large_ra ∅ demo_large_world.
Proof.
  apply large_inv_init; [vm_compute; done| |done]. intros x Hx. split; [|tauto]. cbn. unfold pages in Hx.
  repeat case_decide; try done. lia.
Qed.

(** The state after an allocation of 300000 bytes. *)
Definition demo_block : region_allocator Z * world :=
  match allocate_large 300000 (demo_large_ra, demo_large_world) with
  | Ret _ s => s
  | Halt _ => (demo_large_ra, demo_large_world)
  end.

Definition demo_blocks : gmap Z (Z * Z) := {[2199031648256 := (327680, 4096)]}.

Lemma demo_block_ptr :
  match allocate_large 300000 (demo_large_ra, demo_large_world) with Ret p _ => p = 2199031648256 | Halt _ => False end.
Proof. vm_compute. reflexivity. Qed.

Lemma demo_block_cell :
  match regions_find 2199031648256 demo_block with
  | Ret (Some i) s => (ra_table (fst s)).[i] = RegionMetadata 2199031648256 327680 4096
  | _ => False
  end.
Proof. vm_compute. reflexivity. Qed.

Lemma demo_block_class : get_large_size_class 300000 = 327680.
Proof. vm_compute. reflexivity. Qed.

Lemma demo_block_inv : large_inv (fun _ => False) (fst demo_block) demo_blocks (snd demo_block).
Proof.
  pose proof (wp_allocate_large (fun _ => False) demo_large_ra ∅ demo_large_world 300000 demo_large_inv ltac:(by vm_compute)) as H.
  pose proof demo_block_ptr as Hptr. pose proof demo_block_cell as Hcell. unfold demo_block, wp in *.
  destruct (allocate_large 300000 _) as [p s|h]; [subst p|done].
  destruct H as [([=] & _)|(_ & _ & _ & _ & g & _ & Hi & _)]. rewrite demo_block_class in Hi. unfold demo_blocks. rewrite insert_empty in Hi. destruct s as [ra w]. cbn [fst snd] in *.
  pose proof (wp_regions_find ra _ 2199031648256 w (lb_regions _ _ _ _ _ _ (proj2 Hi))) as Hf. unfold wp in Hf.
  destruct (regions_find _ _) as [[i|] s|h]; [|done..]. destruct Hf as [-> (v & Hv & Hc)]. cbn [fst] in Hcell.
  destruct Hc as [_ Hc]. rewrite Hc in Hcell. rewrite lookup_singleton_eq in Hv. injection Hv as <-. cbn in Hcell.
  injection Hcell as ->. done.
Qed.

Lemma allocate_large_ok_witness :
  wp (allocate_large 300000)
     (fun p s' =>
        p = 0 /\ errno (snd s') = ENOMEM /\ large_inv (fun _ => False) (fst s') demo_blocks (snd s') /\
          kept_memory (fun _ => False) demo_blocks (mem (snd demo_block)) (mem (snd s')) \/
        exists block_size guard, 300000 <= block_size /\ block_size = get_large_size_class 300000 /\ PAGE_SIZE <= guard /\
          demo_blocks !! p = None /\ 0 < p /\ (PAGE_SIZE | p) /\ zero_in p block_size (mem (snd s')) /\
          large_inv (fun _ => False) (fst s') (<[p := (block_size, guard)]> demo_blocks) (snd s') /\
          kept_memory (fun _ => False) demo_blocks (mem (snd demo_block)) (mem (snd s')) /\
          (forall a, block p block_size guard a -> ~ mapped (kern (snd demo_block)) a))
     system_halts (fst demo_block, snd demo_block).
Proof. exact (allocate_large_ok _ _ _ _ 300000 demo_block_inv ltac:(by vm_compute)). Defined.

Lemma allocate_aligned_large_ok_witness :
  wp (allocate_aligned_large (2 ^ 16) 300000)
     (fun r s' =>
        r = (ENOMEM, None) /\ large_inv (fun _ => False) (fst s') demo_blocks (snd s') /\
          kept_memory (fun _ => False) demo_blocks (mem (snd demo_block)) (mem (snd s')) \/
        exists p guard, r = (0, Some p) /\ (2 ^ 16 | p) /\ 0 < p /\ demo_blocks !! p = None /\ guard_ok guard /\
          zero_in p (get_large_size_class 300000) (mem (snd s')) /\
          large_inv (fun _ => False) (fst s') (<[p := (get_large_size_class 300000, guard)]> demo_blocks) (snd s') /\
          kept_memory (fun _ => False) demo_blocks (mem (snd demo_block)) (mem (snd s')) /\
          (forall a, block p (get_large_size_class 300000) guard a -> ~ mapped (kern (snd demo_block)) a))
     system_halts (fst demo_block, snd demo_block).
Proof. exact (allocate_aligned_large_ok _ _ _ _ 16 300000 demo_block_inv ltac:(by vm_compute) ltac:(lia)). Defined.

Lemma deallocate_large_ok_witness :
  wp (deallocate_large 1 2199031648256 (Some 300000))
     (fun _ s' => large_verdict 1 demo_blocks 2199031648256 (Some 300000) = None /\
        exists size guard, demo_blocks !! 2199031648256 = Some (size, guard) /\
          large_inv (fun _ => False) (fst s') (delete 2199031648256 demo_blocks) (snd s') /\
          kept_memory (fun _ => False) (delete 2199031648256 demo_blocks) (mem (snd demo_block)) (mem (snd s')) /\
          (quarantine_active size = true -> region_quarantined (fst s') (block_range 2199031648256 size guard)))
     (verdict_halts (large_verdict 1 demo_blocks 2199031648256 (Some 300000))) (fst demo_block, snd demo_block).
Proof. exact (deallocate_large_ok _ _ _ _ 1 2199031648256 (Some 300000) demo_block_inv). Defined.

Lemma large_double_free_aborts_witness :
  wp (deallocate_large 1 2199031648256 None ;;; deallocate_large 1 2199031648256 None)
     (fun _ _ => False) (fun _ => True) (fst demo_block, snd demo_block).
Proof. exact (large_double_free_aborts _ _ _ _ 1 2199031648256 None None demo_block_inv). Defined.

Lemma demo_shrink_class : large_class 163840.
Proof. exists 163840. split; [by vm_compute|]. by vm_compute. Qed.

Lemma realloc_large_ok_witness :
  wp (realloc_large 1 2199031648256 163840)
     (fun r s' => realloc_verdict 1 demo_blocks 2199031648256 = None /\
        exists old_size guard, demo_blocks !! 2199031648256 = Some (old_size, guard) /\
          realloc_post (fun _ => False) demo_blocks (snd demo_block) 2199031648256 old_size guard 163840 r s')
     (verdict_halts (realloc_verdict 1 demo_blocks 2199031648256)) (fst demo_block, snd demo_block).
Proof.
  exact (realloc_large_ok _ _ _ _ 1 2199031648256 163840 demo_block_inv (or_intror demo_shrink_class)).
Defined.
End Witnesses.
