(* ===== verification/LargeQuarantine.v ===== *)
(** How long the region quarantine keeps a freed block: the programs of the region
    allocator are counted by the ranges they put in the quarantine, and a range
    stays in it, mapped and owned, for a number of them that the lengths of the two
    arrays fix. *)

From S2P Require Import Prelude Config Util SizeClass Kernel Maps Pages RandomSource Regions RegionTable RegionMap Large LargeInv LargeAlloc LargeFree LargeRealloc LargeSpec.

(** ** The age of a range *)

Section Age.
Context {Cfg : Config} {K : Kernel} {R : Type} `{!RandomSource R}.
Implicit Types (ra : region_allocator R) (q : quarantine_info) (n j : Z).

(** [q] stays in the quarantine for [n] more ranges: it is in the random array, or
    in a cell of the queue that as many others come before. *)
Definition resident n ra q : Prop :=
  0 <= ra_quarantine_queue_index ra < Z.max 1 REGION_QUARANTINE_QUEUE_LENGTH /\
  ((exists k, (ra_quarantine_random ra).[k] = q) /\ n <= REGION_QUARANTINE_QUEUE_LENGTH \/
   exists k, 0 <= k < REGION_QUARANTINE_QUEUE_LENGTH /\ (ra_quarantine_queue ra).[k] = q /\
     n <= (k - ra_quarantine_queue_index ra) mod REGION_QUARANTINE_QUEUE_LENGTH).

(** For how many ranges a new one stays: it may leave the random array with the
    next, and passes all of the queue. *)
Definition quarantine_residence : Z :=
  if 0 <? REGION_QUARANTINE_RANDOM_LENGTH then REGION_QUARANTINE_QUEUE_LENGTH else REGION_QUARANTINE_QUEUE_LENGTH - 1.

Lemma resident_mono n j ra q : j <= n -> resident n ra q -> resident j ra q.
Proof.
  intros Hj [Hi [[Hk Hn]|(k & Hk & Hq & Hn)]]; (split; [done|]); [left|right].
  - split; [done|lia].
  - exists k. split; [done|]. split; [done|lia].
Qed.

Lemma resident_quarantined n ra q : resident n ra q -> region_quarantined ra q.
Proof. intros [_ [[Hk _]|(k & _ & Hq & _)]]; [by left|right; by exists k]. Qed.

(** The two arrays and the index. *)
Definition quarantine_of ra := (ra_quarantine_random ra, ra_quarantine_queue ra, ra_quarantine_queue_index ra).

Lemma resident_same n ra ra' q : quarantine_of ra' = quarantine_of ra -> resident n ra q -> resident n ra' q.
Proof. unfold quarantine_of, resident. by intros [= -> -> ->]. Qed.

(** ** Programs that put at most [n] ranges in the quarantine *)

Class AgesBy n {A} (mm : LM (R := R) A) : Prop :=
  ages_by s q j : 0 <= j -> q_p q <> 0 -> resident (j + n) (fst s) q -> wp mm (fun _ s' => resident j (fst s') q) (fun _ => True) s.

#[export] Instance ages_ret {A} (a : A) : AgesBy 0 (ret a).
Proof. intros s q j _ _ Hq. apply wp_ret. by rewrite Z.add_0_r in Hq. Qed.

#[export] Instance ages_gets {A} (f : region_allocator R * world -> A) : AgesBy 0 (gets f).
Proof. intros s q j _ _ Hq. apply wp_gets. by rewrite Z.add_0_r in Hq. Qed.

#[export] Instance ages_fatal {A} msg : AgesBy 0 (fatal_error (A := A) msg).
Proof. by intros s q j. Qed.

#[export] Instance ages_stuck {A} : AgesBy 0 (stuck (A := A)).
Proof. by intros s q j. Qed.

#[export] Instance ages_of_fuel {A} (o : option A) : AgesBy 0 (of_fuel o).
Proof. destruct o; apply _. Qed.

#[export] Instance ages_get_ra : AgesBy 0 get_ra.
Proof. apply _. Qed.

(** What does not touch the two arrays. *)
Lemma ages_modify_ra f : (forall ra, quarantine_of (f ra) = quarantine_of ra) -> AgesBy 0 (modify_ra f).
Proof.
  intros Hf s q j _ _ Hq. rewrite Z.add_0_r in Hq. apply wp_modify. cbn [fst]. eapply resident_same; [|exact Hq]. apply Hf.
Qed.

#[export] Instance ages_on_world {A} (mm : M world A) : AgesBy 0 (on_world mm).
Proof.
  intros s q j _ _ Hq. rewrite Z.add_0_r in Hq. unfold wp, on_world, zoom. by destruct (mm (snd s)).
Qed.

#[export] Instance ages_with_ra_rng {A} (mm : M (R * world) A) : AgesBy 0 (with_ra_rng mm).
Proof.
  intros s q j _ _ Hq. rewrite Z.add_0_r in Hq. unfold wp, with_ra_rng, zoom. by destruct (mm _) as [a [r w]|h].
Qed.

Lemma ages_bind {A B} n n' (mm : LM A) (k : A -> LM B) :
  0 <= n' -> AgesBy n mm -> (forall a, AgesBy n' (k a)) -> AgesBy (n + n') (bind mm k).
Proof.
  intros Hn' Hm Hk s q j Hj Hq Hres. apply wp_bind. eapply wp_mono; [apply (Hm s q (j + n')); [lia|done|]| |done].
  - eapply resident_mono; [|exact Hres]. lia.
  - intros a s' Hs'. by apply Hk.
Qed.

Lemma ages_more {A} n n' (mm : LM A) : AgesBy n' mm -> n' <= n -> AgesBy n mm.
Proof. intros Hm Hn s q j Hj Hq Hres. apply Hm; [done..|]. eapply resident_mono; [|exact Hres]. lia. Qed.

Lemma ages_bind0 {A B} (mm : LM A) (k : A -> LM B) : AgesBy 0 mm -> (forall a, AgesBy 0 (k a)) -> AgesBy 0 (bind mm k).
Proof. by apply (ages_bind 0 0). Qed.

Lemma ages_then {A B} n (mm : LM A) (k : A -> LM B) : 0 <= n -> AgesBy 0 mm -> (forall a, AgesBy n (k a)) -> AgesBy n (bind mm k).
Proof. apply (ages_bind 0 n). Qed.

Lemma ages_first {A B} n (mm : LM A) (k : A -> LM B) : AgesBy n mm -> (forall a, AgesBy 0 (k a)) -> AgesBy n (bind mm k).
Proof. intros Hm Hk. rewrite <- (Z.add_0_r n). by apply ages_bind. Qed.

End Age.

(** Follow the structure of a program that does not move ranges. *)
Ltac ages_step :=
  lazymatch goal with
  | |- AgesBy 0 (bind _ _) => apply ages_bind0; [|intros ?]
  | |- AgesBy 0 (let _ := _ in _) => cbv zeta
  | |- AgesBy 0 (match ?x with _ => _ end) => destruct x
  | |- AgesBy 0 (modify_ra _) => apply ages_modify_ra; intros ?; reflexivity
  | |- AgesBy 0 _ => apply _
  end.
Ltac ages := repeat ages_step.
#[export] Hint Extern 2 (AgesBy 0 (match ?x with _ => _ end)) => destruct x : typeclass_instances.

(** ** The operations *)

Section Operations.
Context {Cfg : Config} {K : Kernel} {R : Type} `{!RandomSource R}.
Implicit Types (ra : region_allocator R) (q : quarantine_info).

#[export] Instance ages_enforce_init e : AgesBy 0 (R := R) (enforce_init e).
Proof. unfold enforce_init. ages. Qed.

#[export] Instance ages_region_lock : AgesBy 0 (R := R) region_lock.
Proof. unfold region_lock. ages. Qed.

#[export] Instance ages_region_unlock : AgesBy 0 (R := R) region_unlock.
Proof. unfold region_unlock. ages. Qed.

#[export] Instance ages_regions_grow : AgesBy 0 (R := R) regions_grow.
Proof. unfold regions_grow. ages. Qed.

#[export] Instance ages_regions_insert p size guard : AgesBy 0 (R := R) (regions_insert p size guard).
Proof. unfold regions_insert. ages. Qed.

#[export] Instance ages_regions_find p : AgesBy 0 (R := R) (regions_find p).
Proof. unfold regions_find. ages. Qed.

#[export] Instance ages_regions_delete i : AgesBy 0 (R := R) (regions_delete i).
Proof. unfold regions_delete. ages. Qed.

#[export] Instance ages_stats_large_allocate n : AgesBy 0 (R := R) (stats_large_allocate n).
Proof. unfold stats_large_allocate. ages. Qed.

#[export] Instance ages_stats_large_deallocate n : AgesBy 0 (R := R) (stats_large_deallocate n).
Proof. unfold stats_large_deallocate. ages. Qed.

#[export] Instance ages_draw_guard_size n : AgesBy 0 (R := R) (draw_guard_size n).
Proof. unfold draw_guard_size. ages. Qed.

#[export] Instance ages_register_large p size guard : AgesBy 0 (R := R) (register_large p size guard).
Proof. unfold register_large, enter_large. ages. Qed.

#[export] Instance ages_allocate_large size : AgesBy 0 (R := R) (allocate_large size).
Proof. unfold allocate_large. ages. Qed.

#[export] Instance ages_allocate_aligned_large alignment size : AgesBy 0 (R := R) (allocate_aligned_large alignment size).
Proof. unfold allocate_aligned_large. ages. Qed.

#[export] Instance ages_remove_large p expected : AgesBy 0 (R := R) (remove_large p expected).
Proof. unfold remove_large. ages. Qed.

#[export] Instance ages_find_for_realloc old : AgesBy 0 (R := R) (find_for_realloc old).
Proof. unfold find_for_realloc. ages. Qed.

#[export] Instance ages_move_large old old_size guard size n : AgesBy 0 (R := R) (move_large old old_size guard size n).
Proof. unfold move_large. ages. Qed.

(** The distance of a cell shrinks by one when the index advances. *)
Lemma queue_distance n k i : 0 < n -> 0 <= k < n -> 0 <= i < n -> k <> i -> (k - (i + 1) mod n) mod n = (k - i) mod n - 1.
Proof.
  intros Hn Hk Hi Hne. rewrite Zminus_mod_idemp_r. replace (k - (i + 1)) with (k - i - 1) by lia.
  assert (Hd : 0 < (k - i) mod n).
  { pose proof (Z.mod_pos_bound (k - i) n Hn). destruct (decide ((k - i) mod n = 0)) as [E|]; [|lia].
    apply Z.mod_divide in E as [z Hz]; [|lia]. assert (z = 0) by nia. lia. }
  pose proof (Z.mod_pos_bound (k - i) n Hn). rewrite <- Zminus_mod_idemp_l. apply Z.mod_small. lia.
Qed.

(** The queue takes the cell at the index and hands out what was there. *)
Lemma wp_queue_ages target w ra :
  0 < REGION_QUARANTINE_QUEUE_LENGTH -> 0 <= ra_quarantine_queue_index ra < Z.max 1 REGION_QUARANTINE_QUEUE_LENGTH ->
  wp (region_quarantine_queue_swap target)
     (fun _ s' => resident (REGION_QUARANTINE_QUEUE_LENGTH - 1) (fst s') target /\
        ra_quarantine_random (fst s') = ra_quarantine_random ra /\
        forall q j, 0 <= j -> resident (j + 1) ra q -> resident j (fst s') q) no_halt (ra, w).
Proof.
  intros Hpos Hidx. set (n := REGION_QUARANTINE_QUEUE_LENGTH) in *.
  unfold region_quarantine_queue_swap. fold n. rewrite (proj2 (Z.ltb_lt 0 n) Hpos).
  do 4 la_step. apply wp_ret. set (i := ra_quarantine_queue_index ra) in *.
  assert (Hi : 0 <= i < n) by lia. pose proof (Z.mod_pos_bound (i + 1) n Hpos) as Hmod. split; [|split; [done|]].
  - split; [cbn; fold n; lia|]. right. exists i. fold n. split; [lia|]. split; [apply aget_aset|]. cbn.
    rewrite Zminus_mod_idemp_r. replace (i - (i + 1)) with (-1) by lia.
    rewrite <- (Z.mod_unique (-1) n (-1) (n - 1)) by lia. lia.
  - intros q j Hj [_ [[Hk Hn]|(k & Hk & Hq & Hn)]]; (split; [cbn; fold n; lia|]); try fold n in Hk; fold n in Hn.
    + left. split; [exact Hk|]. lia.
    + right. exists k. fold n. split; [done|]. fold i in Hn.
      assert (Hne : k <> i) by (intros ->; rewrite Z.sub_diag, Z.mod_0_l in Hn by lia; lia).
      cbn. rewrite aget_aset_ne by done. split; [done|]. rewrite queue_distance by done. lia.
Qed.

(** The random array keeps the new range, and hands out at most one other. *)
Lemma wp_random_ages target s :
  wp (region_quarantine_random_swap target)
     (fun out s' => ra_quarantine_queue_index (fst s') = ra_quarantine_queue_index (fst s) /\
        (if 0 <? REGION_QUARANTINE_RANDOM_LENGTH then exists k, (ra_quarantine_random (fst s')).[k] = target else out = Some target) /\
        forall q j, q_p q <> 0 -> resident j (fst s) q ->
          resident j (fst s') q \/ out = Some q /\ j <= REGION_QUARANTINE_QUEUE_LENGTH) (fun _ => True) s.
Proof.
  unfold region_quarantine_random_swap. destruct (0 <? REGION_QUARANTINE_RANDOM_LENGTH).
  2: { apply wp_ret. split; [done|]. split; [done|]. by left. }
  apply wp_bind. unfold with_ra_rng. apply wp_zoom. unfold wp at 1.
  destruct (get_random_u64_uniform _ _) as [k [r w]|h]; [|done]. cbn [fst snd].
  do 4 la_step. apply wp_ret. split; [done|]. split; [exists k; apply aget_aset|].
  intros q j Hq [Hi [[[l Hl] Hj]|(l & Hl & Hc)]].
  - cbn [fst ra_quarantine_random set_ra_rng]. destruct (decide (l = k)) as [->|Hne]; [right|left].
    + rewrite Hl. rewrite (proj2 (Z.eqb_neq _ 0)) by done. done.
    + split; [done|]. left. split; [|done]. exists l. cbn. by rewrite aget_aset_ne.
  - left. split; [done|]. right. by exists l.
Qed.

(** Both arrays. *)
Lemma wp_swap_ages target s :
  wp (region_quarantine_swap target)
     (fun _ s' => (forall q j, 0 <= j -> q_p q <> 0 -> resident (j + 1) (fst s) q -> resident j (fst s') q) /\
        (REGION_QUARANTINE = true -> 0 <= ra_quarantine_queue_index (fst s) < Z.max 1 REGION_QUARANTINE_QUEUE_LENGTH ->
           resident quarantine_residence (fst s') target)) (fun _ => True) s.
Proof.
  unfold region_quarantine_swap, region_lock. do 3 la_step. destruct (ra_lock (fst s)); [done|]. do 2 la_step.
  destruct s as [ra w]. cbn [fst snd]. eapply wp_conseq; [apply wp_random_ages|].
  intros out [ra1 w1] (Hidx & Htarget & Hother). cbn [fst snd] in *.
  assert (Hsame : forall n ra2 q, resident n ra2 q -> resident n (set_ra_lock false ra2) q) by done.
  destruct out as [t|].
  2: { do 2 la_step. apply wp_ret. cbn [fst]. split.
    - intros q j Hj Hq Hres. destruct (Hother q (j + 1) Hq Hres) as [Hres1|[[=] _]].
      apply Hsame. eapply resident_mono; [|exact Hres1]. lia.
    - intros _ Hi. apply Hsame. split; [by rewrite Hidx|]. left. unfold quarantine_residence.
      destruct (0 <? REGION_QUARANTINE_RANDOM_LENGTH); [by split|done]. }
  apply wp_bind. destruct (Z.ltb_spec 0 REGION_QUARANTINE_QUEUE_LENGTH) as [Hpos|Hzero].
  - destruct (decide (0 <= ra_quarantine_queue_index ra < Z.max 1 REGION_QUARANTINE_QUEUE_LENGTH)) as [Hi|Hno].
    + eapply wp_mono; [apply wp_queue_ages; [done|by rewrite Hidx]| |done].
      intros t' [ra2 w2] (Ht & Hrnd & Hrest). cbn [fst snd] in *. do 2 la_step. apply wp_ret. cbn [fst]. split.
      * intros q j Hj Hq Hres. apply Hsame. destruct (Hother q (j + 1) Hq Hres) as [Hres1|[[= ->] Hle]]; [by apply Hrest|].
        eapply resident_mono; [|exact Ht]. lia.
      * intros _ _. apply Hsame. unfold quarantine_residence. destruct (0 <? REGION_QUARANTINE_RANDOM_LENGTH).
        -- split; [apply Ht|]. left. by rewrite Hrnd.
        -- by injection Htarget as ->.
    + unfold wp. destruct (region_quarantine_queue_swap _ _) as [t' s'|]; [|done]. unfold bind, region_unlock, modify_ra, modify, ret.
      cbn [fst snd]. split; [|tauto]. intros q j Hj Hq [Hi _]. tauto.
  - unfold region_quarantine_queue_swap. rewrite (proj2 (Z.ltb_ge _ _) Hzero). apply wp_ret. do 2 la_step. apply wp_ret.
    cbn [fst]. split.
    + intros q j Hj Hq [_ [[_ Hn]|(k & Hk & _)]]; lia.
    + intros Hactive Hi. apply Hsame. unfold REGION_QUARANTINE in Hactive. unfold quarantine_residence.
      rewrite (proj2 (Z.ltb_ge 0 REGION_QUARANTINE_QUEUE_LENGTH) Hzero), orb_false_r in Hactive. rewrite Hactive in *.
      split; [by rewrite Hidx|]. by left.
Qed.

#[export] Instance ages_quarantine_swap target : AgesBy 1 (R := R) (region_quarantine_swap target).
Proof.
  intros s q j Hj Hq Hres. eapply wp_conseq; [apply wp_swap_ages|]. intros _ s' [Hs _]. by apply Hs.
Qed.

#[export] Instance ages_quarantine_pages p size guard : AgesBy 1 (R := R) (regions_quarantine_deallocate_pages p size guard).
Proof.
  unfold regions_quarantine_deallocate_pages. destruct (_ || _); [apply (ages_more 1 0); [apply _|done]|].
  apply ages_then; [done|apply _|]. intros _. apply ages_first; [apply _|]. intros out. apply _.
Qed.

#[export] Instance ages_deallocate_large e p expected : AgesBy 1 (R := R) (deallocate_large e p expected).
Proof.
  unfold deallocate_large. apply ages_then; [done|apply _|]. intros _. apply ages_then; [done|apply _|]. intros b. apply _.
Qed.

#[export] Instance ages_shrink_large old old_size guard size : AgesBy 1 (R := R) (shrink_large old old_size guard size).
Proof.
  unfold shrink_large. cbv zeta. apply ages_then; [done|apply _|]. intros [|]; [apply (ages_more 1 0); [apply _|done]|].
  apply ages_then; [done|apply _|]. intros _. apply ages_first; [apply _|]. intros _. ages.
Qed.

#[export] Instance ages_realloc_large e old size : AgesBy 1 (R := R) (realloc_large e old size).
Proof.
  unfold realloc_large. do 4 (apply ages_then; [done|apply _|]; intros ?). cbv zeta.
  destruct (_ =? _); [apply (ages_more 1 0); [ages|done]|]. apply ages_then; [done|apply _|]. intros ?.
  destruct (_ >? _); [|apply (ages_more 1 0); [ages|done]]. destruct (_ <? _).
  - apply ages_first; [apply _|]. intros ?. ages.
  - destruct (_ >=? _); (eapply (ages_more 1 0); [ages|done]).
Qed.
End Operations.

(** ** Histories of large allocations *)

(** A call of the large paths: allocate_large, allocate_aligned with an alignment of
    2^k beyond the page size, deallocate_large, and the large paths of h_realloc. *)
Inductive large_call : Type :=
| AllocateLarge (size : Z)
| AllocateAlignedLarge (k size : Z)
| DeallocateLarge (p : Z) (expected : option Z)
| ReallocLarge (old size : Z).

Definition valid_call `{Config} (c : large_call) : Prop :=
  match c with
  | AllocateLarge size => fits 64 size
  | AllocateAlignedLarge k size => fits 64 size /\ 12 <= k < 64
  | DeallocateLarge _ _ => True
  | ReallocLarge _ size => size <= max_slab_size_class \/ large_class size
  end.

(** The calls that may give pages to the quarantine. *)
Definition gives_back (c : large_call) : bool :=
  match c with DeallocateLarge _ _ | ReallocLarge _ _ => true | _ => false end.

Section History.
Context {Cfg : Config} {Cok : ConfigOk Cfg} {K : Kernel} {Kok : KernelOk K} {R : Type}.
Context `{!RandomSource R} `{!RandomSourceOk R}.
Implicit Types (ra : region_allocator R) (m : gmap Z (Z * Z)) (w : world) (q : quarantine_info).

Definition run_large_call (slab_region_end : Z) (c : large_call) : LM (R := R) unit :=
  match c with
  | AllocateLarge size => allocate_large size ;;; ret tt
  | AllocateAlignedLarge k size => allocate_aligned_large (2 ^ k) size ;;; ret tt
  | DeallocateLarge p expected => deallocate_large slab_region_end p expected
  | ReallocLarge old size => realloc_large slab_region_end old size ;;; ret tt
  end.

Fixpoint run_large_calls (slab_region_end : Z) (cs : list large_call) : LM (R := R) unit :=
  match cs with
  | [] => ret tt
  | c :: cs => run_large_call slab_region_end c ;;; run_large_calls slab_region_end cs
  end.

(** The process ends because the kernel or the random source fail, or with the
    message of a call that was given a wrong pointer or size. *)
Definition large_halts (slab_region_end : Z) (h : halt) : Prop :=
  system_halts h \/ exists m p expected msg, h = Fatal msg /\
    (large_verdict slab_region_end m p expected = Some msg \/ realloc_verdict slab_region_end m p = Some msg).

(** Some map of blocks satisfies the invariant. *)
Definition large_fine (rest : Z -> Prop) (s : region_allocator R * world) : Prop :=
  exists m, large_inv rest (fst s) m (snd s).

Lemma wp_large_call rest ra m w e c :
  large_inv rest ra m w -> valid_call c ->
  wp (run_large_call e c) (fun _ => large_fine rest) (large_halts e) (ra, w).
Proof.
  intros Hinv Hc. destruct c as [size|k size|p expected|old size]; cbn [run_large_call valid_call] in *.
  - apply wp_bind. eapply wp_mono; [by apply wp_allocate_large| |intros h Hh; by left].
    intros p s' [(_ & _ & Hi & _)|(_ & _ & _ & _ & g & _ & Hi & _)]; apply wp_ret; by eexists.
  - apply wp_bind. destruct Hc. eapply wp_mono; [by apply wp_allocate_aligned_large| |intros h Hh; by left].
    intros r s' [(_ & Hi & _)|(p & _ & _ & _ & _ & _ & _ & g & _ & Hi & _)]; apply wp_ret; by eexists.
  - eapply wp_mono; [by apply (wp_deallocate_large rest ra m)| |].
    + intros _ s' (_ & size & guard & _ & Hi & _). by eexists.
    + intros h Hh. unfold verdict_halts in Hh. destruct (large_verdict e m p expected) as [msg|] eqn:Ev; [|by left].
      right. exists m, p, expected, msg. by split; [|left].
  - apply wp_bind. eapply wp_mono; [by apply (wp_realloc_large rest ra m)| |].
    + intros r s' (_ & old_size & guard & _ & Hpost). apply wp_ret. destruct r as [p|n].
      * destruct Hpost as [(_ & _ & Hi & _)|[(_ & [(_ & _ & Hi & _)|(_ & Hi & _)])|(_ & _ & _ & [(_ & _ & Hi & _)|(_ & _ & _ & _ & g & _ & Hi & _)])]];
          by eexists.
      * destruct Hpost as (_ & _ & _ & Hi & _). by eexists.
    + intros h Hh. unfold verdict_halts in Hh. destruct (realloc_verdict e m old) as [msg|] eqn:Ev; [|by left].
      right. exists m, old, None, msg. by split; [|right].
Qed.

Lemma ages_large_call e c : AgesBy (if gives_back c then 1 else 0) (run_large_call e c).
Proof.
  destruct c; cbn [gives_back run_large_call]; [ages|ages|apply _|]. apply ages_first; [apply _|]. intros r. apply _.
Qed.

(** Calls give back at most as many ranges as there are deallocations and
    reallocations among them. *)
Lemma wp_large_calls rest e cs : forall ra w q j,
  large_fine rest (ra, w) -> Forall valid_call cs -> 0 <= j -> q_p q <> 0 ->
  resident (j + Z.of_nat (length (List.filter gives_back cs))) ra q ->
  wp (run_large_calls e cs) (fun _ s' => large_fine rest s' /\ resident j (fst s') q) (large_halts e) (ra, w).
Proof.
  induction cs as [|c cs IH]; intros ra w q j [m Hinv] Hcs Hj Hq Hres; cbn [run_large_calls].
  { apply wp_ret. split; [by exists m|]. by rewrite Z.add_0_r in Hres. }
  inversion Hcs; subst. apply wp_bind. eapply wp_conseq; [eapply wp_both; [by eapply wp_large_call|]|].
  { apply (ages_large_call e c (ra, w) q (j + Z.of_nat (length (List.filter gives_back cs)))); [lia|done|].
    cbn [fst]. cbn [List.filter] in Hres. destruct (gives_back c); cbn [length] in Hres; [|by rewrite Z.add_0_r].
    by replace (j + _ + 1) with (j + Z.of_nat (S (length (List.filter gives_back cs)))) by lia. }
  intros _ [ra1 w1] [Hfine Hres1]. by apply IH.
Qed.

(** Freeing a block puts its range, guards included, in the quarantine. *)
Lemma wp_deallocate_resident rest ra m w e p expected size guard :
  large_inv rest ra m w -> m !! p = Some (size, guard) -> quarantine_active size = true ->
  wp (deallocate_large e p expected)
     (fun _ s' => resident quarantine_residence (fst s') (block_range p size guard)) (fun _ => True) (ra, w).
Proof.
  intros Hinv Hm Hact. pose proof (lb_held _ _ _ _ _ _ (proj2 Hinv) p size guard Hm) as [Hheld _].
  destruct (held_block_range p size guard 0 Hheld) as (E1 & E2 & _).
  unfold deallocate_large, enforce_init. destruct (is_init e); cbn [negb]; [|done]. apply wp_bind, wp_ret, wp_bind.
  eapply wp_mono; [by apply (wp_remove_large rest ra m w)| |done].
  intros r [ra1 w1] (_ & Hr & _ & _ & Hb). cbn [fst snd] in *. rewrite Hm in Hr. injection Hr as <-. cbn [fst snd].
  unfold quarantine_active in Hact. unfold regions_quarantine_deallocate_pages.
  destruct (negb REGION_QUARANTINE || _) eqn:Hskip; [done|]. apply orb_false_iff in Hskip as [Hquar%negb_false_iff _].
  apply wp_bind, wp_on_world. unfold wp at 1. destruct (drop_contents p size _) as [u w2|]; [|done]. cbn [fst snd].
  rewrite E1, E2. fold (block_range p size guard). apply wp_bind. eapply wp_conseq; [apply wp_swap_ages|].
  intros out s2 [_ Hin]. cbn [fst] in Hin. specialize (Hin Hquar (lb_index _ _ _ _ _ _ Hb)).
  apply wp_on_world. unfold wp. by destruct (unmap_target out (snd s2)).
Qed.

(** A block in the quarantine is nobody's. *)
Lemma quarantined_apart rest ra m w q a :
  large_inv rest ra m w -> region_quarantined ra q -> quarantine_range q a ->
  mapped (kern w) a /\ ~ rest a /\ forall p size guard, m !! p = Some (size, guard) -> ~ block p size guard a.
Proof.
  intros [_ Hb] Hq Ha. destruct (lb_own _ _ _ _ _ _ Hb) as [Hmap Hdis].
  assert (Ho : exists o, owned rest ra m None o a /\ o <> ORest /\ forall p, o <> OBlock p).
  { destruct Hq as [[k Hk]|[k Hk]]; [exists (ORandom k)|exists (OQueue k)]; cbn; by rewrite Hk. }
  destruct Ho as (o & Ho & Hno & Hnb). split; [by eapply Hmap|]. split.
  - intros Hr. apply Hno. by apply (Hdis o ORest a).
  - intros p size guard Hm Hp. apply (Hnb p). apply (Hdis o (OBlock p) a); [done|]. by exists (size, guard).
Qed.

(** C27: a freed large block is out of reach for a while. After [deallocate_large]
    of a block that the quarantine takes, and any calls of the large paths after it
    with at most [quarantine_residence] deallocations and reallocations among them,
    the range of the block with its guards is still in the quarantine, mapped, and
    disjoint from every allocation and from the rest of the process; so the block
    that a further allocate_large returns shares no byte with it. (The length of
    the queue is what is guaranteed: the random array may hand a range on at
    once.) *)
Theorem quarantined_not_reused rest ra m w e p expected size guard cs request :
  large_inv rest ra m w -> m !! p = Some (size, guard) -> quarantine_active size = true ->
  Forall valid_call cs -> Z.of_nat (length (List.filter gives_back cs)) <= quarantine_residence -> fits 64 request ->
  wp (deallocate_large e p expected ;;; run_large_calls e cs ;;; allocate_large request)
     (fun p' s' => region_quarantined (fst s') (block_range p size guard) /\
        exists m', large_inv rest (fst s') m' (snd s') /\
          (p' = 0 \/ exists guard', m' !! p' = Some (get_large_size_class request, guard')) /\
          forall a, block p size guard a ->
            mapped (kern (snd s')) a /\ ~ rest a /\
            forall x n g, m' !! x = Some (n, g) -> ~ block x n g a)
     (large_halts e) (ra, w).
Proof.
  intros Hinv Hm Hact Hcs Hcount Hreq.
  pose proof (lb_held _ _ _ _ _ _ (proj2 Hinv) p size guard Hm) as [Hheld _].
  assert (Hq : q_p (block_range p size guard) <> 0) by (pose proof (hb_pos _ _ _ Hheld); cbn; lia).
  apply wp_bind. eapply wp_conseq; [eapply wp_both; [by apply (wp_large_call rest ra m w e (DeallocateLarge p expected))|]|].
  { by eapply wp_deallocate_resident. }
  intros _ [ra1 w1] [Hfine Hres]. cbn [fst] in Hres. apply wp_bind.
  eapply wp_conseq; [apply (wp_large_calls rest e cs ra1 w1 (block_range p size guard) 0); [done..|]|].
  { by eapply resident_mono; [|exact Hres]. }
  intros _ [ra2 w2] [[m2 Hinv2] Hres2]. cbn [fst snd] in *.
  eapply wp_mono; [eapply wp_both; [by apply (wp_allocate_large rest ra2 m2)|]| |intros h Hh; by left].
  { apply (ages_by (mm := allocate_large request) (ra2, w2) (block_range p size guard) 0); done. }
  intros p' [ra3 w3] [Hpost Hres3]. cbn [fst snd] in *. apply resident_quarantined in Hres3. split; [done|].
  assert (Hm3 : exists m3, large_inv rest ra3 m3 w3 /\ (p' = 0 \/ exists g, m3 !! p' = Some (get_large_size_class request, g))).
  { destruct Hpost as [(-> & _ & Hi & _)|(_ & _ & _ & _ & g & _ & Hi & _)]; eexists; (split; [exact Hi|]); [by left|right].
    exists g. apply lookup_insert_eq. }
  destruct Hm3 as (m3 & Hi3 & Hp'). exists m3. split; [done|]. split; [done|]. intros a Ha.
  apply (quarantined_apart rest ra3 m3 w3 (block_range p size guard)); [done..|]. by apply block_range_pages.
Qed.
End History.

(** ** Witness *)

Section Witnesses.
#[local] Existing Instance default_config.

(** The block is freed, and two more are allocated. *)
Lemma quarantined_not_reused_witness :
  wp (deallocate_large 1 2199031648256 None ;;; run_large_calls 1 [AllocateLarge 400000] ;;; allocate_large 300000)
     (fun p' s' => region_quarantined (fst s') (block_range 2199031648256 327680 4096) /\
        forall a, block 2199031648256 327680 4096 a -> mapped (kern (snd s')) a)
     (large_halts 1) (fst demo_block, snd demo_block).
Proof.
  assert (Hc : Forall valid_call [AllocateLarge 400000]) by (repeat constructor; cbn; lia).
  eapply wp_conseq; [exact (quarantined_not_reused _ _ _ _ 1 2199031648256 None 327680 4096 [AllocateLarge 400000] 300000
    demo_block_inv eq_refl eq_refl Hc ltac:(by vm_compute) ltac:(by split))|].
  intros p' s' (Hq & m' & _ & _ & Ha). split; [exact Hq|]. intros a Hb. apply (Ha a Hb).
Defined.
End Witnesses.
