(* ===== verification/Allocator.v ===== *)
(** The allocator as a whole (h_malloc.c): the state behind [ro] and the thread's
    arena, its initialisation, the dispatch of a request to a size class of the
    arena or to the region allocator, and the locks around fork. *)

From S2P Require Import Prelude Config Util SizeClass Kernel Maps Pages RandomSource SlabMeta Slab SlabRegion Regions Large.

(** What the code takes from the platform: the page size of the running kernel,
    the address of [ro], and the offset of [regions_a] in [struct allocator_state],
    which depends on the ABI's mutexes. *)
Class Platform : Type := {
  runtime_page_size : Z;
  ro_address : Z;
  offsetof_regions_a : Z
}.

(** [ro] and the thread's arena. The pointers of [ro] to the size classes and to
    the region allocator are NULL before initialisation: no class, no region
    allocator. [arena_counter] is an unsigned int. *)
Record allocator (R : Type) := Allocator {
  slab_region_start : Z;
  slab_region_end : Z;
  size_class_metadata : gmap (Z * Z) (size_class R);
  ro_region_allocator : option (region_allocator R);
  thread_arena : Z;
  thread_arena_counter : Z;
  init_lock : bool
}.
Arguments Allocator {R}.
Arguments slab_region_start {R}. Arguments slab_region_end {R}. Arguments size_class_metadata {R}.
Arguments ro_region_allocator {R}. Arguments thread_arena {R}. Arguments thread_arena_counter {R}. Arguments init_lock {R}.

(** Without memory tagging a pointer has no tag; Memtag has the other variant. *)
Definition untag_pointer (p : Z) : Z := p.

Section State.
Context {R : Type}.
Implicit Types (h : allocator R).

Definition set_class (arena class : Z) (c : size_class R) h : allocator R :=
  Allocator (slab_region_start h) (slab_region_end h) (<[(arena, class) := c]> (size_class_metadata h))
    (ro_region_allocator h) (thread_arena h) (thread_arena_counter h) (init_lock h).
Definition set_region_allocator (ra : region_allocator R) h : allocator R :=
  Allocator (slab_region_start h) (slab_region_end h) (size_class_metadata h) (Some ra)
    (thread_arena h) (thread_arena_counter h) (init_lock h).
Definition set_thread_arena (a n : Z) h : allocator R :=
  Allocator (slab_region_start h) (slab_region_end h) (size_class_metadata h) (ro_region_allocator h) a n (init_lock h).
Definition set_init_lock (b : bool) h : allocator R :=
  Allocator (slab_region_start h) (slab_region_end h) (size_class_metadata h) (ro_region_allocator h)
    (thread_arena h) (thread_arena_counter h) b.
Definition set_ro (start end_ : Z) (classes : gmap (Z * Z) (size_class R)) (ra : region_allocator R) h : allocator R :=
  Allocator start end_ classes (Some ra) (thread_arena h) (thread_arena_counter h) (init_lock h).
End State.

Section Allocator.
Context `{Cfg : Config} `{K : Kernel} {R : Type} `{!RandomSource R} `{!Platform}.

Definition AM (A : Type) : Type := M (allocator R * world) A.

(** The allocator of a fresh process: thread_arena is N_ARENA, or the constant 0
    when there is one arena. *)
Definition uninitialized : allocator R :=
  Allocator 0 0 ∅ None (if N_ARENA >? 1 then N_ARENA else 0) 0 false.

(** A call on one size class, or on the region allocator; a NULL pointer to
    either faults. *)
Definition with_class {A} (arena class : Z) (m : M (size_class R * world) A) : AM A :=
  fun s =>
    match size_class_metadata (fst s) !! (arena, class) with
    | Some c =>
        match m (c, snd s) with
        | Ret a t => Ret a (set_class arena class (fst t) (fst s), snd t)
        | Halt h => Halt h
        end
    | None => Halt Stuck
    end.
Definition with_regions {A} (m : M (region_allocator R * world) A) : AM A :=
  fun s =>
    match ro_region_allocator (fst s) with
    | Some ra =>
        match m (ra, snd s) with
        | Ret a t => Ret a (set_region_allocator (fst t) (fst s), snd t)
        | Halt h => Halt h
        end
    | None => Halt Stuck
    end.

Definition modify_allocator (f : allocator R -> allocator R) : AM unit := modify (fun s => (f (fst s), snd s)).
Definition get_slab_region_end : AM Z := gets (fun s => slab_region_end (fst s)).

(** p < get_slab_region_end() && p >= ro.slab_region_start *)
Definition in_slab_region (p : Z) : AM bool :=
  let* slab_region_end := get_slab_region_end in
  gets (fun s => (p <? slab_region_end) && (p >=? slab_region_start (fst s))).

(** for (arena ...) for (class ...) *)
Definition class_indices (first_class : Z) : list (Z * Z) :=
  flat_map (fun arena => map (fun class => (arena, class)) (seqZ first_class (N_SIZE_CLASSES - first_class)))
    (seqZ 0 N_ARENA).

Fixpoint for_each {S X} (f : X -> M S unit) (l : list X) : M S unit :=
  match l with [] => ret tt | x :: l => f x ;;; for_each f l end.

(** ** Initialisation *)

(** sizeof(struct random_state): two words, the context, the cache *)
Definition sizeof_random_state : Z := 4 + 4 + 16 * 4 + 256.
(** the other members of [struct allocator_state] start at page boundaries *)
Definition offsetof_regions_b : Z := offsetof_regions_a + page_align (MAX_REGION_TABLE_SIZE * sizeof_region_metadata).
Definition offsetof_slab_info_mapping : Z := offsetof_regions_b + page_align (MAX_REGION_TABLE_SIZE * sizeof_region_metadata).
Definition sizeof_slab_info_mapping : Z := page_align (MAX_METADATA_MAX * sizeof_slab_metadata).
Definition slab_info_offset (arena class : Z) : Z :=
  offsetof_slab_info_mapping + (arena * N_SIZE_CLASSES + class) * sizeof_slab_info_mapping.
Definition sizeof_allocator_state : Z := slab_info_offset N_ARENA 0.

(** The size classes in [l], on the allocator state at [state]. *)
Fixpoint init_classes (start state : Z) (l : list (Z * Z)) (classes : gmap (Z * Z) (size_class R)) :
    M (R * world) (gmap (Z * Z) (size_class R)) :=
  match l with
  | [] => ret classes
  | (arena, class) :: l =>
      let* c := init_size_class start (u64 (state + slab_info_offset arena class)) arena class in
      init_classes start state l (<[(arena, class) := c]> classes)
  end.

(** From the allocation of the init rng to its deallocation; the generator of the
    monad is the one at [rng]: the start of the slab region, the region allocator
    and the size classes. *)
Definition init_state : M (R * world) (Z * region_allocator R * gmap (Z * Z) (size_class R)) :=
  let* rng := on_world (allocate_pages sizeof_random_state PAGE_SIZE true "malloc init rng") in
  if rng =? 0 then fatal_error "failed to allocate init rng" else
  random_init ;;;
  let* v := get_random_u64_uniform (REAL_CLASS_REGION_SIZE / PAGE_SIZE) in
  let metadata_guard_size := u64 (u64 (v + 1) * PAGE_SIZE) in
  let* allocator_state :=
    on_world (allocate_pages sizeof_allocator_state metadata_guard_size false "malloc allocator_state") in
  if allocator_state =? 0 then fatal_error "failed to reserve allocator state" else
  let* f := on_world (memory_protect_rw_metadata allocator_state offsetof_regions_a) in
  if f then fatal_error "failed to unprotect allocator state" else
  let* ra_rng := random_init_from random_zero in
  let regions_a := u64 (allocator_state + offsetof_regions_a) in
  let regions_b := u64 (allocator_state + offsetof_regions_b) in
  let ra := init_region_allocator ra_rng regions_a regions_b in
  let* f := on_world (memory_protect_rw_metadata regions_a (u64 (total ra * sizeof_region_metadata))) in
  if f then fatal_error "failed to unprotect memory for regions table" else
  let* start := on_world (memory_map slab_region_size) in
  if start =? 0 then fatal_error "failed to allocate slab region" else
  on_world (memory_set_name start slab_region_size "malloc slab region gap") ;;;
  let* classes := init_classes start allocator_state (class_indices 0) ∅ in
  on_world (deallocate_pages rng sizeof_random_state PAGE_SIZE) ;;;
  ret (start, ra, classes).

(** The local generator of [init_slow_path], on zeroed pages. *)
Definition with_init_rng {A} (m : M (R * world) A) : AM A :=
  zoom (fun s => (random_zero, snd s)) (fun t s => (fst s, snd t)) m.

(** pthread_atfork may allocate, so it runs on the whole state; true when it fails. *)
Definition init_slow_path (pthread_atfork : AM bool) : AM unit :=
  let* locked := gets (fun s => init_lock (fst s)) in
  if locked then stuck else
  modify_allocator (set_init_lock true) ;;;
  let* e := get_slab_region_end in
  if is_init e then modify_allocator (set_init_lock false) else
  if negb (runtime_page_size =? PAGE_SIZE)
  then fatal_error "runtime page size does not match compile-time page size which is not supported" else
  let* init := with_init_rng init_state in
  let '(start, ra, classes) := init in
  modify_allocator (set_ro start (u64 (start + slab_region_size)) classes ra) ;;;
  let* f := on_world (memory_protect_ro ro_address PAGE_SIZE) in
  if f then fatal_error "failed to protect allocator data" else
  on_world (memory_set_name ro_address PAGE_SIZE "malloc read-only after init") ;;;
  modify_allocator (set_init_lock false) ;;;
  let* f := pthread_atfork in
  if f then fatal_error "pthread_atfork failed" else ret tt.

Definition init (pthread_atfork : AM bool) : AM Z :=
  let* h := gets fst in
  if (N_ARENA >? 1) && (thread_arena h <? N_ARENA) then ret (thread_arena h) else
  let arena := if N_ARENA >? 1 then thread_arena_counter h mod N_ARENA else thread_arena h in
  (if N_ARENA >? 1
   then modify_allocator (set_thread_arena arena (u32 (thread_arena_counter h + 1)))
   else ret tt) ;;;
  (if negb (is_init (slab_region_end h)) then init_slow_path pthread_atfork else ret tt) ;;;
  ret arena.

(** The constructor that initialises the allocator before main. *)
Definition trigger_early_init (pthread_atfork : AM bool) : AM unit :=
  let* arena := init pthread_atfork in ret tt.

(** ** Requests *)

Definition allocate (arena size : Z) : AM Z :=
  if size <=? max_slab_size_class
  then with_class arena (si_class (get_size_info size)) (allocate_small size)
  else with_regions (allocate_large size).

(** [deallocate_small] on the size class of the pointer. *)
Definition deallocate_slot (p : Z) (expected_size : option Z) : AM unit :=
  let* start := gets (fun s => slab_region_start (fst s)) in
  let info := slab_size_class start p in
  with_class (arena info) (ssc_class info) (deallocate_small (ssc_class info) p expected_size).

(** [deallocate_large], which checks the initialisation itself. *)
Definition deallocate_region (p : Z) (expected_size : option Z) : AM unit :=
  let* e := get_slab_region_end in
  enforce_init e ;;;
  with_regions (deallocate_large e p expected_size).

(** The return value and the pointer stored through [memptr]. *)
Definition allocate_aligned (arena alignment size min_alignment : Z) : AM (Z * option Z) :=
  if negb (Z.land (u64 (alignment - 1)) alignment =? 0) || (alignment <? min_alignment) then ret (EINVAL, None) else
  if alignment <=? PAGE_SIZE then
    let* size :=
      (if (size <=? max_slab_size_class) && (alignment >? min_align)
       then let* info := get_size_info_align size alignment in ret (si_size info)
       else ret size) in
    let* p := allocate arena size in
    if p =? 0 then ret (ENOMEM, None) else ret (0, Some p)
  else with_regions (allocate_aligned_large alignment size).

(** ** Locks around fork *)

Definition full_lock : AM unit :=
  with_regions region_lock ;;;
  for_each (fun i => with_class (fst i) (snd i) mutex_lock) (class_indices 0).

Definition full_unlock : AM unit :=
  with_regions region_unlock ;;;
  for_each (fun i => with_class (fst i) (snd i) mutex_unlock) (class_indices 0).

Definition post_fork_child : AM unit :=
  with_regions (region_unlock ;;; with_ra_rng random_init) ;;;
  for_each (fun i => with_class (fst i) (snd i) (mutex_unlock ;;; with_rng random_init)) (class_indices 0).

End Allocator.
