(* ===== verification/Malloc.v ===== *)
(** The functions the program calls (h_malloc.c, from [alloc] on): allocation,
    aligned allocation, reallocation, deallocation, size queries, trimming and
    statistics, in the glibc build without memory tagging. *)

From S2P Require Import Prelude Config Util Libdivide SizeClass Kernel RandomSource SlabMeta Slab SlabRegion Regions Large Allocator.

Definition ENOSYS : Z := 38.
Definition SIZE_MAX : Z := 2 ^ 64 - 1.

(** __builtin_mul_overflow on size_t: the flag and the product modulo 2^64. *)
Definition mul_overflow (a b : Z) : bool * Z := (2 ^ 64 <=? a * b, u64 (a * b)).

(** sizeof(void * ) *)
Definition sizeof_pointer : Z := 8.

(** The fields of struct mallinfo2 that are set. *)
Record mallinfo2 := Mallinfo2 { hblkhd : Z; uordblks : Z; fordblks : Z; usmblks : Z }.

(** The fields of struct mallinfo that the Android interface sets; size_t there. *)
Record mallinfo := Mallinfo { mi_hblkhd : Z; mi_ordblks : Z; mi_uordblks : Z; mi_fordblks : Z; mi_fsmblks : Z }.

(** What [h_malloc_info] prints. *)
Inductive info_item :=
| InfoOpen
| InfoHeap (nr : Z)
| InfoBin (nr size nmalloc ndalloc slab_allocated allocated : Z)
| InfoHeapEnd
| InfoLarge (nr allocated_large : Z)
| InfoClose.

(** static const size_t min_extended_size_class *)
Definition min_extended_size_class : Z := 20480.

(** ** Queries and trimming on one size class *)

Section ClassOperations.
Context `{Cfg : Config} `{K : Kernel} {R : Type} `{!RandomSource R}.

(** [memory_corruption_check_small] on the size class of the pointer. *)
Definition check_usable_slot (class p : Z) : SM (R := R) unit :=
  let* c := get_class in
  let size := size c in
  let is_zero_size := class =? 0 in
  let slab_size := slab_size c in
  mutex_lock ;;;
  let* metadata := get_metadata p in
  let* c := get_class in
  let slab := get_slab c slab_size metadata in
  let slot := libdivide_u32_do (u32 (p - slab)) (size_divisor c) in
  if negb (slot_pointer size slab slot =? p) then fatal_error "invalid unaligned malloc_usable_size" else
  let* d := get_meta metadata in
  if negb (is_used_slot d slot) then fatal_error "invalid malloc_usable_size" else
  (if negb is_zero_size then check_canary metadata p size else ret tt) ;;;
  if SLAB_QUARANTINE && is_quarantine_slot d slot
  then fatal_error "invalid malloc_usable_size (quarantine)" else
  mutex_unlock.

(** The offset of [p] in its slot, from [h_malloc_object_size]. *)
Definition object_offset (p : Z) : SM (R := R) Z :=
  let* c := get_class in
  let size_class := size c in
  mutex_lock ;;;
  let* metadata := get_metadata p in
  let* c := get_class in
  let slab := get_slab c (slab_size c) metadata in
  let slot := libdivide_u32_do (u32 (p - slab)) (size_divisor c) in
  let* d := get_meta metadata in
  if negb (is_used_slot d slot) then fatal_error "invalid malloc_object_size" else
  if SLAB_QUARANTINE && is_quarantine_slot d slot
  then fatal_error "invalid malloc_object_size (quarantine)" else
  let start := slot_pointer size_class slab slot in
  let offset := u64 (p - start) in
  mutex_unlock ;;;
  ret offset.

(** The loop over the cached empty slabs: where it stops, and whether it trimmed.
    Every iteration takes a slab from the list, of at most [metadata_count] slabs. *)
Fixpoint trim_loop (fuel : nat) (class slab_size : Z) (iterator : option Z) (is_trimmed : bool) :
    SM (R := R) (option Z * bool) :=
  match fuel, iterator with
  | O, _ => stuck
  | _, None => ret (None, is_trimmed)
  | Datatypes.S fuel, Some trimmed =>
      let* c := get_class in
      let slab := get_slab c slab_size trimmed in
      let* f := on_world (memory_map_fixed slab slab_size) in
      if f then ret (iterator, is_trimmed) else
      on_world (label_slab slab slab_size class) ;;;
      stats_slab_deallocate slab_size ;;;
      let* d := get_meta trimmed in
      let iterator := next d in
      modify_class (fun c => set_empty_slabs_total (u64 (empty_slabs_total c - slab_size)) c) ;;;
      enqueue_free_slab trimmed ;;;
      trim_loop fuel class slab_size iterator true
  end.

(** Purging the pointers in the cells [l] of one quarantine array. *)
Fixpoint purge_quarantine (size : Z) (cells : gmap Z Z) (l : list Z) : SM (R := R) unit :=
  match l with
  | [] => ret tt
  | i :: l =>
      let p := cells.[i] in
      (if negb (p =? 0) then on_world (memory_purge p size) ;;; ret tt else ret tt) ;;;
      purge_quarantine size cells l
  end.

(** The body of the loop of [h_malloc_trim]; whether a slab was trimmed. *)
Definition trim_class (class : Z) : SM (R := R) bool :=
  let* c := get_class in
  let slab_size := slab_size c in
  mutex_lock ;;;
  let* c := get_class in
  let* r := trim_loop (Datatypes.S (Z.to_nat (metadata_count c))) class slab_size (empty_slabs c) false in
  modify_class (set_empty_slabs (fst r)) ;;;
  (if SLAB_QUARANTINE && CONFIG_EXTENDED_SIZE_CLASSES then
     let* c := get_class in
     let size := size c in
     if size >=? min_extended_size_class then
       (if 0 <? SLAB_QUARANTINE_RANDOM_LENGTH
        then purge_quarantine size (quarantine_random c) (seqZ 0 (quarantine_length SLAB_QUARANTINE_RANDOM_LENGTH size))
        else ret tt) ;;;
       (if 0 <? SLAB_QUARANTINE_QUEUE_LENGTH
        then purge_quarantine size (quarantine_queue c) (seqZ 0 (quarantine_length SLAB_QUARANTINE_QUEUE_LENGTH size))
        else ret tt)
     else ret tt
   else ret tt) ;;;
  mutex_unlock ;;;
  ret (snd r).
End ClassOperations.

Section Malloc.
Context `{Cfg : Config} `{K : Kernel} {R : Type} `{!RandomSource R} `{!Platform}.
Context (pthread_atfork : AM (R := R) bool).

(** ** Allocation *)

Definition alloc (size : Z) : AM (R := R) Z :=
  let* arena := init pthread_atfork in
  allocate arena size.

Definition h_malloc (size : Z) : AM (R := R) Z := alloc (adjust_size_for_canary size).

Definition h_calloc (nmemb size : Z) : AM (R := R) Z :=
  let '(overflow, total_size) := mul_overflow nmemb size in
  if overflow then on_world (set_errno ENOMEM) ;;; ret 0 else
  let total_size := adjust_size_for_canary total_size in
  let* p := alloc total_size in
  (if negb ZERO_ON_FREE && negb (p =? 0) && negb (total_size =? 0) && (total_size <=? max_slab_size_class)
   then let* w := gets snd in on_world (set_mem (memset0 p (u64 (total_size - canary_size)) (mem w)))
   else ret tt) ;;;
  ret p.

(** The pointer is the one stored through [memptr]. *)
Definition alloc_aligned (alignment size min_alignment : Z) : AM (R := R) (Z * option Z) :=
  let* arena := init pthread_atfork in
  let size := adjust_size_for_canary size in
  allocate_aligned arena alignment size min_alignment.

Definition alloc_aligned_simple (alignment size : Z) : AM (R := R) Z :=
  let* r := alloc_aligned alignment size 1 in
  match r with
  | (error, ptr) =>
      if negb (error =? 0) then on_world (set_errno error) ;;; ret 0
      else match ptr with Some p => ret p | None => stuck end
  end.

Definition h_posix_memalign (alignment size : Z) : AM (R := R) (Z * option Z) :=
  alloc_aligned alignment size sizeof_pointer.
Definition h_aligned_alloc (alignment size : Z) : AM (R := R) Z := alloc_aligned_simple alignment size.
Definition h_memalign : Z -> Z -> AM (R := R) Z := h_aligned_alloc.
Definition h_valloc (size : Z) : AM (R := R) Z := alloc_aligned_simple PAGE_SIZE size.
Definition h_pvalloc (size : Z) : AM (R := R) Z :=
  if size =? 0 then alloc_aligned_simple PAGE_SIZE 0 else
  let size := page_align size in
  if size =? 0 then on_world (set_errno ENOMEM) ;;; ret 0 else
  alloc_aligned_simple PAGE_SIZE size.

(** ** Deallocation *)

(** A large deallocation preserves errno. *)
Definition free_large (p : Z) (expected_size : option Z) : AM (R := R) unit :=
  let* saved_errno := on_world (gets errno) in
  deallocate_region p expected_size ;;;
  on_world (set_errno saved_errno).

Definition h_free (p : Z) : AM (R := R) unit :=
  if p =? 0 then ret tt else
  let p := untag_pointer p in
  let* small := in_slab_region p in
  if small then deallocate_slot p None else free_large p None.

Definition h_cfree : Z -> AM (R := R) unit := h_free.

Definition h_free_sized (p expected_size : Z) : AM (R := R) unit :=
  if p =? 0 then ret tt else
  let p := untag_pointer p in
  let expected_size := adjust_size_for_canary expected_size in
  let* small := in_slab_region p in
  if small then
    if expected_size >? max_slab_size_class then fatal_error "sized deallocation mismatch (small)" else
    let expected_size := si_size (get_size_info expected_size) in
    deallocate_slot p (Some expected_size)
  else free_large p (Some expected_size).

Definition h_free_aligned_sized (p alignment expected_size : Z) : AM (R := R) unit :=
  if p =? 0 then ret tt else
  let p := untag_pointer p in
  let expected_size := adjust_size_for_canary expected_size in
  let* small := in_slab_region p in
  if small then
    if negb (Z.land (u64 (alignment - 1)) alignment =? 0) || (alignment >? PAGE_SIZE)
    then fatal_error "invalid sized deallocation alignment (small)" else
    if expected_size >? max_slab_size_class then fatal_error "sized deallocation mismatch (small)" else
    let* expected_size :=
      (if alignment >? min_align
       then let* info := get_size_info_align expected_size alignment in ret (si_size info)
       else ret (si_size (get_size_info expected_size))) in
    deallocate_slot p (Some expected_size)
  else free_large p (Some expected_size).

(** ** Reallocation *)

(** The bytes that [h_realloc] copies from a block of [old_size] bytes to one of
    [size] bytes, canaries included. *)
Definition copied (size old_size : Z) : Z :=
  let copy_size := min size old_size in
  if (copy_size >? 0) && (copy_size <=? max_slab_size_class) then u64 (copy_size - canary_size) else copy_size.

(** The end of [h_realloc]: a new allocation, a copy, and the release of the old. *)
Definition realloc_copy (old size old_size : Z) (old_in_slab_region : bool) : AM (R := R) Z :=
  let* arena := init pthread_atfork in
  let* new := allocate arena size in
  if new =? 0 then ret 0 else
  let* w := gets snd in
  on_world (set_mem (memcpy new old (copied size old_size) (mem w))) ;;;
  (if old_in_slab_region then deallocate_slot old None else deallocate_region old None) ;;;
  ret new.

(** [h_realloc] once the size is a small one or a large size class. *)
Definition realloc_sized (old size : Z) : AM (R := R) Z :=
  let old_orig := old in
  let old := untag_pointer old in
  let* old_in_slab_region := in_slab_region old in
  if old_in_slab_region then
    let* start := gets (fun s => slab_region_start (fst s)) in
    let old_size := slab_usable_size start old in
    if (size <=? max_slab_size_class) && (si_size (get_size_info size) =? old_size) then ret old_orig
    else realloc_copy old_orig size old_size true
  else
    let* e := get_slab_region_end in
    enforce_init e ;;;
    let* step := with_regions (realloc_large e old size) in
    match step with
    | Reallocated p => ret p
    | CopyNeeded old_size => realloc_copy old_orig size old_size false
    end.

Definition h_realloc (old size : Z) : AM (R := R) Z :=
  let size := adjust_size_for_canary size in
  if old =? 0 then alloc size else
  if size >? max_slab_size_class then
    let size := get_large_size_class size in
    if size =? 0 then on_world (set_errno ENOMEM) ;;; ret 0 else realloc_sized old size
  else realloc_sized old size.

Definition h_reallocarray (ptr nmemb size : Z) : AM (R := R) Z :=
  let '(overflow, total_size) := mul_overflow nmemb size in
  if overflow then on_world (set_errno ENOMEM) ;;; ret 0 else
  h_realloc ptr total_size.

(** ** Size queries *)

(** The usable size of a slot, without its canary. *)
Definition usable_in_slab (p : Z) : AM (R := R) Z :=
  let* start := gets (fun s => slab_region_start (fst s)) in
  let size := slab_usable_size start p in
  ret (if negb (size =? 0) then u64 (size - canary_size) else 0).

(** The size of the large allocation at [p], if there is one. *)
Definition large_size (p : Z) : M (region_allocator R * world) (option Z) :=
  region_lock ;;;
  let* region := regions_find p in
  let* ra := get_ra in
  region_unlock ;;;
  ret (match region with None => None | Some region => Some (r_size (ra_table ra).[region]) end).

(** [memory_corruption_check_small] on the size class of the pointer. *)
Definition memory_corruption_check_small (p : Z) : AM (R := R) unit :=
  let* start := gets (fun s => slab_region_start (fst s)) in
  let info := slab_size_class start p in
  with_class (arena info) (ssc_class info) (check_usable_slot (ssc_class info) p).

Definition h_malloc_usable_size (arg : Z) : AM (R := R) Z :=
  if arg =? 0 then ret 0 else
  let p := untag_pointer arg in
  let* small := in_slab_region p in
  if small then
    memory_corruption_check_small p ;;;
    usable_in_slab p
  else
    let* e := get_slab_region_end in
    enforce_init e ;;;
    let* size := with_regions (large_size p) in
    match size with
    | None => fatal_error "invalid malloc_usable_size"
    | Some size => ret size
    end.

Definition h_malloc_object_size (p : Z) : AM (R := R) Z :=
  if p =? 0 then ret 0 else
  let p := untag_pointer p in
  let* small := in_slab_region p in
  if small then
    let* start := gets (fun s => slab_region_start (fst s)) in
    let info := slab_size_class start p in
    let* offset := with_class (arena info) (ssc_class info) (object_offset p) in
    let* usable := usable_in_slab p in
    if offset >? usable then fatal_error "invalid malloc_object_size (canary)" else
    ret (u64 (usable - offset))
  else
    let* e := get_slab_region_end in
    if e =? 0 then ret SIZE_MAX else
    let* size := with_regions (large_size p) in
    ret (match size with None => SIZE_MAX | Some size => size end).

Definition h_malloc_object_size_fast (p : Z) : AM (R := R) Z :=
  if p =? 0 then ret 0 else
  let p := untag_pointer p in
  let* small := in_slab_region p in
  if small then usable_in_slab p
  else
    let* e := get_slab_region_end in
    if e =? 0 then ret 0 else ret SIZE_MAX.

(** ** Trimming, statistics and the rest *)

Definition h_mallopt (param value : Z) : AM (R := R) Z := ret 0.

(** The classes [l] in turn; whether one of them was trimmed. *)
Fixpoint trim_classes (l : list (Z * Z)) (is_trimmed : bool) : AM (R := R) bool :=
  match l with
  | [] => ret is_trimmed
  | (arena, class) :: l =>
      let* t := with_class arena class (trim_class class) in
      trim_classes l (t || is_trimmed)
  end.

Definition h_malloc_trim (pad : Z) : AM (R := R) Z :=
  let* e := get_slab_region_end in
  if negb (is_init e) then ret 0 else
  let* is_trimmed := trim_classes (class_indices 1) false in
  ret (if is_trimmed then 1 else 0).

Definition h_malloc_stats : AM (R := R) unit := ret tt.

(** struct mallinfo holds zeros: its int fields overflow, mallinfo2 replaces it. *)
Definition h_mallinfo : AM (R := R) mallinfo2 := ret (Mallinfo2 0 0 0 0).

(** A locked read of one size class, and of the region allocator. *)
Definition read_class {A} (arena class : Z) (f : size_class R -> A) : AM (R := R) A :=
  with_class arena class (mutex_lock ;;; let* c := get_class in mutex_unlock ;;; ret (f c)).
Definition read_regions {A} (f : region_allocator R -> A) : AM (R := R) A :=
  with_regions (region_lock ;;; let* ra := get_ra in region_unlock ;;; ret (f ra)).

(** info.hblkhd and info.uordblks over the classes [l]. *)
Fixpoint sum_classes (l : list (Z * Z)) (hblkhd uordblks : Z) : AM (R := R) (Z * Z) :=
  match l with
  | [] => ret (hblkhd, uordblks)
  | (arena, class) :: l =>
      let* v := read_class arena class (fun c => (slab_allocated c, allocated c)) in
      sum_classes l (u64 (hblkhd + fst v)) (u64 (uordblks + snd v))
  end.

Definition h_mallinfo2 : AM (R := R) mallinfo2 :=
  if CONFIG_STATS then
    let* e := get_slab_region_end in
    if negb (is_init e) then ret (Mallinfo2 0 0 0 0) else
    let* large := read_regions ra_allocated in
    let* v := sum_classes (class_indices 0) (u64 (0 + large)) (u64 (0 + large)) in
    let '(hblkhd, uordblks) := v in
    ret (Mallinfo2 hblkhd uordblks (u64 (hblkhd - uordblks)) hblkhd)
  else ret (Mallinfo2 0 0 0 0).

(** The bins of one arena that were ever used. *)
Fixpoint info_bins (arena : Z) (l : list Z) : AM (R := R) (list info_item) :=
  match l with
  | [] => ret []
  | class :: l =>
      let* v := read_class arena class (fun c => (nmalloc c, ndalloc c, slab_allocated c, allocated c)) in
      let '(nmalloc, ndalloc, slab_allocated, allocated) := v in
      let used := negb (nmalloc =? 0) || negb (ndalloc =? 0) || negb (slab_allocated =? 0) || negb (allocated =? 0) in
      let* rest := info_bins arena l in
      ret (if used then InfoBin class (size_classes_at class) nmalloc ndalloc slab_allocated allocated :: rest else rest)
  end.

Fixpoint info_heaps (l : list Z) : AM (R := R) (list info_item) :=
  match l with
  | [] => ret []
  | arena :: l =>
      let* bins := info_bins arena (seqZ 0 N_SIZE_CLASSES) in
      let* rest := info_heaps l in
      ret (InfoHeap arena :: bins ++ InfoHeapEnd :: rest)
  end.

(** The return value and what is printed to the stream. *)
Definition h_malloc_info (options : Z) : AM (R := R) (Z * list info_item) :=
  if negb (options =? 0) then on_world (set_errno EINVAL) ;;; ret (-1, []) else
  let* e := get_slab_region_end in
  let* items :=
    (if CONFIG_STATS && is_init e then
       let* heaps := info_heaps (seqZ 0 N_ARENA) in
       let* region_allocated := read_regions ra_allocated in
       ret (heaps ++ [InfoLarge N_ARENA region_allocated])
     else ret []) in
  ret (0, InfoOpen :: items ++ [InfoClose]).

Definition h_malloc_get_state : AM (R := R) Z := on_world (set_errno ENOSYS) ;;; ret 0.
Definition h_malloc_set_state (state : Z) : AM (R := R) Z := ret (-2).

(** ** The interface of Android *)

(** The region allocator is the arena with index N_ARENA. *)
Definition h_mallinfo_narenas : AM (R := R) Z := ret (N_ARENA + 1).
Definition h_mallinfo_nbins : AM (R := R) Z := ret N_SIZE_CLASSES.

Definition no_mallinfo : mallinfo := Mallinfo 0 0 0 0 0.

Definition h_mallinfo_arena_info (arena : Z) : AM (R := R) mallinfo :=
  if CONFIG_STATS then
    let* e := get_slab_region_end in
    if negb (is_init e) then ret no_mallinfo else
    if arena <? N_ARENA then
      let* v := sum_classes (map (fun class => (arena, class)) (seqZ 0 N_SIZE_CLASSES)) 0 0 in
      ret (Mallinfo (fst v) 0 0 0 (snd v))
    else if arena =? N_ARENA then
      let* large := read_regions ra_allocated in
      ret (Mallinfo large 0 large 0 0)
    else ret no_mallinfo
  else ret no_mallinfo.

Definition h_mallinfo_bin_info (arena bin : Z) : AM (R := R) mallinfo :=
  if CONFIG_STATS then
    let* e := get_slab_region_end in
    if negb (is_init e) then ret no_mallinfo else
    if (arena <? N_ARENA) && (bin <? N_SIZE_CLASSES) then
      let* v := read_class arena bin (fun c => (allocated c, nmalloc c, ndalloc c)) in
      let '(ordblks, uordblks, fordblks) := v in
      ret (Mallinfo 0 ordblks uordblks fordblks 0)
    else ret no_mallinfo
  else ret no_mallinfo.

Definition h_malloc_iterate (base size : Z) : AM (R := R) Z := fatal_error "not implemented".

Definition h_malloc_disable : AM (R := R) unit :=
  let* arena := init pthread_atfork in
  full_lock.

Definition h_malloc_enable : AM (R := R) unit :=
  let* e := get_slab_region_end in
  enforce_init e ;;;
  full_unlock.

End Malloc.
