(* ===== verification/AllocatorInv.v ===== *)
(** The invariant of the whole allocator and its allocations, small and large,
    as one partial map from addresses to usable sizes. *)

From S2P Require Import Prelude Config Util SizeClass Kernel Maps Pages RandomSource SlabMeta Slab SlabLists SlabHeap SlabInv SlabRegion SlabAlloc SlabQuarantine SlabFree SlabCanary SlabMaps Regions RegionTable RegionMap Large LargeInv LargeAlloc LargeFree Allocator.

(** The bytes of a slot of [class] that the program may use. *)
Definition slot_usable `{Config} (class : Z) : Z :=
  if size_classes_at class =? 0 then 0 else size_classes_at class - canary_size.

Section Invariant.
Context {Cfg : Config} {K : Kernel} {R : Type} `{!RandomSource R}.
Implicit Types (h : allocator R) (m : gmap Z (Z * Z)) (w : world) (rest : Z -> Prop).

Definition slab_range h (a : Z) : Prop := slab_region_start h <= a < slab_region_start h + slab_region_size.

Definition class_ok (start arena class : Z) (c : size_class R) : Prop :=
  (exists P E F, class_inv class c P E F) /\ class_placed start arena class (class_region_start c).

(** What the region allocator must leave alone: the process and the slabs. *)
Definition outside rest h (a : Z) : Prop := rest a \/ slab_range h a.

(** An initialised allocator between calls: [m] holds its large allocations. *)
Record heap_ok rest h m w : Prop := {
  ho_placed : region_placed (slab_region_start h);
  ho_end : slab_region_end h = slab_region_start h + slab_region_size;
  ho_class : forall arena class, 0 <= arena < N_ARENA -> 0 <= class < N_SIZE_CLASSES ->
    exists c, size_class_metadata h !! (arena, class) = Some c /\ class_ok (slab_region_start h) arena class c;
  ho_large : exists ra, ro_region_allocator h = Some ra /\ large_inv (outside rest h) ra m w;
  ho_apart : forall a, rest a -> ~ slab_range h a;
  ho_arena : 0 <= thread_arena h /\ 0 <= thread_arena_counter h /\ (N_ARENA = 1 -> thread_arena h = 0)
}.

(** An allocation of [n] usable bytes at [p]. *)
Record small_at h (p n arena class i s : Z) (c : size_class R) : Prop := {
  sm_arena : 0 <= arena < N_ARENA;
  sm_class : 0 <= class < N_SIZE_CLASSES;
  sm_lookup : size_class_metadata h !! (arena, class) = Some c;
  sm_slot : 0 <= s;
  sm_live : live c i s = true;
  sm_address : p = slot_address c i s;
  sm_usable : n = slot_usable class
}.

Definition block_at h m (p n : Z) : Prop :=
  (exists arena class i s c, small_at h p n arena class i s c) \/ (exists guard, m !! p = Some (n, guard)).

(** A slot that the program does not hold. *)
Record unheld_slot h (arena class i s : Z) (c : size_class R) : Prop := {
  uh_arena : 0 <= arena < N_ARENA;
  uh_class : 0 <= class < N_SIZE_CLASSES;
  uh_lookup : size_class_metadata h !! (arena, class) = Some c;
  uh_slab : 0 <= i < get_metadata_max (slab_size c);
  uh_slot : 0 <= s < slots c;
  uh_dead : live c i s = false
}.

(** With ZERO_ON_FREE: the usable bytes of these slots are zero, unless the program
    wrote to memory that it does not hold. *)
Definition clean h w : Prop :=
  forall arena class i s c, unheld_slot h arena class i s c -> zero_in (slot_address c i s) (slot_usable class) (mem w).

(** The canaries of all small allocations are in place. *)
Definition guarded h w : Prop :=
  forall arena class c, 0 <= arena < N_ARENA -> 0 <= class < N_SIZE_CLASSES ->
    size_class_metadata h !! (arena, class) = Some c -> slots_guarded class c w.

(** Everything but the blocks at the addresses of [X] is as before: the same
    allocations with the same contents, the rest of the process, and the place of
    the slabs. *)
Record kept_except rest (X : Z -> Prop) h m w h' m' w' : Prop := {
  kb_blocks : forall q n, ~ X q -> block_at h' m' q n <-> block_at h m q n;
  kb_contents : forall q n a, block_at h m q n -> ~ X q -> q <= a < q + n -> (mem w').[a] = (mem w).[a];
  kb_rest : forall a, rest a -> (mem w').[a] = (mem w).[a];
  kb_clean : ZERO_ON_FREE = true -> clean h w -> clean h' w';
  kb_guarded : guarded h w -> guarded h' w';
  kb_region : slab_region_start h' = slab_region_start h
}.
End Invariant.

(** Everything but the block at [p] is as before. *)
Abbreviation kept_but rest p := (kept_except rest (fun q => q = p)).

Section Facts.
Context {Cfg : Config} {Cok : ConfigOk Cfg} {K : Kernel} {Kok : KernelOk K} {R : Type}.
Context `{!RandomSource R} `{!RandomSourceOk R}.
Implicit Types (h : allocator R) (m : gmap Z (Z * Z)) (w : world) (rest : Z -> Prop).

(** ** Running a component *)

Lemma wp_with_class {A} ar cl c (mm : M (size_class R * world) A) (Q : A -> allocator R * world -> Prop) E h w :
  size_class_metadata h !! (ar, cl) = Some c ->
  wp mm (fun a t => Q a (set_class ar cl (fst t) h, snd t)) E (c, w) -> wp (with_class ar cl mm) Q E (h, w).
Proof. intros Hc. unfold wp, with_class. cbn [fst snd]. rewrite Hc. by destruct (mm (c, w)). Qed.

Lemma wp_with_regions {A} ra (mm : M (region_allocator R * world) A) (Q : A -> allocator R * world -> Prop) E h w :
  ro_region_allocator h = Some ra ->
  wp mm (fun a t => Q a (set_region_allocator (fst t) h, snd t)) E (ra, w) -> wp (with_regions mm) Q E (h, w).
Proof. intros Hc. unfold wp, with_regions. cbn [fst snd]. rewrite Hc. by destruct (mm (ra, w)). Qed.

Lemma wp_in_slab_region p (Q : bool -> allocator R * world -> Prop) E rest h m w :
  heap_ok rest h m w ->
  (slab_range h p -> Q true (h, w)) -> (~ slab_range h p -> Q false (h, w)) ->
  wp (in_slab_region p) Q E (h, w).
Proof.
  intros Hh Ht Hf. unfold in_slab_region, get_slab_region_end. apply wp_bind, wp_gets, wp_gets. cbn [fst].
  rewrite (ho_end _ _ _ _ Hh), Z.geb_leb. unfold slab_range in *.
  destruct (Z.ltb_spec p (slab_region_start h + slab_region_size)), (Z.leb_spec (slab_region_start h) p); cbn [andb];
    try (apply Ht; lia); apply Hf; lia.
Qed.

(** ** Where the blocks are *)

Lemma class_ok_at rest h m w ar cl c :
  heap_ok rest h m w -> 0 <= ar < N_ARENA -> 0 <= cl < N_SIZE_CLASSES -> size_class_metadata h !! (ar, cl) = Some c ->
  class_ok (slab_region_start h) ar cl c.
Proof. intros Hh Har Hcl Hc. destruct (ho_class _ _ _ _ Hh ar cl Har Hcl) as (c' & Hc' & Hok). congruence. Qed.

Lemma slot_usable_bounds cl : 0 <= cl < N_SIZE_CLASSES -> 0 <= slot_usable cl <= slot_size cl.
Proof.
  intros Hcl. destruct (slab_geometry_spec cl Hcl) as (_ & _ & H16 & _). unfold slot_usable, slot_size in *.
  destruct (Z.eqb_spec (size_classes_at cl) 0) as [E|]; [lia|].
  destruct canary_size_bounds; lia.
Qed.

Lemma slot_usable_pos cl : 0 <= cl < N_SIZE_CLASSES -> cl <> 0 -> slot_usable cl = slot_size cl - canary_size.
Proof.
  intros Hcl Hne. unfold slot_usable, slot_size. assert (H0 : 0 <= 0 < cl) by lia.
  pose proof (size_classes_at_mono 0 cl H0 (proj2 Hcl)) as Hm. rewrite (size_classes_at_tiny 0) in Hm by lia.
  destruct (Z.eqb_spec (size_classes_at cl) 0); [lia|done].
Qed.

Lemma small_place rest h m w p n ar cl i s c :
  heap_ok rest h m w -> small_at h p n ar cl i s c ->
  class_ok (slab_region_start h) ar cl c /\ class_geometry cl c /\ 0 <= i < get_metadata_max (slab_size c) /\
  0 <= s < slots c /\ n <= size c /\ 0 <= n /\
  class_region_start c <= p /\ p + size c <= class_region_start c + CLASS_REGION_SIZE.
Proof.
  intros Hh [Har Hcl Hc Hs Hl -> ->]. destruct (ho_class _ _ _ _ Hh ar cl Har Hcl) as (c' & Hc' & Hok).
  rewrite Hc in Hc'. injection Hc' as <-. split; [done|]. destruct Hok as [(P & E & F & _ & Hb) Hp].
  pose proof (cb_geometry _ _ _ _ _ _ Hb) as Hg. split; [done|].
  unfold live in Hl. apply andb_true_iff in Hl as [Hu _].
  destruct (used_known cl c P E F None i s Hb Hs Hu) as [Hi Hs'].
  pose proof (known_max cl c P E F None i Hb Hi) as Himax. split; [done|]. split; [done|].
  pose proof (slot_usable_bounds cl Hcl). pose proof (cg_size _ _ Hg). split; [lia|]. split; [lia|].
  by apply (slot_address_bound cl c Hg).
Qed.

(** The class region around a small block determines its arena and class. *)
Lemma small_region rest h m w p n ar cl i s c :
  heap_ok rest h m w -> small_at h p n ar cl i s c ->
  slab_size_class (slab_region_start h) p = SlabSizeClassInfo ar cl /\
  (forall a, p <= a < p + size c -> slab_size_class (slab_region_start h) a = SlabSizeClassInfo ar cl /\ slab_range h a).
Proof.
  intros Hh Hsm. destruct (small_place _ _ _ _ _ _ _ _ _ _ _ Hh Hsm) as ((_ & Hp) & Hg & _ & _ & _ & _ & Hlo & Hhi).
  destruct (slab_geometry_facts cl c Hg) as [_ Hsz _ _ _ _ _].
  assert (Hin : forall a, p <= a < p + size c -> slab_size_class (slab_region_start h) a = SlabSizeClassInfo ar cl /\ slab_range h a).
  { intros a Ha. split; [eapply slab_size_class_spec; [apply Hh|exact Hp|lia]|].
    destruct (class_placed_offset _ _ _ _ a Hp ltac:(lia)) as (_ & _ & Hoff). unfold slab_range. lia. }
  split; [apply Hin; lia|done].
Qed.

Lemma large_range rest h m w p n g a :
  heap_ok rest h m w -> m !! p = Some (n, g) -> p <= a < p + n -> ~ outside rest h a.
Proof.
  intros Hh Hm Ha Hout. destruct (ho_large _ _ _ _ Hh) as (ra & _ & _ & Hb).
  destruct (lb_held _ _ _ _ _ _ Hb p n g Hm) as [[? ? ? [? ?] ? ?] _].
  assert (E : ORest = OBlock p); [|done].
  eapply (ow_disjoint _ _ (lb_own _ _ _ _ _ _ Hb)); [exact Hout|]. exists (n, g). split; [done|].
  unfold block. cbn [fst snd]. lia.
Qed.

Lemma block_pos rest h m w p n : heap_ok rest h m w -> block_at h m p n -> 0 < p /\ 0 <= n.
Proof.
  intros Hh [(ar & cl & i & s & c & Hsm)|[g Hm]].
  - destruct (small_place _ _ _ _ _ _ _ _ _ _ _ Hh Hsm) as (_ & Hg & _ & _ & _ & ? & ? & _). destruct Hg. lia.
  - destruct (ho_large _ _ _ _ Hh) as (ra & _ & _ & Hb).
    destruct (lb_held _ _ _ _ _ _ Hb p n g Hm) as [[? ? ? [? ?] ? ?] _]. lia.
Qed.

(** Distinct allocations share no byte. *)
Lemma blocks_disjoint rest h m w p n q k a :
  heap_ok rest h m w -> block_at h m p n -> block_at h m q k -> p <= a < p + n -> q <= a < q + k -> p = q.
Proof.
  intros Hh Hp Hq Ha Ha'.
  assert (Hmixed : forall p n q k, (exists ar cl i s c, small_at h p n ar cl i s c) -> (exists g, m !! q = Some (k, g)) ->
    p <= a < p + n -> q <= a < q + k -> False).
  { intros p' n' q' k' (ar & cl & i & s & c & Hsm) [g Hm] H1 H2. apply (large_range _ _ _ _ _ _ _ a Hh Hm H2). right.
    destruct (small_place _ _ _ _ _ _ _ _ _ _ _ Hh Hsm) as (_ & _ & _ & _ & ? & _ & _ & _).
    apply (small_region _ _ _ _ _ _ _ _ _ _ _ Hh Hsm). lia. }
  destruct Hp as [Hp|Hp], Hq as [Hq|Hq]; [|by destruct (Hmixed p n q k)|by destruct (Hmixed q k p n)|].
  - destruct Hp as (ar & cl & i & s & c & Hsm), Hq as (ar' & cl' & i' & s' & c' & Hsm').
    destruct (small_place _ _ _ _ _ _ _ _ _ _ _ Hh Hsm) as (_ & Hg & Hi & Hs & Hn & _ & _ & _).
    destruct (small_place _ _ _ _ _ _ _ _ _ _ _ Hh Hsm') as (_ & Hg' & Hi' & Hs' & Hn' & _ & _ & _).
    destruct (proj2 (small_region _ _ _ _ _ _ _ _ _ _ _ Hh Hsm) a ltac:(lia)) as [E _].
    destruct (proj2 (small_region _ _ _ _ _ _ _ _ _ _ _ Hh Hsm') a ltac:(lia)) as [E' _].
    rewrite E in E'. injection E' as <- <-. destruct Hsm as [_ _ Hc _ _ -> _], Hsm' as [_ _ Hc' _ _ -> _].
    rewrite Hc in Hc'. injection Hc' as <-.
    destruct (decide ((i, s) = (i', s'))) as [[= -> ->]|Hne]; [done|].
    destruct (slot_address_disjoint cl c i s i' s' Hg); (lia || done).
  - destruct Hp as [g Hm], Hq as [g' Hm']. destruct (ho_large _ _ _ _ Hh) as (ra & _ & _ & Hb).
    destruct (lb_held _ _ _ _ _ _ Hb p n g Hm) as [[? ? ? [? ?] ? ?] _].
    destruct (lb_held _ _ _ _ _ _ Hb q k g' Hm') as [[? ? ? [? ?] ? ?] _].
    assert (E : OBlock p = OBlock q); [|congruence].
    eapply (ow_disjoint _ _ (lb_own _ _ _ _ _ _ Hb) (OBlock p) (OBlock q) a); [exists (n, g)|exists (k, g')];
      (split; [done|]); unfold block; cbn [fst snd]; lia.
Qed.
(** ** Replacing a component *)

Lemma large_inv_grow rest ra m w w' :
  large_inv rest ra m w -> maps_grow (kern w) (kern w') -> large_inv rest ra m w'.
Proof. intros [Hlock Hb] Hk. split; [done|]. eapply large_body_quiet; [exact Hb|done|apply Hb|done..]. Qed.

Lemma heap_ok_set_class rest h m w w' ar cl c' :
  heap_ok rest h m w -> class_ok (slab_region_start h) ar cl c' -> maps_grow (kern w) (kern w') ->
  heap_ok rest (set_class ar cl c' h) m w'.
Proof.
  intros [] Hok Hk. split; try done.
  - intros ar' cl' Har Hcl. cbn. destruct (decide ((ar, cl) = (ar', cl'))) as [[= <- <-]|Hne].
    + exists c'. by rewrite lookup_insert_eq.
    + rewrite lookup_insert_ne by done. by apply ho_class0.
  - destruct ho_large0 as (ra & Hra & Hi). exists ra. split; [done|]. by eapply large_inv_grow.
Qed.

Lemma heap_ok_set_regions rest h m m' w' ra' w :
  heap_ok rest h m w -> large_inv (outside rest h) ra' m' w' -> heap_ok rest (set_region_allocator ra' h) m' w'.
Proof. intros [] Hi. split; try done. by exists ra'. Qed.

(** A slot of the class whose liveness does not change stays the block it was. *)
Lemma set_class_small h ar cl c c' q n ar' cl' j t d :
  size_class_metadata h !! (ar, cl) = Some c -> static_eq c c' ->
  (forall j t, 0 <= t -> q = slot_address c j t -> live c' j t = live c j t) ->
  small_at h q n ar' cl' j t d -> exists d', small_at (set_class ar cl c' h) q n ar' cl' j t d'.
Proof.
  intros Hc Hst Hlive [Har Hcl Hd Ht Hl Ha Hn]. destruct (decide ((ar, cl) = (ar', cl'))) as [[= <- <-]|Hne].
  - rewrite Hc in Hd. injection Hd as <-. exists c'. split; try done.
    + cbn. by rewrite lookup_insert_eq.
    + by rewrite Hlive.
    + rewrite Ha. unfold slot_address. by rewrite (se_start _ _ Hst), (se_slab_size _ _ Hst), (se_size _ _ Hst).
  - exists d. split; try done. cbn. by rewrite lookup_insert_ne.
Qed.

Lemma set_class_id h ar cl c c' :
  size_class_metadata h !! (ar, cl) = Some c -> set_class ar cl c (set_class ar cl c' h) = h.
Proof. intros Hc. unfold set_class. cbn. rewrite insert_insert_eq, insert_id by done. by destruct h. Qed.

Lemma static_eq_sym c c' : static_eq (R := R) c c' -> static_eq c' c.
Proof. intros []. by split. Qed.

Lemma set_class_blocks h m ar cl c c' q n :
  size_class_metadata h !! (ar, cl) = Some c -> static_eq c c' ->
  (forall j t, 0 <= t -> q = slot_address c j t -> live c' j t = live c j t) ->
  block_at (set_class ar cl c' h) m q n <-> block_at h m q n.
Proof.
  intros Hc Hst Hlive. split; (intros [(ar' & cl' & j & t & d & Hsm)|Hm]; [left|by right]).
  - eapply (set_class_small _ ar cl c' c) in Hsm as [d' Hsm].
    + rewrite (set_class_id h ar cl c c') in Hsm by done. by eauto 10.
    + cbn. by rewrite lookup_insert_eq.
    + by apply static_eq_sym.
    + intros j' t' Ht. unfold slot_address. rewrite (se_start _ _ Hst), (se_slab_size _ _ Hst), (se_size _ _ Hst).
      intros Hq. symmetry. by apply Hlive.
  - eapply (set_class_small _ ar cl c c') in Hsm as [d' Hsm]; [by eauto 10|done..].
Qed.

(** Another block lies outside the class region, or is a live slot of the class. *)
Lemma block_elsewhere rest h m w ar cl c q n a :
  heap_ok rest h m w -> size_class_metadata h !! (ar, cl) = Some c -> class_ok (slab_region_start h) ar cl c ->
  block_at h m q n -> q <= a < q + n ->
  (exists j t, 0 <= t < slots c /\ 0 <= j /\ live c j t = true /\ q = slot_address c j t /\ slot_address c j t <= a < slot_address c j t + size c) \/
  ~ class_region_start c <= a < class_region_start c + CLASS_REGION_SIZE.
Proof.
  intros Hh Hc [_ Hp] [(ar' & cl' & j & t & d & Hsm)|[g Hm]] Ha.
  - destruct (small_place _ _ _ _ _ _ _ _ _ _ _ Hh Hsm) as (_ & Hg & Hj & Ht & Hn & _ & _ & _).
    destruct (proj2 (small_region _ _ _ _ _ _ _ _ _ _ _ Hh Hsm) a ltac:(lia)) as [E _].
    destruct (decide (class_region_start c <= a < class_region_start c + CLASS_REGION_SIZE)) as [Hin|]; [left|by right].
    rewrite (slab_size_class_spec _ ar cl _ a (ho_placed _ _ _ _ Hh) Hp Hin) in E. injection E as <- <-.
    destruct Hsm as [_ _ Hd _ Hl -> _]. rewrite Hc in Hd. injection Hd as <-. exists j, t. split_and!; try done; lia.
  - right. intros Hin. apply (large_range _ _ _ _ _ _ _ a Hh Hm Ha). right.
    destruct (class_placed_offset _ _ _ _ a Hp Hin) as (_ & _ & Hoff). unfold slab_range. lia.
Qed.

Lemma rest_elsewhere rest h m w ar cl c a :
  heap_ok rest h m w -> class_ok (slab_region_start h) ar cl c -> rest a ->
  ~ class_region_start c <= a < class_region_start c + CLASS_REGION_SIZE.
Proof.
  intros Hh [_ Hp] Ha Hin. apply (ho_apart _ _ _ _ Hh a Ha).
  destruct (class_placed_offset _ _ _ _ a Hp Hin) as (_ & _ & Hoff). unfold slab_range. lia.
Qed.

(** A block at the address of a slot is that slot, live. *)
Lemma slot_block rest h m w ar cl c i s n :
  heap_ok rest h m w -> size_class_metadata h !! (ar, cl) = Some c -> class_ok (slab_region_start h) ar cl c ->
  0 <= i < get_metadata_max (slab_size c) -> 0 <= s < slots c -> block_at h m (slot_address c i s) n ->
  live c i s = true /\ n = slot_usable cl.
Proof.
  intros Hh Hc [(P & E & F & _ & Hb) Hp] Hi Hs Hn. pose proof (cb_geometry _ _ _ _ _ _ Hb) as Hg.
  destruct (slot_address_bound cl c Hg i s Hi Hs) as [Hlo Hhi]. destruct (slab_geometry_facts cl c Hg) as [_ Hsz _ _ _ _ _].
  assert (Hin : class_region_start c <= slot_address c i s < class_region_start c + CLASS_REGION_SIZE) by lia.
  destruct Hn as [(ar' & cl' & j & t & d & Hsm)|[g Hm]].
  - destruct (small_place _ _ _ _ _ _ _ _ _ _ _ Hh Hsm) as (_ & _ & _ & Ht & _).
    destruct (small_region _ _ _ _ _ _ _ _ _ _ _ Hh Hsm) as [Er _].
    rewrite (slab_size_class_spec _ ar cl _ _ (ho_placed _ _ _ _ Hh) Hp Hin) in Er. injection Er as <- <-.
    destruct Hsm as [_ _ Hd _ Hl Ha Hn]. rewrite Hc in Hd. injection Hd as <-.
    by destruct (slot_address_inj cl c Hg i s j t Hs Ht Ha) as [-> ->].
  - exfalso. destruct (ho_large _ _ _ _ Hh) as (ra & _ & _ & Hlb).
    destruct (lb_held _ _ _ _ _ _ Hlb _ n g Hm) as [[? ? ? [? ?] ? ?] _].
    apply (large_range _ _ _ _ _ _ _ (slot_address c i s) Hh Hm); [lia|]. right.
    destruct (class_placed_offset _ _ _ _ _ Hp Hin) as (_ & _ & Hoff). unfold slab_range. lia.
Qed.

(** ** Slots that are not held *)

Lemma clean_same h h' w w' :
  size_class_metadata h' = size_class_metadata h -> clean h w ->
  (forall a, slab_range h a -> (mem w').[a] = (mem w).[a]) ->
  (forall ar cl c, size_class_metadata h !! (ar, cl) = Some c -> 0 <= ar < N_ARENA -> 0 <= cl < N_SIZE_CLASSES ->
     class_ok (slab_region_start h) ar cl c) -> clean h' w'.
Proof.
  intros E Hc Hm Hok ar cl i s c [Har Hcl Hl Hi Hs Hd] a Ha. rewrite E in Hl. destruct (Hok _ _ _ Hl Har Hcl) as [(P & E' & F & Hinv) Hp].
  pose proof (cb_geometry _ _ _ _ _ _ (proj2 Hinv)) as Hg. rewrite Hm; [by eapply (Hc ar cl i s c)|].
  destruct (slot_address_bound cl c Hg i s Hi Hs), (slot_usable_bounds cl Hcl). pose proof (cg_size _ _ Hg).
  destruct (class_placed_offset _ _ _ _ a Hp ltac:(lia)) as (_ & _ & Hoff). unfold slab_range. lia.
Qed.

Lemma guarded_same h h' w w' :
  size_class_metadata h' = size_class_metadata h -> guarded h w ->
  (forall a, slab_range h a -> (mem w').[a] = (mem w).[a]) ->
  (forall ar cl c, size_class_metadata h !! (ar, cl) = Some c -> 0 <= ar < N_ARENA -> 0 <= cl < N_SIZE_CLASSES ->
     class_ok (slab_region_start h) ar cl c) -> guarded h' w'.
Proof.
  intros E Hg Hm Hok ar cl c Har Hcl Hc. rewrite E in Hc. destruct (Hok _ _ _ Hc Har Hcl) as [(P & E' & F & Hinv) Hp].
  pose proof (proj2 Hinv) as Hb. pose proof (cb_geometry _ _ _ _ _ _ Hb) as Hgeo.
  eapply (slots_guarded_keep cl c c w w' None); [exact Hb|by split|reflexivity|done| |by apply (Hg ar cl c)].
  intros j t _ Ht Hl. right. split; [done|]. intros a Ha. apply Hm. pose proof Hl as Hu. unfold live in Hu.
  apply andb_true_iff in Hu as [Hu _]. destruct (used_known cl c P E' F None j t Hb Ht Hu) as [Hj Ht'].
  pose proof (known_max cl c P E' F None j Hb Hj) as Hj'. destruct (slot_address_bound cl c Hgeo j t Hj' Ht').
  destruct (class_placed_offset _ _ _ _ a Hp ltac:(lia)) as (_ & _ & Hoff). unfold slab_range. lia.
Qed.

(** Different classes have different regions. *)
Lemma other_class rest h m w ar cl c ar' cl' d a :
  heap_ok rest h m w -> class_ok (slab_region_start h) ar cl c -> class_ok (slab_region_start h) ar' cl' d ->
  (ar, cl) <> (ar', cl') -> class_region_start d <= a < class_region_start d + CLASS_REGION_SIZE ->
  ~ class_region_start c <= a < class_region_start c + CLASS_REGION_SIZE.
Proof.
  intros Hh [_ Hp] [_ Hp'] Hne Hin' Hin. destruct Hne.
  pose proof (slab_size_class_spec _ ar cl _ a (ho_placed _ _ _ _ Hh) Hp Hin) as E1.
  rewrite (slab_size_class_spec _ ar' cl' _ a (ho_placed _ _ _ _ Hh) Hp' Hin') in E1. by injection E1 as -> ->.
Qed.

Lemma guarded_set_class rest h m w w' ar cl c c' :
  heap_ok rest h m w -> class_ok (slab_region_start h) ar cl c ->
  only_changes (class_region_start c) CLASS_REGION_SIZE (mem w) (mem w') ->
  slots_guarded cl c' w' -> guarded h w -> guarded (set_class ar cl c' h) w'.
Proof.
  intros Hh Hok Hout Hnew Hg ar' cl' d Har' Hcl' Hd. cbn in Hd.
  destruct (decide ((ar, cl) = (ar', cl'))) as [[= <- <-]|Hne]; [rewrite lookup_insert_eq in Hd; by injection Hd as <-|].
  rewrite lookup_insert_ne in Hd by done. destruct (ho_class _ _ _ _ Hh ar' cl' Har' Hcl') as (d' & Hd' & Hok').
  rewrite Hd in Hd'. injection Hd' as <-. pose proof Hok' as [(P & E & F & Hinv) Hp].
  pose proof (proj2 Hinv) as Hb. pose proof (cb_geometry _ _ _ _ _ _ Hb) as Hgeo.
  eapply (slots_guarded_keep cl' d d w w' None); [exact Hb|by split|reflexivity|done| |by apply (Hg ar' cl' d)].
  intros j t _ Ht Hl. right. split; [done|]. intros a Ha. pose proof Hl as Hu. unfold live in Hu.
  apply andb_true_iff in Hu as [Hu _]. destruct (used_known cl' d P E F None j t Hb Ht Hu) as [Hj Ht'].
  pose proof (known_max cl' d P E F None j Hb Hj) as Hj'. destruct (slot_address_bound cl' d Hgeo j t Hj' Ht').
  apply Hout. pose proof (other_class _ _ _ _ _ _ _ _ _ _ a Hh Hok Hok' Hne ltac:(lia)). lia.
Qed.

(** One class changed: its slots that are not held any more are zero, and the
    other ones are as before. *)
Lemma clean_set_class rest h m w w' ar cl c c' :
  heap_ok rest h m w -> 0 <= ar < N_ARENA -> 0 <= cl < N_SIZE_CLASSES ->
  size_class_metadata h !! (ar, cl) = Some c -> class_ok (slab_region_start h) ar cl c -> static_eq c c' ->
  only_changes (class_region_start c) CLASS_REGION_SIZE (mem w) (mem w') -> clean h w ->
  (forall i s a, 0 <= i < get_metadata_max (slab_size c) -> 0 <= s < slots c -> live c' i s = false ->
     slot_address c i s <= a < slot_address c i s + slot_usable cl ->
     (mem w').[a] = 0 \/ live c i s = false /\ (mem w').[a] = (mem w).[a]) ->
  clean (set_class ar cl c' h) w'.
Proof.
  intros Hh Har Hcl Hc Hok Hst Hout Hclean Hdead ar' cl' i s d [Har' Hcl' Hd Hi Hs Hl] a Ha. cbn in Hd.
  destruct (decide ((ar, cl) = (ar', cl'))) as [[= <- <-]|Hne].
  - rewrite lookup_insert_eq in Hd. injection Hd as <-. rewrite (se_slab_size _ _ Hst) in Hi. rewrite (se_slots _ _ Hst) in Hs.
    assert (Ea : slot_address c' i s = slot_address c i s).
    { unfold slot_address. by rewrite (se_start _ _ Hst), (se_slab_size _ _ Hst), (se_size _ _ Hst). }
    rewrite Ea in Ha. destruct (Hdead i s a Hi Hs Hl Ha) as [|[Hl0 ->]]; [done|]. by eapply (Hclean ar cl i s c).
  - rewrite lookup_insert_ne in Hd by done. destruct (ho_class _ _ _ _ Hh ar' cl' Har' Hcl') as (d' & Hd' & [(P & E & F & Hinv) Hp]).
    rewrite Hd in Hd'. injection Hd' as <-. pose proof (cb_geometry _ _ _ _ _ _ (proj2 Hinv)) as Hg.
    destruct (slot_address_bound cl' d Hg i s Hi Hs), (slot_usable_bounds cl' Hcl'). pose proof (cg_size _ _ Hg).
    rewrite Hout; [by eapply (Hclean ar' cl' i s d)|].
    assert (Hok' : class_ok (slab_region_start h) ar' cl' d) by (split; [by exists P, E, F|done]).
    pose proof (other_class _ _ _ _ _ _ _ _ _ _ a Hh Hok Hok' Hne ltac:(lia)). lia.
Qed.

(** ** Nothing happened *)

Lemma heap_ok_world rest h m w w' :
  heap_ok rest h m w -> maps_grow (kern w) (kern w') -> heap_ok rest h m w'.
Proof.
  intros [] Hk. split; try done. destruct ho_large0 as (ra & Hra & Hi). exists ra. split; [done|].
  by eapply large_inv_grow.
Qed.

Lemma kept_refl rest (X : Z -> Prop) h m w w' : mem w' = mem w -> kept_except rest X h m w h m w'.
Proof.
  intros Hm. split; try (intros; by rewrite Hm); [done| | |done].
  - intros _ Hc ar cl i s c Hu. rewrite Hm. by apply (Hc ar cl).
  - intros Hg ar cl c Har Hcl Hc. destruct (Hg ar cl c Har Hcl Hc) as [Hw Hs]. split; [done|]. intros i s.
    unfold slot_guarded. rewrite Hm. by apply Hs.
Qed.

Lemma kept_trans rest (X : Z -> Prop) h1 m1 w1 h2 m2 w2 h3 m3 w3 :
  kept_except rest X h1 m1 w1 h2 m2 w2 -> kept_except rest X h2 m2 w2 h3 m3 w3 -> kept_except rest X h1 m1 w1 h3 m3 w3.
Proof.
  intros [Hb Hc Hr Hz Hg Hs] [Hb' Hc' Hr' Hz' Hg' Hs']. split.
  - intros q n Hq. by rewrite Hb', Hb.
  - intros q n a Hq Hp Ha. rewrite (Hc' q n a); [by eapply Hc|by apply Hb|done..].
  - intros a Ha. by rewrite Hr', Hr.
  - intros Hzf Hcl. by apply Hz', Hz.
  - auto.
  - congruence.
Qed.

Lemma kept_weaken rest (X Y : Z -> Prop) h m w h' m' w' :
  kept_except rest X h m w h' m' w' -> (forall q, X q -> Y q) -> kept_except rest Y h m w h' m' w'.
Proof.
  intros [Hb Hc Hr Hz Hg Hs] HX. assert (Hne : forall q, ~ Y q -> ~ X q) by (by intros q Hq Hx; apply Hq, HX).
  split; [auto|eauto|done..].
Qed.

(** No block is at NULL. *)
Lemma kept_but_null rest h m w h' m' w' :
  heap_ok rest h m w -> heap_ok rest h' m' w' -> kept_but rest 0 h m w h' m' w' ->
  kept_except rest (fun _ => False) h m w h' m' w'.
Proof.
  intros Hh Hh' [Hb Hc Hr Hz Hg Hs]. split; try done.
  - intros q n _. destruct (decide (q = 0)) as [->|]; [|auto].
    split; intros Hq; eapply block_pos in Hq; (lia || done).
  - intros q n a Hq _. apply (Hc q n); [done|]. intros ->. eapply block_pos in Hq; [lia|done].
Qed.

(** ** The program writes to its memory *)

(** A byte of a block that lies in a slot of a class: the block is that slot. *)
Lemma block_in_slot rest h m w ar cl c i s q n a :
  heap_ok rest h m w -> size_class_metadata h !! (ar, cl) = Some c -> class_ok (slab_region_start h) ar cl c ->
  0 <= i < get_metadata_max (slab_size c) -> 0 <= s < slots c ->
  slot_address c i s <= a < slot_address c i s + size c -> block_at h m q n -> q <= a < q + n ->
  q = slot_address c i s /\ live c i s = true /\ n = slot_usable cl.
Proof.
  intros Hh Hc Hok Hi Hs Ha Hq Haq. pose proof Hok as [(P & E & F & _ & Hb) _].
  pose proof (cb_geometry _ _ _ _ _ _ Hb) as Hg. destruct (slot_address_bound cl c Hg i s Hi Hs).
  destruct (block_elsewhere _ _ _ _ _ _ _ _ _ a Hh Hc Hok Hq Haq) as [(j & t & Ht & Hj & _ & E0 & Hin)|Hout]; [|lia].
  destruct (decide ((i, s) = (j, t))) as [[= <- <-]|Hne].
  - split; [done|]. subst q. by apply (slot_block rest h m w ar cl c).
  - destruct (slot_address_disjoint cl c i s j t Hg); (lia || done).
Qed.

(** Writing inside a block: all other blocks, the free slots and the canaries
    are as before. *)
Lemma kept_but_write rest h m w w' p n :
  heap_ok rest h m w -> block_at h m p n -> only_changes p n (mem w) (mem w') -> kern w' = kern w ->
  heap_ok rest h m w' /\ kept_but rest p h m w h m w'.
Proof.
  intros Hh Hp Ho Hk. assert (Hsame : forall a, ~ p <= a < p + n -> (mem w').[a] = (mem w).[a]) by (intros a Ha; apply Ho; lia).
  split; [eapply heap_ok_world; [exact Hh|rewrite Hk; reflexivity]|]. split; [done|..|done].
  - intros q k a Hq Hne Ha. apply Hsame. intros Ha'. by apply Hne, (blocks_disjoint rest h m w q k p n a).
  - intros a Ha. apply Hsame. intros Hin. destruct Hp as [(ar & cl & i & s & c & Hsm)|[g Hm]].
    + destruct (small_place _ _ _ _ _ _ _ _ _ _ _ Hh Hsm) as (_ & _ & _ & _ & ? & _).
      apply (ho_apart _ _ _ _ Hh a Ha). apply (small_region _ _ _ _ _ _ _ _ _ _ _ Hh Hsm). lia.
    + apply (large_range _ _ _ _ _ _ _ a Hh Hm); [lia|by left].
  - intros _ Hcl ar cl i s c Hu a Ha. pose proof Hu as [Har Hclass Hc Hi Hs Hd].
    pose proof (class_ok_at _ _ _ _ _ _ _ Hh Har Hclass Hc) as Hok. pose proof Hok as [(P & E & F & _ & Hb) _].
    pose proof (cg_size _ _ (cb_geometry _ _ _ _ _ _ Hb)). pose proof (slot_usable_bounds cl Hclass).
    rewrite Hsame; [by apply (Hcl ar cl i s c)|]. intros Hin.
    assert (Ha' : slot_address c i s <= a < slot_address c i s + size c) by lia.
    destruct (block_in_slot _ _ _ _ _ _ _ _ _ _ _ a Hh Hc Hok Hi Hs Ha' Hp Hin) as (_ & Hl & _). congruence.
  - intros Hg ar cl c Har Hclass Hc. pose proof (class_ok_at _ _ _ _ _ _ _ Hh Har Hclass Hc) as Hok.
    pose proof Hok as [(P & E & F & _ & Hb) _]. pose proof (cb_geometry _ _ _ _ _ _ Hb) as Hgeo.
    eapply (slots_guarded_keep cl c c w w' None); [exact Hb|by split|reflexivity|done| |by apply (Hg ar cl c)].
    intros i s Hne Hs Hl. left. intros Hsc. rewrite <- (proj2 (Hg ar cl c Har Hclass Hc) i s Hne Hs Hl Hsc).
    pose proof Hl as Hu. unfold live in Hu. apply andb_true_iff in Hu as [Hu _].
    destruct (used_known cl c P E F None i s Hb Hs Hu) as [Hi Hs']. pose proof (known_max cl c P E F None i Hb Hi) as Hi'.
    pose proof (cg_size _ _ Hgeo) as Hsz. pose proof (slot_usable_pos cl Hclass Hne) as Hus.
    assert (Hcs : canary_size = 8) by (unfold canary_size; by rewrite Hsc).
    pose proof (gf_size _ (slab_geometry_facts cl c Hgeo)) as Hgf.
    apply load64_same. intros a Ha. apply Hsame. intros Hin.
    assert (Ha' : slot_address c i s <= a < slot_address c i s + size c) by lia.
    destruct (block_in_slot _ _ _ _ _ _ _ _ _ _ _ a Hh Hc Hok Hi' Hs' Ha' Hp Hin) as (-> & _ & ->). lia.
Qed.
End Facts.
