(* ===== verification/AllocatorAlloc.v ===== *)
(** Allocation on the whole allocator: [allocate] hands out a fresh block and
    keeps every other allocation, whichever component serves the request. *)

From S2P Require Import Prelude Config Util SizeClass Kernel Maps Pages RandomSource SlabMeta Slab SlabLists SlabHeap SlabInv SlabRegion SlabAlloc SlabQuarantine SlabFree SlabCanary SlabMaps Regions RegionTable RegionMap Large LargeInv LargeAlloc LargeFree Allocator AllocatorInv.

(** A new allocation at [p] of [n] bytes; a small one is a slot that was not held
    and still has its bytes, a large one is zero. *)
Record fresh_at `{Config} {R} (p n : Z) (h : allocator R) (m : gmap Z (Z * Z)) (mm : gmap Z Z)
    (h' : allocator R) (m' : gmap Z (Z * Z)) (mm' : gmap Z Z) : Prop := {
  fa_pos : 0 < p;
  fa_new : forall k, ~ block_at h m p k;
  fa_align : (min_align | p);
  fa_block : block_at h' m' p n;
  fa_bytes :
    (forall a, p <= a < p + n -> mm'.[a] = mm.[a]) /\
      (exists ar cl i s c, unheld_slot h ar cl i s c /\ p = slot_address c i s /\ n = slot_usable cl) \/
    zero_in p n mm'
}.

Section Alloc.
Context {Cfg : Config} {Cok : ConfigOk Cfg} {K : Kernel} {Kok : KernelOk K} {R : Type}.
Context `{!RandomSource R} `{!RandomSourceOk R}.
Implicit Types (h : allocator R) (m : gmap Z (Z * Z)) (w : world) (rest : Z -> Prop).

(** How an allocation may fail to return. *)
Definition allocation_halts h w (e : halt) : Prop :=
  system_halts e \/ e = Fatal "detected write after free" /\ ZERO_ON_FREE = true /\ ~ clean h w.

(** The outcome of a request: NULL and ENOMEM, or a new block that satisfies [P]. *)
Definition allocated rest h m w (P : Z -> Z -> Prop) (p : Z) (s' : allocator R * world) : Prop :=
  exists m', heap_ok rest (fst s') m' (snd s') /\ kept_but rest p h m w (fst s') m' (snd s') /\
    (p = 0 /\ errno (snd s') = ENOMEM \/
     exists n, P p n /\ fresh_at p n h m (mem w) (fst s') m' (mem (snd s'))).

(** ** Small requests *)

Lemma took_live cl c w P E F c' i s :
  class_body cl c P E F None -> 0 <= s -> is_used_slot (slab_info c).[i] s = false -> took c c' i s ->
  (forall j t, 0 <= t -> (j, t) <> (i, s) -> live c' j t = live c j t) /\ live c' i s = true /\ live c i s = false.
Proof.
  intros Hb Hs Hfree Ht. split; [|split].
  - intros j t Hj Hne. unfold live. destruct (Ht j t Hj) as [-> ->].
    destruct (Z.eqb_spec i j) as [->|]; [|done]. destruct (Z.eqb_spec s t) as [->|]; [by destruct Hne|done].
  - unfold live. destruct (Ht i s Hs) as [-> ->]. rewrite !Z.eqb_refl. cbn [andb orb].
    destruct (is_quarantine_slot (slab_info c).[i] s) eqn:Hq; [|done].
    apply (hi_quar _ _ _ _ _ _ (cb_heap _ _ _ _ _ _ Hb)) in Hq. cbn in Hq. congruence.
  - unfold live. by rewrite Hfree.
Qed.

Lemma slots_unchanged_live c c' :
  slots_unchanged (R := R) c c' -> forall j t, 0 <= t -> live c' j t = live c j t.
Proof. intros Hu j t Ht. unfold live. by destruct (Hu j t Ht) as [-> ->]. Qed.

Lemma class_ok_static start ar cl c c' :
  class_ok start ar cl c -> static_eq c c' -> (exists P E F, class_inv cl c' P E F) -> class_ok (R := R) start ar cl c'.
Proof. intros [_ Hp] Hst Hinv. split; [done|]. by rewrite (se_start _ _ Hst). Qed.

(** The canary lies behind the usable bytes. *)
Lemma usable_before_canary cl c p a :
  class_geometry (R := R) cl c -> p <= a < p + slot_usable cl -> p <= a < p + size c - canary_size.
Proof.
  intros Hg Ha. destruct Hg as [Hcl Hs _ _ _ _ _ _ _]. rewrite Hs. unfold slot_usable, slot_size in *.
  destruct (size_classes_at cl =? 0); lia.
Qed.

(** A slot that was written to is not clean. *)
Lemma dirty_not_clean rest h m w ar cl c :
  heap_ok rest h m w -> 0 <= ar < N_ARENA -> 0 <= cl < N_SIZE_CLASSES -> cl <> 0 ->
  size_class_metadata h !! (ar, cl) = Some c -> class_ok (slab_region_start h) ar cl c -> dirty_slot c w -> ~ clean h w.
Proof.
  intros Hh Har Hcl Hne Hc [(P & E & F & Hinv) _] (i & s & Hi & Hs & Hu & Hd) Hclean. apply Hd.
  destruct (cb_geometry _ _ _ _ _ _ (proj2 Hinv)) as [_ Hsize _ _ _ _ _ _ _].
  assert (Hdead : live c i s = false) by (unfold live; by rewrite Hu).
  intros a Ha. apply (Hclean ar cl i s c); [by split|]. rewrite slot_usable_pos by done. lia.
Qed.

(** A power of 2 up to the page size that divides the size of the slots divides
    their addresses. *)
Definition slot_aligned (class p : Z) : Prop := forall k, 0 <= k <= PAGE_SHIFT -> (2 ^ k | slot_size class) -> (2 ^ k | p).

Lemma slot_address_pow2 cl c i s : class_geometry (R := R) cl c -> slot_aligned cl (slot_address c i s).
Proof.
  intros Hg k [Hk0 Hk] Hd. unfold PAGE_SHIFT in Hk. destruct (slab_geometry_facts cl c Hg) as [_ _ _ _ Hpage _ _].
  assert (Hdp : (2 ^ k | PAGE_SIZE)).
  { rewrite PAGE_SIZE_eq. exists (2 ^ (12 - k)). rewrite <- Z.pow_add_r by lia. by replace (12 - k + k) with 12 by lia. }
  rewrite <- (cg_size _ _ Hg) in Hd. unfold slot_address. repeat apply Z.divide_add_r.
  - eapply Z.divide_trans; [exact Hdp|apply Hg].
  - apply Z.divide_mul_r. by eapply Z.divide_trans.
  - by apply Z.divide_mul_r.
Qed.

Lemma wp_allocate_slot rest h m w ar req :
  heap_ok rest h m w -> 0 <= ar < N_ARENA -> 0 <= req <= max_slab_size_class ->
  wp (with_class ar (si_class (get_size_info req)) (allocate_small req))
     (allocated rest h m w (fun p n => n = slot_usable (si_class (get_size_info req)) /\
        slot_aligned (si_class (get_size_info req)) p /\ slab_range h p)) (allocation_halts h w) (h, w).
Proof.
  intros Hh Har Hreq. destruct (request_class req Hreq) as (Hcl & _ & _). set (cl := si_class (get_size_info req)) in *.
  destruct (ho_class _ _ _ _ Hh ar cl Har Hcl) as (c & Hc & Hok). pose proof Hok as [(P & E & F & Hinv) Hp].
  eapply wp_with_class; [exact Hc|].
  eapply wp_mono; [apply wp_keeps; [apply _|]; apply (wp_both _ _ _ _ _ (wp_allocate_small cl c w P E F req Hreq eq_refl Hinv)
    (wp_allocate_small_canary cl c w P E F req Hinv))| |].
  2: { intros e [He|(He & Hne & Hzf & Hd)]; [by left|right]. split; [done|]. split; [done|].
       by eapply (dirty_not_clean rest h m w ar cl c). }
  intros p [c' w'] [[(Hst & Hinv' & Hres) (x & Hx & Hframe)] Hgrow]. cbn [fst snd] in *.
  assert (Hh' : heap_ok rest (set_class ar cl c' h) m w').
  { eapply heap_ok_set_class; [exact Hh|by eapply class_ok_static|done]. }
  exists m. cbn [fst snd]. split; [done|].
  pose proof (proj2 Hinv) as Hb.
  destruct Hres as [(-> & He & _ & _ & Hun & Hm)|(i & s & -> & Hi & Hs & Hfree & Htook & Honly & Hcanary)].
  - split; [|by left]. pose proof (slots_unchanged_live _ _ Hun) as Hlive. split; try (intros; by rewrite Hm); [..|done].
    3: { intros Hg. eapply (guarded_set_class rest h m w w'); try done; [by intros a _; rewrite Hm|].
         eapply (slots_guarded_keep cl c c' w w' (Some x)); try done; [by intros ? [= <-]| |by apply (Hg ar cl c)].
         intros j t _ Ht Hl. right. rewrite Hm. split; [|done]. by rewrite <- Hlive. }
    2: { intros _ Hcl0. eapply (clean_set_class rest h m w w'); try done; [by intros a _; rewrite Hm|].
         intros i s a _ Hs Hl _. right. rewrite Hm. split; [|done]. rewrite <- Hlive; [done|lia]. }
    intros q n _. apply (set_class_blocks h m ar cl c c'); try done. intros j t Ht _. by apply Hlive.
  - destruct (took_live cl c w P E F c' i s Hb (proj1 Hs) Hfree Htook) as (Hother & Hnew & Hdead).
    pose proof (cb_geometry _ _ _ _ _ _ Hb) as Hg.
    assert (Himax : 0 <= i < get_metadata_max (slab_size c)).
    { destruct Hinv' as (P' & E' & F' & _ & Hb'). rewrite <- (se_slab_size _ _ Hst). by eapply known_max. }
    destruct (slot_address_bound cl c Hg i s Himax Hs) as [Hlo Hhi]. set (p := slot_address c i s) in *.
    assert (Hcan : 0 <= canary_size <= size c).
    { destruct (slab_geometry_facts cl c Hg). destruct canary_size_bounds; lia. }
    assert (Hkept : kept_but rest p h m w (set_class ar cl c' h) m w').
    { split; [..|done].
      - intros q n Hq. apply (set_class_blocks h m ar cl c c'); try done. intros j t Ht Hqa. apply Hother; [done|].
        by intros [= -> ->].
      - intros q n a Hq Hqp Ha. apply Honly.
        destruct (block_elsewhere _ _ _ _ _ _ _ _ _ a Hh Hc Hok Hq Ha) as [(j & t & Ht & Hj & _ & -> & Hin)|Hout]; [|lia].
        destruct (slot_address_disjoint cl c i s j t Hg ltac:(lia) Hj Hs Ht); [by intros [= -> ->]|unfold p; lia|unfold p; lia].
      - intros a Ha. apply Honly. pose proof (rest_elsewhere _ _ _ _ _ _ _ a Hh Hok Ha). lia.
      - intros _ Hcl0. eapply (clean_set_class rest h m w w'); try done; [intros a Ha; apply Honly; lia|].
        intros j t a Hj Ht Hl Ha. right. assert (Hne : (j, t) <> (i, s)) by (intros [= -> ->]; congruence).
        split; [rewrite <- Hother; [done|lia|done]|]. apply Honly. pose proof (slot_usable_bounds cl Hcl).
        pose proof (cg_size _ _ Hg). destruct (slot_address_disjoint cl c i s j t Hg) as [Hd|Hd]; unfold p in *; (lia || congruence).
      - intros Hgd. eapply (guarded_set_class rest h m w w'); try done; [intros a Ha; apply Honly; lia|].
        eapply (slots_guarded_keep cl c c' w w' (Some x)); try done; [by intros ? [= <-]| |by apply (Hgd ar cl c)].
        intros j t Hne0 Ht Hl. destruct (decide ((j, t) = (i, s))) as [[= -> ->]|Hne].
        + left. intros Hsc. rewrite (slot_address_static c c'), (se_size _ _ Hst) by done. fold p. rewrite Hcanary by done.
          apply wrap_small. destruct Hframe as [_ Hwords]. by apply Hwords, (Hgd ar cl c).
        + right. rewrite Hother in Hl by done. split; [done|]. intros a Ha. apply Honly.
          pose proof Hl as Hu. unfold live in Hu. apply andb_true_iff in Hu as [Hu _].
          destruct (used_known cl c P E F None j t Hb Ht Hu) as [Hj Ht']. pose proof (known_max cl c P E F None j Hb Hj).
          destruct (slot_address_disjoint cl c i s j t Hg) as [Hd|Hd]; unfold p in *; (lia || congruence). }
    assert (Hrange : slab_range h p).
    { destruct (slab_geometry_facts cl c Hg). destruct (class_placed_offset _ _ _ _ p Hp ltac:(lia)) as (_ & _ & Hoff).
      unfold slab_range. lia. }
    split; [done|]. right. exists (slot_usable cl). split; [split; [done|split; [by apply slot_address_pow2|done]]|]. split.
    + destruct Hg. lia.
    + intros k Hk. destruct (slot_block _ _ _ _ _ _ _ _ _ _ Hh Hc Hok Himax Hs Hk) as [Hl _]. congruence.
    + by apply (slot_address_aligned cl).
    + left. exists ar, cl, i, s, c'. split; try done; [cbn; by rewrite lookup_insert_eq|lia|].
      unfold p, slot_address. by rewrite (se_start _ _ Hst), (se_slab_size _ _ Hst), (se_size _ _ Hst).
    + left. split; [|by exists ar, cl, i, s, c].
      intros a Ha. apply Honly. pose proof (usable_before_canary cl c p a Hg Ha). lia.
Qed.

(** ** Large requests *)

Lemma heap_ok_class_of_pages p : (PAGE_SIZE | p) -> (min_align | p).
Proof. intros Hp. eapply Z.divide_trans; [|exact Hp]. by exists 256. Qed.

(** The memory that a large operation keeps. *)
Lemma kept_memory_small rest h m m0 w w' q n ar cl i s c a :
  heap_ok rest h m w -> small_at h q n ar cl i s c -> q <= a < q + n ->
  kept_memory (outside rest h) m0 (mem w) (mem w') -> (mem w').[a] = (mem w).[a].
Proof.
  intros Hh Hsm Ha Hk. apply Hk. left. right.
  destruct (small_place _ _ _ _ _ _ _ _ _ _ _ Hh Hsm) as (_ & _ & _ & _ & ? & _).
  apply (small_region _ _ _ _ _ _ _ _ _ _ _ Hh Hsm). lia.
Qed.

(** A large operation that keeps the memory of [m0], the large blocks but [X]. *)
Lemma kept_large rest (X : Z -> Prop) h m m0 m' ra' w w' :
  heap_ok rest h m w -> kept_memory (outside rest h) m0 (mem w) (mem w') ->
  (forall q, ~ X q -> m0 !! q = m !! q) -> (forall q, ~ X q -> m' !! q = m !! q) ->
  kept_except rest X h m w (set_region_allocator ra' h) m' w'.
Proof.
  intros Hh Hk H0 H'. split; [..|done].
  - intros q n Hq. unfold block_at. rewrite H' by done. split; (intros [(ar & cl & i & s & c & [])|Hm]; [left|by right]);
      by exists ar, cl, i, s, c.
  - intros q n a [(ar & cl & i & s & c & Hsm)|[g Hm]] Hq Ha; [by eapply kept_memory_small|].
    apply Hk. right. exists q, (n, g). rewrite H0 by done. split; [done|].
    destruct (ho_large _ _ _ _ Hh) as (ra & _ & _ & Hb).
    destruct (lb_held _ _ _ _ _ _ Hb q n g Hm) as [[? ? ? [? ?] ? ?] _]. unfold block. cbn [fst snd]. lia.
  - intros a Ha. apply Hk. left. by left.
  - intros _ Hcl. eapply (clean_same h _ w); [done|exact Hcl| |].
    + intros a Ha. apply Hk. left. by right.
    + intros ar cl c Hc Har Hclass. by eapply class_ok_at.
  - intros Hg. eapply (guarded_same h _ w); [done|exact Hg| |].
    + intros a Ha. apply Hk. left. by right.
    + intros ar cl c Hc Har Hclass. by eapply class_ok_at.
Qed.

(** A new large block is not where a block was. *)
Lemma large_new rest h m m' w ra' w' p size guard :
  heap_ok rest h m w -> heap_ok rest (set_region_allocator ra' h) m' w' -> m' !! p = Some (size, guard) ->
  m !! p = None -> forall k, ~ block_at h m p k.
Proof.
  intros Hh Hh' Hl Hm k [(ar & cl & i & s & c & Hsm)|[g Hg]]; [|congruence].
  pose proof (small_region _ _ _ _ _ _ _ _ _ _ _ Hh Hsm) as [_ Hr].
  destruct (small_place _ _ _ _ _ _ _ _ _ _ _ Hh Hsm) as (_ & Hgeo & _).
  destruct (slab_geometry_facts cl c Hgeo) as [_ Hsz _ _ _ _ _].
  destruct (Hr p ltac:(lia)) as [_ Hin].
  destruct (ho_large _ _ _ _ Hh') as (ra & _ & _ & Hb).
  destruct (lb_held _ _ _ _ _ _ Hb p size guard Hl) as [[? ? ? [? ?] ? ?] _].
  apply (large_range _ _ _ _ _ _ _ p Hh' Hl); [lia|by right].
Qed.

Lemma large_fresh rest h m w ra' w' p size guard :
  heap_ok rest h m w -> heap_ok rest (set_region_allocator ra' h) (<[p := (size, guard)]> m) w' ->
  m !! p = None -> 0 < p -> (PAGE_SIZE | p) -> zero_in p size (mem w') ->
  fresh_at p size h m (mem w) (set_region_allocator ra' h) (<[p := (size, guard)]> m) (mem w').
Proof.
  intros Hh Hh' Hm Hp Hpage Hz. split; try done.
  - eapply large_new; [exact Hh|exact Hh'|apply lookup_insert_eq|done].
  - by apply heap_ok_class_of_pages.
  - right. exists guard. apply lookup_insert_eq.
  - by right.
Qed.

Lemma wp_allocate_region rest h m w size :
  heap_ok rest h m w -> fits 64 size ->
  wp (with_regions (allocate_large size))
     (allocated rest h m w (fun p n => (n = get_large_size_class size /\ size <= n) /\ (PAGE_SIZE | p))) (allocation_halts h w) (h, w).
Proof.
  intros Hh Hsize. destruct (ho_large _ _ _ _ Hh) as (ra & Hra & Hinv). eapply wp_with_regions; [exact Hra|].
  eapply wp_mono; [by apply wp_allocate_large| |by left].
  intros p [ra' w'] [(-> & He & Hi & Hk)|(Hm & Hp & Hpage & Hz & g & Hg & Hi & Hk & _)]; cbn [fst snd] in *.
  - exists m. cbn [fst snd]. split; [by eapply heap_ok_set_regions|]. split; [|by left]. by eapply kept_large.
  - exists (<[p := (get_large_size_class size, g)]> m). cbn [fst snd].
    pose proof (heap_ok_set_regions _ _ _ _ _ _ _ Hh Hi) as Hh'. split; [done|]. split.
    { eapply kept_large; [done|exact Hk|done|]. intros q Hq. by rewrite lookup_insert_ne. }
    right. exists (get_large_size_class size). split; [|by apply (large_fresh rest)]. split; [|done]. split; [done|].
    destruct (large_class_holds size Hsize) as [E|]; [|lia].
    destruct (lb_held _ _ _ _ _ _ (proj2 Hi) p (get_large_size_class size) g (lookup_insert_eq _ _ _)) as [[] _]. lia.
Qed.

(** ** Any request *)

(** What a request of [size] bytes, canary included, is given. *)
Definition granted (size n : Z) : Prop :=
  if size <=? max_slab_size_class then n = slot_usable (si_class (get_size_info size))
  else n = get_large_size_class size /\ size <= n.

(** Its place and alignment: that of its slots, or a page. *)
Definition placed_for h (size p : Z) : Prop :=
  if size <=? max_slab_size_class then slot_aligned (si_class (get_size_info size)) p /\ slab_range h p else (PAGE_SIZE | p).

Lemma allocated_weaken rest h m w (P P' : Z -> Z -> Prop) p s' :
  allocated rest h m w P p s' -> (forall p n, P p n -> P' p n) -> allocated rest h m w P' p s'.
Proof.
  intros (m' & Hh & Hk & Hres) HP. exists m'. split; [done|]. split; [done|].
  destruct Hres as [|(n & Hn & Hf)]; [by left|right]. exists n. split; [by apply HP|done].
Qed.

Lemma wp_allocate_placed rest h m w ar size :
  heap_ok rest h m w -> 0 <= ar < N_ARENA -> fits 64 size ->
  wp (allocate ar size) (allocated rest h m w (fun p n => granted size n /\ placed_for h size p)) (allocation_halts h w) (h, w).
Proof.
  intros Hh Har Hsize. unfold allocate, granted, placed_for. destruct (Z.leb_spec size max_slab_size_class) as [Hle|Hgt].
  - apply wp_allocate_slot; [done|done|]. destruct Hsize. lia.
  - by apply wp_allocate_region.
Qed.

Lemma wp_allocate rest h m w ar size :
  heap_ok rest h m w -> 0 <= ar < N_ARENA -> fits 64 size ->
  wp (allocate ar size) (allocated rest h m w (fun _ => granted size)) (allocation_halts h w) (h, w).
Proof.
  intros Hh Har Hsize. eapply wp_conseq; [by apply wp_allocate_placed|]. intros p s' Hp.
  eapply allocated_weaken; [exact Hp|]. by intros q n [? _].
Qed.

(** Adding the canary first leaves the requested bytes. *)
Lemma granted_request req n : fits 64 req -> granted (adjust_size_for_canary req) n -> req <= n.
Proof.
  intros [H0 H1] Hn. unfold granted, adjust_size_for_canary in *. pose proof max_slab_size_class_bounds as Hmax.
  pose proof canary_size_bounds as Hcan.
  destruct (Z.ltb_spec 0 req) as [Hpos|Hz]; cbn [andb] in Hn.
  - destruct (Z.leb_spec req max_slab_size_class) as [Hle|Hgt]; cbn [andb] in Hn.
    + rewrite (wrap_small 64 (req + canary_size)) in Hn by (split; lia).
      destruct (Z.leb_spec (req + canary_size) max_slab_size_class) as [Hle'|Hgt']; [|lia].
      assert (Hr : 0 < req + canary_size <= max_slab_size_class) by lia.
      destruct (get_size_info_class (req + canary_size) Hr) as (_ & Ht & _ & Hge).
      unfold slot_usable in Hn. rewrite Ht in Hn. destruct (Z.eqb_spec (si_size (get_size_info (req + canary_size))) 0); lia.
    + rewrite (proj2 (Z.leb_gt _ _)) in Hn by lia. lia.
  - assert (req = 0) as -> by lia. rewrite (proj2 (Z.leb_le 0 _)) in Hn by lia. subst n. by vm_compute.
Qed.

(** ** The arena of the thread *)

Lemma block_at_same h h' m p n :
  size_class_metadata h' = size_class_metadata h -> block_at h' m p n <-> block_at h m p n.
Proof.
  intros E. unfold block_at. split; (intros [(ar & cl & i & s & c & [])|Hm]; [left|by right]); exists ar, cl, i, s, c;
    split; congruence.
Qed.

Lemma heap_ok_arena rest h m w a n : heap_ok rest h m w -> 0 <= a -> 0 <= n -> (N_ARENA = 1 -> a = 0) ->
  heap_ok rest (set_thread_arena a n h) m w.
Proof. intros [] Ha Hn H1. by split. Qed.

Lemma heap_ok_init rest h m w : heap_ok rest h m w -> is_init (slab_region_end h) = true.
Proof.
  intros Hh. unfold is_init. rewrite (ho_end _ _ _ _ Hh). destruct (ho_placed _ _ _ _ Hh) as [Hs _ _ _], region_sizes as (Hc & HR & HA & HS & HN & HNA).
  assert (0 <= ARENA_SIZE) by (rewrite HA; apply Z.mul_nonneg_nonneg; lia).
  assert (0 <= slab_region_size) by (rewrite HS; apply Z.mul_nonneg_nonneg; lia).
  rewrite (proj2 (Z.eqb_neq _ _)); [done|lia].
Qed.

Definition same_slabs h h1 : Prop :=
  size_class_metadata h1 = size_class_metadata h /\ slab_region_start h1 = slab_region_start h.

(** Only the arena of the thread may differ. *)
Definition same_but_arena rest h m w (s' : allocator R * world) : Prop :=
  snd s' = w /\ heap_ok rest (fst s') m w /\ same_slabs h (fst s').

Lemma wp_init_initialized `{!Platform} atfork rest h m w (E : halt -> Prop) :
  heap_ok rest h m w ->
  wp (init atfork) (fun ar s' => 0 <= ar < N_ARENA /\ same_but_arena rest h m w s') E (h, w).
Proof.
  intros Hh. pose proof (heap_ok_init _ _ _ _ Hh) as Hi. destruct (ho_arena _ _ _ _ Hh) as (Ha & Hc & H1).
  destruct region_sizes as (_ & _ & _ & _ & _ & HN). unfold init. apply wp_bind, wp_gets. cbn [fst].
  rewrite Hi. cbn [negb]. rewrite Z.gtb_ltb. destruct (Z.ltb_spec 1 N_ARENA) as [Hmany|Hone]; cbn [andb].
  - destruct (Z.ltb_spec (thread_arena h) N_ARENA) as [Hlt|Hge].
    { apply wp_ret. split; [lia|]. by split. }
    assert (HN0 : 0 < N_ARENA) by lia. pose proof (Z.mod_pos_bound (thread_arena_counter h) _ HN0) as Hmod.
    unfold modify_allocator. repeat wp_step. cbn [fst snd]. split; [done|]. split; [done|]. split; [|done].
    assert (Hn : fits 32 (u32 (thread_arena_counter h + 1))) by (by apply wrap_fits).
    apply heap_ok_arena; [done|apply Hmod|apply Hn|intros HN1; lia].
  - repeat wp_step. split; [lia|]. by split.
Qed.

Lemma clean_classes h h1 w : size_class_metadata h1 = size_class_metadata h -> clean h w -> clean h1 w.
Proof. intros E Hcl ar cl i s c []. apply (Hcl ar cl). split; congruence. Qed.

Lemma halts_same h h1 w e :
  same_slabs h h1 -> allocation_halts h1 w e -> allocation_halts h w e.
Proof.
  intros [E _] [He|(He & Hzf & Hc)]; [by left|right]. split; [done|]. split; [done|]. intros Hcl. by apply Hc, (clean_classes h).
Qed.

Lemma placed_for_same h h1 size p : same_slabs h h1 -> placed_for h1 size p <-> placed_for h size p.
Proof. intros [_ E]. unfold placed_for, slab_range. by rewrite E. Qed.

Lemma kept_same rest X h h1 m w h' m' w' :
  same_slabs h h1 -> kept_except rest X h1 m w h' m' w' -> kept_except rest X h m w h' m' w'.
Proof.
  intros [E Es] [Hb Hc Hr Hz Hg Hs]. assert (Hiff : forall q k, block_at h1 m q k <-> block_at h m q k) by (intros; by apply block_at_same).
  split; [intros q k Hq; by rewrite Hb, Hiff|intros q k a Hq; apply Hc; by apply Hiff|done| | |congruence].
  - intros Hzf Hcl. apply Hz; [done|]. by eapply clean_classes.
  - intros Hgd. apply Hg. intros ar cl c Har Hcl Hc0. apply (Hgd ar cl); [done|done|congruence].
Qed.

Lemma fresh_same p n h h1 m mm h' m' mm' :
  same_slabs h h1 -> fresh_at p n h1 m mm h' m' mm' -> fresh_at p n h m mm h' m' mm'.
Proof.
  intros [E Es] []. assert (Hiff : forall q k, block_at h1 m q k <-> block_at h m q k) by (intros; by apply block_at_same).
  split; try done.
  - intros k Hk. apply (fa_new0 k). by apply Hiff.
  - destruct fa_bytes0 as [[Hs0 (ar & cl & i & s & c & [] & Hp)]|Hz0]; [left|by right]. split; [done|].
    exists ar, cl, i, s, c. split; [|done]. split; congruence.
Qed.

Lemma allocated_same rest h h1 m w P p s' :
  same_slabs h h1 -> allocated rest h1 m w P p s' -> allocated rest h m w P p s'.
Proof.
  intros E (m' & Hh & Hk & Hres). exists m'. split; [done|]. split; [by eapply kept_same|].
  destruct Hres as [?|(n & Hn & Hf)]; [by left|right]. exists n. split; [done|]. by eapply fresh_same.
Qed.

Lemma wp_init_then `{!Platform} {A} atfork rest h m w (k : Z -> AM (R := R) A) (Q : A -> allocator R * world -> Prop) E :
  heap_ok rest h m w ->
  (forall ar h1, 0 <= ar < N_ARENA -> heap_ok rest h1 m w -> same_slabs h h1 -> wp (k ar) Q E (h1, w)) ->
  wp (let* ar := init atfork in k ar) Q E (h, w).
Proof.
  intros Hh Hk. apply wp_bind. eapply wp_conseq; [by apply wp_init_initialized|].
  intros ar [h1 w1] (Har & Hw & Hh1 & E1). cbn [fst snd] in *. subst w1. by apply Hk.
Qed.
End Alloc.
