(* ===== verification/AllocatorFree.v ===== *)
(** Deallocation on the whole allocator: exactly the allocations are accepted,
    and freeing one keeps all others. *)

From S2P Require Import Prelude Config Util SizeClass Kernel Maps Pages RandomSource SlabMeta Slab SlabLists SlabHeap SlabInv SlabRegion SlabAlloc SlabQuarantine SlabFree SlabCanary SlabMaps Regions RegionTable RegionMap Large LargeInv LargeAlloc LargeFree Allocator AllocatorInv AllocatorAlloc.

Section Free.
Context {Cfg : Config} {Cok : ConfigOk Cfg} {K : Kernel} {Kok : KernelOk K} {R : Type}.
Context `{!RandomSource R} `{!RandomSourceOk R}.
Implicit Types (h : allocator R) (m : gmap Z (Z * Z)) (w : world) (rest : Z -> Prop).

(** The block at [p] is gone, and nothing else changed. *)
Definition freed rest h m w (p : Z) (s' : allocator R * world) : Prop :=
  exists m', heap_ok rest (fst s') m' (snd s') /\ kept_but rest p h m w (fst s') m' (snd s') /\
    forall k, ~ block_at (fst s') m' p k.

(** The size class that serves an address of the slab region. *)
Definition class_of h (p : Z) : slab_size_class_info := slab_size_class (slab_region_start h) p.
Definition class_at h (p : Z) : option (size_class R) :=
  size_class_metadata h !! (arena (class_of h p), ssc_class (class_of h p)).

(** The message with which a deallocation must abort, if any. *)
Definition slot_error h w (p : Z) (expected : option Z) : option string :=
  match class_at h p with
  | Some c => free_verdict (ssc_class (class_of h p)) c w p expected
  | None => None
  end.

(** ** Slots *)

(** Every address of the slab region belongs to an arena and a size class. *)
Lemma class_of_range rest h m w p :
  heap_ok rest h m w -> slab_range h p ->
  0 <= arena (class_of h p) < N_ARENA /\ 0 <= ssc_class (class_of h p) < N_SIZE_CLASSES /\ fits 64 p.
Proof.
  intros Hh Hp. destruct (ho_placed _ _ _ _ Hh) as [Hs _ Hend _], region_sizes as (Hc & HR & HA & HS & HN & HNA).
  unfold slab_range, class_of, slab_size_class in *. set (off := p - slab_region_start h) in *.
  assert (HR0 : 0 < REAL_CLASS_REGION_SIZE) by lia.
  assert (HA0 : 0 < ARENA_SIZE) by (rewrite HA; apply Z.mul_pos_pos; lia).
  assert (Hoff : 0 <= off < ARENA_SIZE * N_ARENA) by lia.
  rewrite (wrap_small 64 off) by (split; lia).
  assert (Hclass : forall x, 0 <= x < ARENA_SIZE -> 0 <= x / REAL_CLASS_REGION_SIZE < N_SIZE_CLASSES).
  { intros x Hx. split; [apply Z.div_pos; lia|]. apply Z.div_lt_upper_bound; lia. }
  split; [|split; [|split; lia]]; rewrite Z.gtb_ltb; destruct (Z.ltb_spec 1 N_ARENA) as [Hm|Hm]; cbn [arena ssc_class]; try lia.
  - assert (Ha : 0 <= off / ARENA_SIZE < N_ARENA) by (split; [apply Z.div_pos; lia|apply Z.div_lt_upper_bound; lia]).
    rewrite wrap_small by (split; lia). done.
  - assert (Ha : 0 <= off / ARENA_SIZE < N_ARENA) by (split; [apply Z.div_pos; lia|apply Z.div_lt_upper_bound; lia]).
    rewrite (wrap_small 32) by (split; lia). assert (HA1 : ARENA_SIZE <> 0) by lia. pose proof (Z.div_mod off _ HA1) as Hdm.
    pose proof (Z.mod_pos_bound off ARENA_SIZE HA0) as Hmod.
    rewrite (wrap_small 64 (_ * _)) by (split; nia). rewrite wrap_small by (split; lia). apply Hclass. lia.
  - apply Hclass. replace N_ARENA with 1 in Hoff by lia. lia.
Qed.

Lemma class_at_ok rest h m w p :
  heap_ok rest h m w -> slab_range h p ->
  exists c, class_at h p = Some c /\ class_ok (slab_region_start h) (arena (class_of h p)) (ssc_class (class_of h p)) c.
Proof. intros Hh Hp. destruct (class_of_range _ _ _ _ _ Hh Hp) as (Ha & Hc & _). by apply (ho_class _ _ _ _ Hh). Qed.

(** A live slot is a block. *)
Lemma live_block h m ar cl c i s :
  size_class_metadata h !! (ar, cl) = Some c -> 0 <= ar < N_ARENA -> 0 <= cl < N_SIZE_CLASSES -> 0 <= s ->
  live c i s = true -> block_at h m (slot_address c i s) (slot_usable cl).
Proof. intros. left. by exists ar, cl, i, s, c. Qed.

Lemma wp_deallocate_slot rest h m w p expected :
  heap_ok rest h m w -> slab_range h p ->
  wp (deallocate_slot p expected)
     (fun _ s' => slot_error h w p expected = None /\
        exists n, block_at h m p n /\ freed rest h m w p s' /\ (ZERO_ON_FREE = true -> zero_in p n (mem (snd s'))))
     (verdict_halts (slot_error h w p expected)) (h, w).
Proof.
  intros Hh Hp. destruct (class_of_range _ _ _ _ _ Hh Hp) as (Har & Hcl & Hp64).
  destruct (class_at_ok _ _ _ _ _ Hh Hp) as (c & Hc & Hok). pose proof Hok as [(P & E & F & Hinv) Hplaced].
  unfold slot_error. rewrite Hc. unfold deallocate_slot. apply wp_bind, wp_gets. cbn [fst]. fold (class_of h p).
  set (ar := arena (class_of h p)) in *. set (cl := ssc_class (class_of h p)) in *.
  eapply wp_with_class; [exact Hc|].
  eapply wp_conseq; [apply wp_keeps; [apply _|]; apply (wp_keeps_canary None); [apply _|];
    by apply (wp_deallocate_small cl c w P E F p expected)|].
  intros _ [c' w'] [[[Hv (i & s & -> & Hs & Hl & Hst & Hinv' & Hlive & _ & (Hmem & Hout & Hsz) & Hz)] Hframe] Hgrow]. cbn [fst snd] in *.
  split; [done|]. exists (slot_usable cl). split; [by eapply live_block; [exact Hc|..|apply Hs|]|].
  pose proof (proj2 Hinv) as Hb. pose proof (cb_geometry _ _ _ _ _ _ Hb) as Hg.
  pose proof Hl as Hl'. unfold live in Hl'. apply andb_true_iff in Hl' as [Hu _].
  destruct (used_known cl c P E F None i s Hb (proj1 Hs) Hu) as [Hi _].
  pose proof (known_max cl c P E F None i Hb Hi) as Himax.
  assert (Hok' : class_ok (slab_region_start h) ar cl c') by (eapply class_ok_static; [exact Hok|exact Hst|exact Hinv']).
  assert (Hh' : heap_ok rest (set_class ar cl c' h) m w') by (by eapply heap_ok_set_class).
  assert (Hsame : forall j t, 0 <= t -> (j, t) <> (i, s) -> live c' j t = live c j t).
  { intros j t Ht Hne. rewrite Hlive by done.
    destruct (Z.eqb_spec i j) as [->|]; [|apply andb_true_r]. destruct (Z.eqb_spec s t) as [->|]; [by destruct Hne|apply andb_true_r]. }
  assert (Hzero : ZERO_ON_FREE = true -> zero_in (slot_address c i s) (slot_usable cl) (mem w')).
  { intros Hzf a Ha. unfold slot_usable in Ha. destruct (Z.eqb_spec (size_classes_at cl) 0) as [|Hnz]; [lia|].
    apply Hz; [done| |].
    - intros E0. rewrite E0 in Hnz. by apply Hnz.
    - destruct Hg as [_ Hsize _ _ _ _ _ _ _]. rewrite Hsize. unfold slot_size. rewrite (proj2 (Z.eqb_neq _ _) Hnz). done. }
  split; [|done]. exists m. cbn [fst snd]. split; [done|]. split; [split; [..|done]|].
  - intros q n Hq. apply (set_class_blocks h m ar cl c c'); try done. intros j t Ht Hqa. apply Hsame; [done|].
    by intros [= -> ->].
  - intros q n a Hq Hqp Ha.
      destruct (block_elsewhere _ _ _ _ _ _ _ _ _ a Hh Hc Hok Hq Ha) as [(j & t & Ht & Hj & Hlj & -> & Hin)|Hn]; [|apply Hout; lia].
      apply (Hmem j t a); [lia| |done]. rewrite Hsame; [done|lia|]. by intros [= -> ->].
  - intros a Ha. apply Hout. pose proof (rest_elsewhere _ _ _ _ _ _ _ a Hh Hok Ha). lia.
  - intros Hzf Hclean. eapply (clean_set_class rest h m w w'); try done. intros j t a Hj Ht Hlj Ha.
    destruct (decide ((j, t) = (i, s))) as [[= -> ->]|Hne]; [left; by apply Hzero|].
    rewrite Hsame in Hlj by (lia || done).
    assert (Hold : (mem w).[a] = 0) by (eapply (Hclean ar cl j t c); [by split|done]).
    left. destruct (Hsz a) as [->|]; done.
  - intros Hgd. apply (guarded_set_class rest h m w w' ar cl c c'); try done.
    eapply (slots_guarded_keep cl c c' w w' None); try done; [|by apply (Hgd ar cl c)].
    intros j t _ Ht Hlj. right. split; [|by intros a Ha; apply (Hmem j t a)].
    rewrite Hlive in Hlj by done. by apply andb_true_iff in Hlj as [? _].
  - intros k Hk. assert (Hc' : size_class_metadata (set_class ar cl c' h) !! (ar, cl) = Some c')
        by (cbn; by rewrite lookup_insert_eq).
      assert (Ea : slot_address c' i s = slot_address c i s).
      { unfold slot_address. by rewrite (se_start _ _ Hst), (se_slab_size _ _ Hst), (se_size _ _ Hst). }
      rewrite <- Ea in Hk. rewrite <- (se_slab_size _ _ Hst) in Himax. rewrite <- (se_slots _ _ Hst) in Hs.
      destruct (slot_block _ _ _ _ _ _ _ _ _ _ Hh' Hc' Hok' Himax Hs Hk) as [Hl1 _].
      rewrite Hlive, !Z.eqb_refl, andb_false_r in Hl1 by lia. done.
Qed.

(** ** Large allocations *)

Lemma wp_deallocate_region rest h m w p expected :
  heap_ok rest h m w -> ~ slab_range h p ->
  wp (deallocate_region p expected)
     (fun _ s' => large_verdict (slab_region_end h) m p expected = None /\
        exists n, block_at h m p n /\ freed rest h m w p s')
     (verdict_halts (large_verdict (slab_region_end h) m p expected)) (h, w).
Proof.
  intros Hh Hp. unfold deallocate_region, get_slab_region_end, enforce_init. apply wp_bind, wp_gets. cbn [fst].
  rewrite (heap_ok_init _ _ _ _ Hh). cbn [negb]. apply wp_bind, wp_ret.
  destruct (ho_large _ _ _ _ Hh) as (ra & Hra & Hinv). eapply wp_with_regions; [exact Hra|].
  eapply wp_conseq; [by apply wp_deallocate_large|].
  intros _ [ra' w'] (Hv & n & g & Hm & Hi & Hk & _). cbn [fst snd] in *. split; [done|]. exists n.
  split; [right; by exists g|]. exists (delete p m). cbn [fst snd].
  split; [by eapply heap_ok_set_regions|]. split.
  - eapply kept_large; [done|exact Hk|..]; intros q Hq; by rewrite lookup_delete_ne.
  - intros k [(ar & cl & i & s & c & [Ha Hc Hl Hs Hlv Hpa Hn])|[g' Hg]]; [|by rewrite lookup_delete_eq in Hg].
    apply Hp. assert (Hsm : small_at h p k ar cl i s c) by (by split).
    destruct (small_place _ _ _ _ _ _ _ _ _ _ _ Hh Hsm) as (_ & Hg & _).
    apply (small_region _ _ _ _ _ _ _ _ _ _ _ Hh Hsm). destruct (slab_geometry_facts cl c Hg). lia.
Qed.

(** ** Any pointer *)

Lemma slab_range_dec h p : {slab_range h p} + {~ slab_range h p}.
Proof. unfold slab_range. apply decide, _. Defined.

(** The message with which a deallocation of a pointer other than NULL must abort. *)
Definition free_error h m w (p : Z) (small_expected large_expected : option Z) : option string :=
  if slab_range_dec h p then slot_error h w p small_expected
  else large_verdict (slab_region_end h) m p large_expected.

(** Small allocations with a canary still have it. *)
Definition canaries_intact h w (p : Z) : Prop :=
  forall n ar cl i s c, small_at h p n ar cl i s c -> cl = 0 \/ canary_intact c w i p = true.

Lemma guarded_canaries h w p : guarded h w -> canaries_intact h w p.
Proof.
  intros Hg n ar cl i s c [Har Hcl Hc Hs Hl -> _]. destruct (decide (cl = 0)) as [|Hne]; [by left|right].
  apply guarded_intact. by apply (Hg ar cl c Har Hcl Hc).
Qed.

(** Without an expected size, exactly the blocks are accepted. *)
Lemma free_error_spec rest h m w p :
  heap_ok rest h m w -> free_error h m w p None None = None <-> (exists n, block_at h m p n) /\ canaries_intact h w p.
Proof.
  intros Hh. unfold free_error. destruct (slab_range_dec h p) as [Hp|Hp].
  - destruct (class_of_range _ _ _ _ _ Hh Hp) as (Har & Hcl & Hp64).
    destruct (class_at_ok _ _ _ _ _ Hh Hp) as (c & Hc & Hok). pose proof Hok as [(P & E & F & Hinv) _].
    unfold slot_error. rewrite Hc. rewrite (free_verdict_spec _ c w P E F p Hinv Hp64).
    pose proof (cb_geometry _ _ _ _ _ _ (proj2 Hinv)) as Hg. split.
    + intros (i & s & -> & Hs & Hl & Hcan). split; [eexists; by eapply live_block; [exact Hc|..|apply Hs|]|].
      intros n ar cl j t d Hsm. destruct (small_region _ _ _ _ _ _ _ _ _ _ _ Hh Hsm) as [Er _].
      destruct (small_place _ _ _ _ _ _ _ _ _ _ _ Hh Hsm) as (_ & _ & _ & Ht & _).
      destruct Hsm as [_ _ Hd _ _ Ha _]. unfold class_at, class_of in *. rewrite Er in *. cbn [arena ssc_class] in *.
      rewrite Hc in Hd. injection Hd as <-. by destruct (slot_address_inj cl c Hg i s j t Hs Ht Ha) as [-> ->].
    + intros [[n [(ar & cl & j & t & d & Hsm)|[g Hm]]] Hcan].
      * specialize (Hcan _ _ _ _ _ _ Hsm). destruct (small_region _ _ _ _ _ _ _ _ _ _ _ Hh Hsm) as [Er _].
        destruct (small_place _ _ _ _ _ _ _ _ _ _ _ Hh Hsm) as (_ & _ & _ & Ht & _).
        destruct Hsm as [_ _ Hd _ Hl Ha _]. unfold class_at, class_of in *. rewrite Er in *. cbn [arena ssc_class] in *.
        rewrite Hc in Hd. injection Hd as <-. by exists j, t.
      * exfalso. destruct (ho_large _ _ _ _ Hh) as (ra & _ & _ & Hlb).
        destruct (lb_held _ _ _ _ _ _ Hlb p n g Hm) as [[? ? ? [? ?] ? ?] _].
        apply (large_range _ _ _ _ _ _ _ p Hh Hm); [lia|by right].
  - unfold large_verdict, table_verdict. rewrite (heap_ok_init _ _ _ _ Hh). cbn [negb].
    assert (Hno : forall n ar cl i s c, ~ small_at h p n ar cl i s c).
    { intros n ar cl i s c Hsm. apply Hp. destruct (small_place _ _ _ _ _ _ _ _ _ _ _ Hh Hsm) as (_ & Hg & _).
      apply (small_region _ _ _ _ _ _ _ _ _ _ _ Hh Hsm). destruct (slab_geometry_facts cl c Hg). lia. }
    destruct (m !! p) as [[n g]|] eqn:Hm; split; try done.
    + intros _. split; [exists n; right; by exists g|]. intros ? ? ? ? ? ? Hsm. by apply Hno in Hsm.
    + intros [[n [(ar & cl & i & s & c & Hsm)|[g Hg]]] _]; [by apply Hno in Hsm|congruence].
Qed.
End Free.
