(* ===== verification/Requests.v ===== *)
(** Requests and the blocks that serve them: the adjustments for the canary, the
    bytes a reallocation copies, and the sizes of the blocks. *)

From S2P Require Import Prelude Config Util SizeClass Kernel Maps Pages RandomSource SlabMeta Slab SlabInv SlabRegion SlabAlloc SlabQuarantine SlabFree SlabCanary Regions Large LargeInv LargeAlloc LargeFree LargeRealloc Allocator Malloc AllocatorInv AllocatorAlloc AllocatorFree.

(** A size after the adjustments of [h_realloc], for a request of [req] bytes. *)
Record sized_request `{Config} (req size : Z) : Prop := {
  sr_fits : fits 64 size;
  sr_class : size <= max_slab_size_class \/ large_class size;
  sr_floor : size = 0 \/ canary_size <= size;
  sr_req : req <= copied size size;
  sr_le : req <= size;
  sr_granted : forall n, granted size n -> copied size size <= n /\ req <= n
}.

Section Requests.
Context {Cfg : Config} {Cok : ConfigOk Cfg} {K : Kernel} {Kok : KernelOk K} {R : Type}.
Context `{!RandomSource R} `{!RandomSourceOk R}.
Implicit Types (h : allocator R) (m : gmap Z (Z * Z)) (w : world) (rest : Z -> Prop).

(** ** The adjustment for the canary *)

Lemma adjust_fits size : fits 64 size -> fits 64 (adjust_size_for_canary size).
Proof. intros Hs. unfold adjust_size_for_canary. destruct (_ && _); [by apply wrap_fits|done]. Qed.

Lemma adjust_ge size : fits 64 size -> size <= adjust_size_for_canary size.
Proof.
  intros [H0 H1]. unfold adjust_size_for_canary. pose proof max_slab_size_class_bounds. pose proof canary_size_bounds.
  destruct (Z.ltb_spec 0 size), (Z.leb_spec size max_slab_size_class); cbn [andb]; try lia.
  rewrite wrap_small by (split; lia). lia.
Qed.

(** The adjusted size of a small request, without the canary. *)
Lemma adjust_small req :
  fits 64 req -> adjust_size_for_canary req <> 0 -> adjust_size_for_canary req <= max_slab_size_class ->
  0 < req /\ u64 (adjust_size_for_canary req - canary_size) = req.
Proof.
  intros [H0 H1] Hnz Hle. unfold adjust_size_for_canary in *. pose proof max_slab_size_class_bounds.
  pose proof canary_size_bounds. destruct (Z.ltb_spec 0 req), (Z.leb_spec req max_slab_size_class); cbn [andb] in *; try lia.
  rewrite (wrap_small 64 (req + canary_size)) by (split; lia). split; [done|].
  replace (req + canary_size - canary_size) with req by lia. by apply wrap_small.
Qed.

(** ** The size of a block *)

Lemma outside_large rest h m w p n : heap_ok rest h m w -> ~ slab_range h p -> block_at h m p n -> exists g, m !! p = Some (n, g).
Proof.
  intros Hh Hp [(ar & cl & i & s & c & Hsm)|Hm]; [|done]. exfalso. apply Hp.
  destruct (small_place _ _ _ _ _ _ _ _ _ _ _ Hh Hsm) as (_ & Hg & _).
  apply (small_region _ _ _ _ _ _ _ _ _ _ _ Hh Hsm). destruct (slab_geometry_facts cl c Hg). lia.
Qed.

(** The size class of a block in the slab region. *)
Lemma slot_sized rest h m w p n c :
  heap_ok rest h m w -> slab_range h p -> class_at h p = Some c -> block_at h m p n ->
  n = slot_usable (ssc_class (class_of h p)) /\
  (if ssc_class (class_of h p) =? 0 then 0 else size c) = size_classes_at (ssc_class (class_of h p)).
Proof.
  intros Hh Hp Hc Hb. destruct (class_of_range _ _ _ _ _ Hh Hp) as (Har & Hcl & _).
  pose proof (class_ok_at _ _ _ _ _ _ _ Hh Har Hcl Hc) as [(P & E & F & _ & Hbody) _].
  split.
  - destruct Hb as [(ar & cl & i & s & d & Hsm)|[g Hm]].
    + destruct (small_region _ _ _ _ _ _ _ _ _ _ _ Hh Hsm) as [Er _]. unfold class_of. rewrite Er. cbn. apply Hsm.
    + exfalso. destruct (ho_large _ _ _ _ Hh) as (ra & _ & _ & Hlb).
      destruct (lb_held _ _ _ _ _ _ Hlb p n g Hm) as [[? ? ? [? ?] ? ?] _].
      apply (large_range _ _ _ _ _ _ _ p Hh Hm); [lia|by right].
  - rewrite (cg_size _ _ (cb_geometry _ _ _ _ _ _ Hbody)). unfold slot_size.
    destruct (Z.eqb_spec (ssc_class (class_of h p)) 0) as [->|Hne]; [by rewrite (size_classes_at_tiny 0)|].
    set (cl := ssc_class (class_of h p)) in *. assert (H0 : 0 <= 0 < cl) by lia.
    pose proof (size_classes_at_mono 0 cl H0 (proj2 Hcl)) as Hm. rewrite (size_classes_at_tiny 0) in Hm by lia.
    destruct (Z.eqb_spec (size_classes_at cl) 0); lia.
Qed.

(** The bytes that realloc copies out of the block at [p], of which
    malloc_usable_size reports [n] bytes, when it moves to a block at least as
    large. For a slot these are the [n] bytes in front of its canary. A large block
    has no canary, but [copied] takes one off all the same when its size is that
    of a small class: then the last [canary_size] bytes are left behind. *)
Definition realloc_keeps h (p n : Z) : Z := if slab_range_dec h p then n else copied n n.

(** ** Sizes *)

Lemma copied_min a b :
  fits 64 a -> fits 64 b -> a = 0 \/ canary_size <= a -> b = 0 \/ canary_size <= b ->
  copied a b = Z.min (copied a a) (copied b b) /\ 0 <= copied a b <= Z.min a b.
Proof.
  intros [Ha0 Ha1] [Hb0 Hb1] Ha Hb. pose proof canary_size_bounds as Hc. pose proof max_slab_size_class_bounds as Hm.
  assert (E : forall x, fits 64 x -> x = 0 \/ canary_size <= x ->
    (if (x >? 0) && (x <=? max_slab_size_class) then u64 (x - canary_size) else x) =
    (if decide (0 < x <= max_slab_size_class) then x - canary_size else x)).
  { intros x [H0 H1] Hx. rewrite Z.gtb_ltb. destruct (Z.ltb_spec 0 x), (Z.leb_spec x max_slab_size_class); cbn [andb];
      case_decide; try lia; [apply wrap_small; split; lia|done..]. }
  unfold copied. rewrite !min_spec. cbv zeta. rewrite !Z.min_id. rewrite (E a), (E b), (E (Z.min a b)) by (split || lia; lia).
  repeat case_decide; lia.
Qed.

Lemma granted_large size n : large_class size -> max_slab_size_class < size -> granted size n -> n = size.
Proof.
  intros Hl Hmax. unfold granted. rewrite (proj2 (Z.leb_gt _ _)) by done. intros [-> _].
  by apply large_class_pages.
Qed.

Lemma sized_small req : fits 64 req -> adjust_size_for_canary req <= max_slab_size_class ->
  sized_request req (adjust_size_for_canary req).
Proof.
  intros Hreq Hle. pose proof (adjust_fits req Hreq) as Hfit. pose proof canary_size_bounds as Hc.
  pose proof max_slab_size_class_bounds as Hm. destruct (decide (adjust_size_for_canary req = 0)) as [E|Hnz].
  - assert (E0 : req = 0).
    { revert E. unfold adjust_size_for_canary. destruct Hreq, (Z.ltb_spec 0 req), (Z.leb_spec req max_slab_size_class);
        cbn [andb]; try lia. rewrite wrap_small by (split; lia). lia. }
    rewrite E. subst req. split; [done|left; lia|by left|by vm_compute|lia|].
    intros n Hn. assert (0 <= n); [|by split]. apply (granted_request 0 n); [done|by rewrite E].
  - destruct (adjust_small req Hreq Hnz Hle) as [Hpos E].
    assert (Ha : adjust_size_for_canary req = req + canary_size).
    { unfold adjust_size_for_canary in *. destruct Hreq, (Z.ltb_spec 0 req), (Z.leb_spec req max_slab_size_class);
        cbn [andb] in *; try lia. rewrite wrap_small by (split; lia). lia. }
    assert (Hcop : copied (adjust_size_for_canary req) (adjust_size_for_canary req) = req).
    { unfold copied. rewrite min_spec, Z.min_id. rewrite Z.gtb_ltb, (proj2 (Z.ltb_lt _ _)), (proj2 (Z.leb_le _ _)) by lia. done. }
    rewrite <- Hcop at 1. split; [done|by left|right; lia|lia|lia|]. intros n Hn. rewrite Hcop.
    pose proof (granted_request req n Hreq Hn). lia.
Qed.

Lemma sized_large req : fits 64 req -> max_slab_size_class < adjust_size_for_canary req ->
  get_large_size_class (adjust_size_for_canary req) <> 0 ->
  sized_request req (get_large_size_class (adjust_size_for_canary req)).
Proof.
  intros Hreq Hlt Hnz. pose proof (adjust_fits req Hreq) as Hfit. pose proof canary_size_bounds as Hc.
  pose proof max_slab_size_class_bounds as Hm. set (size := adjust_size_for_canary req) in *.
  destruct (large_class_holds size Hfit) as [|[Hge _]]; [done|].
  assert (Hcl : large_class (get_large_size_class size)) by (by exists size).
  assert (Hmax : max_slab_size_class < get_large_size_class size) by lia.
  destruct (large_class_pages _ Hcl Hmax) as (Hf & _ & _).
  pose proof (adjust_ge req Hreq) as Hreq'. fold size in Hreq'.
  assert (Hcop : copied (get_large_size_class size) (get_large_size_class size) = get_large_size_class size).
  { unfold copied. rewrite min_spec, Z.min_id, (proj2 (Z.leb_gt _ _)) by done. by rewrite andb_false_r. }
  split; [done|by right|right; lia|lia|lia|]. intros n Hn.
  rewrite Hcop, (granted_large _ n Hcl Hmax Hn). lia.
Qed.

(** A large size class is 0 or at least a page. *)
Lemma large_class_floor n : large_class n -> n = 0 \/ 4096 <= n.
Proof.
  intros (x & [H0 H1] & ->). destruct (Z.leb_spec x 16384) as [Hle|Hgt].
  - unfold get_large_size_class. destruct CONFIG_LARGE_SIZE_CLASSES.
    + right. rewrite max_spec, PAGE_SIZE_eq. pose proof max_slab_size_class_bounds as Hmax.
      assert (Hsz : 0 < Z.max x 4096 <= max_slab_size_class) by lia.
      destruct (get_size_info_class _ Hsz) as (_ & _ & _ & Hge). lia.
    + destruct (page_align_spec x) as (? & [a Ha] & _); rewrite PAGE_SIZE_eq in *; lia.
  - destruct (large_class_holds x) as [|[? _]]; [by split|by left|right; lia].
Qed.

(** The part of the old block that [copied] reaches. *)
Record copied_from h (old n old_size : Z) : Prop := {
  cf_fits : fits 64 old_size;
  cf_floor : old_size = 0 \/ canary_size <= old_size;
  cf_keeps : copied old_size old_size = realloc_keeps h old n;
  cf_le : copied old_size old_size <= n
}.

Lemma copied_from_slot rest h m w old n :
  heap_ok rest h m w -> block_at h m old n -> slab_range h old ->
  copied_from h old n (slab_usable_size (slab_region_start h) old) /\
  (forall size, 0 <= size <= max_slab_size_class ->
     si_size (get_size_info size) = slab_usable_size (slab_region_start h) old -> granted size n).
Proof.
  intros Hh Hb Hp. destruct (class_at_ok _ _ _ _ _ Hh Hp) as (c & Hc & _).
  destruct (slot_sized _ _ _ _ _ _ _ Hh Hp Hc Hb) as [Hn _]. destruct (class_of_range _ _ _ _ _ Hh Hp) as (_ & Hcl & _).
  unfold slab_usable_size. fold (class_of h old). set (cl := ssc_class (class_of h old)) in *.
  pose proof canary_size_bounds as Hcan. pose proof max_slab_size_class_bounds as Hmax.
  assert (Hsz : size_classes_at cl = 0 \/ 16 <= size_classes_at cl <= max_slab_size_class).
  { destruct (slab_geometry_spec cl Hcl) as (_ & _ & H16 & _). unfold slot_size in *. destruct (Z.eqb_spec (size_classes_at cl) 0); lia. }
  assert (Hcop : copied (size_classes_at cl) (size_classes_at cl) = n).
  { unfold copied. rewrite min_spec, Z.min_id, Z.gtb_ltb. subst n. unfold slot_usable.
    destruct Hsz as [->|Hsz]; [done|]. rewrite (proj2 (Z.ltb_lt _ _)), (proj2 (Z.leb_le _ _)), (proj2 (Z.eqb_neq _ _)) by lia.
    apply wrap_small. split; lia. }
  split.
  - split; [split; lia|lia| |lia]. unfold realloc_keeps. by destruct (slab_range_dec h old).
  - intros size Hsize E. unfold granted. rewrite (proj2 (Z.leb_le _ _)) by lia. subst n.
    unfold slot_usable. destruct (decide (size = 0)) as [->|Hne].
    + rewrite <- E. done.
    + destruct (get_size_info_class size) as (_ & -> & _); [lia|]. by rewrite E.
Qed.

Lemma copied_from_large rest h m w old n :
  heap_ok rest h m w -> block_at h m old n -> ~ slab_range h old -> copied_from h old n n.
Proof.
  intros Hh Hb Hp. destruct (outside_large _ _ _ _ _ _ Hh Hp Hb) as [g Hm].
  destruct (ho_large _ _ _ _ Hh) as (ra & _ & _ & Hlb). destruct (lb_held _ _ _ _ _ _ Hlb old n g Hm) as [[] [_ Hcl]].
  pose proof canary_size_bounds. destruct (large_class_floor n Hcl) as [E|Hge]; [lia|].
  assert (Hfit : fits 64 n) by (split; lia). assert (Hfl : n = 0 \/ canary_size <= n) by lia.
  split; [done|done| |destruct (copied_min n n Hfit Hfit Hfl Hfl); lia].
  unfold realloc_keeps. by destruct (slab_range_dec h old).
Qed.

(** The bytes that the program asked for survive a reallocation. *)
Lemma granted_keeps h p req n :
  fits 64 req -> granted (adjust_size_for_canary req) n ->
  (adjust_size_for_canary req <= max_slab_size_class -> slab_range h p) -> req <= realloc_keeps h p n.
Proof.
  intros Hreq Hn Hp. pose proof (granted_request req n Hreq Hn) as Hle. unfold realloc_keeps.
  destruct (slab_range_dec h p) as [|Hout]; [done|]. unfold granted in *.
  destruct (Z.leb_spec (adjust_size_for_canary req) max_slab_size_class) as [|Hmax]; [by destruct Hout; apply Hp|].
  destruct Hn as [Hn Hge]. unfold copied. rewrite min_spec, Z.min_id, (proj2 (Z.leb_gt n _)) by lia. by rewrite andb_false_r.
Qed.

Lemma placed_slab h size p : placed_for h size p -> size <= max_slab_size_class -> slab_range h p.
Proof. intros Hp Hle. unfold placed_for in Hp. rewrite (proj2 (Z.leb_le _ _) Hle) in Hp. apply Hp. Qed.

Lemma large_keeps h p req n :
  fits 64 req -> large_class n -> fits 64 n -> adjust_size_for_canary req <= n -> req <= realloc_keeps h p n.
Proof.
  intros Hreq Hcl Hn Hle. pose proof (adjust_ge req Hreq) as Hge. unfold realloc_keeps. destruct (slab_range_dec h p) as [|_]; [lia|].
  set (size := adjust_size_for_canary req) in *. destruct (Z.le_gt_cases n max_slab_size_class) as [Hmax|Hmax].
  - assert (Hsr : sized_request req size) by (apply sized_small; [done|fold size; lia]). pose proof canary_size_bounds.
    assert (Hfl : n = 0 \/ canary_size <= n) by (destruct (large_class_floor n Hcl); lia).
    destruct (copied_min size n (sr_fits _ _ Hsr) Hn (sr_floor _ _ Hsr) Hfl) as [E _].
    assert (E' : copied size n = copied size size) by (unfold copied; by rewrite !min_spec, Z.min_id, Z.min_l by lia).
    pose proof (sr_req _ _ Hsr). lia.
  - unfold copied. rewrite min_spec, Z.min_id, (proj2 (Z.leb_gt n _)) by lia. rewrite andb_false_r. lia.
Qed.

Lemma sized_keeps h p req size n :
  sized_request req size -> granted size n -> (size <= max_slab_size_class -> slab_range h p) -> req <= realloc_keeps h p n.
Proof.
  intros Hsr Hn Hp. destruct (sr_granted _ _ Hsr n Hn) as [_ Hle]. unfold realloc_keeps.
  destruct (slab_range_dec h p) as [|Hout]; [done|]. destruct (Z.le_gt_cases size max_slab_size_class) as [|Hmax]; [by destruct Hout; apply Hp|].
  assert (Hcl : large_class size) by (destruct (sr_class _ _ Hsr); [lia|done]). rewrite (granted_large size n Hcl Hmax Hn). apply Hsr.
Qed.

Lemma sized_keeps_self h p req size : sized_request req size -> req <= realloc_keeps h p size.
Proof. intros Hsr. unfold realloc_keeps. destruct (slab_range_dec h p); apply Hsr. Qed.

Lemma block_keeps_le rest h m w p n : heap_ok rest h m w -> block_at h m p n -> realloc_keeps h p n <= n.
Proof.
  intros Hh Hb. destruct (slab_range_dec h p) as [Hp|Hp].
  - destruct (copied_from_slot _ _ _ _ _ _ Hh Hb Hp) as [Hcf _]. rewrite <- (cf_keeps _ _ _ _ Hcf). apply Hcf.
  - pose proof (copied_from_large _ _ _ _ _ _ Hh Hb Hp) as Hcf. rewrite <- (cf_keeps _ _ _ _ Hcf). apply Hcf.
Qed.

(** Where a byte of a block must be for realloc to copy it. *)
Lemma keeps_reaches rest h m w p n i :
  heap_ok rest h m w -> block_at h m p n -> i < n ->
  slab_range h p \/ max_slab_size_class < n \/ i < n - canary_size -> i < realloc_keeps h p n.
Proof.
  intros Hh Hb Hi Hor. unfold realloc_keeps. destruct (slab_range_dec h p) as [|Hp]; [done|].
  pose proof (copied_from_large _ _ _ _ _ _ Hh Hb Hp) as [[H0 H1] Hfl _ _]. unfold copied. rewrite min_spec, Z.min_id.
  destruct (_ && _) eqn:E; [|done]. apply andb_true_iff in E as [Hpos Hle%Z.leb_le]. rewrite Z.gtb_ltb in Hpos. apply Z.ltb_lt in Hpos.
  rewrite wrap_small by (pose proof canary_size_bounds; split; lia). destruct Hor as [|[|]]; [done|lia..].
Qed.

Lemma realloc_keeps_same h h' p n : slab_region_start h' = slab_region_start h -> realloc_keeps h' p n = realloc_keeps h p n.
Proof.
  intros E. assert (Hr : slab_range h' p <-> slab_range h p) by (unfold slab_range; by rewrite E).
  unfold realloc_keeps. destruct (slab_range_dec h' p), (slab_range_dec h p); (done || tauto).
Qed.
End Requests.
