(* ===== verification/InitSpec.v ===== *)
(** Initialisation: from the first call on, the allocator satisfies its invariant,
    owns only memory that the process did not have, and every slot is zero. *)

From S2P Require Import Prelude Config Util SizeClass Kernel Maps Pages RandomSource SlabMeta Slab SlabInv SlabRegion SlabAlloc SlabQuarantine SlabFree SlabCanary SlabMaps Regions RegionTable RegionMap Large LargeInv LargeAlloc LargeFree LargeRealloc LargeSpec Allocator AllocatorInv AllocatorAlloc.

Section Init.
Context {Cfg : Config} {Cok : ConfigOk Cfg} {K : Kernel} {Kok : KernelOk K} {R : Type}.
Context `{!RandomSource R} `{!RandomSourceOk R} `{!Platform}.
Implicit Types (h : allocator R) (m : gmap Z (Z * Z)) (w : world) (rest : Z -> Prop).

(** The aborts of [init_slow_path] itself. *)
Definition init_halts (e : halt) : Prop :=
  system_halts (R := R) e \/
  e ∈ [Fatal "failed to allocate init rng"; Fatal "failed to reserve allocator state";
       Fatal "failed to unprotect allocator state"; Fatal "failed to unprotect memory for regions table";
       Fatal "failed to allocate slab region"; Fatal "failed to protect allocator data"; Fatal "pthread_atfork failed"].

(** ** The size classes *)

Definition fresh_class (start ar cl : Z) (c : size_class R) : Prop :=
  class_inv cl c [] [] [] /\ class_placed start ar cl (class_region_start c) /\ slab_info c = ∅.

Definition fresh_classes (start : Z) (l : list (Z * Z)) (classes : gmap (Z * Z) (size_class R)) : Prop :=
  forall ar cl, (ar, cl) ∈ l -> exists c, classes !! (ar, cl) = Some c /\ fresh_class start ar cl c.

#[export] Instance keeps_init_classes start state l classes : KeepsMaps (init_classes (R := R) start state l classes).
Proof. revert classes. induction l as [|[ar cl] l IH]; intros classes; cbn [init_classes]; keeps. Qed.

Lemma wp_init_classes start state l : forall done_ classes r w,
  region_placed start -> random_inv r -> fresh_classes start done_ classes ->
  (forall ar cl, (ar, cl) ∈ l -> 0 <= ar < N_ARENA /\ 0 <= cl < N_SIZE_CLASSES) ->
  wp (init_classes start state l classes)
     (fun classes' s' => fresh_classes start (done_ ++ l) classes' /\ random_inv (fst s') /\ mem (snd s') = mem w)
     random_halts (r, w).
Proof.
  induction l as [|[ar cl] l IH]; intros done_ classes r w Hp Hr Hdone Hl; cbn [init_classes].
  { apply wp_ret. by rewrite app_nil_r. }
  destruct (Hl ar cl ltac:(apply list_elem_of_here)) as [Har Hcl].
  apply wp_bind. eapply wp_conseq; [by apply wp_init_size_class|].
  intros c [r1 w1] (Hi & Hplaced & Hinfo & Hr1 & Hw1). cbn [fst snd] in *.
  eapply wp_conseq; [apply (IH (done_ ++ [(ar, cl)]) _ r1 w1 Hp Hr1)|].
  - intros ar' cl' Hin. destruct (decide ((ar, cl) = (ar', cl'))) as [[= <- <-]|Hne].
    + exists c. rewrite lookup_insert_eq. by split.
    + rewrite lookup_insert_ne by done. apply Hdone. apply elem_of_app in Hin as [|[= <- <-]%list_elem_of_singleton]; done.
  - intros ar' cl' Hin. apply Hl. by apply list_elem_of_further.
  - intros classes' s'. rewrite <- app_assoc. cbn [app]. intros (? & ? & Hw). by rewrite Hw, Hw1.
Qed.

Lemma class_indices_all ar cl : (ar, cl) ∈ class_indices 0 <-> 0 <= ar < N_ARENA /\ 0 <= cl < N_SIZE_CLASSES.
Proof.
  unfold class_indices. rewrite list_elem_of_In, in_flat_map. split.
  - intros (a & Ha & Hin). apply in_map_iff in Hin as (c & [= <- <-] & Hc).
    apply list_elem_of_In, elem_of_seqZ in Ha. apply list_elem_of_In, elem_of_seqZ in Hc. lia.
  - intros [Ha Hc]. exists ar. split; [apply list_elem_of_In, elem_of_seqZ; lia|].
    apply in_map_iff. exists cl. split; [done|]. apply list_elem_of_In, elem_of_seqZ. lia.
Qed.

(** ** The state *)

(** What the offsets in [struct allocator_state] and the class regions must be
    for mmap and mprotect to accept them. *)
Record layout_ok : Prop := {
  lo_regions_a : 0 <= offsetof_regions_a <= 2 ^ 60;
  lo_page : (PAGE_SIZE | offsetof_regions_a);
  lo_class : (PAGE_SIZE | CLASS_REGION_SIZE)
}.

Lemma layout_bounds :
  layout_ok ->
  let n := page_align (MAX_REGION_TABLE_SIZE * sizeof_region_metadata) in
  0 <= n /\ offsetof_regions_a + n <= offsetof_regions_b /\ offsetof_regions_b + n <= sizeof_allocator_state /\
  fits 64 sizeof_allocator_state /\ fits 64 sizeof_random_state /\ 0 < slab_region_size <= 2 ^ 56.
Proof.
  intros [Ha _ _] n. pose proof max_region_table_bound as Hmax. destruct region_sizes as (Hc & HR & HA & HS & HN & HNA).
  assert (HA' : 0 < ARENA_SIZE <= 2 ^ 41 * 49) by (rewrite HA, HR; nia).
  assert (HS' : 0 < slab_region_size <= 2 ^ 56) by (rewrite HS; nia).
  assert (Hn : 0 <= n <= 2 ^ 30).
  { assert (H0 : 0 <= MAX_REGION_TABLE_SIZE).
    { unfold MAX_REGION_TABLE_SIZE, sizeof_region_metadata.
      apply Z.div_pos; [apply Z.div_pos|]; rewrite ?PAGE_SIZE_eq; lia. }
    unfold n, sizeof_region_metadata. clearbody n. generalize dependent MAX_REGION_TABLE_SIZE. intros k Hk Hk0.
    destruct (page_align_spec (k * 24)); rewrite ?PAGE_SIZE_eq in *; lia. }
  assert (Hmeta : 0 <= sizeof_slab_info_mapping <= 2 ^ 40).
  { unfold sizeof_slab_info_mapping, sizeof_slab_metadata, MAX_METADATA_MAX.
    assert (H0 : 0 <= CLASS_REGION_SIZE / PAGE_SIZE <= 2 ^ 28).
    { split; [apply Z.div_pos; rewrite ?PAGE_SIZE_eq; lia|]. apply Z.div_le_upper_bound; rewrite ?PAGE_SIZE_eq; lia. }
    set (k := CLASS_REGION_SIZE / PAGE_SIZE) in *.
    assert (H1 : 0 <= k * (4 * 8 + 8 + 8 + canary_size + 8 + (if SLAB_QUARANTINE then 4 * 8 else 0)) <= 2 ^ 28 * 96).
    { destruct canary_size_bounds as [-> | ->], SLAB_QUARANTINE; lia. }
    destruct (page_align_spec (k * (4 * 8 + 8 + 8 + canary_size + 8 + (if SLAB_QUARANTINE then 4 * 8 else 0))));
      rewrite ?PAGE_SIZE_eq in *; lia. }
  assert (Hinfo : 0 <= (N_ARENA * N_SIZE_CLASSES + 0) * sizeof_slab_info_mapping <= 2 ^ 54) by nia.
  unfold sizeof_allocator_state, slab_info_offset, offsetof_slab_info_mapping, offsetof_regions_b. fold n.
  unfold fits, sizeof_random_state. lia.
Qed.

(** ** The memory of the allocator *)

Lemma grown_undisturbed w w' : maps_grow (kern w) (kern w') -> mem w' = mem w -> undisturbed w w'.
Proof. intros Hk Hm. split; [done|]. intros a _. by rewrite Hm. Qed.

(** The three ranges that initialisation maps, of which the first goes again. *)
Lemma reserved rng state guard start w0 w1 w2 w3 w4 w5 w6 w7 n sz1 sz2 :
  fresh_block rng sz1 PAGE_SIZE w0 w1 -> undisturbed w1 w2 -> fresh_block state sz2 guard w2 w3 -> undisturbed w3 w4 ->
  0 < n -> fresh_mapping start n w4 w5 -> undisturbed w5 w6 -> only_in (block rng sz1 PAGE_SIZE) w6 w7 ->
  (forall a, mapped (kern w0) a ->
     mapped (kern w7) a /\ (mem w7).[a] = (mem w0).[a] /\ ~ block state sz2 guard a /\ ~ pages start n a) /\
  (forall a, block state sz2 guard a -> mapped (kern w7) a /\ ~ pages start n a) /\
  (forall a, pages start n a -> mapped (kern w7) a) /\ zero_in start n (mem w7).
Proof.
  intros H01 H12 H23 H34 Hn H45 H56 H67.
  pose proof (fresh_block_undisturbed _ _ _ _ _ H01) as U01. pose proof (fresh_block_undisturbed _ _ _ _ _ H23) as U23.
  pose proof (fresh_mapping_undisturbed _ _ _ _ Hn H45) as U45.
  pose proof (undisturbed_trans _ _ _ U01 H12) as U02. pose proof (undisturbed_trans _ _ _ U23 H34) as U24.
  pose proof (undisturbed_trans _ _ _ U45 H56) as U46. pose proof (undisturbed_trans _ _ _ U24 U46) as U26.
  pose proof (undisturbed_trans _ _ _ H34 U46) as U36.
  assert (Hb1 : forall a, block rng sz1 PAGE_SIZE a -> mapped (kern w2) a).
  { intros a Ha. apply H12, (fb_maps _ _ _ _ _ H01). by right. }
  destruct H45 as (_ & _ & Hn63 & _ & Hz & _ & Hmaps & Hnew).
  assert (Hb2 : forall a, block state sz2 guard a -> mapped (kern w3) a) by (intros a Ha; apply (fb_maps _ _ _ _ _ H23); by right).
  assert (Hb3 : forall a, pages start n a -> mapped (kern w5) a) by (intros a Ha; apply Hmaps; by right).
  assert (Hne12 : forall a, block state sz2 guard a -> ~ block rng sz1 PAGE_SIZE a).
  { intros a Ha Hb. by apply (fb_fresh _ _ _ _ _ H23 a Ha), Hb1. }
  assert (Hne13 : forall a, pages start n a -> ~ block rng sz1 PAGE_SIZE a).
  { intros a Ha Hb. by apply (Hnew a Ha), U24, Hb1. }
  assert (Hrest : forall a, mapped (kern w0) a -> ~ block rng sz1 PAGE_SIZE a) by (intros a Ha Hb; by apply (fb_fresh _ _ _ _ _ H01 a Hb)).
  split; [|split; [|split]].
  - intros a Ha. destruct (H67 a (Hrest a Ha)) as [-> ->]. pose proof (proj1 U02 a Ha) as Ha2.
    split; [by apply U26|]. split; [rewrite (proj2 U26 a Ha2); by apply U02|].
    split; [intros Hb; by apply (fb_fresh _ _ _ _ _ H23 a Hb)|intros Hb; by apply (Hnew a Hb), U24].
  - intros a Ha. rewrite (proj2 (H67 a (Hne12 a Ha))). split; [by apply U36, Hb2|]. intros Hb. by apply (Hnew a Hb), H34, Hb2.
  - intros a Ha. rewrite (proj2 (H67 a (Hne13 a Ha))). by apply H56, Hb3.
  - intros a Ha. assert (Hp : pages start n a).
    { unfold pages. assert (Hn' : 0 < n <= 2 ^ 63) by lia. pose proof (page_align_ge n Hn'). lia. }
    rewrite (proj1 (H67 a (Hne13 a Hp))), (proj2 H56 a (Hb3 a Hp)). by apply Hz.
Qed.

(** ** [init_slow_path] up to the publication of [ro] *)

Record state_ready rest w (start : Z) (ra : region_allocator R) classes w' : Prop := {
  sr_placed : region_placed start;
  sr_classes : fresh_classes start (class_indices 0) classes;
  sr_large : forall h, slab_region_start h = start -> large_inv (outside rest h) ra ∅ w';
  sr_apart : forall a, rest a -> ~ start <= a < start + slab_region_size;
  sr_mem : forall a, rest a -> (mem w').[a] = (mem w).[a];
  sr_zero : zero_in start slab_region_size (mem w')
}.

(** A draw in the middle of the initialisation. *)
Lemma wp_quiet_draw {A} (mm : M (R * world) A) `{!KeepsMaps mm} (P : A -> Prop) (s : R * world)
    (Q : A -> R * world -> Prop) (E : halt -> Prop) :
  wp mm (fun v s' => P v /\ random_inv (fst s') /\ mem (snd s') = mem (snd s)) random_halts s ->
  (forall v r w', P v -> random_inv r -> undisturbed (snd s) w' -> Q v (r, w')) ->
  (forall e, init_halts e -> E e) -> wp mm Q E s.
Proof.
  intros Hm HQ HE. eapply wp_mono; [apply wp_keeps; [done|exact Hm]| |].
  - intros v [r w'] [(Hv & Hr & Hw) Hk]. apply HQ; [done|done|]. by apply grown_undisturbed.
  - intros e He. apply HE. left. by left.
Qed.

(** The memory that the first steps reserved. *)
Record reserving w (rng state guard : Z) w1 w2 w3 w4 : Prop := {
  rv_rng : fresh_block rng sizeof_random_state PAGE_SIZE w w1;
  rv_draw : undisturbed w1 w2;
  rv_state : fresh_block state sizeof_allocator_state guard w2 w3;
  rv_guard : 0 < guard;
  rv_quiet : undisturbed w3 w4
}.

Lemma state_is_ready w rng state guard w1 w2 w3 w4 w5 w6 w7 start classes (ra_rng : R) :
  layout_ok -> reserving w rng state guard w1 w2 w3 w4 -> fresh_mapping start slab_region_size w4 w5 ->
  region_placed start -> undisturbed w5 w6 ->
  only_in (block rng sizeof_random_state PAGE_SIZE) w6 w7 -> fresh_classes start (class_indices 0) classes ->
  random_inv ra_rng ->
  state_ready (mapped (kern w)) w start
    (init_region_allocator ra_rng (u64 (state + offsetof_regions_a)) (u64 (state + offsetof_regions_b))) classes w7.
Proof.
  intros Hlo [H01 H12 H23 Hg0 H34] H45 Hplaced H56 H67 Hclasses Hrng. destruct (layout_bounds Hlo) as (Hn & Hra & Hrb & Hst & _ & Hslab).
  set (n := page_align (MAX_REGION_TABLE_SIZE * sizeof_region_metadata)) in *.
  destruct (reserved rng state guard start w w1 w2 w3 w4 w5 w6 w7 _ _ _ H01 H12 H23 H34 (proj1 Hslab) H45 H56 H67)
    as (Hrest & Hstate & Hmapped & Hzero).
  destruct H23 as [Hpos _ Hend Hsize _ _ _ _]. destruct Hlo as [Ha _ _].
  assert (Hin : forall a, start <= a < start + slab_region_size -> pages start slab_region_size a).
  { intros a Hin. unfold pages. assert (Hn' : 0 < slab_region_size <= 2 ^ 63) by lia. pose proof (page_align_ge _ Hn'). lia. }
  assert (Hregions : forall off a, 0 <= off -> off + n <= sizeof_allocator_state ->
    pages (u64 (state + off)) (MAX_REGION_TABLE_SIZE * sizeof_region_metadata) a -> block state sizeof_allocator_state guard a).
  { intros off a Hoff Hle. unfold pages, block. fold n. rewrite wrap_small by (split; lia). lia. }
  split; try done.
  - intros h Hh. apply large_inv_init; [done|..].
    + intros a Hab. assert (Hb : block state sizeof_allocator_state guard a) by (destruct Hab as [Hx|Hx]; eapply Hregions in Hx; (done || lia)).
      destruct (Hstate a Hb) as [Hm Hno]. split; [done|]. intros [Hr|Hs]; [by apply Hrest in Hr as (_ & _ & [] & _)|].
      apply Hno, Hin. unfold slab_range in Hs. by rewrite Hh in Hs.
    + intros a [Hr|Hs]; [by apply Hrest|]. apply Hmapped, Hin. unfold slab_range in Hs. by rewrite Hh in Hs.
  - intros a Hr Hs. apply Hrest in Hr as (_ & _ & _ & []). by apply Hin.
  - intros a Hr. by apply Hrest.
Qed.

(** From the mapping of the slab region on. *)
Lemma wp_init_slabs w rng state guard w1 w2 w3 w4 (ra_rng r : R) :
  layout_ok -> reserving w rng state guard w1 w2 w3 w4 -> random_inv ra_rng -> random_inv r ->
  let ra := init_region_allocator ra_rng (u64 (state + offsetof_regions_a)) (u64 (state + offsetof_regions_b)) in
  wp (let* start := on_world (memory_map slab_region_size) in
      if start =? 0 then fatal_error "failed to allocate slab region" else
      on_world (memory_set_name start slab_region_size "malloc slab region gap") ;;;
      let* classes := init_classes start state (class_indices 0) ∅ in
      on_world (deallocate_pages rng sizeof_random_state PAGE_SIZE) ;;;
      ret (start, ra, classes))
     (fun '(start, ra, classes) s' => state_ready (mapped (kern w)) w start ra classes (snd s')) init_halts (r, w4).
Proof.
  intros Hlo Hres Hra Hr ra. destruct (layout_bounds Hlo) as (_ & _ & _ & _ & _ & Hslab).
  assert (Hm : forall e, memory_fatal e -> init_halts e) by (intros e He; left; by right).
  apply wp_bind, wp_on_world. cbn [fst snd].
  eapply wp_mono; [apply wp_memory_map_prot; lia| |exact Hm].
  intros start w5 [[-> _]|Hmap].
  { apply wp_fatal. right. by do 4 apply list_elem_of_further; apply list_elem_of_here. }
  pose proof Hmap as (Hpos & Hpage & _ & Hend & _). rewrite (proj2 (Z.eqb_neq start 0)) by lia.
  assert (Hplaced : region_placed start).
  { split; [done|done| |by apply Hlo]. assert (Hn' : 0 < slab_region_size <= 2 ^ 63) by lia. pose proof (page_align_ge _ Hn'). lia. }
  apply wp_bind, wp_on_world. cbn [fst snd]. eapply wp_conseq; [apply wp_memory_set_name_quiet|]. intros b w5' Hq.
  apply wp_bind. eapply wp_mono; [apply wp_keeps; [apply _|]; apply (wp_init_classes start state (class_indices 0) [] ∅ r); try done| |].
  { by intros ar cl Hin%not_elem_of_nil. }
  { intros ar cl. by apply class_indices_all. }
  2: { intros e He. left. by left. }
  intros classes [r6 w6] [(Hcl & _ & Hw6) Hk6]. cbn [fst snd app] in *.
  apply wp_bind, wp_on_world. cbn [fst snd].
  eapply wp_mono; [apply (wp_deallocate_pages rng sizeof_random_state PAGE_SIZE)| |exact Hm].
  { destruct Hres as [[Hp Hpg Hend' Hsz _ _ _ _] _ _ _ _]. by split. }
  intros _ w7 [H67 _]. apply wp_ret. cbn [snd].
  eapply (state_is_ready w rng state guard w1 w2 w3 w4 w5 w6 w7); try done.
  eapply undisturbed_trans; [by apply quiet_undisturbed|]. by apply grown_undisturbed.
Qed.

Lemma wp_init_state w :
  layout_ok ->
  wp init_state
     (fun '(start, ra, classes) s' => state_ready (mapped (kern w)) w start ra classes (snd s')) init_halts (random_zero, w).
Proof.
  intros Hlo. destruct (layout_bounds Hlo) as (Hn & Hra & Hrb & Hst & Hrs & Hslab).
  assert (Hm : forall e, memory_fatal e -> init_halts e) by (intros e He; left; by right).
  unfold init_state. apply wp_bind, wp_on_world. cbn [fst snd].
  eapply wp_mono; [apply wp_allocate_pages; [done|by vm_compute|by exists 1|by vm_compute]| |exact Hm].
  intros rng w1 [[-> _]|Hrng].
  { apply wp_fatal. right. apply list_elem_of_here. }
  rewrite (proj2 (Z.eqb_neq rng 0)) by (destruct Hrng; rewrite ?PAGE_SIZE_eq in *; lia).
  apply wp_bind, (wp_quiet_draw _ (fun _ => True)); [..|done].
  { eapply wp_conseq; [apply init_ok; by left|]. by intros [] s' [? ?]. }
  intros [] r2 w2 _ Hr2 U12. cbn [snd] in U12.
  apply wp_bind, (wp_quiet_draw _ (fun v => 0 <= v < REAL_CLASS_REGION_SIZE / PAGE_SIZE)); [..|done].
  { apply u64_uniform_ok; [done|]. destruct region_sizes as (Hc & -> & _). rewrite PAGE_SIZE_eq. split.
    - apply Z.div_str_pos. lia.
    - apply Z.div_lt_upper_bound; lia. }
  intros v r3 w2' Hv Hr3 U2. cbn [snd] in U2. pose proof (undisturbed_trans _ _ _ U12 U2) as U12'.
  assert (Hguard : u64 (u64 (v + 1) * PAGE_SIZE) = (v + 1) * PAGE_SIZE /\ 0 < (v + 1) * PAGE_SIZE /\ fits 64 ((v + 1) * PAGE_SIZE)).
  { assert (Hv' : v < 2 ^ 40).
    { destruct region_sizes as (Hc & HR & _). rewrite HR, PAGE_SIZE_eq in Hv. eapply Z.lt_le_trans; [apply Hv|].
      apply Z.div_le_upper_bound; lia. }
    rewrite PAGE_SIZE_eq in *. rewrite (wrap_small 64 (v + 1)) by (split; lia). rewrite wrap_small by (split; lia).
    unfold fits. lia. }
  destruct Hguard as (-> & Hg0 & Hgf). set (guard := (v + 1) * PAGE_SIZE) in *.
  apply wp_bind, wp_on_world. cbn [fst snd].
  eapply wp_mono; [apply wp_allocate_pages; [done|done|by exists (v + 1)|done]| |exact Hm].
  intros state w3 [[-> _]|Hstate].
  { apply wp_fatal. right. by do 1 apply list_elem_of_further; apply list_elem_of_here. }
  pose proof Hstate as [Hpos Hstpage Hstend Hstsize _ _ _ _]. rewrite (proj2 (Z.eqb_neq state 0)) by lia.
  apply wp_bind, wp_on_world. cbn [fst snd]. eapply wp_mono; [apply wp_memory_protect_quiet| |exact Hm].
  intros [] w4 [Hq4 _].
  { apply wp_fatal. right. by do 2 apply list_elem_of_further; apply list_elem_of_here. }
  apply wp_bind. eapply wp_mono; [apply wp_keeps; [apply _|]; by apply init_from_ok| |intros e He; left; by left].
  intros ra_rng [r5 w5] [(Hrr & Hr5 & Hm5) Hk5]. cbn [fst snd] in *.
  apply wp_bind, wp_on_world. cbn [fst snd]. eapply wp_mono; [apply wp_memory_protect_quiet| |exact Hm].
  intros [] w6 [Hq6 _].
  { apply wp_fatal. right. by do 3 apply list_elem_of_further; apply list_elem_of_here. }
  apply (wp_init_slabs w rng state guard w1 w2' w3); [done| |done|done].
  split; try done. eapply undisturbed_trans; [by apply quiet_undisturbed|].
  eapply undisturbed_trans; [by apply grown_undisturbed|]. by apply quiet_undisturbed.
Qed.

(** ** The whole initialisation *)

(** An initialised allocator whose blocks, if any, belong to the handlers of
    pthread_atfork: guarded, clean, and without a trace in the process. *)
Definition started rest w (s' : allocator R * world) : Prop :=
  exists m, heap_ok rest (fst s') m (snd s') /\ guarded (fst s') (snd s') /\ clean (fst s') (snd s') /\
    forall a, rest a -> (mem (snd s')).[a] = (mem w).[a].

Definition arena_ok h : Prop := 0 <= thread_arena h /\ 0 <= thread_arena_counter h /\ (N_ARENA = 1 -> thread_arena h = 0).

Lemma fresh_dead (c : size_class R) i s : slab_info c = ∅ -> live c i s = false.
Proof.
  intros E. unfold live. rewrite E, aget_empty. unfold is_used_slot. rewrite bitmap_get_testbit.
  cbn [bitmap zero slab_metadata_zeroed]. by rewrite aget_empty_Z, Z.testbit_0_l.
Qed.

Lemma ready_started rest w start ra classes h w' :
  state_ready rest w start ra classes w' -> arena_ok h ->
  started rest w (set_ro start (u64 (start + slab_region_size)) classes ra h, w').
Proof.
  intros [Hp Hc Hl Hapart Hm Hz] Har. pose proof Hp as [Hs0 _ Hend _].
  assert (Hpos : 0 <= slab_region_size).
  { destruct region_sizes as (? & HR & HA & HS & HN & HNA). rewrite HS, HA, HR. apply Z.mul_nonneg_nonneg; [apply Z.mul_nonneg_nonneg|]; lia. }
  assert (E : u64 (start + slab_region_size) = start + slab_region_size) by (apply wrap_small; split; lia).
  assert (Hclass : forall ar cl c, 0 <= ar < N_ARENA -> 0 <= cl < N_SIZE_CLASSES -> classes !! (ar, cl) = Some c ->
    fresh_class start ar cl c).
  { intros ar cl c Ha Hcl Hlk. destruct (Hc ar cl) as (c' & Hc' & Hf); [by apply class_indices_all|]. congruence. }
  exists ∅. cbn [fst snd]. split; [|split; [|split; [|done]]].
  - split; try done.
    + intros ar cl Ha Hcl. destruct (Hc ar cl) as (c & Hlk & Hi & Hplace & _); [by apply class_indices_all|].
      exists c. split; [done|]. split; [by exists [], [], []|done].
    + exists ra. split; [done|]. by apply Hl.
  - intros ar cl c Ha Hcl Hlk. destruct (Hclass ar cl c Ha Hcl Hlk) as (_ & _ & Hi). split.
    + intros i. rewrite Hi, aget_empty. by split.
    + intros i s _ _. by rewrite (fresh_dead c i s Hi).
  - intros ar cl i s c [Ha Hcl Hlk Hi Hs _] a Hin. cbn in Hlk. destruct (Hclass ar cl c Ha Hcl Hlk) as ([_ Hb] & Hplace & _).
    pose proof (cb_geometry _ _ _ _ _ _ Hb) as Hg. destruct (slot_address_bound cl c Hg i s Hi Hs), (slot_usable_bounds cl Hcl).
    pose proof (cg_size _ _ Hg). apply Hz. destruct (class_placed_offset _ _ _ _ a Hplace ltac:(lia)) as (_ & _ & Hoff). lia.
Qed.

Lemma started_world rest w h w1 w2 : started rest w (h, w1) -> undisturbed w1 w2 -> mem w2 = mem w1 -> started rest w (h, w2).
Proof.
  intros (m & Hh & Hg & Hc & Hm) [Hk _] Emem. exists m. cbn [fst snd] in *.
  split; [by eapply heap_ok_world|]. split; [|split; [|by rewrite Emem]].
  - apply (kb_guarded _ _ _ _ _ _ _ _ (kept_refl rest (fun _ => False) h m w1 w2 Emem)), Hg.
  - intros ar cl i s c Hu. rewrite Emem. by apply (Hc ar cl i s c).
Qed.

(** pthread_atfork registers the handlers: it may call the allocator, and leaves
    it as a client does. *)
Definition atfork_ok (pthread_atfork : AM (R := R) bool) rest w : Prop :=
  forall s, started rest w s -> wp pthread_atfork (fun _ s' => started rest w s') init_halts s.

Lemma started_lock rest w h w' b : started rest w (h, w') -> started rest w (set_init_lock b h, w').
Proof.
  intros (m & Hh & Hg & Hc & Hm). exists m. cbn [fst snd] in *. split; [by destruct Hh|]. split; [done|]. split; [|done].
  intros ar cl i s c []. by apply (Hc ar cl i s c).
Qed.

Lemma wp_init_slow_path pthread_atfork h w :
  layout_ok -> runtime_page_size = PAGE_SIZE -> slab_region_end h = 0 -> init_lock h = false -> arena_ok h ->
  atfork_ok pthread_atfork (mapped (kern w)) w ->
  wp (init_slow_path pthread_atfork) (fun _ s' => started (mapped (kern w)) w s') init_halts (h, w).
Proof.
  intros Hlo Hpage He Hlock Har Hfork. unfold init_slow_path, modify_allocator, get_slab_region_end, is_init.
  assert (Hm : forall e, memory_fatal e -> init_halts e) by (intros e He'; left; by right).
  do 2 wp_step. cbn [fst]. rewrite Hlock. do 4 wp_step. cbn [fst slab_region_end set_init_lock]. rewrite He, Hpage.
  change (negb (PAGE_SIZE =? PAGE_SIZE)) with false. cbn [negb Z.eqb].
  apply wp_bind. unfold with_init_rng. apply wp_zoom. cbn [fst snd].
  eapply wp_conseq; [by apply wp_init_state|]. intros [[start ra] classes] [r w1] Hready. cbn [fst snd] in *.
  do 2 wp_step. cbn [fst snd].
  assert (H1 : started (mapped (kern w)) w (set_ro start (u64 (start + slab_region_size)) classes ra (set_init_lock true h), w1))
    by by apply ready_started.
  apply wp_bind, wp_on_world. cbn [fst snd]. eapply wp_mono; [apply wp_memory_protect_quiet| |exact Hm].
  intros [] w2 [Hq2 _].
  { apply wp_fatal. right. by do 5 apply list_elem_of_further; apply list_elem_of_here. }
  apply wp_bind, wp_on_world. cbn [fst snd]. eapply wp_conseq; [apply wp_memory_set_name_quiet|]. intros b w3 Hq3.
  do 2 wp_step. cbn [fst snd]. apply wp_bind. eapply wp_conseq; [apply Hfork|].
  - apply started_lock. eapply started_world; [eapply started_world; [exact H1|..]|..];
      (by apply quiet_undisturbed) || apply Hq2 || apply Hq3.
  - intros [] s' Hs'; [|by apply wp_ret]. apply wp_fatal. right. by do 6 apply list_elem_of_further; apply list_elem_of_here.
Qed.

Lemma wp_init_fresh pthread_atfork h w :
  layout_ok -> runtime_page_size = PAGE_SIZE -> slab_region_end h = 0 -> init_lock h = false ->
  N_ARENA <= thread_arena h \/ N_ARENA = 1 -> arena_ok h -> atfork_ok pthread_atfork (mapped (kern w)) w ->
  wp (init pthread_atfork)
     (fun arena s' => 0 <= arena < N_ARENA /\ started (mapped (kern w)) w s') init_halts (h, w).
Proof.
  intros Hlo Hpage He Hlock Hnew (Ha & Hc & H1) Hfork. destruct region_sizes as (_ & _ & _ & _ & _ & HN).
  unfold init, modify_allocator. do 2 wp_step. cbn [fst].
  rewrite Z.gtb_ltb. destruct (Z.ltb_spec 1 N_ARENA) as [Hmany|Hone]; cbn [andb].
  - rewrite (proj2 (Z.ltb_ge _ _)) by lia. assert (HN0 : 0 < N_ARENA) by lia.
    pose proof (Z.mod_pos_bound (thread_arena_counter h) _ HN0) as Hmod.
    do 2 wp_step. cbn [fst snd]. rewrite He. cbn [is_init negb Z.eqb]. apply wp_bind.
    eapply wp_conseq; [apply wp_init_slow_path; try done|].
    + assert (Hf : fits 32 (u32 (thread_arena_counter h + 1))) by by apply wrap_fits.
      split; [apply Hmod|]. split; [apply Hf|]. cbn. lia.
    + intros [] s' Hs'. by apply wp_ret.
  - do 2 wp_step. cbn [fst snd]. rewrite He. cbn [is_init negb Z.eqb]. apply wp_bind.
    eapply wp_conseq; [by apply wp_init_slow_path|]. intros [] s' Hs'. apply wp_ret. split; [lia|done].
Qed.

(** C6: the first call into the allocator initialises it: afterwards the
    invariant of the whole allocator holds, with the size classes of all arenas
    in disjoint parts of the slab region and the region table empty; it owns only
    memory that the process had not mapped, whose contents are as before; all
    slots are zero and none is missing its canary. It aborts only when a mapping
    cannot be made, pthread_atfork fails, or the kernel or the random source
    fail. *)
Theorem init_ok pthread_atfork h w :
  layout_ok -> runtime_page_size = PAGE_SIZE -> slab_region_end h = 0 -> init_lock h = false ->
  N_ARENA <= thread_arena h \/ N_ARENA = 1 -> arena_ok h -> atfork_ok pthread_atfork (mapped (kern w)) w ->
  wp (init pthread_atfork)
     (fun arena s' => 0 <= arena < N_ARENA /\ started (mapped (kern w)) w s') init_halts (h, w).
Proof. apply wp_init_fresh. Qed.
End Init.

(** ** A demo heap: the allocator after its first call *)

Section Witnesses.
#[local] Existing Instance default_config.

(** An x86-64 process; handlers are registered without allocating. *)
Definition demo_platform : Platform := {|
  runtime_page_size := 4096; ro_address := 2 ^ 20; offsetof_regions_a := 4096 * 16
|}.
#[local] Existing Instance demo_platform.

Definition no_atfork : AM (R := Z) bool := ret false.

Lemma no_atfork_ok rest w : atfork_ok no_atfork rest w.
Proof. intros s Hs. by apply wp_ret. Qed.

Lemma demo_layout_ok : layout_ok.
Proof. split; [by vm_compute|by exists 16|by exists 8388608]. Qed.

Definition demo_start : Z * (allocator Z * world) :=
  returned (init no_atfork) (uninitialized, demo_world []) (0, (uninitialized, demo_world [])).

(** The allocator of the examples: after the initialisation, with all of its four
    arenas unused. *)
Definition demo_heap : allocator Z := fst (snd demo_start).
Definition demo_heap_world : world := snd (snd demo_start).
Definition demo_rest : Z -> Prop := mapped (kern (demo_world [])).

Lemma demo_start_returns : returns (init no_atfork) (uninitialized, demo_world []) = true.
Proof. by vm_compute. Qed.

Lemma demo_arena_ok : arena_ok (uninitialized (R := Z)).
Proof. by split. Qed.

Lemma demo_heap_ok :
  exists m, heap_ok demo_rest demo_heap m demo_heap_world /\ guarded demo_heap demo_heap_world /\ clean demo_heap demo_heap_world.
Proof.
  pose proof (wp_init_fresh no_atfork uninitialized (demo_world []) demo_layout_ok eq_refl eq_refl eq_refl
    (or_introl (Z.le_refl 4)) demo_arena_ok (no_atfork_ok _ _)) as Hw.
  destruct (wp_returned _ _ _ _ (0, (uninitialized, demo_world [])) Hw demo_start_returns) as [_ (m & H1 & H2 & H3 & _)].
  exists m. split; [exact H1|]. split; [exact H2|exact H3].
Qed.

Lemma init_ok_witness :
  wp (init no_atfork) (fun arena s' => 0 <= arena < N_ARENA /\ started demo_rest (demo_world []) s')
    (init_halts (R := Z)) (uninitialized, demo_world []).
Proof.
  exact (init_ok no_atfork uninitialized (demo_world []) demo_layout_ok eq_refl eq_refl eq_refl
    (or_introl (Z.le_refl 4)) demo_arena_ok (no_atfork_ok _ _)).
Defined.
End Witnesses.
