(* ===== verification/MallocSpec.v ===== *)
(** What malloc and calloc promise, on the whole allocator. *)

From S2P Require Import Prelude Config Util SizeClass Kernel Maps Pages RandomSource SlabMeta Slab SlabInv SlabRegion SlabAlloc SlabQuarantine SlabFree SlabCanary Regions Large LargeInv LargeAlloc LargeFree Allocator Malloc AllocatorInv AllocatorAlloc AllocatorFree Requests InitSpec.

Section Spec.
Context {Cfg : Config} {Cok : ConfigOk Cfg} {K : Kernel} {Kok : KernelOk K} {R : Type}.
Context `{!RandomSource R} `{!RandomSourceOk R} `{!Platform}.
Context (pthread_atfork : AM (R := R) bool).
Implicit Types (h : allocator R) (m : gmap Z (Z * Z)) (w : world) (rest : Z -> Prop).

Lemma wp_alloc rest h m w size :
  heap_ok rest h m w -> fits 64 size ->
  wp (alloc pthread_atfork size) (allocated rest h m w (fun p n => granted size n /\ placed_for h size p))
     (allocation_halts h w) (h, w).
Proof.
  intros Hh Hsize. unfold alloc. eapply wp_init_then; [done|]. intros ar h1 Har Hh1 E.
  eapply wp_mono; [by apply wp_allocate_placed| |intros e; by apply halts_same].
  intros p s' Hp. eapply allocated_same; [exact E|]. eapply allocated_weaken; [exact Hp|].
  intros q n [Hn Hq]. split; [done|]. by apply (placed_for_same h h1).
Qed.

Lemma wp_h_malloc rest h m w size :
  heap_ok rest h m w -> fits 64 size ->
  wp (h_malloc pthread_atfork size) (allocated rest h m w (fun p n => size <= n /\ size <= realloc_keeps h p n))
     (allocation_halts h w) (h, w).
Proof.
  intros Hh Hsize. eapply wp_conseq; [apply wp_alloc; [done|by apply adjust_fits]|]. intros p s' Hp.
  eapply allocated_weaken; [exact Hp|]. intros q n [Hn Hq]. split; [by apply granted_request|]. apply granted_keeps; [done|done|by apply placed_slab].
Qed.

(** The bytes of a fresh block on a clean heap. *)
Lemma fresh_zero p n h m w h' m' w' :
  fresh_at p n h m (mem w) h' m' (mem w') -> clean h w -> zero_in p n (mem w').
Proof.
  intros [_ _ _ _ [[Hsame (ar & cl & i & s & c & Hu & -> & ->)]|Hz]] Hc; [|done].
  intros a Ha. rewrite Hsame by done. by apply (Hc ar cl i s c Hu).
Qed.

(** A large block is zero. *)
Lemma fresh_large_zero p n h m mm h' m' mm' :
  fresh_at (R := R) p n h m mm h' m' mm' -> max_slab_size_class < n -> zero_in p n mm'.
Proof.
  intros [_ _ _ _ [[_ (ar & cl & i & s & c & [_ Hcl _ _ _ _] & _ & ->)]|Hz]] Hn; [|done].
  destruct (slot_usable_bounds cl Hcl), (slab_geometry_spec cl Hcl) as (_ & _ & ? & _). lia.
Qed.

(** The outcome of calloc for a product that does not overflow. *)
Definition zeroed rest h m w (req p : Z) (s' : allocator R * world) : Prop :=
  exists m', heap_ok rest (fst s') m' (snd s') /\ kept_but rest p h m w (fst s') m' (snd s') /\
    (p = 0 /\ errno (snd s') = ENOMEM \/
     req < 2 ^ 64 /\ 0 < p /\ (min_align | p) /\
     exists n, req <= n /\ req <= realloc_keeps h p n /\ block_at (fst s') m' p n /\ (forall k, ~ block_at h m p k) /\
       zero_in p req (mem (snd s'))).

Lemma wp_h_calloc rest h m w nmemb size :
  heap_ok rest h m w -> fits 64 nmemb -> fits 64 size -> (ZERO_ON_FREE = true -> clean h w) ->
  wp (h_calloc pthread_atfork nmemb size) (zeroed rest h m w (nmemb * size)) (allocation_halts h w) (h, w).
Proof.
  intros Hh [Hn0 Hn1] [Hs0 Hs1] Hclean. unfold h_calloc, mul_overflow.
  destruct (Z.leb_spec (2 ^ 64) (nmemb * size)) as [Hov|Hok].
  { apply wp_bind, wp_on_world, wp_modify, wp_ret. cbn [fst snd]. exists m.
    split; [eapply heap_ok_world; [exact Hh|reflexivity]|]. split; [by apply kept_refl|by left]. }
  assert (Hreq : fits 64 (nmemb * size)) by (split; nia). rewrite (wrap_small 64 (nmemb * size)) by done.
  set (req := nmemb * size) in *. apply wp_bind.
  eapply wp_conseq; [apply wp_alloc; [done|by apply adjust_fits]|].
  intros p [h' w'] (m' & Hh' & Hk & Hres). cbn [fst snd] in *.
  destruct Hres as [[-> He]|(n & [Hn Hplace] & Hf)].
  { rewrite andb_false_r. apply wp_bind, wp_ret, wp_ret. exists m'. split; [done|]. split; [done|by left]. }
  pose proof (granted_request req n Hreq Hn) as Hle. pose proof (fa_block _ _ _ _ _ _ _ _ Hf) as Hb.
  rewrite (proj2 (Z.eqb_neq p 0)) by (destruct Hf; lia). cbn [negb].
  assert (Hdone : forall w2, heap_ok rest h' m' w2 -> kept_but rest p h m w h' m' w2 -> zero_in p req (mem w2) ->
    zeroed rest h m w req p (h', w2)).
  { intros w2 H1 H2 H3. exists m'. split; [done|]. split; [done|]. right. split; [done|]. split; [apply Hf|]. split; [apply Hf|].
    exists n. split; [done|]. split; [apply granted_keeps; [done|done|by apply placed_slab]|]. split; [done|]. split; [apply Hf|done]. }
  assert (Hzero : forall w2, zero_in p n (mem w2) -> zero_in p req (mem w2)) by (intros w2 Hz a Ha; apply Hz; lia).
  destruct ZERO_ON_FREE eqn:Hzf; cbn [negb andb].
  { apply wp_bind, wp_ret, wp_ret. apply Hdone; [done..|]. apply Hzero. by eapply fresh_zero; [|apply Hclean]. }
  destruct (Z.eqb_spec (adjust_size_for_canary req) 0) as [E|E]; cbn [negb andb].
  { apply wp_bind, wp_ret, wp_ret. apply Hdone; [done..|]. intros a Ha. exfalso. revert E Ha. unfold adjust_size_for_canary.
    destruct (Z.ltb_spec 0 req); cbn [andb]; [|lia]. pose proof max_slab_size_class_bounds. pose proof canary_size_bounds.
    destruct (Z.leb_spec req max_slab_size_class); [|lia]. rewrite wrap_small by (split; lia). lia. }
  destruct (Z.leb_spec (adjust_size_for_canary req) max_slab_size_class) as [Hsmall|Hlarge].
  - destruct (adjust_small req Hreq E Hsmall) as [Hpos ->].
    apply wp_bind, wp_bind, wp_gets. cbn [snd]. apply wp_on_world, wp_modify, wp_ret. cbn [fst snd].
    assert (Ho : only_changes p n (mem w') (memset0 p req (mem w'))) by (intros a Ha; apply memset0_only; lia).
    destruct (kept_but_write rest h' m' w' (World _ (kern w') (memset0 p req (mem w')) (errno w')) p n) as [H1 H2]; try done.
    apply Hdone; [done|by eapply kept_trans|apply memset0_zero].
  - apply wp_bind, wp_ret, wp_ret. apply Hdone; [done..|]. apply Hzero. eapply fresh_large_zero; [done|].
    unfold granted in Hn. rewrite (proj2 (Z.leb_gt _ _)) in Hn by lia. lia.
Qed.

(** ** The promises *)

(** C1: malloc returns NULL with ENOMEM, or a new 16-byte aligned block of at
    least the requested bytes; it shares no byte with any other allocation, small
    or large, all of which stay allocated with their contents, and the memory of
    the process outside the allocator is untouched. The invariant of the whole
    allocator holds afterwards. It aborts only when a free slot was written to,
    or the kernel or the random source fail. *)
Theorem h_malloc_ok rest h m w size :
  heap_ok rest h m w -> fits 64 size ->
  wp (h_malloc pthread_atfork size)
     (fun p '(h', w') => exists m', heap_ok rest h' m' w' /\ kept_but rest p h m w h' m' w' /\
        (p = 0 /\ errno w' = ENOMEM \/
         exists n, size <= n /\ 0 < p /\ (min_align | p) /\ block_at h' m' p n /\ (forall k, ~ block_at h m p k) /\
           forall q k a, block_at h m q k -> q <= a < q + k -> ~ p <= a < p + n))
     (allocation_halts h w) (h, w).
Proof.
  intros Hh Hsize. eapply wp_conseq; [by apply wp_h_malloc|]. intros p [h' w'] (m' & Hh' & Hk & Hres).
  exists m'. cbn [fst snd] in *. split; [done|]. split; [done|]. destruct Hres as [|(n & [Hn _] & [Hp Hnew Hal Hb _])]; [by left|right].
  exists n. split_and!; try done. intros q k a Hq Ha Ha'.
  assert (Hne : q <> p) by (intros ->; by eapply Hnew).
  assert (Hq' : block_at h' m' q k) by (by apply (kb_blocks _ _ _ _ _ _ _ _ Hk)).
  by apply Hne, (blocks_disjoint rest h' m' w' q k p n a).
Qed.

(** C8: calloc fails with ENOMEM when the product overflows, and otherwise gives
    a block of at least nmemb * size bytes that are all zero: it clears the block
    itself, or, with ZERO_ON_FREE, relies on freed slots being zero, which holds
    as long as the program did not write to memory it does not hold. *)
Theorem h_calloc_ok rest h m w nmemb size :
  heap_ok rest h m w -> fits 64 nmemb -> fits 64 size -> (ZERO_ON_FREE = true -> clean h w) ->
  wp (h_calloc pthread_atfork nmemb size)
     (fun p '(h', w') => exists m', heap_ok rest h' m' w' /\ kept_but rest p h m w h' m' w' /\
        (p = 0 /\ errno w' = ENOMEM \/
         nmemb * size < 2 ^ 64 /\
         exists n, nmemb * size <= n /\ block_at h' m' p n /\ (forall k, ~ block_at h m p k) /\
           zero_in p (nmemb * size) (mem w')))
     (allocation_halts h w) (h, w).
Proof.
  intros Hh Hn Hs Hc. eapply wp_conseq; [by apply wp_h_calloc|]. intros p [h' w'] (m' & Hh' & Hk & Hres).
  exists m'. split; [done|]. split; [done|]. destruct Hres as [|(Hlt & _ & _ & n & Hle & _ & Hb & Hnew & Hz)]; [by left|right].
  split; [done|]. by exists n.
Qed.

(** A state in which the program holds the block at [p], and has left the memory
    that it does not hold alone. *)
Record held rest (p n : Z) (s : allocator R * world) : Prop := {
  hl_heap : exists m, heap_ok rest (fst s) m (snd s) /\ block_at (fst s) m p n;
  hl_guarded : guarded (fst s) (snd s);
  hl_clean : ZERO_ON_FREE = true -> clean (fst s) (snd s)
}.

Lemma malloc_held rest h m w size d x :
  heap_ok rest h m w -> guarded h w -> clean h w -> fits 64 size ->
  returns (h_malloc pthread_atfork size) (h, w) = true -> x = returned (h_malloc pthread_atfork size) (h, w) d ->
  (0 <? fst x) = true -> exists n, size <= n /\ held rest (fst x) n (snd x).
Proof.
  intros Hh Hg Hc Hsize Hr -> Hpos%Z.ltb_lt. pose proof (wp_h_malloc rest h m w size Hh Hsize) as Hw.
  destruct (wp_returned _ _ _ _ d Hw Hr) as (m' & Hh' & Hk & [[E _]|(n & [Hn _] & Hf)]); [lia|].
  exists n. split; [done|]. split; [exists m'; split; [done|]; apply Hf|by apply Hk|].
  intros Hz. by apply Hk.
Qed.
End Spec.

(** ** Witnesses *)

Section Witnesses.
#[local] Existing Instances default_config demo_platform.

Lemma h_malloc_ok_witness :
  wp (h_malloc no_atfork 100)
     (fun p s' => p = 0 \/ exists m' n, 100 <= n /\ (min_align | p) /\ block_at (fst s') m' p n)
     (allocation_halts demo_heap demo_heap_world) (demo_heap, demo_heap_world).
Proof.
  destruct demo_heap_ok as (m & Hh & _).
  eapply wp_conseq; [exact (h_malloc_ok no_atfork demo_rest demo_heap m demo_heap_world 100 Hh ltac:(by split))|].
  intros p [h' w'] (m' & _ & _ & [[-> _]|(n & Hn & _ & Hal & Hb & _)]); [by left|right]. by exists m', n.
Defined.

(** A product that overflows, on the initialised allocator. *)
Lemma h_calloc_ok_witness :
  wp (h_calloc no_atfork (2 ^ 33) (2 ^ 31)) (fun p s' => p = 0)
     (allocation_halts demo_heap demo_heap_world) (demo_heap, demo_heap_world).
Proof.
  destruct demo_heap_ok as (m & Hh & _ & Hc).
  eapply wp_conseq; [exact (h_calloc_ok no_atfork demo_rest demo_heap m demo_heap_world (2 ^ 33) (2 ^ 31) Hh
    ltac:(by split) ltac:(by split) (fun _ => Hc))|].
  intros p [h' w'] (m' & _ & _ & [[-> _]|(Hlt & _)]); [done|]. by vm_compute in Hlt.
Defined.

(** The allocator of the examples after a call of malloc. *)
Definition demo_malloc : Z * (allocator Z * world) :=
  returned (h_malloc no_atfork 100) (demo_heap, demo_heap_world) (0, (uninitialized, demo_world [])).

Lemma demo_malloc_returns : returns (h_malloc no_atfork 100) (demo_heap, demo_heap_world) = true.
Proof. by vm_compute. Qed.
Lemma demo_ptr_pos : (0 <? (fst demo_malloc)) = true.
Proof. by vm_compute. Qed.

Lemma demo_malloc_ok : exists n, 100 <= n /\ held demo_rest (fst demo_malloc) n (snd demo_malloc).
Proof.
  destruct demo_heap_ok as (m & Hh & Hg & Hc). assert (H100 : fits 64 100) by (by split).
  assert (E : demo_malloc = returned (h_malloc no_atfork 100) (demo_heap, demo_heap_world) (0, (uninitialized, demo_world [])))
    by (unfold demo_malloc; reflexivity).
  exact (malloc_held no_atfork demo_rest demo_heap m demo_heap_world 100 (0, (uninitialized, demo_world [])) demo_malloc Hh Hg Hc H100
    demo_malloc_returns E demo_ptr_pos).
Qed.
End Witnesses.

(** The pointer of the examples. *)
Abbreviation demo_ptr := (fst demo_malloc).
