(* ===== verification/FreeSpec.v ===== *)
(** What free and free_sized promise, on the whole allocator:
    exactly the allocations are accepted, and only they are given back. *)

From S2P Require Import Prelude Config Util SizeClass Kernel Maps RandomSource SlabMeta Slab SlabInv SlabRegion SlabAlloc SlabQuarantine SlabFree SlabCanary Regions Large LargeInv LargeFree Allocator Malloc AllocatorInv AllocatorAlloc AllocatorFree Requests InitSpec MallocSpec.

Section Spec.
Context {Cfg : Config} {Cok : ConfigOk Cfg} {K : Kernel} {Kok : KernelOk K} {R : Type}.
Context `{!RandomSource R} `{!RandomSourceOk R} `{!Platform}.
Context (pthread_atfork : AM (R := R) bool).
#[local] Instance slab_range_decision (h : allocator R) p : Decision (slab_range h p) := slab_range_dec h p.
Implicit Types (h : allocator R) (m : gmap Z (Z * Z)) (w : world) (rest : Z -> Prop).

(** The block at [p] is given back: with ZERO_ON_FREE a slot is zero; a large
    deallocation leaves errno as it was. *)
Definition given_back rest h m w p (s' : allocator R * world) : Prop :=
  exists n, block_at h m p n /\ freed rest h m w p s' /\
    (ZERO_ON_FREE = true -> slab_range h p -> zero_in p n (mem (snd s'))) /\
    (~ slab_range h p -> errno (snd s') = errno w).

Lemma freed_world rest h m w p h' w1 w2 :
  freed rest h m w p (h', w1) -> kern w2 = kern w1 -> mem w2 = mem w1 -> freed rest h m w p (h', w2).
Proof.
  intros (m' & Hh & Hk & Hn) Hkern Hmem. exists m'. cbn [fst snd] in *.
  split; [eapply heap_ok_world; [exact Hh|rewrite Hkern; reflexivity]|]. split; [|done].
  eapply kept_trans; [exact Hk|by apply kept_refl].
Qed.

Lemma in_slab_region_run rest h m w p :
  heap_ok rest h m w -> in_slab_region p (h, w) = Ret (bool_decide (slab_range h p)) (h, w).
Proof.
  intros Hh. pose proof (wp_in_slab_region p (fun b s => b = bool_decide (slab_range h p) /\ s = (h, w)) (fun _ => False) rest h m w Hh) as Hi.
  unfold wp in Hi. destruct (in_slab_region p (h, w)) as [b s|]; [|destruct Hi; intros Hp; by case_bool_decide].
  destruct Hi as [-> ->]; [intros Hp; by case_bool_decide..|done].
Qed.

(** A deallocation with the sizes that the two components are to expect. *)
Lemma wp_free_any rest h m w p e1 e2 :
  heap_ok rest h m w ->
  wp (let* small := in_slab_region p in if small then deallocate_slot p e1 else free_large p e2)
     (fun _ s' => free_error h m w p e1 e2 = None /\ given_back rest h m w p s')
     (verdict_halts (free_error h m w p e1 e2)) (h, w).
Proof.
  intros Hh. unfold free_error.
  apply wp_bind; eapply wp_in_slab_region; [done|..]; intros Hp; destruct (slab_range_dec h p) as [Hr|Hr]; try done.
  - eapply wp_conseq; [by apply wp_deallocate_slot|]. intros _ s' (Hv & n & Hb & Hf & Hz).
    split; [done|]. exists n. split; [done|]. split; [done|]. by split; [intros; apply Hz|].
  - unfold free_large. apply wp_bind, wp_on_world, wp_gets, wp_bind. cbn [fst snd].
    eapply wp_conseq; [by apply (wp_deallocate_region rest h m w)|]. intros _ [h' w'] (Hv & n & Hb & Hf).
    apply wp_on_world, wp_modify. cbn [fst snd]. split; [done|]. exists n. split; [done|].
    split; [by eapply freed_world|]. by split.
Qed.

Lemma wp_h_free rest h m w p :
  heap_ok rest h m w -> p <> 0 ->
  wp (h_free p) (fun _ s' => free_error h m w p None None = None /\ given_back rest h m w p s')
     (verdict_halts (free_error h m w p None None)) (h, w).
Proof.
  intros Hh Hp. unfold h_free. rewrite (proj2 (Z.eqb_neq _ _) Hp). unfold untag_pointer. by apply wp_free_any.
Qed.

(** A guarded block is freed; only the system can stop that. *)
Lemma wp_h_free_block rest h m w p n :
  heap_ok rest h m w -> block_at h m p n -> canaries_intact h w p ->
  wp (h_free p) (fun _ s' => given_back rest h m w p s') system_halts (h, w).
Proof.
  intros Hh Hb Hc. destruct (block_pos _ _ _ _ _ _ Hh Hb) as [Hp _].
  assert (Hv : free_error h m w p None None = None) by (apply (free_error_spec rest h m w p Hh); split; [by exists n|done]).
  pose proof (wp_h_free rest h m w p Hh ltac:(lia)) as Hf. rewrite Hv in Hf. eapply wp_conseq; [exact Hf|]. by intros _ s' [_ ?].
Qed.

(** ** The promises *)

(** C2: free(NULL) does nothing. For any other pointer: free of an allocation
    whose canary is intact gives back that block and no other, keeps every other
    allocation and its contents, zeroes a slot with ZERO_ON_FREE, preserves errno
    for a large block, and can only be stopped by the kernel or the random
    source; free of anything else, whether a pointer into an allocation, one that
    was freed already or one that was never allocated, aborts with a message. *)
Theorem h_free_exact rest h m w p :
  heap_ok rest h m w ->
  (p = 0 -> h_free p (h, w) = Ret tt (h, w)) /\
  (p <> 0 -> (exists n, block_at h m p n) -> canaries_intact h w p ->
     wp (h_free p) (fun _ s' => given_back rest h m w p s') system_halts (h, w)) /\
  (p <> 0 -> ~ (exists n, block_at h m p n) \/ ~ canaries_intact h w p ->
     exists msg, h_free p (h, w) = Halt (Fatal msg)).
Proof.
  intros Hh. split; [by intros ->|]. split.
  - intros _ [n Hb] Hc. by eapply wp_h_free_block.
  - intros Hp Hno. pose proof (wp_h_free rest h m w p Hh Hp) as Hf. unfold wp in Hf.
    destruct (free_error h m w p None None) as [msg|] eqn:Hv.
    + destruct (h_free p (h, w)) as [a s'|e]; [by destruct Hf|]. exists msg. cbn in Hf. by subst e.
    + apply (free_error_spec rest h m w p Hh) in Hv. tauto.
Qed.

(** After free, the pointer is not an allocation any more, so a second free of
    it aborts with a message: a double free never goes through, whatever the size
    of the block and the state of the quarantines. *)
Theorem h_free_twice_aborts rest h m w p :
  heap_ok rest h m w -> p <> 0 ->
  wp (h_free p ;;; h_free p) (fun _ _ => False) (fun _ => True) (h, w).
Proof.
  intros Hh Hp. apply wp_bind. eapply wp_mono; [by apply (wp_h_free rest h m w)| |done].
  intros _ [h' w'] [_ (n & _ & (m' & Hh' & _ & Hgone) & _)]. cbn [fst snd] in *.
  eapply wp_mono; [by apply (wp_h_free rest h' m' w')| |done].
  intros _ s2 [_ (k & Hk & _)]. by eapply Hgone.
Qed.

(** C7: malloc and free of the result is a round trip: the allocations and their
    contents are exactly those before, and on a heap whose free slots and
    canaries the program left alone nothing but the kernel and the random source
    can stop it. *)
Theorem malloc_free_roundtrip rest h m w size :
  heap_ok rest h m w -> fits 64 size -> guarded h w -> (ZERO_ON_FREE = true -> clean h w) ->
  wp (let* p := h_malloc pthread_atfork size in h_free p)
     (fun _ '(h', w') => exists m', heap_ok rest h' m' w' /\ guarded h' w' /\ (ZERO_ON_FREE = true -> clean h' w') /\
        (forall q n, block_at h' m' q n <-> block_at h m q n) /\
        (forall q n a, block_at h m q n -> q <= a < q + n -> (mem w').[a] = (mem w).[a]) /\
        (forall a, rest a -> (mem w').[a] = (mem w).[a]))
     system_halts (h, w).
Proof.
  intros Hh Hsize Hg Hclean. apply wp_bind. eapply wp_mono; [by apply (wp_h_malloc pthread_atfork rest h m w)| |].
  2: { intros e [He|(_ & Hzf & Hc)]; [done|by destruct Hc; apply Hclean]. }
  intros p [h1 w1] (m1 & Hh1 & Hk & Hres). cbn [fst snd] in *.
  assert (Hg1 : guarded h1 w1) by by apply Hk.
  assert (Hc1 : ZERO_ON_FREE = true -> clean h1 w1) by (intros Hzf; apply Hk; auto).
  assert (Hdone : forall h2 m2 w2, heap_ok rest h2 m2 w2 -> kept_but rest p h m w h2 m2 w2 ->
    (forall n, block_at h2 m2 p n <-> block_at h m p n) -> (forall n, ~ block_at h m p n) ->
    exists m', heap_ok rest h2 m' w2 /\ guarded h2 w2 /\ (ZERO_ON_FREE = true -> clean h2 w2) /\
      (forall q n, block_at h2 m' q n <-> block_at h m q n) /\
      (forall q n a, block_at h m q n -> q <= a < q + n -> (mem w2).[a] = (mem w).[a]) /\
      (forall a, rest a -> (mem w2).[a] = (mem w).[a])).
  { intros h2 m2 w2 Hh2 Hk2 Hiff Hnew. exists m2. split; [done|]. split; [by apply Hk2|]. split; [intros; apply Hk2; auto|]. split.
    - intros q n. destruct (decide (q = p)) as [->|]; [done|]. by apply Hk2.
    - split; [|apply Hk2]. intros q n a Hq. eapply (kb_contents _ _ _ _ _ _ _ _ Hk2 q n a Hq).
      intros ->. by eapply Hnew. }
  destruct Hres as [[-> He]|(n & Hn & Hf)].
  - apply wp_ret. apply (Hdone h1 m1 w1); [done|done|..].
    + intros n; split; intros Hb; eapply block_pos in Hb; try done; lia.
    + intros n Hb. eapply block_pos in Hb; [|done]. lia.
  - eapply wp_conseq; [eapply wp_h_free_block; [exact Hh1|apply Hf|by apply guarded_canaries]|].
    intros _ [h2 w2] (n' & _ & (m2 & Hh2 & Hk2 & Hgone) & _). cbn [fst snd] in *.
    apply (Hdone h2 m2 w2); [done|by eapply kept_trans|..].
    + intros k. split; intros Hb; [by eapply Hgone in Hb|by eapply Hf in Hb].
    + intros k. apply Hf.
Qed.

(** ** Sized deallocation *)

Lemma free_verdict_expected cl (c : size_class R) w p e :
  free_verdict cl c w p (Some e) = None <->
  e = (if cl =? 0 then 0 else size c) /\ free_verdict cl c w p None = None.
Proof. unfold free_verdict. destruct (Z.eqb_spec e (if cl =? 0 then 0 else size c)); cbn [or_else]; (split; [intros E; split|intros [E E']]); done. Qed.

Lemma large_verdict_expected e m p x :
  large_verdict e m p (Some x) = None <->
  large_verdict e m p None = None /\ exists g, m !! p = Some (get_large_size_class x, g).
Proof.
  unfold large_verdict, table_verdict. destruct (is_init e); cbn [negb]; [|by split; [|intros []]].
  destruct (m !! p) as [[n g]|]; [|by split; [|intros []]].
  destruct (Z.eqb_spec n (get_large_size_class x)) as [->|Hne]; (split; [intros E; split|intros [_ [g' Hg]]]); try done.
  - by exists g.
  - congruence.
Qed.

(** The usable size of a slot determines its class. *)
Lemma slot_usable_inj cl cl' :
  0 <= cl < N_SIZE_CLASSES -> 0 <= cl' < N_SIZE_CLASSES -> slot_usable cl = slot_usable cl' -> cl = cl'.
Proof.
  assert (Hlt : forall a b, 0 <= a < b -> b < N_SIZE_CLASSES -> slot_usable a < slot_usable b).
  { intros a b Ha Hb. pose proof (size_classes_at_mono a b Ha Hb) as Hm. rewrite (slot_usable_pos b) by lia.
    pose proof canary_size_bounds as Hc. unfold slot_size, slot_usable. destruct (decide (a = 0)) as [->|Hne].
    - rewrite (size_classes_at_tiny 0) in * by lia. change (16 * 0) with 0. cbn [Z.eqb].
      assert (Hb' : 0 <= b < N_SIZE_CLASSES) by lia. destruct (slab_geometry_spec b Hb') as (_ & _ & H16 & _). unfold slot_size in *.
      destruct (size_classes_at b =? 0); lia.
    - assert (H0 : 0 <= 0 < a) by lia. assert (Ha' : a < N_SIZE_CLASSES) by lia.
      pose proof (size_classes_at_mono 0 a H0 Ha') as Hm0.
      rewrite (size_classes_at_tiny 0) in Hm0 by lia. rewrite !(proj2 (Z.eqb_neq _ _)) by lia. lia. }
  intros Hcl Hcl' E. destruct (Z.lt_total cl cl') as [Hl|[|Hl]]; [|done|]; [specialize (Hlt cl cl')|specialize (Hlt cl' cl)]; lia.
Qed.

(** The block at [p] is one that a request of [size] bytes, canary included, is
    given. *)
Definition sized_for h m p size : Prop :=
  if slab_range_dec h p then size <= max_slab_size_class /\ block_at h m p (slot_usable (si_class (get_size_info size)))
  else block_at h m p (get_large_size_class size).

Lemma placed_for_start h h' size p : slab_region_start h' = slab_region_start h -> placed_for h size p -> placed_for h' size p.
Proof. intros E. unfold placed_for, slab_range. by rewrite E. Qed.

(** What a request is granted is a block for its size. *)
Lemma granted_sized rest h m w p size k :
  heap_ok rest h m w -> block_at h m p k -> granted size k -> placed_for h size p -> sized_for h m p size.
Proof.
  intros Hh Hb Hg Hp. unfold granted, placed_for, sized_for in *. destruct (Z.leb_spec size max_slab_size_class) as [Hle|Hgt].
  - destruct Hp as [_ Hp]. destruct (slab_range_dec h p); [|done]. by rewrite <- Hg.
  - destruct Hg as [<- Hle]. destruct (slab_range_dec h p) as [Hr|]; [|done]. exfalso.
    destruct (class_at_ok _ _ _ _ _ Hh Hr) as (c & Hc & _). destruct (slot_sized _ _ _ _ _ _ _ Hh Hr Hc Hb) as [E _].
    destruct (class_of_range _ _ _ _ _ Hh Hr) as (_ & Hcl & _). pose proof (slot_usable_bounds _ Hcl).
    destruct (slab_geometry_spec _ Hcl) as (_ & _ & [_ Hmax] & _). lia.
Qed.

(** A size expectation is met by exactly the blocks for that size. *)
Lemma free_error_sized rest h m w p size :
  heap_ok rest h m w -> fits 64 size -> (slab_range h p -> size <= max_slab_size_class) ->
  free_error h m w p (Some (si_size (get_size_info size))) (Some size) = None <->
  sized_for h m p size /\ canaries_intact h w p.
Proof.
  intros Hh Hsize Hmax. pose proof (free_error_spec rest h m w p Hh) as Hspec. unfold free_error, sized_for in *.
  destruct (slab_range_dec h p) as [Hp|Hp].
  - specialize (Hmax Hp). assert (Hreq : 0 <= size <= max_slab_size_class) by (destruct Hsize; lia).
    destruct (request_class size Hreq) as (Hcl & _ & _). destruct (class_of_range _ _ _ _ _ Hh Hp) as (Har & Hcl' & _).
    destruct (class_at_ok _ _ _ _ _ Hh Hp) as (c & Hc & _). unfold slot_error in *. rewrite Hc in *.
    rewrite free_verdict_expected, Hspec.
    assert (He : si_size (get_size_info size) = size_classes_at (si_class (get_size_info size))).
    { destruct (decide (size = 0)) as [->|Hne]; [by rewrite (size_classes_at_tiny 0)|].
      symmetry. apply get_size_info_class. lia. }
    rewrite He. split.
    + intros [E [[n Hn] Hcan]]. destruct (slot_sized _ _ _ _ _ _ _ Hh Hp Hc Hn) as [-> E'].
      split; [|done]. split; [done|]. rewrite E' in E.
      replace (si_class (get_size_info size)) with (ssc_class (class_of h p)); [done|]. symmetry.
      set (a := si_class _) in *. set (b := ssc_class _) in *. destruct (Z.lt_total a b) as [Hab|[|Hab]]; [|done|].
      * assert (H1 : 0 <= a < b) by lia. pose proof (size_classes_at_mono a b H1 (proj2 Hcl')). lia.
      * assert (H1 : 0 <= b < a) by lia. pose proof (size_classes_at_mono b a H1 (proj2 Hcl)). lia.
    + intros [[_ Hb] Hcan]. destruct (slot_sized _ _ _ _ _ _ _ Hh Hp Hc Hb) as [Hn ->].
      split; [|split; [by eexists|done]]. f_equal. by apply slot_usable_inj.
  - rewrite large_verdict_expected, Hspec. split.
    + intros [[_ Hcan] [g Hm]]. split; [right; by exists g|done].
    + intros [Hb Hcan]. split; [split; [by eexists|done]|]. by eapply outside_large.
Qed.

(** The message with which free_sized must abort, if any. *)
Definition free_sized_error h m w p size : option string :=
  if slab_range_dec h p then
    if size >? max_slab_size_class then Some "sized deallocation mismatch (small)"%string
    else slot_error h w p (Some (si_size (get_size_info size)))
  else large_verdict (slab_region_end h) m p (Some size).

Lemma free_sized_error_spec rest h m w p size :
  heap_ok rest h m w -> fits 64 size ->
  free_sized_error h m w p size = None <-> sized_for h m p size /\ canaries_intact h w p.
Proof.
  intros Hh Hsize. pose proof (free_error_sized rest h m w p size Hh Hsize) as Hs. revert Hs.
  unfold free_sized_error, free_error, sized_for. destruct (slab_range_dec h p) as [Hp|Hp]; [|intros Hs; by apply Hs].
  rewrite Z.gtb_ltb. destruct (Z.ltb_spec max_slab_size_class size) as [Hgt|Hle]; [|intros Hs; by apply Hs].
  intros _. split; [done|intros [[? _] _]; lia].
Qed.

Lemma wp_h_free_sized rest h m w p size :
  heap_ok rest h m w -> p <> 0 ->
  let error := free_sized_error h m w p (adjust_size_for_canary size) in
  wp (h_free_sized p size) (fun _ s' => error = None /\ given_back rest h m w p s') (verdict_halts error) (h, w).
Proof.
  intros Hh Hp. pose proof (fun e => wp_free_any rest h m w p e (Some (adjust_size_for_canary size)) Hh) as Hany.
  unfold h_free_sized, untag_pointer, free_sized_error, free_error in *. rewrite (proj2 (Z.eqb_neq _ _) Hp). cbv zeta in *.
  apply wp_bind; eapply wp_in_slab_region; [done|..]; intros Hr; destruct (slab_range_dec h p) as [Hp'|Hp']; try done.
  - destruct (_ >? _); [by apply wp_fatal|]. specialize (Hany (Some (si_size (get_size_info (adjust_size_for_canary size))))).
    unfold wp, bind in Hany. by rewrite (in_slab_region_run rest h m w p Hh), bool_decide_true in Hany.
  - specialize (Hany None). unfold wp, bind in Hany. by rewrite (in_slab_region_run rest h m w p Hh), bool_decide_false in Hany.
Qed.

(** C13: free_sized accepts exactly the allocations that a request of the given
    size would have been given, and behaves on them as free does; any other
    pointer, and any size that belongs to another size class, aborts with a
    message. *)
Theorem h_free_sized_exact rest h m w p size :
  heap_ok rest h m w -> fits 64 size -> p <> 0 ->
  let size' := adjust_size_for_canary size in
  (sized_for h m p size' -> canaries_intact h w p ->
     wp (h_free_sized p size) (fun _ s' => given_back rest h m w p s') system_halts (h, w)) /\
  (~ sized_for h m p size' \/ ~ canaries_intact h w p -> exists msg, h_free_sized p size (h, w) = Halt (Fatal msg)).
Proof.
  intros Hh Hsize Hp size'. pose proof (adjust_fits size Hsize) as Hsize'. fold size' in Hsize'.
  pose proof (wp_h_free_sized rest h m w p size Hh Hp) as Hwp. fold size' in Hwp.
  pose proof (free_sized_error_spec rest h m w p size' Hh Hsize') as Hiff. split.
  - intros Hs Hc. rewrite (proj2 Hiff (conj Hs Hc)) in Hwp. eapply wp_conseq; [exact Hwp|]. by intros _ s' [_ ?].
  - intros Hno. unfold wp in Hwp. destruct (free_sized_error h m w p size') as [msg|]; [|pose proof (proj1 Hiff eq_refl); tauto].
    destruct (h_free_sized p size (h, w)) as [a s'|e]; [by destruct Hwp|]. exists msg. cbn in Hwp. by subst e.
Qed.
End Spec.

(** ** Witnesses *)

Section Witnesses.
#[local] Existing Instances default_config demo_platform.

(** The result of malloc(100) is freed. *)
Lemma h_free_exact_witness :
  exists n m, block_at (fst (snd demo_malloc)) m demo_ptr n /\
    wp (h_free demo_ptr) (fun _ s' => given_back demo_rest (fst (snd demo_malloc)) m (snd (snd demo_malloc)) demo_ptr s')
      system_halts (fst (snd demo_malloc), snd (snd demo_malloc)).
Proof.
  destruct demo_malloc_ok as (n & _ & [(m & Hh & Hb) Hg _]). exists n, m. split; [exact Hb|].
  pose proof (proj1 (Z.ltb_lt _ _) demo_ptr_pos) as Hpos.
  assert (Hne : demo_ptr <> 0) by lia.
  exact (proj1 (proj2 (h_free_exact demo_rest (fst (snd demo_malloc)) m (snd (snd demo_malloc)) demo_ptr Hh))
    Hne (ex_intro _ n Hb) (guarded_canaries _ _ _ Hg)).
Defined.

Lemma h_free_twice_aborts_witness :
  wp (h_free demo_ptr ;;; h_free demo_ptr) (fun _ _ => False) (fun _ => True) (fst (snd demo_malloc), snd (snd demo_malloc)).
Proof.
  destruct demo_malloc_ok as (n & _ & [(m & Hh & Hb) Hg _]). pose proof (proj1 (Z.ltb_lt _ _) demo_ptr_pos) as Hpos.
  apply (h_free_twice_aborts demo_rest (fst (snd demo_malloc)) m (snd (snd demo_malloc)) demo_ptr Hh). lia.
Defined.

Lemma malloc_free_roundtrip_witness :
  exists m, wp (let* p := h_malloc no_atfork 100 in h_free p)
    (fun _ '(h', w') => exists m', heap_ok demo_rest h' m' w' /\
       forall q n, block_at h' m' q n <-> block_at demo_heap m q n)
    system_halts (demo_heap, demo_heap_world).
Proof.
  destruct demo_heap_ok as (m & Hh & Hg & Hc). exists m. assert (H100 : fits 64 100) by (by split).
  eapply wp_conseq; [exact (malloc_free_roundtrip no_atfork demo_rest demo_heap m demo_heap_world 100 Hh H100 Hg (fun _ => Hc))|].
  intros _ [h' w'] (m' & Hh' & _ & _ & Hiff & _). by exists m'.
Defined.

(** free_sized of the slot with a large size. *)
Lemma demo_ptr_small :
  (slab_region_start (fst (snd demo_malloc)) <=? demo_ptr) &&
  (demo_ptr <? slab_region_start (fst (snd demo_malloc)) + slab_region_size) = true.
Proof. by vm_compute. Qed.

Lemma h_free_sized_exact_witness :
  exists msg, h_free_sized demo_ptr 200000 (fst (snd demo_malloc), snd (snd demo_malloc)) = Halt (Fatal msg).
Proof.
  destruct demo_malloc_ok as (n & _ & [(m & Hh & Hb) Hg _]). assert (Hs : fits 64 200000) by (by split).
  pose proof (proj1 (Z.ltb_lt _ _) demo_ptr_pos) as Hpos.
  pose proof (proj1 (andb_true_iff _ _) demo_ptr_small) as [Hlo%Z.leb_le Hhi%Z.ltb_lt].
  apply (h_free_sized_exact demo_rest (fst (snd demo_malloc)) m (snd (snd demo_malloc)) demo_ptr 200000 Hh Hs); [lia|left].
  unfold sized_for. destruct (slab_range_dec _ _) as [_|Hn]; [intros [Hle _]|destruct Hn; by split].
  clear -Hle. by vm_compute in Hle.
Defined.
End Witnesses.
