(* ===== verification/ReallocSpec.v ===== *)
(** What realloc promises, on the whole allocator. *)

From S2P Require Import Prelude Config Util SizeClass Kernel Maps Pages RandomSource SlabMeta Slab SlabInv SlabRegion SlabAlloc SlabQuarantine SlabFree SlabCanary Regions Large LargeInv LargeAlloc LargeFree LargeRealloc Allocator Malloc AllocatorInv AllocatorAlloc AllocatorFree Requests InitSpec MallocSpec FreeSpec.

Section Spec.
Context {Cfg : Config} {Cok : ConfigOk Cfg} {K : Kernel} {Kok : KernelOk K} {R : Type}.
Context `{!RandomSource R} `{!RandomSourceOk R} `{!Platform}.
Context (pthread_atfork : AM (R := R) bool).
Implicit Types (h : allocator R) (m : gmap Z (Z * Z)) (w : world) (rest X : Z -> Prop).

(** The outcome of realloc of the block of [n] bytes at [old]. *)
Definition reallocated rest h m w (old n req p : Z) (s' : allocator R * world) : Prop :=
  exists m', heap_ok rest (fst s') m' (snd s') /\
    (p = 0 /\ errno (snd s') = ENOMEM /\ kept_except rest (fun _ => False) h m w (fst s') m' (snd s') \/
     exists k, req <= k /\ req <= realloc_keeps (fst s') p k /\ (min_align | p) /\ block_at (fst s') m' p k /\
       (forall i, 0 <= i < min req (realloc_keeps h old n) -> (mem (snd s')).[p + i] = (mem w).[old + i]) /\
       kept_except rest (fun q => q = p \/ q = old) h m w (fst s') m' (snd s') /\
       (p <> old -> forall k, ~ block_at h m p k /\ ~ block_at (fst s') m' old k)).

Lemma block_aligned rest h m w p n : heap_ok rest h m w -> block_at h m p n -> (min_align | p).
Proof.
  intros Hh [(ar & cl & i & s & c & Hsm)|[g Hm]].
  - destruct (small_place _ _ _ _ _ _ _ _ _ _ _ Hh Hsm) as (_ & Hg & Hi & Hs & _).
    rewrite (sm_address _ _ _ _ _ _ _ _ Hsm). by apply (slot_address_aligned cl).
  - destruct (ho_large _ _ _ _ Hh) as (ra & _ & _ & Hb).
    destruct (lb_held _ _ _ _ _ _ Hb p n g Hm) as [[] _]. by apply heap_ok_class_of_pages.
Qed.

(** ** Moving a block *)

(** The two ways of deallocation that [h_realloc] chooses from. *)
Lemma wp_release rest h m w p n :
  heap_ok rest h m w -> block_at h m p n -> guarded h w ->
  wp (if bool_decide (slab_range h p) then deallocate_slot p None else deallocate_region p None)
     (fun _ s' => freed rest h m w p s') system_halts (h, w).
Proof.
  intros Hh Hb Hg.
  assert (Hv : free_error h m w p None None = None)
    by (apply (free_error_spec rest h m w p Hh); split; [by exists n|by apply guarded_canaries]).
  unfold free_error in Hv. case_bool_decide as Hp; destruct (slab_range_dec h p) as [Hp'|Hp']; try done.
  - pose proof (wp_deallocate_slot rest h m w p None Hh Hp) as Hd. rewrite Hv in Hd.
    eapply wp_conseq; [exact Hd|]. by intros _ s' (_ & k & _ & ? & _).
  - pose proof (wp_deallocate_region rest h m w p None Hh Hp) as Hd. rewrite Hv in Hd.
    eapply wp_conseq; [exact Hd|]. by intros _ s' (_ & k & _ & ?).
Qed.

Lemma wp_realloc_copy rest h m w old n req size old_size :
  heap_ok rest h m w -> block_at h m old n -> guarded h w -> sized_request req size -> copied_from h old n old_size ->
  wp (realloc_copy pthread_atfork old size old_size (bool_decide (slab_range h old)))
     (reallocated rest h m w old n req) (allocation_halts h w) (h, w).
Proof.
  intros Hh Hold Hg Hsr Hcf. destruct (copied_min size old_size) as [Hcop Hcop']; [apply Hsr|apply Hcf|apply Hsr|apply Hcf|].
  unfold realloc_copy. eapply wp_init_then; [exact Hh|]. intros ar h1 Har Hh1 E. apply wp_bind.
  eapply wp_mono; [apply wp_allocate_placed; [done|done|apply Hsr]| |intros e; by apply halts_same].
  intros p s' Hp. apply (allocated_same rest h) in Hp; [|done]. destruct s' as [h2 w2].
  destruct Hp as (m2 & Hh2 & Hk2 & [[-> He]|(k & [Hk Hplace] & Hf)]); cbn [fst snd] in *.
  { apply wp_ret. exists m2. split; [done|]. left. split; [done|]. split; [done|]. by apply kept_but_null. }
  destruct (sr_granted _ _ Hsr k Hk) as [Hk1 Hk2'].
  rewrite (proj2 (Z.eqb_neq p 0)) by (destruct Hf; lia).
  apply wp_bind, wp_gets, wp_bind, wp_on_world, wp_modify. cbn [fst snd].
  set (w3 := World _ (kern w2) (memcpy p old (copied size old_size) (mem w2)) (errno w2)).
  assert (Hkeeps : req <= realloc_keeps h p k).
  { apply (sized_keeps h p req size k Hsr Hk). intros Hle. eapply placed_slab; [|exact Hle]. by apply (placed_for_same h h1). }
  assert (Hne : p <> old) by (intros ->; by eapply Hf).
  assert (Ho : only_changes p k (mem w2) (mem w3)).
  { intros a Ha. cbn. rewrite memcpy_get. case_decide; [lia|done]. }
  destruct (kept_but_write rest h2 m2 w2 w3 p k Hh2 (fa_block _ _ _ _ _ _ _ _ Hf) Ho eq_refl) as [Hh3 Hk3].
  pose proof (kept_trans _ _ _ _ _ _ _ _ _ _ _ Hk2 Hk3) as Hk13.
  assert (Hold3 : block_at h2 m2 old n) by (by apply (kb_blocks _ _ _ _ _ _ _ _ Hk2)).
  assert (Hr : slab_range h old <-> slab_range h2 old) by (unfold slab_range; by rewrite (kb_region _ _ _ _ _ _ _ _ Hk2)).
  apply wp_bind. rewrite (bool_decide_ext _ _ Hr).
  eapply wp_mono; [eapply wp_release; [exact Hh3|exact Hold3|by apply Hk13]| |by left].
  intros _ [h4 w4] (m4 & Hh4 & Hk4 & Hgone). cbn [fst snd] in *. apply wp_ret. exists m4. split; [done|]. right. exists k.
  split; [done|]. split; [|split; [apply Hf|]].
  { rewrite (realloc_keeps_same h); [done|]. cbn [fst]. by rewrite (kb_region _ _ _ _ _ _ _ _ Hk4), (kb_region _ _ _ _ _ _ _ _ Hk2). }
  split; [apply (kb_blocks _ _ _ _ _ _ _ _ Hk4); [done|apply Hf]|]. split; [|split].
  - cbn [fst snd]. intros i Hi. rewrite min_spec, <- (cf_keeps _ _ _ _ Hcf) in Hi. pose proof (cf_le _ _ _ _ Hcf) as Hle.
    pose proof (sr_req _ _ Hsr) as Hreq.
    rewrite (kb_contents _ _ _ _ _ _ _ _ Hk4 p k (p + i) (fa_block _ _ _ _ _ _ _ _ Hf)) by (done || lia). cbn.
    rewrite memcpy_get, decide_True by lia. replace (old + (p + i - p)) with (old + i) by lia.
    by rewrite (kb_contents _ _ _ _ _ _ _ _ Hk2 old n (old + i) Hold) by (congruence || lia).
  - eapply kept_trans; (eapply kept_weaken; [eassumption|]); cbn; auto.
  - intros _ k'. split; [apply Hf|apply Hgone].
Qed.

(** ** The ways to resize *)

(** The block stays where it is. *)
Lemma reallocated_here rest h m w old n req k h' m' w' :
  heap_ok rest h m w -> heap_ok rest h' m' w' -> block_at h m old n -> block_at h' m' old k ->
  req <= k -> req <= realloc_keeps h' old k ->
  kept_but rest old h m w h' m' w' -> (forall a, old <= a < old + req -> a < old + n -> (mem w').[a] = (mem w).[a]) ->
  realloc_keeps h old n <= n -> reallocated rest h m w old n req old (h', w').
Proof.
  intros Hh Hh' Hb Hb' Hk Hkeeps Hkept Hmem Hle. exists m'. split; [done|]. right. exists k. split; [done|].
  split; [done|]. split; [by eapply block_aligned|]. split; [done|]. split; [|split; [|done]].
  - intros i Hi. rewrite min_spec in Hi. apply Hmem; lia.
  - eapply kept_weaken; [exact Hkept|]. by right.
Qed.

(** Preparations that leave all blocks as they are. *)
Lemma reallocated_before rest h m w h1 w1 old n req p s' :
  kept_except rest (fun _ => False) h m w h1 m w1 -> mem w1 = mem w ->
  reallocated rest h1 m w1 old n req p s' -> reallocated rest h m w old n req p s'.
Proof.
  intros Hk Hm (m' & Hh & Hres). exists m'. split; [done|].
  assert (Hkeeps : realloc_keeps h1 old n = realloc_keeps h old n).
  { assert (Hr : slab_range h1 old <-> slab_range h old) by (unfold slab_range; by rewrite (kb_region _ _ _ _ _ _ _ _ Hk)).
    unfold realloc_keeps. destruct (slab_range_dec h1 old), (slab_range_dec h old); (done || tauto). }
  destruct Hres as [(-> & He & Hk')|(k & Hreq & Hreq' & Hal & Hb & Hc & Hk' & Hnew)]; [left|right].
  - split_and!; try done. by eapply kept_trans.
  - exists k. split_and!; try done.
    + rewrite <- Hkeeps, <- Hm. exact Hc.
    + eapply kept_trans; [|exact Hk']. eapply kept_weaken; [exact Hk|done].
    + intros Hne k'. destruct (Hnew Hne k') as [Hno Hgone]. split; [|done]. intros Hin. apply Hno.
      apply (kb_blocks _ _ _ _ _ _ _ _ Hk); [by intros []|done].
Qed.

Lemma reallocated_null rest h m w old n req ra' w' :
  heap_ok rest h m w -> large_failed (outside rest h) m w (ra', w') -> errno w' = ENOMEM ->
  reallocated rest h m w old n req 0 (set_region_allocator ra' h, w').
Proof.
  intros Hh [Hi Hk] He. exists m. split; [by eapply heap_ok_set_regions|]. left. split; [done|]. split; [done|].
  by eapply kept_large.
Qed.

(** What the large paths did, as an outcome of realloc. *)
Lemma reallocated_large rest h m w old n req guard size p ra' w' :
  heap_ok rest h m w -> ~ slab_range h old -> m !! old = Some (n, guard) -> sized_request req size ->
  realloc_post (outside rest h) m w old n guard size (Reallocated p) (ra', w') ->
  reallocated rest h m w old n req p (set_region_allocator ra' h, w').
Proof.
  intros Hh Hp Hm Hsr Hpost. assert (Hb : block_at h m old n) by (right; by exists guard).
  pose proof (copied_from_large rest h m w old n Hh Hb Hp) as Hcf. pose proof (sr_le _ _ Hsr) as Hle.
  assert (Hkeeps : realloc_keeps h old n <= n) by (rewrite <- (cf_keeps _ _ _ _ Hcf); apply Hcf).
  assert (Hin : forall v q, q <> old -> <[old := v]> m !! q = m !! q) by (intros; by rewrite lookup_insert_ne).
  assert (Hde : forall q, q <> old -> delete old m !! q = m !! q) by (intros; by rewrite lookup_delete_ne).
  destruct Hpost as [(-> & -> & Hi & Hw)|[[Hs [(-> & He & Hf)|(-> & Hi & Hk & Hc)]]|(Hmax & Hgt & _ & Hmv)]]; cbn [fst snd] in *.
  - eapply (reallocated_here rest h m w old n req n _ m); try done; [by eapply heap_ok_set_regions| | | |by intros; rewrite Hw].
    + right. by exists guard.
    + by apply sized_keeps_self.
    + eapply kept_large; [done| |done..]. by intros a _; rewrite Hw.
  - by apply reallocated_null.
  - eapply (reallocated_here rest h m w old n req size _ (<[old := (size, guard)]> m)); try done; [by eapply heap_ok_set_regions|..].
    + right. exists guard. apply lookup_insert_eq.
    + by apply sized_keeps_self.
    + eapply kept_large; [done|exact Hk|exact Hde|exact (Hin _)].
    + intros a Ha _. apply Hc. lia.
  - destruct Hmv as [(-> & He & Hf)|(Hnew & Hpos & Hpage & [Hc _] & g & Hg & Hi & Hk)]; [by apply reallocated_null|].
    cbn [fst snd] in *. assert (Hne : p <> old) by (intros ->; congruence).
    assert (Hl : <[p := (size, g)]> (delete old m) !! p = Some (size, g)) by apply lookup_insert_eq.
    pose proof (heap_ok_set_regions _ _ _ _ _ _ _ Hh Hi) as Hh'.
    eexists. split; [exact Hh'|]. right. exists size. split; [done|]. split; [by apply sized_keeps_self|]. split; [by apply heap_ok_class_of_pages|].
    split; [right; by exists g|]. split; [|split].
    + intros i Hin'. rewrite min_spec in Hin'. apply Hc. lia.
    + eapply kept_large; [done|exact Hk|..]; cbn beta; intros q Hq; [by apply Hde; auto|].
      rewrite lookup_insert_ne by auto. by apply Hde; auto.
    + intros _ k. split; [by eapply large_new|]. intros Hold.
      destruct (outside_large rest _ _ _ _ _ Hh' Hp Hold) as [g' Hg'].
      by rewrite lookup_insert_ne, lookup_delete_eq in Hg'.
Qed.

Lemma wp_realloc_sized rest h m w old n req size :
  heap_ok rest h m w -> block_at h m old n -> guarded h w -> sized_request req size ->
  wp (realloc_sized pthread_atfork old size) (reallocated rest h m w old n req) (allocation_halts h w) (h, w).
Proof.
  intros Hh Hb Hg Hsr. unfold realloc_sized, untag_pointer. cbv zeta. destruct (sr_fits _ _ Hsr) as [Hs0 _].
  apply wp_bind; eapply wp_in_slab_region; [exact Hh|..]; intros Hp.
  - destruct (copied_from_slot _ _ _ _ _ _ Hh Hb Hp) as [Hcf Hsame]. apply wp_bind, wp_gets. cbn [fst].
    pose proof (wp_realloc_copy rest h m w old n req size _ Hh Hb Hg Hsr Hcf) as Hcopy.
    rewrite bool_decide_true in Hcopy by done.
    destruct (Z.leb_spec size max_slab_size_class) as [Hle|]; cbn [andb]; [|done].
    destruct (Z.eqb_spec (si_size (get_size_info size)) (slab_usable_size (slab_region_start h) old)) as [E|]; [|done].
    apply wp_ret. eapply (reallocated_here rest h m w old n req n h m w); try done.
    + apply (sr_granted _ _ Hsr n), Hsame; [lia|done].
    + apply (sized_keeps h old req size n Hsr); [by apply Hsame; [lia|]|done].
    + rewrite <- (cf_keeps _ _ _ _ Hcf). apply Hcf.
  - destruct (outside_large _ _ _ _ _ _ Hh Hp Hb) as [guard Hm]. destruct (ho_large _ _ _ _ Hh) as (ra & Hra & Hinv).
    unfold get_slab_region_end, enforce_init. apply wp_bind, wp_gets. cbn [fst]. rewrite (heap_ok_init _ _ _ _ Hh). cbn [negb].
    apply wp_bind, wp_ret, wp_bind. eapply wp_with_regions; [exact Hra|].
    eapply wp_mono; [apply wp_realloc_large; [exact Hinv|apply Hsr]| |].
    2: { unfold realloc_verdict. rewrite (heap_ok_init _ _ _ _ Hh), Hm. cbn. by left. }
    intros r [ra' w'] (_ & n' & g' & Hm' & Hpost). cbn [fst snd]. rewrite Hm in Hm'. injection Hm' as <- <-.
    destruct r as [p|k]; [by apply wp_ret; eapply reallocated_large|].
    destruct Hpost as (-> & _ & _ & Hi & Hw). cbn [fst snd] in *.
    pose proof (heap_ok_set_regions _ _ _ _ _ _ _ Hh Hi) as Hh'. set (h' := set_region_allocator ra' h) in *.
    assert (Hk : kept_except rest (fun _ => False) h m w h' m w')
      by (eapply kept_large; [done| |done..]; by intros a _; rewrite Hw).
    assert (Hb' : block_at h' m old n) by (apply (kb_blocks _ _ _ _ _ _ _ _ Hk); [by intros []|done]).
    pose proof (wp_realloc_copy rest h' m w' old n req size n Hh' Hb' (kb_guarded _ _ _ _ _ _ _ _ Hk Hg) Hsr
      (copied_from_large _ _ _ _ _ _ Hh' Hb' Hp)) as Hcopy. rewrite bool_decide_false in Hcopy by done.
    eapply wp_mono; [exact Hcopy| |].
    + intros p s'. by apply reallocated_before.
    + intros e [He|(He & Hzf & Hc)]; [by left|right]. split_and!; try done. intros Hc0. apply Hc. by apply Hk.
Qed.

(** A pointer that is no allocation, outside the slab region. *)
Lemma wp_realloc_invalid rest h m w old size :
  heap_ok rest h m w -> ~ slab_range h old -> m !! old = None -> size <= max_slab_size_class \/ large_class size ->
  wp (realloc_sized pthread_atfork old size) (fun _ _ => False) (fun e => e = Fatal "invalid realloc") (h, w).
Proof.
  intros Hh Hp Hm Hsize. destruct (ho_large _ _ _ _ Hh) as (ra & Hra & Hinv). unfold realloc_sized, untag_pointer. cbv zeta.
  apply wp_bind; eapply wp_in_slab_region; [exact Hh|done|]; intros _.
  unfold get_slab_region_end, enforce_init. apply wp_bind, wp_gets. cbn [fst]. rewrite (heap_ok_init _ _ _ _ Hh). cbn [negb].
  apply wp_bind, wp_ret, wp_bind. eapply wp_with_regions; [exact Hra|].
  eapply wp_mono; [by apply wp_realloc_large| |].
  - intros r s' (Hv & _). unfold realloc_verdict in Hv. by rewrite (heap_ok_init _ _ _ _ Hh), Hm in Hv.
  - unfold realloc_verdict. by rewrite (heap_ok_init _ _ _ _ Hh), Hm.
Qed.

Lemma wp_h_realloc rest h m w old n size :
  heap_ok rest h m w -> guarded h w -> fits 64 size -> block_at h m old n ->
  wp (h_realloc pthread_atfork old size) (reallocated rest h m w old n size) (allocation_halts h w) (h, w).
Proof.
  intros Hh Hg Hsize Hb. destruct (block_pos _ _ _ _ _ _ Hh Hb) as [Hpos _]. unfold h_realloc. cbv zeta.
  rewrite (proj2 (Z.eqb_neq old 0)) by lia. rewrite Z.gtb_ltb.
  destruct (Z.ltb_spec max_slab_size_class (adjust_size_for_canary size)) as [Hlt|Hge].
  2: { apply (wp_realloc_sized rest h m w old n); [done..|]. by apply sized_small. }
  destruct (Z.eqb_spec (get_large_size_class (adjust_size_for_canary size)) 0) as [E|Hne].
  + apply wp_bind, wp_on_world, wp_modify, wp_ret. exists m. cbn [fst snd].
    split; [eapply heap_ok_world; [exact Hh|reflexivity]|]. left. split; [done|]. split; [done|]. by apply kept_refl.
  + apply (wp_realloc_sized rest h m w old n); [done..|]. by apply sized_large.
Qed.

(** ** The promise *)

Lemma wp_realloc_too_large old size (s : allocator R * world) :
  old <> 0 -> max_slab_size_class < adjust_size_for_canary size -> get_large_size_class (adjust_size_for_canary size) = 0 ->
  h_realloc pthread_atfork old size s = Ret 0 (fst s, World _ (kern (snd s)) (mem (snd s)) ENOMEM).
Proof.
  intros Hnz Hlt Hcl. unfold h_realloc. cbv zeta. rewrite (proj2 (Z.eqb_neq old 0)) by done.
  by rewrite Z.gtb_ltb, (proj2 (Z.ltb_lt _ _) Hlt), (proj2 (Z.eqb_eq _ _) Hcl).
Qed.

Lemma wp_h_realloc_invalid rest h m w old size :
  heap_ok rest h m w -> fits 64 size -> old <> 0 -> ~ slab_range h old -> (forall k, ~ block_at h m old k) ->
  adjust_size_for_canary size <= max_slab_size_class \/ get_large_size_class (adjust_size_for_canary size) <> 0 ->
  h_realloc pthread_atfork old size (h, w) = Halt (Fatal "invalid realloc").
Proof.
  intros Hh Hsize Hnz Hp Hno Hcl.
  assert (Hm : m !! old = None).
  { destruct (m !! old) as [[k g]|] eqn:E; [|done]. destruct (Hno k). right. by exists g. }
  apply (wp_only_halts _ (Fatal "invalid realloc") (h, w)). unfold h_realloc. cbv zeta.
  rewrite (proj2 (Z.eqb_neq old 0)) by done. rewrite Z.gtb_ltb.
  destruct (Z.ltb_spec max_slab_size_class (adjust_size_for_canary size)) as [Hlt|Hge].
  2: { apply (wp_realloc_invalid rest h m w); try done. by left. }
  destruct (Z.eqb_spec (get_large_size_class (adjust_size_for_canary size)) 0) as [E|Hne]; [destruct Hcl; (lia || done)|].
  apply (wp_realloc_invalid rest h m w); try done. right. pose proof (adjust_fits size Hsize). by eexists.
Qed.

(** C5: realloc, on a heap whose canaries are intact. Of NULL it is malloc. Of an
    allocation of [n] bytes it returns NULL with ENOMEM and everything as it was,
    or an aligned block of at least the requested bytes, at the old address or at
    one where no block was, with the contents of the old block up to the smaller
    of the sizes. One exception is the code's: of a large block that is no larger
    than the greatest small class, the last [canary_size] bytes may be lost. The
    old block is gone if the new one is elsewhere, and all other allocations, their
    contents and the rest of the process are kept. A size that no class holds
    gives NULL with ENOMEM, whatever the pointer, and changes nothing but errno;
    otherwise a pointer outside the slab region that is no allocation aborts. *)
Theorem h_realloc_ok rest h m w old n size :
  heap_ok rest h m w -> guarded h w -> fits 64 size ->
  h_realloc pthread_atfork 0 size = h_malloc pthread_atfork size /\
  (block_at h m old n ->
     wp (h_realloc pthread_atfork old size)
        (fun p s' => exists m', heap_ok rest (fst s') m' (snd s') /\
           (p = 0 /\ errno (snd s') = ENOMEM /\ kept_except rest (fun _ => False) h m w (fst s') m' (snd s') \/
            exists k, size <= k /\ (min_align | p) /\ block_at (fst s') m' p k /\
              (forall i, 0 <= i < size -> i < n ->
                 slab_range h old \/ max_slab_size_class < n \/ i < n - canary_size ->
                 (mem (snd s')).[p + i] = (mem w).[old + i]) /\
              kept_except rest (fun q => q = p \/ q = old) h m w (fst s') m' (snd s') /\
              (p <> old -> forall k, ~ block_at h m p k /\ ~ block_at (fst s') m' old k)))
        (allocation_halts h w) (h, w)) /\
  (old <> 0 -> max_slab_size_class < adjust_size_for_canary size -> get_large_size_class (adjust_size_for_canary size) = 0 ->
     h_realloc pthread_atfork old size (h, w) = Ret 0 (h, World _ (kern w) (mem w) ENOMEM)) /\
  (old <> 0 -> ~ slab_range h old -> (forall k, ~ block_at h m old k) ->
     adjust_size_for_canary size <= max_slab_size_class \/ get_large_size_class (adjust_size_for_canary size) <> 0 ->
     h_realloc pthread_atfork old size (h, w) = Halt (Fatal "invalid realloc")).
Proof.
  intros Hh Hg Hsize. split; [done|]. split; [|split].
  - intros Hb. eapply wp_conseq; [by apply (wp_h_realloc rest h m w old n)|].
    intros p s' (m' & Hh' & [Hnull|(k & Hk & _ & Hal & Hb' & Hc & Hrest)]); exists m'; (split; [done|]); [by left|right].
    exists k. do 3 (split; [done|]). split; [|exact Hrest]. intros i Hi Hn Hor. apply Hc. rewrite min_spec.
    pose proof (keeps_reaches rest h m w old n i Hh Hb Hn Hor). lia.
  - intros Hnz Hlt Hcl. by apply (wp_realloc_too_large old size (h, w)).
  - intros. by apply (wp_h_realloc_invalid rest h m).
Qed.
End Spec.

(** ** Witness *)

Section Witnesses.
#[local] Existing Instances default_config demo_platform.

(** The block of 100 bytes is resized to 5000: the first 100 bytes stay. *)
Lemma h_realloc_ok_witness :
  exists n m, 100 <= n /\ block_at (fst (snd demo_malloc)) m demo_ptr n /\
    wp (h_realloc no_atfork demo_ptr 5000)
       (fun p s' => p = 0 \/ exists k m', 5000 <= k /\ block_at (fst s') m' p k /\
          forall i, 0 <= i < 100 -> (mem (snd s')).[p + i] = (mem (snd (snd demo_malloc))).[demo_ptr + i])
       (allocation_halts (fst (snd demo_malloc)) (snd (snd demo_malloc))) (fst (snd demo_malloc), snd (snd demo_malloc)).
Proof.
  destruct demo_malloc_ok as (n & Hn & [(m & Hh & Hb) Hg _]). exists n, m. assert (Hs : fits 64 5000) by (by split).
  split; [exact Hn|]. split; [exact Hb|].
  pose proof (proj1 (andb_true_iff _ _) demo_ptr_small) as [Hlo%Z.leb_le Hhi%Z.ltb_lt].
  pose proof (proj1 (proj2 (h_realloc_ok no_atfork demo_rest (fst (snd demo_malloc)) m (snd (snd demo_malloc)) demo_ptr n 5000 Hh Hg Hs)) Hb) as Hw.
  eapply wp_conseq; [exact Hw|]. intros p s' (m' & _ & [(Hp & _)|(k & Hk & _ & Hb' & Hc & _)]); [left; exact Hp|right].
  exists k, m'. split; [exact Hk|]. split; [exact Hb'|]. intros i Hi. apply Hc; [lia|lia|]. left. exact (conj Hlo Hhi).
Defined.
End Witnesses.
