(* ===== verification/AlignedSpec.v ===== *)
(** What the aligned allocation functions and free_aligned_sized promise, on the whole
    allocator. *)

From S2P Require Import Prelude Config Util SizeClass Kernel Maps Pages RandomSource SlabMeta Slab SlabInv SlabRegion SlabAlloc SlabQuarantine SlabFree SlabCanary Regions Large LargeInv LargeAlloc LargeFree LargeRealloc Allocator Malloc AllocatorInv AllocatorAlloc AllocatorFree Requests InitSpec MallocSpec FreeSpec ReallocSpec.

(** ** Alignments *)

(** The test of [allocate_aligned]: a power of 2, or 0. *)
Lemma power_of_2_test a :
  fits 64 a -> Z.land (u64 (a - 1)) a = 0 <-> a = 0 \/ exists k, 0 <= k < 64 /\ a = 2 ^ k.
Proof.
  intros [H0 H1]. destruct (decide (a = 0)) as [->|Hne]; [split; [by left|done]|].
  rewrite wrap_small by (split; lia). pose proof (Z.log2_spec a ltac:(lia)) as [Hlo Hhi]. set (k := Z.log2 a) in *.
  assert (Hk : 0 <= k < 64) by (split; [apply Z.log2_nonneg|apply Z.log2_lt_pow2; lia]).
  split.
  - intros E. right. exists k. split; [done|]. pose proof (pow2_pos k (proj1 Hk)) as Hpk. destruct (decide (a = 2 ^ k)) as [|Hneq]; [done|]. exfalso.
    assert (Hb : Z.testbit (Z.land (a - 1) a) k = true); [|by rewrite E, Z.bits_0 in Hb].
    rewrite Z.land_spec. apply andb_true_iff. split; [|apply Z.bit_log2; lia].
    replace k with (Z.log2 (a - 1)); [apply Z.bit_log2; lia|]. apply Z.log2_unique; lia.
  - intros [|(j & Hj & ->)]; [done|]. replace (2 ^ j - 1) with (Z.ones j) by (rewrite Z.ones_equiv; lia).
    rewrite Z.land_comm, Z.land_ones by lia. by apply Z_mod_same_full.
Qed.

(** What posix_memalign takes for an alignment. *)
Lemma posix_alignment a :
  fits 64 a ->
  (exists k, 3 <= k < 64 /\ a = 2 ^ k) \/ ~ exists k, 0 <= k < 64 /\ a = 2 ^ k /\ sizeof_pointer <= a.
Proof.
  intros Ha. destruct (decide (Z.land (u64 (a - 1)) a = 0 /\ sizeof_pointer <= a)) as [[E Hs]|Hno]; [left|right].
  - apply power_of_2_test in E as [->|(k & Hk & ->)]; [done| |done]. exists k. split; [|done]. split; [|lia].
    change sizeof_pointer with (2 ^ 3) in Hs. apply (Z.pow_le_mono_r_iff 2); lia.
  - intros (k & Hk & -> & Hs). apply Hno. split; [|done]. apply power_of_2_test; [done|right]. by exists k.
Qed.

Lemma get_size_info_at {Cfg : Config} {Cok : ConfigOk Cfg} d :
  1 <= d < N_SIZE_CLASSES -> si_class (get_size_info (size_classes_at d)) = d.
Proof.
  intros Hd. assert (Hd0 : 0 <= d < N_SIZE_CLASSES) by lia. pose proof (size_classes_at_le d Hd0) as Hle.
  assert (H0 : 0 <= 0 < d) by lia. pose proof (size_classes_at_mono 0 d H0 (proj2 Hd)) as Hpos.
  rewrite (size_classes_at_tiny 0) in Hpos by lia. assert (Hr : 0 < size_classes_at d <= max_slab_size_class) by lia.
  destruct (get_size_info_class _ Hr) as (Hc & Ht & Hlo & Hhi). rewrite <- Ht in Hhi.
  set (c := si_class (get_size_info (size_classes_at d))) in *.
  destruct (Z.lt_total c d) as [Hlt|[|Hlt]]; [|done|].
  - assert (Hcd : 0 <= c < d) by lia. pose proof (size_classes_at_mono c d Hcd (proj2 Hd)). lia.
  - destruct (decide (c - 1 = d)) as [E|Hne]; [rewrite E in Hlo; lia|].
    assert (Hdc : 0 <= d < c - 1) by lia. assert (Hc1 : c - 1 < N_SIZE_CLASSES) by lia.
    pose proof (size_classes_at_mono d (c - 1) Hdc Hc1). lia.
Qed.

(** ** The size class of an aligned request *)

Section AlignedSize.
Context {Cfg : Config} {Cok : ConfigOk Cfg}.

(** The search for it looks at no state. *)
Lemma get_size_info_align_pure {S T} sz a (s : S) (t : T) i : get_size_info_align sz a s = Ret i s -> get_size_info_align sz a t = Ret i t.
Proof.
  unfold get_size_info_align. cbv zeta. set (c := if _ =? 0 then 1 else _). generalize (Z.to_nat (N_SIZE_CLASSES - c)). intros n.
  generalize c. clear c. induction n as [|n IH]; intros c; cbn [get_size_info_align_loop]; [done|].
  destruct (_ && _); [|apply IH]. unfold ret. by intros [= ->].
Qed.

(** The size that a request of [req] bytes aligned to [a], at most a page, is
    rounded up to before the allocation. *)
Definition aligned_size_of (a req : Z) : Z :=
  if (req <=? max_slab_size_class) && (a >? min_align)
  then match get_size_info_align req a tt with Ret i _ => si_size i | Halt _ => 0 end
  else req.

Lemma aligned_size_run {S} k req (s : S) :
  fits 64 req -> 0 <= k <= PAGE_SHIFT ->
  (if (req <=? max_slab_size_class) && (2 ^ k >? min_align)
   then let* info := get_size_info_align req (2 ^ k) in ret (si_size info) else ret req) s = Ret (aligned_size_of (2 ^ k) req) s /\
  (req <= max_slab_size_class -> 2 ^ k > min_align ->
     exists d, 1 <= d < N_SIZE_CLASSES /\ get_size_info_align req (2 ^ k) s = Ret (SizeInfo (size_classes_at d) d) s /\
       aligned_size_of (2 ^ k) req = size_classes_at d /\ req <= size_classes_at d /\ (2 ^ k | size_classes_at d)).
Proof.
  intros [H0 H1] Hk. unfold aligned_size_of. rewrite Z.gtb_ltb.
  destruct (Z.leb_spec req max_slab_size_class) as [Hle|Hgt]; cbn [andb]; [|by split; [|lia]].
  destruct (Z.ltb_spec min_align (2 ^ k)) as [Hlt|Hge]; [|by split; [|lia]].
  destruct (get_size_info_align_run req k s) as (d & Hd & Hrun & Hreq & Hdiv & _); [lia|done|].
  rewrite (get_size_info_align_pure _ _ s tt _ Hrun). unfold bind. rewrite Hrun. split; [done|]. intros _ _. exists d. split_and!; (done || lia).
Qed.
End AlignedSize.

Section Spec.
Context {Cfg : Config} {Cok : ConfigOk Cfg} {K : Kernel} {Kok : KernelOk K} {R : Type}.
Context `{!RandomSource R} `{!RandomSourceOk R} `{!Platform}.
Context (pthread_atfork : AM (R := R) bool).
Implicit Types (h : allocator R) (m : gmap Z (Z * Z)) (w : world) (rest : Z -> Prop).

(** The block at [p] is one that a request of [req] bytes, canary included, with
    the alignment [a] is given. *)
Definition sized_aligned_for h m p a req : Prop :=
  if slab_range_dec h p then
    a <= PAGE_SIZE /\ req <= max_slab_size_class /\ block_at h m p (slot_usable (si_class (get_size_info (aligned_size_of a req))))
  else block_at h m p (get_large_size_class req).

(** The outcome of an aligned request: ENOMEM and nothing stored, or a new block. *)
Definition aligned_result rest h m w (alignment size : Z) (r : Z * option Z) (s' : allocator R * world) : Prop :=
  exists m', heap_ok rest (fst s') m' (snd s') /\
    (r = (ENOMEM, None) /\ kept_except rest (fun _ => False) h m w (fst s') m' (snd s') \/
     exists p n, r = (0, Some p) /\ (alignment | p) /\ size <= n /\ size <= realloc_keeps h p n /\ kept_but rest p h m w (fst s') m' (snd s') /\
       fresh_at p n h m (mem w) (fst s') m' (mem (snd s')) /\
       sized_aligned_for (fst s') m' p alignment (adjust_size_for_canary size)).

(** The size with which the request goes to [allocate]. *)
Lemma aligned_size h k req :
  fits 64 req -> 0 <= k <= PAGE_SHIFT ->
  let size := aligned_size_of (2 ^ k) req in
  fits 64 size /\ (forall n, granted size n -> granted req n \/ exists d, 1 <= d < N_SIZE_CLASSES /\ size = size_classes_at d /\ req <= size /\ n = slot_usable d) /\
  (forall p, placed_for h size p -> (min_align | p) -> (2 ^ k | p) /\ (req <= max_slab_size_class -> slab_range h p)).
Proof.
  intros Hreq Hk. destruct (aligned_size_run k req tt Hreq Hk) as [_ Hsmall]. destruct Hreq as [H0 H1].
  unfold placed_for. pose proof max_slab_size_class_bounds as Hmax. cbv zeta.
  destruct (Z.le_gt_cases req max_slab_size_class) as [Hle|Hgt].
  - destruct (Z.lt_ge_cases min_align (2 ^ k)) as [Hlt|Hge].
    + destruct (Hsmall Hle ltac:(lia)) as (d & Hd & _ & -> & Hrd & Hdiv).
      assert (Hd0 : 0 <= d < N_SIZE_CLASSES) by lia. pose proof (size_classes_at_le d Hd0) as Hsz.
      split; [split; lia|]. rewrite (proj2 (Z.leb_le _ _)) by lia. rewrite get_size_info_at by done. split.
      * intros n Hn. right. exists d. split; [done|]. split; [done|]. split; [done|]. unfold granted in Hn.
        rewrite (proj2 (Z.leb_le _ _)) in Hn by lia. by rewrite get_size_info_at in Hn.
      * intros p [Hp Hr] _. split; [|done]. apply Hp; [done|]. unfold slot_size. destruct (Z.eqb_spec (size_classes_at d) 0) as [E|]; [|done].
        assert (H00 : 0 <= 0 < d) by lia. pose proof (size_classes_at_mono 0 d H00 (proj2 Hd)) as Hm.
        rewrite (size_classes_at_tiny 0) in Hm by lia. lia.
    + unfold aligned_size_of. rewrite Z.gtb_ltb, (proj2 (Z.ltb_ge _ _)), andb_false_r by done. split; [split; lia|]. split; [by left|].
      rewrite (proj2 (Z.leb_le _ _)) by lia. intros p [_ Hr] Hp. split; [|done]. eapply Z.divide_trans; [|exact Hp]. unfold min_align in *.
      exists (2 ^ (4 - k)). assert (Hk4 : k <= 4) by (apply (Z.pow_le_mono_r_iff 2); lia).
      rewrite <- Z.pow_add_r by lia. by replace (4 - k + k) with 4 by lia.
  - unfold aligned_size_of. rewrite (proj2 (Z.leb_gt _ _)) by done. cbn [andb]. split; [split; lia|]. split; [by left|].
    rewrite (proj2 (Z.leb_gt _ _)) by done. intros p Hp _. split; [|lia]. eapply Z.divide_trans; [|exact Hp]. unfold PAGE_SHIFT in Hk. rewrite PAGE_SIZE_eq.
    exists (2 ^ (12 - k)). rewrite <- Z.pow_add_r by lia. by replace (12 - k + k) with 12 by lia.
Qed.

(** The adjusted request is granted at least the requested bytes. *)
Lemma aligned_request req n :
  fits 64 req ->
  granted (adjust_size_for_canary req) n \/
    (exists d, 1 <= d < N_SIZE_CLASSES /\ adjust_size_for_canary req <= size_classes_at d /\ n = slot_usable d) ->
  req <= n.
Proof.
  intros Hreq [Hn|(d & Hd & Hle & ->)]; [by apply granted_request|].
  assert (Hd0 : 0 <= d < N_SIZE_CLASSES) by lia. rewrite slot_usable_pos by lia.
  pose proof (size_classes_at_le d Hd0). pose proof canary_size_bounds.
  assert (H00 : 0 <= 0 < d) by lia. pose proof (size_classes_at_mono 0 d H00 (proj2 Hd)) as Hpos.
  rewrite (size_classes_at_tiny 0) in Hpos by lia. unfold slot_size. rewrite (proj2 (Z.eqb_neq _ _)) by lia.
  unfold adjust_size_for_canary in Hle. pose proof (slot_usable_bounds d Hd0) as Hb. rewrite slot_usable_pos in Hb by lia.
  pose proof max_slab_size_class_bounds. unfold slot_size in Hb. rewrite (proj2 (Z.eqb_neq _ _)) in Hb by lia.
  destruct Hreq, (Z.ltb_spec 0 req), (Z.leb_spec req max_slab_size_class); cbn [andb] in Hle; try lia.
  rewrite wrap_small in Hle by (split; lia). lia.
Qed.

(** A block for a request with an alignment serves the request. *)
Lemma aligned_serves h k req p n :
  fits 64 req -> 0 <= k <= PAGE_SHIFT ->
  let size := aligned_size_of (2 ^ k) (adjust_size_for_canary req) in
  granted size n -> placed_for h size p -> (min_align | p) -> req <= n /\ req <= realloc_keeps h p n /\ (2 ^ k | p).
Proof.
  intros Hreq Hk size Hn Hp Hal. pose proof (adjust_fits req Hreq) as Hsize.
  destruct (aligned_size h k (adjust_size_for_canary req) Hsize Hk) as (_ & Hgrant & Hplace).
  destruct (Hplace p Hp Hal) as [Hdiv Hslab].
  assert (Hreq' : req <= n) by (apply aligned_request; [done|]; destruct (Hgrant n Hn) as [|(d & Hd & E & Hle & ->)]; [by left|right; exists d; by rewrite <- E]).
  split; [done|]. split; [|done]. destruct (Hgrant n Hn) as [Hn'|(d & Hd & E & Hle & _)]; [by apply granted_keeps|]. rewrite E in Hle.
  assert (Hd0 : 0 <= d < N_SIZE_CLASSES) by lia. pose proof (size_classes_at_le d Hd0). unfold realloc_keeps.
  destruct (slab_range_dec h p) as [|Hout]; [done|]. destruct Hout. apply Hslab. lia.
Qed.

(** What is granted for a request with an alignment is what a sized free of it
    accepts. *)
Lemma placed_sized_aligned rest h m w p k req n :
  heap_ok rest h m w -> block_at h m p n -> 2 ^ k <= PAGE_SIZE -> fits 64 req -> 0 <= k <= PAGE_SHIFT ->
  granted (aligned_size_of (2 ^ k) req) n -> placed_for h (aligned_size_of (2 ^ k) req) p -> (min_align | p) ->
  sized_aligned_for h m p (2 ^ k) req.
Proof.
  intros Hh Hb Hpage Hreq Hk Hg Hp Hal. pose proof (granted_sized rest h m w p _ n Hh Hb Hg Hp) as Hs.
  destruct (aligned_size h k req Hreq Hk) as (_ & _ & Hplace). destruct (Hplace p Hp Hal) as [_ Hslab].
  unfold sized_for, sized_aligned_for in *. destruct (slab_range_dec h p) as [Hr|Hr].
  - destruct Hs as [Hle Hs]. split; [done|]. split; [|done].
    destruct (Z.le_gt_cases req max_slab_size_class) as [|Hgt]; [done|]. revert Hle. unfold aligned_size_of.
    rewrite (proj2 (Z.leb_gt _ _)) by done. cbn [andb]. lia.
  - revert Hs. unfold aligned_size_of. destruct (Z.leb_spec req max_slab_size_class) as [Hle|Hgt]; [by destruct Hr; apply Hslab|done].
Qed.

Lemma wp_allocate_aligned rest h m w ar k req min_alignment :
  heap_ok rest h m w -> 0 <= ar < N_ARENA -> fits 64 req -> 0 <= k < 64 -> min_alignment <= 2 ^ k ->
  wp (allocate_aligned ar (2 ^ k) (adjust_size_for_canary req) min_alignment)
     (aligned_result rest h m w (2 ^ k) req) (allocation_halts h w) (h, w).
Proof.
  intros Hh Har Hreq Hk Hmin. pose proof (adjust_fits req Hreq) as Hsize. pose proof (pow2_pos k (proj1 Hk)) as Hpk.
  assert (Hk64 : 2 ^ k < 2 ^ 64) by (apply Z.pow_lt_mono_r; lia). unfold allocate_aligned.
  rewrite (proj2 (power_of_2_test (2 ^ k) ltac:(split; lia)) ltac:(right; by exists k)). cbn [Z.eqb negb orb].
  rewrite (proj2 (Z.ltb_ge _ _)) by lia. destruct (Z.leb_spec (2 ^ k) PAGE_SIZE) as [Hle|Hgt].
  - assert (Hk12 : 0 <= k <= PAGE_SHIFT).
    { split; [lia|]. change PAGE_SIZE with (2 ^ 12) in Hle. apply (Z.pow_le_mono_r_iff 2); unfold PAGE_SHIFT; lia. }
    destruct (aligned_size h k (adjust_size_for_canary req) Hsize Hk12) as (Hfit & _ & _).
    set (size := aligned_size_of (2 ^ k) (adjust_size_for_canary req)) in *.
    apply wp_bind. unfold wp at 1. rewrite (proj1 (aligned_size_run k _ (h, w) Hsize Hk12)). fold size. apply wp_bind.
    eapply wp_conseq; [by apply wp_allocate_placed|]. intros p s' (m' & Hh' & Hkept & Hres). destruct Hres as [[-> _]|(n & [Hn Hp] & Hf)].
    + apply wp_ret. exists m'. split; [done|]. left. split; [done|]. by eapply kept_but_null.
    + rewrite (proj2 (Z.eqb_neq p 0)) by (destruct Hf; lia). apply wp_ret. exists m'. split; [done|]. right. exists p, n.
      destruct (aligned_serves h k req p n Hreq Hk12 Hn Hp (fa_align _ _ _ _ _ _ _ _ Hf)) as (Hreq' & Hkeeps & Hdiv).
      do 5 (split; [done|]). split; [done|]. eapply placed_sized_aligned; [done|apply Hf|done..| | |apply Hf].
      * exact Hn.
      * by eapply placed_for_start; [apply (kb_region _ _ _ _ _ _ _ _ Hkept)|].
  - destruct (ho_large _ _ _ _ Hh) as (ra & Hra & Hinv). eapply wp_with_regions; [exact Hra|].
    eapply wp_mono; [apply (wp_allocate_aligned_large _ ra m w k _ Hinv Hsize)| |by left].
    { split; [|lia]. apply Z.lt_le_incl, (Z.pow_lt_mono_r_iff 2); [lia..|]. by change PAGE_SIZE with (2 ^ 12) in Hgt. }
    intros r [ra' w'] [(-> & Hi & Hkm)|(p & -> & Hdiv & Hm & Hp & Hpage & Hz & g & Hg & Hi & Hkm & _)]; cbn [fst snd] in *.
    + exists m. split; [by eapply heap_ok_set_regions|]. left. split; [done|]. by eapply kept_large.
    + pose proof (heap_ok_set_regions _ _ _ _ _ _ _ Hh Hi) as Hh'. eexists. split; [exact Hh'|]. right.
      exists p, (get_large_size_class (adjust_size_for_canary req)). assert (Hbig : adjust_size_for_canary req <= get_large_size_class (adjust_size_for_canary req) /\ fits 64 (get_large_size_class (adjust_size_for_canary req))).
      { destruct (large_class_holds _ Hsize) as [E|]; [|split; [lia|split; lia]].
        destruct (lb_held _ _ _ _ _ _ (proj2 Hi) p _ g (lookup_insert_eq _ _ _)) as [[] _]. lia. }
      split; [done|]. split; [done|]. split; [|split; [|split; [|split]]].
      * pose proof (adjust_ge req Hreq). lia.
      * apply large_keeps; [done|by eexists|apply Hbig..].
      * eapply kept_large; [done|exact Hkm|done|]. intros q Hq. by rewrite lookup_insert_ne by auto.
      * by apply (large_fresh rest).
      * unfold sized_aligned_for. destruct (slab_range_dec _ p) as [Hr|]; [|right; exists g; apply lookup_insert_eq]. exfalso.
        eapply (large_range rest _ _ _ p _ g p Hh'); [apply lookup_insert_eq| |by right].
        destruct (lb_held _ _ _ _ _ _ (proj2 Hi) p _ g (lookup_insert_eq _ _ _)) as [[] _]. lia.
Qed.

Lemma wp_alloc_aligned rest h m w k size min_alignment :
  heap_ok rest h m w -> fits 64 size -> 0 <= k < 64 -> min_alignment <= 2 ^ k ->
  wp (alloc_aligned pthread_atfork (2 ^ k) size min_alignment)
     (aligned_result rest h m w (2 ^ k) size) (allocation_halts h w) (h, w).
Proof.
  intros Hh Hsize Hk Hmin. unfold alloc_aligned. eapply wp_init_then; [exact Hh|]. intros ar h1 Har Hh1 E. cbv zeta.
  eapply wp_mono; [by apply (wp_allocate_aligned rest h1 m w)| |intros e; by apply halts_same].
  intros r s' (m' & Hh' & Hres). exists m'. split; [done|].
  destruct Hres as [[-> Hkept]|(p & n & -> & Hd & Hn & Hkeep & Hkept & Hf & Hsa)]; [left|right].
  - split; [done|]. by eapply kept_same.
  - exists p, n. do 3 (split; [done|]). split; [by rewrite <- (realloc_keeps_same h h1) by apply E|].
    split; [by eapply kept_same|]. split; [by eapply fresh_same|done].
Qed.

(** Alignments that are refused. *)
Lemma wp_alloc_aligned_invalid rest h m w alignment size min_alignment (E : halt -> Prop) :
  heap_ok rest h m w -> fits 64 alignment -> 0 < min_alignment ->
  ~ (exists k, 0 <= k < 64 /\ alignment = 2 ^ k /\ min_alignment <= alignment) ->
  wp (alloc_aligned pthread_atfork alignment size min_alignment)
     (fun r s' => r = (EINVAL, None) /\ heap_ok rest (fst s') m (snd s') /\
        kept_except rest (fun _ => False) h m w (fst s') m (snd s')) E (h, w).
Proof.
  intros Hh Ha Hmin Hno. unfold alloc_aligned, allocate_aligned. eapply wp_init_then; [exact Hh|]. intros ar h1 Har Hh1 Es. cbv zeta.
  assert (Hdone : (EINVAL, None : option Z) = (EINVAL, None) /\ heap_ok rest h1 m w /\ kept_except rest (fun _ => False) h m w h1 m w).
  { split; [done|]. split; [done|]. eapply kept_same; [exact Es|]. by apply kept_refl. }
  destruct (Z.eqb_spec (Z.land (u64 (alignment - 1)) alignment) 0) as [E0|]; cbn [negb orb]; [|by apply wp_ret].
  destruct (Z.ltb_spec alignment min_alignment) as [|Hge]; [by apply wp_ret|]. destruct Hno.
  apply power_of_2_test in E0 as [|(k & Hk & ->)]; [lia|by exists k|done].
Qed.

(** ** The promise *)

(** ** Sized deallocation with an alignment *)

(** The size that free_aligned_sized expects of the slot. *)
Lemma aligned_expected {S} k req (s : S) :
  fits 64 req -> 0 <= k <= PAGE_SHIFT -> req <= max_slab_size_class ->
  (if 2 ^ k >? min_align then let* info := get_size_info_align req (2 ^ k) in ret (si_size info)
   else ret (si_size (get_size_info req))) s = Ret (si_size (get_size_info (aligned_size_of (2 ^ k) req))) s.
Proof.
  intros Hreq Hk Hle. destruct (aligned_size_run k req s Hreq Hk) as [_ Hsmall]. rewrite Z.gtb_ltb.
  destruct (Z.ltb_spec min_align (2 ^ k)) as [Hlt|Hge].
  - destruct (Hsmall Hle ltac:(lia)) as (d & Hd & Hrun & -> & _ & _). unfold bind. rewrite Hrun. unfold ret. f_equal. cbn [si_size].
    assert (Hd0 : 0 <= d < N_SIZE_CLASSES) by lia. pose proof (size_classes_at_le d Hd0) as Hm. assert (H00 : 0 <= 0 < d) by lia.
    pose proof (size_classes_at_mono 0 d H00 (proj2 Hd)) as Hpos. rewrite (size_classes_at_tiny 0) in Hpos by lia.
    assert (Hr : 0 < size_classes_at d <= max_slab_size_class) by lia. destruct (get_size_info_class _ Hr) as (_ & Ht & _).
    rewrite <- Ht. by rewrite get_size_info_at.
  - unfold aligned_size_of. by rewrite Z.gtb_ltb, (proj2 (Z.ltb_ge _ _)), andb_false_r by done.
Qed.

(** The message with which free_aligned_sized must abort, if any. *)
Definition free_aligned_error h m w p a req : option string :=
  if slab_range_dec h p then
    if a >? PAGE_SIZE then Some "invalid sized deallocation alignment (small)"%string else
    if req >? max_slab_size_class then Some "sized deallocation mismatch (small)"%string else
    slot_error h w p (Some (si_size (get_size_info (aligned_size_of a req))))
  else large_verdict (slab_region_end h) m p (Some req).

Lemma aligned_size_le k req : fits 64 req -> 0 <= k <= PAGE_SHIFT -> req <= max_slab_size_class ->
  fits 64 (aligned_size_of (2 ^ k) req) /\ aligned_size_of (2 ^ k) req <= max_slab_size_class.
Proof.
  intros Hreq Hk Hle. destruct (aligned_size_run k req tt Hreq Hk) as [_ Hsmall].
  destruct (Z.lt_ge_cases min_align (2 ^ k)) as [Hlt|Hge].
  - destruct (Hsmall Hle ltac:(lia)) as (d & Hd & _ & -> & Hrd & _). assert (Hd0 : 0 <= d < N_SIZE_CLASSES) by lia.
    pose proof (size_classes_at_le d Hd0). pose proof max_slab_size_class_bounds. destruct Hreq. split; [split|]; lia.
  - unfold aligned_size_of. by rewrite Z.gtb_ltb, (proj2 (Z.ltb_ge _ _)), andb_false_r by done.
Qed.

Lemma free_aligned_error_spec rest h m w p k req :
  heap_ok rest h m w -> fits 64 req -> 0 <= k < 64 ->
  free_aligned_error h m w p (2 ^ k) req = None <-> sized_aligned_for h m p (2 ^ k) req /\ canaries_intact h w p.
Proof.
  intros Hh Hreq Hk. unfold free_aligned_error, sized_aligned_for. rewrite !Z.gtb_ltb. destruct (slab_range_dec h p) as [Hp|Hp].
  - destruct (Z.ltb_spec PAGE_SIZE (2 ^ k)) as [|Hpage]; [by split; [|intros [[? _] _]; lia]|].
    destruct (Z.ltb_spec max_slab_size_class req) as [|Hle]; [by split; [|intros [(_ & ? & _) _]; lia]|].
    assert (Hk12 : 0 <= k <= PAGE_SHIFT).
    { split; [lia|]. change PAGE_SIZE with (2 ^ 12) in Hpage. apply (Z.pow_le_mono_r_iff 2); unfold PAGE_SHIFT; lia. }
    destruct (aligned_size_le k req Hreq Hk12 Hle) as [Hfit Hmax].
    pose proof (free_error_sized rest h m w p (aligned_size_of (2 ^ k) req) Hh Hfit (fun _ => Hmax)) as Hs.
    unfold free_error, sized_for in Hs. destruct (slab_range_dec h p); [|done]. tauto.
  - assert (Hin : slab_range h p -> req <= max_slab_size_class) by done.
    pose proof (free_error_sized rest h m w p req Hh Hreq Hin) as Hs.
    unfold free_error, sized_for in Hs. by destruct (slab_range_dec h p).
Qed.

Lemma wp_h_free_aligned_sized rest h m w p k size :
  heap_ok rest h m w -> p <> 0 -> fits 64 size -> 0 <= k < 64 ->
  let error := free_aligned_error h m w p (2 ^ k) (adjust_size_for_canary size) in
  wp (h_free_aligned_sized p (2 ^ k) size) (fun _ s' => error = None /\ given_back rest h m w p s') (verdict_halts error) (h, w).
Proof.
  intros Hh Hp Hsize Hk. pose proof (fun e => wp_free_any rest h m w p e (Some (adjust_size_for_canary size)) Hh) as Hany.
  unfold h_free_aligned_sized, untag_pointer, free_aligned_error, free_error in *. rewrite (proj2 (Z.eqb_neq _ _) Hp). cbv zeta in *.
  pose proof (adjust_fits size Hsize) as Hreq. set (req := adjust_size_for_canary size) in *.
  assert (Hk64 : 0 < 2 ^ k < 2 ^ 64) by (split; [apply pow2_pos; lia|apply Z.pow_lt_mono_r; lia]).
  rewrite (proj2 (power_of_2_test (2 ^ k) ltac:(split; lia)) ltac:(right; by exists k)). cbn [Z.eqb negb orb].
  apply wp_bind; eapply wp_in_slab_region; [done|..]; intros Hr; destruct (slab_range_dec h p) as [Hp'|Hp']; try done.
  - destruct (_ >? PAGE_SIZE) eqn:Epage; [by apply wp_fatal|]. destruct (_ >? max_slab_size_class) eqn:Emax; [by apply wp_fatal|].
    rewrite Z.gtb_ltb in Epage, Emax. apply Z.ltb_ge in Epage, Emax.
    assert (Hk12 : 0 <= k <= PAGE_SHIFT).
    { split; [lia|]. change PAGE_SIZE with (2 ^ 12) in Epage. apply (Z.pow_le_mono_r_iff 2); unfold PAGE_SHIFT; lia. }
    apply wp_bind. unfold wp at 1. rewrite aligned_expected by done.
    specialize (Hany (Some (si_size (get_size_info (aligned_size_of (2 ^ k) req))))).
    unfold wp, bind in Hany. by rewrite (in_slab_region_run rest h m w p Hh), bool_decide_true in Hany.
  - specialize (Hany None). unfold wp, bind in Hany. by rewrite (in_slab_region_run rest h m w p Hh), bool_decide_false in Hany.
Qed.

(** C10: posix_memalign refuses, with EINVAL and nothing stored or allocated,
    exactly the alignments that are no power of 2 of at least the size of a
    pointer. For the others it returns ENOMEM with nothing stored and every
    allocation as before, or stores a new block of at least the requested bytes
    that is aligned as asked, whichever component serves the request and however
    large the alignment; all other allocations and their contents are kept. *)
Theorem h_posix_memalign_ok rest h m w alignment size :
  heap_ok rest h m w -> fits 64 alignment -> fits 64 size ->
  wp (h_posix_memalign pthread_atfork alignment size)
     (fun r s' =>
        (r = (EINVAL, None) <-> ~ exists k, 3 <= k < 64 /\ alignment = 2 ^ k) /\
        (r = (EINVAL, None) -> exists m', heap_ok rest (fst s') m' (snd s') /\
           kept_except rest (fun _ => False) h m w (fst s') m' (snd s')) /\
        (r <> (EINVAL, None) -> aligned_result rest h m w alignment size r s'))
     (allocation_halts h w) (h, w).
Proof.
  intros Hh Ha Hsize. unfold h_posix_memalign.
  destruct (posix_alignment alignment Ha) as [(k & Hk & ->)|Hno].
  - assert (Hmin : sizeof_pointer <= 2 ^ k) by (change sizeof_pointer with (2 ^ 3); apply Z.pow_le_mono_r; lia).
    assert (Hk0 : 0 <= k < 64) by lia.
    eapply wp_conseq; [by apply (wp_alloc_aligned rest h m w k)|]. intros r s' Hr.
    assert (Hne : r <> (EINVAL, None)) by (destruct Hr as (m' & _ & [[-> _]|(p & n & -> & _)]); done).
    split; [split; [done|]|by split]. intros Hno. destruct Hno. by exists k.
  - eapply wp_conseq; [by apply (wp_alloc_aligned_invalid rest h m w)|]. intros r s' (-> & Hh' & Hk).
    split; [split; [intros _|done]|split; [by exists m|done]]. intros (k & Hk64 & ->). apply Hno. exists k.
    split; [lia|]. split; [done|]. change sizeof_pointer with (2 ^ 3). apply Z.pow_le_mono_r; lia.
Qed.
End Spec.

(** ** Witness *)

Section Witnesses.
#[local] Existing Instances default_config demo_platform.

(** 100 bytes on a boundary of 64 KiB. *)
Lemma h_posix_memalign_ok_witness :
  exists m, wp (h_posix_memalign no_atfork 65536 100)
     (fun r s' => r <> (EINVAL, None) /\ aligned_result demo_rest demo_heap m demo_heap_world 65536 100 r s')
     (allocation_halts demo_heap demo_heap_world) (demo_heap, demo_heap_world).
Proof.
  destruct demo_heap_ok as (m & Hh & _). exists m. assert (Ha : fits 64 65536) by (by split). assert (Hs : fits 64 100) by (by split).
  eapply wp_conseq; [exact (h_posix_memalign_ok no_atfork demo_rest demo_heap m demo_heap_world 65536 100 Hh Ha Hs)|].
  intros r s' (Hiff & _ & Hok). assert (Hne : r <> (EINVAL, None)).
  { intros E. apply (proj1 Hiff E). exists 16. by split. }
  split; [done|by apply Hok].
Defined.
End Witnesses.
