(* ===== verification/QuerySpec.v ===== *)
(** What the size queries promise: malloc_usable_size and malloc_object_size. *)

From S2P Require Import Prelude Config Util Libdivide SizeClass Kernel Maps Pages RandomSource SlabMeta Slab SlabHeap SlabInv SlabRegion SlabAlloc SlabQuarantine SlabFree SlabCanary Regions RegionTable RegionMap Large LargeInv LargeAlloc LargeFree Allocator Malloc AllocatorInv AllocatorAlloc AllocatorFree Requests InitSpec MallocSpec FreeSpec.

(** ** On one size class *)

Section Class.
Context {Cfg : Config} {Cok : ConfigOk Cfg} {K : Kernel} {Kok : KernelOk K} {R : Type}.
Context `{!RandomSource R} `{!RandomSourceOk R}.
Implicit Types (c : size_class R) (w : world).

Lemma set_lock_back c : lock c = false -> set_lock false (set_lock true c) = c.
Proof. intros E. unfold set_lock. cbn. rewrite <- E. by destruct c. Qed.

(** The slot of any of its bytes. *)
Lemma slot_of_byte class c i s d :
  class_geometry class c -> metadata_inv c -> 0 <= i < metadata_allocated c -> 0 <= s < slots c -> 0 <= d < size c ->
  let p := slot_address c i s + d in
  fits 64 p /\ slab_index c p = i /\ slot_index c i p = s /\
  get_slab c (slab_size c) i <= p < get_slab c (slab_size c) i + slab_size c.
Proof.
  intros Hg [_ Hma _ _] Hi Hs Hd p. destruct (slab_geometry_facts class c Hg) as [Hn Hsz _ Hslab _ Hmax Hreg].
  assert (Himax : 0 <= i < get_metadata_max (slab_size c)) by lia.
  destruct (slot_address_bound class c Hg i s Himax Hs) as [Hlo Hhi].
  destruct (slot_address_div class c Hg i s d Hs Hd) as [E1 E2]. fold p in E1, E2.
  destruct (slot_offset_bound class c Hg s Hs). pose proof (@class_region_bound Cfg Cok) as Hcrb.
  unfold slab_index, slot_index. rewrite (get_slab_eq class c Hg i Himax).
  split; [destruct Hg; unfold p; split; lia|]. split; [|split; [done|]].
  - rewrite wrap_small; [done|]. unfold p. split; lia.
  - unfold p, slot_address. lia.
Qed.

(** The check accepts exactly what [deallocate_small] accepts, and changes
    nothing. *)
Lemma wp_check_usable_slot class c w P E F p :
  class_inv class c P E F -> fits 64 p ->
  wp (check_usable_slot class p) (fun _ s' => free_verdict class c w p None = None /\ s' = (c, w))
     (fun e => free_verdict class c w p None <> None /\ exists msg, e = Fatal msg) (c, w).
Proof.
  intros [Hlock Hb] Hp. unfold check_usable_slot. do 2 sc_step. cbv zeta. do 3 sc_step. rewrite Hlock. do 2 sc_step.
  set (c1 := set_lock true c). assert (Hc1 : core_eq c c1) by apply core_eq_lock.
  assert (Hb1 : class_body class c1 P E F None) by by eapply core_eq_body.
  rewrite <- (free_verdict_core class c c1 w p None Hc1), <- (ce_size _ _ Hc1), <- (ce_slab_size _ _ Hc1).
  assert (Hback : set_lock false c1 = c) by by apply set_lock_back.
  pose proof (cb_geometry _ _ _ _ _ _ Hb1) as Hg. clearbody c1. unfold free_verdict, slot_verdict. cbn [or_else].
  unfold wp at 1. rewrite (get_metadata_run class c1 w p Hg Hp), Z.geb_leb.
  destruct (metadata_allocated c1 <=? slab_index c1 p) eqn:Hused; [split; [done|by eexists]|]. apply Z.leb_gt in Hused.
  destruct (slab_index_bounds class c1 p Hg (cb_metadata _ _ _ _ _ _ Hb1) Hp Hused) as [Hi Hslab].
  set (i := slab_index c1 p) in *. destruct (slot_division class c1 i p Hg Hslab) as [Hdiv Hs].
  do 2 sc_step. rewrite Hdiv. set (s := slot_index c1 i p) in *.
  pose proof (aligned_slot class c1 i p Hg Hi Hslab) as Hal. fold s in Hal.
  destruct (Z.eqb_spec (slot_pointer (size c1) (get_slab c1 (slab_size c1) i) s) p) as [Hsp|Hsp]; cbn [negb].
  2: { apply wp_fatal. destruct (Z.eqb_spec p (slot_address c1 i s)) as [Hpa|]; [by apply Hal in Hpa|]. split; [done|by eexists]. }
  apply Hal in Hsp. rewrite (proj2 (Z.eqb_eq _ _) Hsp). cbn [negb].
  do 2 sc_step. destruct (is_used_slot (slab_info c1).[i] s) eqn:Hu; cbn [negb]; [|apply wp_fatal; split; [done|by eexists]].
  assert (Htail : wp (if SLAB_QUARANTINE && is_quarantine_slot (slab_info c1).[i] s
      then fatal_error "invalid malloc_usable_size (quarantine)" else mutex_unlock)
    (fun _ s' => (if is_quarantine_slot (slab_info c1).[i] s then Some "double free (quarantine)"%string else None) = None /\ s' = (c, w))
    (fun e => (if is_quarantine_slot (slab_info c1).[i] s then Some "double free (quarantine)"%string else None) <> None /\ exists msg, e = Fatal msg)
    (c1, w)).
  { destruct (is_quarantine_slot (slab_info c1).[i] s) eqn:Hq.
    - destruct SLAB_QUARANTINE eqn:Hsq; cbn [andb]; [apply wp_fatal; split; [done|by eexists]|].
      assert (Hsl : is_quarantine_slot (slab_info c1).[i] s = false) by by apply (cb_no_quarantine _ _ _ _ _ _ Hb1). congruence.
    - rewrite andb_false_r. unfold mutex_unlock, modify_class. apply wp_modify. cbn [fst snd]. by rewrite Hback. }
  destruct (class =? 0); cbn [negb andb].
  { apply wp_bind, wp_ret. exact Htail. }
  apply wp_bind, wp_check_canary; intros ->; cbn [negb]; [exact Htail|]. split; [done|by eexists].
Qed.

(** The offset of any byte of a live slot. *)
Lemma object_offset_run class c w P E F i s d :
  class_inv class c P E F -> 0 <= s < slots c -> live c i s = true -> 0 <= d < size c ->
  object_offset (slot_address c i s + d) (c, w) = Ret d (c, w).
Proof.
  intros [Hlock Hb] Hs Hl Hd. apply (wp_only_returns _ d (c, w)). set (p := slot_address c i s + d).
  unfold live in Hl. apply andb_true_iff in Hl as [Hu Hq%negb_true_iff].
  destruct (used_known class c P E F None i s Hb (proj1 Hs) Hu) as [Hi _].
  assert (Hi' : 0 <= i < metadata_allocated c) by (unfold slab_limit in Hi; lia).
  destruct (slot_of_byte class c i s d (cb_geometry _ _ _ _ _ _ Hb) (cb_metadata _ _ _ _ _ _ Hb) Hi' Hs Hd) as (Hp & Ei & Es & Hin).
  fold p in Hp, Ei, Es, Hin. pose proof (used_known class c P E F None i s Hb (proj1 Hs) Hu) as [Hk _].
  pose proof (known_max class c P E F None i Hb Hk) as Himax.
  unfold object_offset. do 2 sc_step. cbv zeta. do 3 sc_step. rewrite Hlock. do 2 sc_step.
  set (c1 := set_lock true c). assert (Hc1 : core_eq c c1) by apply core_eq_lock.
  assert (Hg : class_geometry class c1) by (eapply cb_geometry; by eapply core_eq_body).
  assert (Hback : set_lock false c1 = c) by by apply set_lock_back.
  unfold wp at 1. rewrite (get_metadata_run class c1 w p Hg Hp), Z.geb_leb.
  change (slab_index c1 p) with (slab_index c p). change (metadata_allocated c1) with (metadata_allocated c).
  rewrite Ei, (proj2 (Z.leb_gt _ _)) by lia. do 2 sc_step.
  change (get_slab c1 (slab_size c1) i) with (get_slab c (slab_size c) i).
  destruct (slot_division class c1 i p Hg Hin) as [Hdiv _]. change (get_slab c1 (slab_size c1) i) with (get_slab c (slab_size c) i) in Hdiv.
  change (slot_index c1 i p) with (slot_index c i p) in Hdiv. change (slab_size c1) with (slab_size c). rewrite Hdiv, Es.
  do 2 sc_step. change (slab_info c1) with (slab_info c). rewrite Hu. cbn [negb]. rewrite Hq, andb_false_r.
  pose proof (cb_geometry _ _ _ _ _ _ Hb) as Hgc. destruct (slab_geometry_facts class c Hgc) as [Hn Hsz _ Hslab _ Hmax Hreg].
  pose proof (@class_region_bound Cfg Cok) as Hcrb. destruct (slot_address_bound class c Hgc i s Himax Hs).
  destruct (slot_offset_bound class c Hgc s Hs). pose proof (slab_offset_bound class c Hgc i Himax).
  assert (Ea : slot_pointer (size c) (get_slab c (slab_size c) i) s = slot_address c i s).
  { unfold slot_pointer, slot_address. rewrite (get_slab_eq class c Hgc i Himax). destruct Hgc.
    rewrite (wrap_small 64 (s * size c)) by (split; nia). rewrite wrap_small by (split; nia). done. }
  rewrite Ea. unfold mutex_unlock, modify_class. apply wp_bind, wp_modify, wp_ret. cbn [fst snd]. rewrite Hback.
  replace (p - slot_address c i s) with d by (unfold p; lia). split; [|done]. apply wrap_small. split; lia.
Qed.
End Class.

(** ** On the whole allocator *)

Section Spec.
Context {Cfg : Config} {Cok : ConfigOk Cfg} {K : Kernel} {Kok : KernelOk K} {R : Type}.
Context `{!RandomSource R} `{!RandomSourceOk R} `{!Platform}.
Implicit Types (h : allocator R) (m : gmap Z (Z * Z)) (w : world) (rest : Z -> Prop).

Lemma set_class_self h ar cl c : size_class_metadata h !! (ar, cl) = Some c -> set_class ar cl c h = h.
Proof. intros Hc. unfold set_class. rewrite insert_id by done. by destruct h. Qed.

Lemma set_region_self h ra : ro_region_allocator h = Some ra -> set_region_allocator ra h = h.
Proof. intros Hr. unfold set_region_allocator. rewrite <- Hr. by destruct h. Qed.

(** A block has one size. *)
Lemma block_size_unique rest h m w p n k : heap_ok rest h m w -> block_at h m p n -> block_at h m p k -> n = k.
Proof.
  intros Hh Hn Hk. destruct (slab_range_dec h p) as [Hp|Hp].
  - destruct (class_at_ok _ _ _ _ _ Hh Hp) as (c & Hc & _).
    destruct (slot_sized _ _ _ _ _ _ _ Hh Hp Hc Hn) as [-> _]. by destruct (slot_sized _ _ _ _ _ _ _ Hh Hp Hc Hk) as [-> _].
  - destruct (outside_large _ _ _ _ _ _ Hh Hp Hn) as [g Hm], (outside_large _ _ _ _ _ _ Hh Hp Hk) as [g' Hm']. congruence.
Qed.

Lemma usable_in_slab_run rest h m w p :
  heap_ok rest h m w -> slab_range h p -> usable_in_slab p (h, w) = Ret (slot_usable (ssc_class (class_of h p))) (h, w).
Proof.
  intros Hh Hp. unfold usable_in_slab, bind, gets, ret. cbn [fst]. unfold slab_usable_size. fold (class_of h p).
  destruct (class_of_range _ _ _ _ _ Hh Hp) as (_ & Hcl & _). f_equal. unfold slot_usable.
  destruct (slab_geometry_spec _ Hcl) as (_ & _ & H16 & _). unfold slot_size in H16. destruct (Z.eqb_spec (size_classes_at (ssc_class (class_of h p))) 0); [done|].
  cbn [negb]. pose proof canary_size_bounds. pose proof max_slab_size_class_bounds. apply wrap_small. split; lia.
Qed.

Lemma large_size_run rest h m w ra p :
  heap_ok rest h m w -> ro_region_allocator h = Some ra ->
  with_regions (large_size p) (h, w) = Ret (fst <$> m !! p) (h, w).
Proof.
  intros Hh Hra. destruct (ho_large _ _ _ _ Hh) as (ra' & Hra' & Hlock & Hb). rewrite Hra in Hra'. injection Hra' as <-.
  apply (wp_only_returns _ _ (h, w)). eapply wp_with_regions; [exact Hra|]. cbn [fst snd].
  assert (Hback : set_ra_lock false (set_ra_lock true ra) = ra).
  { unfold set_ra_lock. cbn. rewrite <- Hlock. by destruct ra. }
  unfold large_size, region_lock. do 3 la_step. rewrite Hlock. do 2 la_step. set (ra1 := set_ra_lock true ra) in *.
  assert (Hb1 : large_body (outside rest h) ra1 m None w) by (eapply large_body_quiet; [exact Hb|done|apply Hb|done..]).
  eapply wp_mono; [apply (wp_regions_find ra1 m), Hb1| |done].
  intros r s' [-> Hr]. do 2 la_step. unfold region_unlock, modify_ra. apply wp_bind, wp_modify, wp_ret. cbn [fst snd]. rewrite Hback.
  rewrite (set_region_self h ra) by done. split; [|done]. destruct r as [i|]; [|by rewrite Hr].
  destruct Hr as ([n g] & -> & [_ Hc]). by rewrite Hc.
Qed.

Lemma wp_usable_size rest h m w p :
  heap_ok rest h m w -> p <> 0 ->
  wp (h_malloc_usable_size p)
     (fun n s' => block_at h m p n /\ canaries_intact h w p /\ s' = (h, w))
     (fun e => ~ ((exists n, block_at h m p n) /\ canaries_intact h w p) /\ exists msg, e = Fatal msg) (h, w).
Proof.
  intros Hh Hp0. pose proof (free_error_spec rest h m w p Hh) as Hspec. unfold free_error in Hspec.
  unfold h_malloc_usable_size, untag_pointer. rewrite (proj2 (Z.eqb_neq p 0)) by done. cbv zeta.
  apply wp_bind; eapply wp_in_slab_region; [exact Hh|..]; intros Hp; destruct (slab_range_dec h p) as [Hp'|Hp']; try done.
  - destruct (class_of_range _ _ _ _ _ Hh Hp) as (Har & Hcl & Hp64). destruct (class_at_ok _ _ _ _ _ Hh Hp) as (c & Hc & [(P & E & F & Hinv) _]).
    unfold slot_error in Hspec. rewrite Hc in Hspec. apply wp_bind. unfold memory_corruption_check_small. apply wp_bind, wp_gets. cbn [fst].
    fold (class_of h p). eapply wp_with_class; [exact Hc|]. eapply wp_mono; [by apply (wp_check_usable_slot _ c w P E F)| |].
    2: { intros e [Hv He]. split; [by intros Hb; apply Hv, Hspec|done]. }
    intros _ s' [Hv ->]. cbn [fst snd]. rewrite (set_class_self h) by done. unfold wp. rewrite (usable_in_slab_run rest h m w p Hh Hp).
    apply Hspec in Hv as [[n Hn] Hcan]. split; [|done]. destruct (slot_sized _ _ _ _ _ _ _ Hh Hp Hc Hn) as [<- _]. done.
  - unfold get_slab_region_end, enforce_init. apply wp_bind, wp_gets. cbn [fst]. rewrite (heap_ok_init _ _ _ _ Hh). cbn [negb].
    apply wp_bind, wp_ret, wp_bind. destruct (ho_large _ _ _ _ Hh) as (ra & Hra & _). unfold wp at 1.
    rewrite (large_size_run rest h m w ra p Hh Hra). unfold large_verdict, table_verdict in Hspec. rewrite (heap_ok_init _ _ _ _ Hh) in Hspec. cbn [negb] in Hspec.
    destruct (m !! p) as [[n g]|] eqn:Hm; cbn [fmap option_fmap option_map fst].
    + apply wp_ret. apply proj1 in Hspec. destruct (Hspec eq_refl) as [_ Hcan]. split; [right; by exists g|done].
    + apply wp_fatal. split; [intros Hb; by apply Hspec in Hb|by eexists].
Qed.

(** The byte at offset [d] of a block in the slab region. *)
Lemma object_size_slot rest h m w p n ar cl i s c d :
  heap_ok rest h m w -> small_at h p n ar cl i s c -> 0 <= d < size c ->
  h_malloc_object_size (p + d) (h, w) =
    if d >? n then Halt (Fatal "invalid malloc_object_size (canary)") else Ret (n - d) (h, w).
Proof.
  intros Hh Hsm Hd. destruct (small_place _ _ _ _ _ _ _ _ _ _ _ Hh Hsm) as (Hok & Hg & Hi & Hs & Hn & Hn0 & _).
  destruct (small_region _ _ _ _ _ _ _ _ _ _ _ Hh Hsm) as [_ Hin]. destruct (Hin (p + d)) as [Er Hr]; [lia|].
  assert (Hbound : n < 2 ^ 64).
  { destruct (block_pos rest h m w p n Hh) as [Hp _]; [left; by exists ar, cl, i, s, c|].
    pose proof (class_of_range _ _ _ _ (p + d) Hh Hr) as (_ & Hcl & _).
    rewrite (sm_usable _ _ _ _ _ _ _ _ Hsm). pose proof (sm_class _ _ _ _ _ _ _ _ Hsm) as Hcl0.
    pose proof (slot_usable_bounds cl Hcl0). destruct (slab_geometry_spec cl Hcl0) as (_ & _ & ? & _).
    pose proof max_slab_size_class_bounds. lia. }
  assert (Hp0 : p + d <> 0) by (destruct (block_pos rest h m w p n Hh) as [Hp _]; [left; by exists ar, cl, i, s, c|lia]).
  unfold h_malloc_object_size, untag_pointer. rewrite (proj2 (Z.eqb_neq _ 0)) by done. cbv zeta.
  unfold bind at 1. rewrite (in_slab_region_run rest h m w _ Hh), bool_decide_true by done.
  unfold bind at 1, gets at 1. cbn [fst]. rewrite Er. cbn [arena ssc_class].
  destruct Hok as [(P & E & F & Hinv) _]. unfold bind at 1, with_class. cbn [fst snd].
  rewrite (sm_lookup _ _ _ _ _ _ _ _ Hsm). rewrite (sm_address _ _ _ _ _ _ _ _ Hsm).
  rewrite (object_offset_run cl c w P E F i s d Hinv Hs (sm_live _ _ _ _ _ _ _ _ Hsm) Hd).
  cbn [fst snd]. rewrite (set_class_self h ar cl c (sm_lookup _ _ _ _ _ _ _ _ Hsm)). rewrite <- (sm_address _ _ _ _ _ _ _ _ Hsm).
  unfold bind at 1. rewrite (usable_in_slab_run rest h m w _ Hh Hr). unfold class_of. rewrite Er. cbn [ssc_class].
  rewrite <- (sm_usable _ _ _ _ _ _ _ _ Hsm). rewrite Z.gtb_ltb. destruct (Z.ltb_spec n d); [done|].
  unfold ret. f_equal. apply wrap_small. split; lia.
Qed.

(** ** The promises *)

(** C15: malloc_usable_size of NULL is 0; of an allocation whose canary is intact
    it is the number of bytes the program may use, exactly; any other pointer
    aborts with a message. It changes nothing. *)
Theorem h_malloc_usable_size_ok rest h m w p :
  heap_ok rest h m w ->
  (p = 0 -> h_malloc_usable_size p (h, w) = Ret 0 (h, w)) /\
  (forall n, block_at h m p n -> canaries_intact h w p -> h_malloc_usable_size p (h, w) = Ret n (h, w)) /\
  (p <> 0 -> ~ (exists n, block_at h m p n) \/ ~ canaries_intact h w p ->
     exists msg, h_malloc_usable_size p (h, w) = Halt (Fatal msg)).
Proof.
  intros Hh. split; [by intros ->|]. split.
  - intros n Hn Hcan. destruct (block_pos _ _ _ _ _ _ Hh Hn) as [Hpos _].
    assert (Hp : p <> 0) by lia. pose proof (wp_usable_size rest h m w p Hh Hp) as Hw. unfold wp in Hw.
    destruct (h_malloc_usable_size p (h, w)) as [k s'|e].
    + destruct Hw as (Hk & _ & ->). by rewrite (block_size_unique rest h m w p n k Hh Hn Hk).
    + destruct Hw as [Hno _]. destruct Hno. split; [by exists n|done].
  - intros Hp Hno. pose proof (wp_usable_size rest h m w p Hh Hp) as Hw. unfold wp in Hw.
    destruct (h_malloc_usable_size p (h, w)) as [k s'|e].
    + exfalso. destruct Hw as (Hk & Hcan & _). destruct Hno as [Hno|Hno]; [apply Hno; by exists k|done].
    + destruct Hw as [_ [msg ->]]. by exists msg.
Qed.

(** A block in the slab region is a slot. *)
Lemma slab_block rest h m w p n :
  heap_ok rest h m w -> block_at h m p n -> slab_range h p ->
  exists ar cl i s c, small_at h p n ar cl i s c /\ size c = (if cl =? 0 then 16 else n + canary_size) /\ (n = 0 <-> cl = 0).
Proof.
  intros Hh Hb Hp. destruct Hb as [(ar & cl & i & s & c & Hsm)|[g Hm]].
  - exists ar, cl, i, s, c. split; [done|]. destruct (small_place _ _ _ _ _ _ _ _ _ _ _ Hh Hsm) as (_ & Hg & _).
    pose proof (sm_class _ _ _ _ _ _ _ _ Hsm) as Hcl. rewrite (cg_size _ _ Hg), (sm_usable _ _ _ _ _ _ _ _ Hsm).
    destruct (Z.eqb_spec cl 0) as [->|Hne]; [unfold slot_usable, slot_size; by rewrite (size_classes_at_tiny 0)|].
    destruct (slab_geometry_spec cl Hcl) as (_ & _ & ? & _). pose proof canary_size_bounds.
    rewrite (slot_usable_pos cl Hcl Hne). lia.
  - exfalso. destruct (ho_large _ _ _ _ Hh) as (ra & _ & _ & Hlb). destruct (lb_held _ _ _ _ _ _ Hlb p n g Hm) as [[? ? ? [? ?] ? ?] _].
    apply (large_range _ _ _ _ _ _ _ p Hh Hm); [lia|by right].
Qed.

Lemma object_size_in_slab rest h m w p n d :
  heap_ok rest h m w -> block_at h m p n -> slab_range h p -> 0 <= d ->
  (d <= n -> d < Z.max 1 n \/ SLAB_CANARY = true -> h_malloc_object_size (p + d) (h, w) = Ret (n - d) (h, w)) /\
  (n < d < n + canary_size -> 0 < n ->
     h_malloc_object_size (p + d) (h, w) = Halt (Fatal "invalid malloc_object_size (canary)")).
Proof.
  intros Hh Hb Hp Hd. pose proof canary_size_bounds as Hc.
  destruct (slab_block _ _ _ _ _ _ Hh Hb Hp) as (ar & cl & i & s & c & Hsm & Hsz & Hz). split.
  - intros Hle Hin. rewrite (object_size_slot rest h m w p n ar cl i s c d Hh Hsm).
    + by rewrite Z.gtb_ltb, (proj2 (Z.ltb_ge _ _)) by lia.
    + rewrite Hsz. destruct (Z.eqb_spec cl 0) as [E|E]; [apply Hz in E; lia|].
      assert (n <> 0) by (by intros E0; apply E, Hz). destruct Hin as [|Hsc]; [lia|]. unfold canary_size in *. rewrite Hsc in *. lia.
  - intros Hlt Hpos. rewrite (object_size_slot rest h m w p n ar cl i s c d Hh Hsm).
    + by rewrite Z.gtb_ltb, (proj2 (Z.ltb_lt _ _)) by lia.
    + rewrite Hsz. destruct (Z.eqb_spec cl 0) as [E|E]; [apply Hz in E|]; lia.
Qed.

(** Outside the slab region only the table of the region allocator counts. *)
Lemma object_size_outside rest h m w q :
  heap_ok rest h m w -> q <> 0 -> ~ slab_range h q ->
  h_malloc_object_size q (h, w) = Ret (match m !! q with Some (n, _) => n | None => SIZE_MAX end) (h, w).
Proof.
  intros Hh Hq Hp. unfold h_malloc_object_size, untag_pointer. rewrite (proj2 (Z.eqb_neq _ 0)) by done. cbv zeta.
  unfold bind at 1. rewrite (in_slab_region_run rest h m w _ Hh), bool_decide_false by done.
  pose proof (heap_ok_init _ _ _ _ Hh) as Hinit. unfold is_init in Hinit. apply negb_true_iff in Hinit.
  unfold bind at 1, get_slab_region_end, gets. cbn [fst]. rewrite Hinit.
  destruct (ho_large _ _ _ _ Hh) as (ra & Hra & _). unfold bind. rewrite (large_size_run rest h m w ra q Hh Hra).
  by destruct (m !! q) as [[n g]|].
Qed.

(** The bytes of a large block are outside the slab region, and no block starts
    behind the first. *)
Lemma inside_large rest h m w p n d :
  heap_ok rest h m w -> block_at h m p n -> ~ slab_range h p -> 0 <= d < n ->
  n <= 2 ^ 63 /\ ~ slab_range h (p + d) /\ exists g, m !! (p + d) = if d =? 0 then Some (n, g) else None.
Proof.
  intros Hh Hb Hp Hd. destruct (outside_large _ _ _ _ _ _ Hh Hp Hb) as [g Hm].
  destruct (ho_large _ _ _ _ Hh) as (ra & _ & _ & Hlb). destruct (lb_held _ _ _ _ _ _ Hlb p n g Hm) as [[? ? ? [? ?] ? ?] _].
  split; [lia|]. split; [intros Hs; apply (large_range _ _ _ _ _ _ _ (p + d) Hh Hm); [lia|by right]|].
  exists g. destruct (Z.eqb_spec d 0) as [->|Hne]; [by rewrite Z.add_0_r|].
  destruct (m !! (p + d)) as [[k g']|] eqn:Hq; [|done]. exfalso.
  destruct (lb_held _ _ _ _ _ _ Hlb (p + d) k g' Hq) as [[? ? ? [? ?] ? ?] _].
  assert (E : p = p + d); [|lia]. apply (blocks_disjoint rest h m w p n (p + d) k (p + d)); [done|done|right; by exists g'|lia..].
Qed.

(** C16: malloc_object_size changes nothing. Of a pointer into an allocation of a
    size class it is the number of usable bytes from there to the end, 0 at the end
    included, and it aborts for a pointer into the canary. Of the start of a large
    allocation it is its size; of any other pointer outside the slab region, the
    inside of a large allocation included, it is SIZE_MAX. So it is never less
    than the number of bytes that remain. NULL gives 0. *)
Theorem h_malloc_object_size_ok rest h m w :
  heap_ok rest h m w ->
  h_malloc_object_size 0 (h, w) = Ret 0 (h, w) /\
  (forall p n d, block_at h m p n -> slab_range h p -> 0 <= d ->
     (d <= n -> d < Z.max 1 n \/ SLAB_CANARY = true -> h_malloc_object_size (p + d) (h, w) = Ret (n - d) (h, w)) /\
     (n < d < n + canary_size -> 0 < n ->
        h_malloc_object_size (p + d) (h, w) = Halt (Fatal "invalid malloc_object_size (canary)"))) /\
  (forall p n d, block_at h m p n -> ~ slab_range h p -> 0 <= d < n ->
     h_malloc_object_size (p + d) (h, w) = Ret (if d =? 0 then n else SIZE_MAX) (h, w)) /\
  (forall q, q <> 0 -> ~ slab_range h q -> (forall k, ~ block_at h m q k) ->
     h_malloc_object_size q (h, w) = Ret SIZE_MAX (h, w)) /\
  (forall p n d, block_at h m p n -> 0 <= d < n ->
     exists k, h_malloc_object_size (p + d) (h, w) = Ret k (h, w) /\ n - d <= k).
Proof.
  intros Hh.
  assert (Hlarge : forall p n d, block_at h m p n -> ~ slab_range h p -> 0 <= d < n ->
    h_malloc_object_size (p + d) (h, w) = Ret (if d =? 0 then n else SIZE_MAX) (h, w)).
  { intros p n d Hb Hp Hd. destruct (inside_large _ _ _ _ _ _ _ Hh Hb Hp Hd) as (_ & Hout & g & Hm).
    destruct (block_pos _ _ _ _ _ _ Hh Hb) as [Hpos _]. rewrite (object_size_outside rest h m w (p + d) Hh ltac:(lia) Hout).
    rewrite Hm. by destruct (d =? 0). }
  split; [done|]. split; [intros p n d Hb Hp; by apply (object_size_in_slab rest h m w)|]. split; [exact Hlarge|]. split.
  - intros q Hq Hp Hno. rewrite (object_size_outside rest h m w q Hh Hq Hp).
    destruct (m !! q) as [[k g]|] eqn:Hm; [|done]. destruct (Hno k). right. by exists g.
  - intros p n d Hb Hd. destruct (slab_range_dec h p) as [Hp|Hp].
    + exists (n - d). split; [|lia]. apply (object_size_in_slab rest h m w p n d Hh Hb Hp); lia.
    + eexists. split; [by apply Hlarge|]. destruct (inside_large _ _ _ _ _ _ _ Hh Hb Hp Hd) as (Hn & _).
      destruct (Z.eqb_spec d 0) as [->|]; [lia|]. unfold SIZE_MAX. lia.
Qed.
End Spec.

(** ** Witnesses *)

Section Witnesses.
#[local] Existing Instances default_config demo_platform.

Lemma h_malloc_usable_size_ok_witness :
  exists n, 100 <= n /\ h_malloc_usable_size demo_ptr (fst (snd demo_malloc), snd (snd demo_malloc)) =
    Ret n (fst (snd demo_malloc), snd (snd demo_malloc)).
Proof.
  destruct demo_malloc_ok as (n & Hn & [(m & Hh & Hb) Hg _]). exists n. split; [exact Hn|].
  exact (proj1 (proj2 (h_malloc_usable_size_ok demo_rest (fst (snd demo_malloc)) m (snd (snd demo_malloc)) demo_ptr Hh))
    n Hb (guarded_canaries _ _ _ Hg)).
Defined.

(** The last byte of the request of 100. *)
Lemma h_malloc_object_size_ok_witness :
  exists n, 100 <= n /\ h_malloc_object_size (demo_ptr + 99) (fst (snd demo_malloc), snd (snd demo_malloc)) =
    Ret (n - 99) (fst (snd demo_malloc), snd (snd demo_malloc)).
Proof.
  destruct demo_malloc_ok as (n & Hn & [(m & Hh & Hb) Hg _]). exists n. split; [exact Hn|].
  assert (Hd : 0 <= 99) by done. assert (Hle : 99 <= n) by lia. assert (Hin : 99 < Z.max 1 n \/ SLAB_CANARY = true) by (left; lia).
  pose proof (proj1 (andb_true_iff _ _) demo_ptr_small) as [Hlo%Z.leb_le Hhi%Z.ltb_lt].
  exact (proj1 (proj1 (proj2 (h_malloc_object_size_ok demo_rest (fst (snd demo_malloc)) m (snd (snd demo_malloc)) Hh))
    demo_ptr n 99 Hb (conj Hlo Hhi) Hd) Hle Hin).
Defined.

(** A block that is small but aligned beyond a page is a large allocation. Its last
    usable byte, as malloc_usable_size counts them, does not survive realloc: the
    copy stops short of a canary that the block does not have. *)
Definition demo_realloc_large : AM (R := Z) (Z * Z) :=
  let* r := h_posix_memalign no_atfork 65536 100 in
  let p := default 0 (snd r) in
  let* n := h_malloc_usable_size p in
  let* w := gets snd in
  on_world (set_mem (mem w).[p + n - 1 <- 7]) ;;;
  let* q := h_realloc no_atfork p n in
  let* w := gets snd in
  ret (n, (mem w).[q + n - 1]).

Lemma realloc_drops_usable_bytes :
  match demo_realloc_large (demo_heap, demo_heap_world) with
  | Ret (n, byte) _ => (n =? 4096) && (byte =? 0)
  | Halt _ => false
  end = true.
Proof. by vm_compute. Qed.
End Witnesses.
