(* ===== verification/Client.v ===== *)
(** A program on top of the allocator. The abstract specification of the
    interface is a memory of disjoint blocks of the requested sizes; the whole
    allocator refines it: no sequence of calls and memory accesses that is legal
    on the abstract memory can tell the two apart. *)

From S2P Require Import Prelude Config Util SizeClass Kernel Maps RandomSource SlabMeta Slab SlabFree Regions Large LargeInv LargeFree Allocator Malloc AllocatorInv AllocatorAlloc AllocatorFree Requests InitSpec MallocSpec FreeSpec ReallocSpec AlignedSpec.

(** ** The abstract memory *)

(** Blocks by address: the requested size, and the byte at each offset. *)
Abbreviation blocks := (gmap Z (Z * (Z -> Z))).

(** What a program does. *)
Inductive call :=
| Malloc (size : Z)
| Calloc (nmemb size : Z)
| Realloc (p size : Z)
| Memalign (alignment size : Z)
| Free (p : Z)
| Store (p i v : Z)
| Load (p i : Z).

(** What it may do: C's rules for the heap. *)
Definition permitted (B : blocks) (c : call) : Prop :=
  match c with
  | Malloc size => fits 64 size
  | Calloc nmemb size | Memalign nmemb size => fits 64 nmemb /\ fits 64 size
  | Realloc p size => fits 64 size /\ (p = 0 \/ is_Some (B !! p))
  | Free p => p = 0 \/ is_Some (B !! p)
  | Store p i _ | Load p i => exists n f, B !! p = Some (n, f) /\ 0 <= i < n
  end.

(** A block of [n] bytes that shares no byte with the others. *)
Record new_block (B : blocks) (p n : Z) : Prop := {
  nb_pos : 0 < p;
  nb_align : (min_align | p);
  nb_new : B !! p = None;
  nb_disjoint : forall q k f a, B !! q = Some (k, f) -> q <= a < q + k -> ~ p <= a < p + n
}.

(** What the calls return and do to the blocks. *)
Inductive abstract_step : blocks -> call -> Z -> blocks -> Prop :=
| MallocNull B size : abstract_step B (Malloc size) 0 B
| MallocBlock B size p f : new_block B p size -> abstract_step B (Malloc size) p (<[p := (size, f)]> B)
| CallocNull B nmemb size : abstract_step B (Calloc nmemb size) 0 B
| CallocBlock B nmemb size p f :
    nmemb * size < 2 ^ 64 -> new_block B p (nmemb * size) -> (forall i, 0 <= i < nmemb * size -> f i = 0) ->
    abstract_step B (Calloc nmemb size) p (<[p := (nmemb * size, f)]> B)
| MemalignNull B alignment size : abstract_step B (Memalign alignment size) 0 B
| MemalignBlock B k size p f :
    3 <= k < 64 -> new_block B p size -> (2 ^ k | p) -> abstract_step B (Memalign (2 ^ k) size) p (<[p := (size, f)]> B)
| ReallocNull B p size : abstract_step B (Realloc p size) 0 B
| ReallocNew B size p f : new_block B p size -> abstract_step B (Realloc 0 size) p (<[p := (size, f)]> B)
| ReallocBlock B p n f size q g :
    B !! p = Some (n, f) -> new_block (delete p B) q size -> (forall i, 0 <= i < Z.min n size -> g i = f i) ->
    abstract_step B (Realloc p size) q (<[q := (size, g)]> (delete p B))
| FreeNull B : abstract_step B (Free 0) 0 B
| FreeBlock B p : is_Some (B !! p) -> abstract_step B (Free p) 0 (delete p B)
| StoreByte B p n f i v :
    B !! p = Some (n, f) -> abstract_step B (Store p i v) 0 (<[p := (n, fun j => if i =? j then v else f j)]> B)
| LoadByte B p n f i : B !! p = Some (n, f) -> abstract_step B (Load p i) (f i) B.

(** A program chooses its next call from the history of calls and results. *)
Definition program : Type := list (call * Z) -> option call.

(** The histories of a program on the abstract memory. *)
Inductive history (prog : program) : list (call * Z) -> blocks -> Prop :=
| HistoryStart : history prog [] ∅
| HistoryStep tr B c r B' :
    history prog tr B -> prog tr = Some c -> permitted B c -> abstract_step B c r B' -> history prog (tr ++ [(c, r)]) B'.

(** It is legal when it keeps to what the abstract memory permits. *)
Definition legal (prog : program) : Prop :=
  forall tr B c, history prog tr B -> prog tr = Some c -> permitted B c.

Lemma history_start_inv prog B : history prog [] B -> B = ∅.
Proof. inversion 1 as [|tr ? ? ? ? ? ? ? ? E]; [done|]. by destruct tr. Qed.

Lemma history_step_inv prog tr c r B' :
  history prog (tr ++ [(c, r)]) B' ->
  exists B, history prog tr B /\ prog tr = Some c /\ permitted B c /\ abstract_step B c r B'.
Proof.
  inversion 1 as [E|tr0 B c0 r0 ? Htr Hc Hp Hs E]; [by destruct tr|]. apply app_inj_tail in E as [-> [= -> ->]]. by exists B.
Qed.

(** Blocks of an abstract memory are disjoint. *)
Definition disjoint_blocks (B : blocks) : Prop :=
  forall p n f q k g a, B !! p = Some (n, f) -> B !! q = Some (k, g) -> p <= a < p + n -> q <= a < q + k -> p = q.

Lemma disjoint_insert B p n f : disjoint_blocks B -> new_block B p n -> disjoint_blocks (<[p := (n, f)]> B).
Proof.
  intros HB Hp q k g q' k' g' a Hq Hq' Ha Ha'. pose proof (nb_disjoint _ _ _ Hp) as Hd.
  destruct (decide (q = p)) as [->|Hne], (decide (q' = p)) as [->|Hne']; [done|..].
  - rewrite lookup_insert_eq in Hq. injection Hq as <- <-. rewrite lookup_insert_ne in Hq' by done. by destruct (Hd _ _ _ a Hq' Ha').
  - rewrite lookup_insert_eq in Hq'. injection Hq' as <- <-. rewrite lookup_insert_ne in Hq by done. by destruct (Hd _ _ _ a Hq Ha).
  - rewrite lookup_insert_ne in Hq, Hq' by done. by eapply HB.
Qed.

Lemma disjoint_delete B p : disjoint_blocks B -> disjoint_blocks (delete p B).
Proof. intros HB q k g q' k' g' a [_ Hq]%lookup_delete_Some [_ Hq']%lookup_delete_Some. by eapply HB. Qed.

Lemma history_disjoint prog tr B : history prog tr B -> disjoint_blocks B.
Proof.
  induction 1 as [|tr B c r B' _ IH _ _ Hs]; [by intros p n f q k g a []%lookup_empty_Some|].
  destruct Hs; try done; try (by apply disjoint_insert); try (by apply disjoint_delete).
  - apply disjoint_insert; [by apply disjoint_delete|done].
  - intros q k g q' k' g' a Hq Hq'. assert (Hin : forall x y z, <[p := (n, fun j => if i =? j then v else f j)]> B !! x = Some (y, z) -> exists z', B !! x = Some (y, z')).
    { intros x y z. destruct (decide (x = p)) as [->|]; [rewrite lookup_insert_eq; intros [= <- _]; by exists f|].
      rewrite lookup_insert_ne by done. by exists z. }
    apply Hin in Hq as [? Hq], Hq' as [? Hq']. by eapply IH.
Qed.

(** ** The allocator *)

Section Refinement.
Context {Cfg : Config} {Cok : ConfigOk Cfg} {K : Kernel} {Kok : KernelOk K} {R : Type}.
Context `{!RandomSource R} `{!RandomSourceOk R} `{!Platform}.
Context (pthread_atfork : AM (R := R) bool).
Implicit Types (h : allocator R) (m : gmap Z (Z * Z)) (w : world) (rest X : Z -> Prop) (B : blocks).

(** The calls on the allocator; posix_memalign as the pointer that it stores. *)
Definition run_call (c : call) : AM (R := R) Z :=
  match c with
  | Malloc size => h_malloc pthread_atfork size
  | Calloc nmemb size => h_calloc pthread_atfork nmemb size
  | Realloc p size => h_realloc pthread_atfork p size
  | Memalign alignment size =>
      let* r := h_posix_memalign pthread_atfork alignment size in ret (default 0 (snd r))
  | Free p => h_free p ;;; ret 0
  | Store p i v => let* w := gets snd in on_world (set_mem (mem w).[p + i <- v]) ;;; ret 0
  | Load p i => gets (fun s => (mem (snd s)).[p + i])
  end.

Fixpoint run_program (prog : program) (n : nat) (tr : list (call * Z)) : AM (R := R) (list (call * Z)) :=
  match n with
  | O => ret tr
  | Datatypes.S n =>
      match prog tr with
      | None => ret tr
      | Some c => let* r := run_call c in run_program prog n (tr ++ [(c, r)])
      end
  end.

(** An abstract block is held: its bytes are in memory, and survive realloc. *)
Definition holds h m w (p n : Z) (f : Z -> Z) : Prop :=
  exists k, block_at h m p k /\ n <= realloc_keeps h p k /\ forall i, 0 <= i < n -> (mem w).[p + i] = f i.

(** An abstract memory is represented in the allocator, in which nothing was
    written to but the blocks. *)
Definition represents rest B (s : allocator R * world) : Prop :=
  exists m, heap_ok rest (fst s) m (snd s) /\ guarded (fst s) (snd s) /\
    (ZERO_ON_FREE = true -> clean (fst s) (snd s)) /\
    forall p n f, B !! p = Some (n, f) -> holds (fst s) m (snd s) p n f.

Lemma holds_kept rest X h m w h' m' w' p n f :
  heap_ok rest h m w -> kept_except rest X h m w h' m' w' -> ~ X p -> holds h m w p n f -> holds h' m' w' p n f.
Proof.
  intros Hh Hk Hp (k & Hb & Hn & Hf). exists k. pose proof (block_keeps_le _ _ _ _ _ _ Hh Hb).
  split; [by apply (kb_blocks _ _ _ _ _ _ _ _ Hk)|]. split; [by rewrite (realloc_keeps_same h) by apply Hk|].
  intros i Hi. rewrite <- Hf by done. apply (kb_contents _ _ _ _ _ _ _ _ Hk p k); (done || lia).
Qed.

(** A state in which the abstract memory is represented, and the next one. *)
Record next rest X B h m w h' m' w' : Prop := {
  nx_heap : heap_ok rest h m w;
  nx_guarded : guarded h w;
  nx_clean : ZERO_ON_FREE = true -> clean h w;
  nx_holds : forall p n f, B !! p = Some (n, f) -> holds h m w p n f;
  nx_heap' : heap_ok rest h' m' w';
  nx_kept : kept_except rest X h m w h' m' w'
}.

Lemma represents_next rest X B B' h m w h' m' w' :
  next rest X B h m w h' m' w' ->
  (forall p n f, B' !! p = Some (n, f) -> ~ X p /\ B !! p = Some (n, f) \/ holds h' m' w' p n f) ->
  represents rest B' (h', w').
Proof.
  intros [Hh Hg Hc HB Hh' Hk] HB'. exists m'. cbn [fst snd]. split; [done|]. split; [by apply Hk|]. split; [intros; apply Hk; auto|].
  intros p n f Hp. destruct (HB' p n f Hp) as [[Hx Hold]|]; [|done]. eapply holds_kept; [exact Hh|exact Hk|exact Hx|auto].
Qed.

(** A block that replaces those of [X]: it is new to the abstract memory [B']
    without these, which represents its contents. *)
Lemma represents_block rest X B B' h m w h' m' w' p n k :
  next rest X B h m w h' m' w' ->
  (forall q j f, B' !! q = Some (j, f) -> ~ X q /\ q <> p /\ B !! q = Some (j, f)) ->
  block_at h' m' p k -> n <= k -> n <= realloc_keeps h' p k -> (min_align | p) ->
  new_block B' p n /\ represents rest (<[p := (n, fun i => (mem w').[p + i])]> B') (h', w').
Proof.
  intros Hx HB' Hp Hn Hkeeps Hal. pose proof Hx as [Hh _ _ HB Hh' Hk].
  assert (Hheld : forall q j f, B' !! q = Some (j, f) -> holds h' m' w' q j f).
  { intros q j f (Hq & _ & Hb)%HB'. eapply holds_kept; [exact Hh|exact Hk|exact Hq|by apply HB]. }
  split.
  - split; [by eapply block_pos|done| |].
    + destruct (B' !! p) as [[j f]|] eqn:E; [|done]. by apply HB' in E as (_ & ? & _).
    + intros q j f a Hq Ha Ha'. destruct (Hheld q j f Hq) as (l & Hl & Hj & _). apply HB' in Hq as (_ & Hne & _). apply Hne.
      pose proof (block_keeps_le _ _ _ _ _ _ Hh' Hl). eapply (blocks_disjoint rest h' m' w' q l p k a); (done || lia).
  - eapply represents_next; [exact Hx|]. intros q j f Hq. right. destruct (decide (q = p)) as [->|Hne].
    + rewrite lookup_insert_eq in Hq. injection Hq as <- <-. by exists k.
    + rewrite lookup_insert_ne in Hq by done. by apply Hheld.
Qed.

(** Nothing happened to the blocks. *)
Lemma represents_same rest B h m w h' m' w' :
  next rest (fun _ => False) B h m w h' m' w' -> represents rest B (h', w').
Proof. intros Hx. eapply represents_next; [exact Hx|]. intros p n f Hp. left. split; [by intros []|done]. Qed.

(** A new allocation. *)
Lemma represents_fresh rest B h m w h' m' w' p n k :
  next rest (fun q => q = p) B h m w h' m' w' -> (forall j, ~ block_at h m p j) ->
  block_at h' m' p k -> n <= k -> n <= realloc_keeps h p k -> (min_align | p) ->
  new_block B p n /\ represents rest (<[p := (n, fun i => (mem w').[p + i])]> B) (h', w').
Proof.
  intros Hx Hnew Hp Hn Hkeeps Hal. eapply represents_block; try done.
  - intros q j f Hq. assert (Hne : q <> p); [|done]. intros ->. destruct (nx_holds _ _ _ _ _ _ _ _ _ Hx p j f Hq) as (l & Hl & _).
    by eapply Hnew.
  - by rewrite (realloc_keeps_same h) by apply (nx_kept _ _ _ _ _ _ _ _ _ Hx).
Qed.

(** ** The calls *)

Definition stepped rest B (c : call) (r : Z) (s' : allocator R * world) : Prop :=
  exists B', abstract_step B c r B' /\ represents rest B' s'.

(** The program cannot make the allocator find an error. *)
Lemma no_false_alarm h w e : (ZERO_ON_FREE = true -> clean h w) -> allocation_halts h w e -> system_halts e.
Proof. intros Hc [He|(_ & Hzf & Hno)]; [done|]. by destruct Hno; apply Hc. Qed.

Lemma run_malloc rest B size s :
  represents rest B s -> fits 64 size ->
  wp (h_malloc pthread_atfork size)
     (fun p s' => p = 0 /\ represents rest B s' \/
        exists f, new_block B p size /\ represents rest (<[p := (size, f)]> B) s') system_halts s.
Proof.
  destruct s as [h w]. intros (m & Hh & Hg & Hc & HB) Hsize. cbn [fst snd] in *.
  eapply wp_mono; [by apply (wp_h_malloc pthread_atfork rest h m w)| |intros e; by apply no_false_alarm].
  intros p [h' w'] (m' & Hh' & Hk & Hres). cbn [fst snd] in *. destruct Hres as [[-> _]|(n & [Hn Hkeeps] & [])].
  - left. split; [done|]. eapply (represents_same rest B h m w); split; try done. by apply kept_but_null.
  - right. eexists. by eapply (represents_fresh rest B h m w).
Qed.

Lemma run_calloc rest B nmemb size s :
  represents rest B s -> fits 64 nmemb -> fits 64 size ->
  wp (h_calloc pthread_atfork nmemb size) (stepped rest B (Calloc nmemb size)) system_halts s.
Proof.
  destruct s as [h w]. intros (m & Hh & Hg & Hc & HB) Hn Hs. cbn [fst snd] in *.
  eapply wp_mono; [by apply (wp_h_calloc pthread_atfork rest h m w)| |intros e; by apply no_false_alarm].
  intros p [h' w'] (m' & Hh' & Hk & Hres). cbn [fst snd] in *.
  destruct Hres as [[-> _]|(Hlt & Hpos & Hal & n & Hle & Hkeeps & Hb & Hnew & Hz)].
  - exists B. split; [constructor|]. eapply (represents_same rest B h m w); split; try done. by apply kept_but_null.
  - destruct (represents_fresh rest B h m w h' m' w' p (nmemb * size) n) as [Hnb Hrep]; try done.
    eexists. split; [|exact Hrep]. apply CallocBlock; [done|done|]. intros i Hi. apply Hz. lia.
Qed.

Lemma run_memalign rest B alignment size s :
  represents rest B s -> fits 64 alignment -> fits 64 size ->
  wp (h_posix_memalign pthread_atfork alignment size)
     (fun r => stepped rest B (Memalign alignment size) (default 0 (snd r))) system_halts s.
Proof.
  destruct s as [h w]. intros (m & Hh & Hg & Hc & HB) Ha Hs. cbn [fst snd] in *. unfold h_posix_memalign.
  destruct (posix_alignment alignment Ha) as [(k & Hk & ->)|Hno].
  - assert (Hmin : sizeof_pointer <= 2 ^ k) by (change sizeof_pointer with (2 ^ 3); apply Z.pow_le_mono_r; lia).
    assert (Hk0 : 0 <= k < 64) by lia.
    eapply wp_mono; [by apply (wp_alloc_aligned pthread_atfork rest h m w k)| |intros e; by apply no_false_alarm].
    intros r [h' w'] (m' & Hh' & Hres). cbn [fst snd] in *.
    destruct Hres as [[-> Hk']|(p & n & -> & Hd & Hn & Hkeeps & Hk' & [] & _)]; cbn [snd default].
    + exists B. split; [constructor|]. by eapply (represents_same rest B h m w).
    + destruct (represents_fresh rest B h m w h' m' w' p size n) as [Hnb Hrep]; try done.
      eexists. split; [by apply MemalignBlock|exact Hrep].
  - eapply wp_mono; [by apply (wp_alloc_aligned_invalid pthread_atfork rest h m w alignment size sizeof_pointer system_halts)| |done].
    intros r [h' w'] (-> & Hh' & Hk). cbn [fst snd default] in *.
    exists B. split; [constructor|]. by eapply (represents_same rest B h m w).
Qed.

Lemma run_realloc rest B p size s :
  represents rest B s -> permitted B (Realloc p size) ->
  wp (h_realloc pthread_atfork p size) (stepped rest B (Realloc p size)) system_halts s.
Proof.
  intros Hrep [Hsize [->|[[n f] Hp]]].
  { change (h_realloc pthread_atfork 0 size) with (h_malloc pthread_atfork size).
    eapply wp_conseq; [by apply run_malloc|]. intros q s' [[-> Hs]|(f & Hnb & Hs)].
    - exists B. split; [constructor|done].
    - eexists. split; [by apply ReallocNew|exact Hs]. }
  destruct s as [h w]. destruct Hrep as (m & Hh & Hg & Hc & HB). cbn [fst snd] in *.
  destruct (HB p n f Hp) as (k & Hb & Hkeeps & Hf).
  eapply wp_mono; [by apply (wp_h_realloc pthread_atfork rest h m w p k)| |intros e; by apply no_false_alarm].
  intros q [h' w'] (m' & Hh' & Hres). cbn [fst snd] in *.
  destruct Hres as [(-> & _ & Hk)|(k' & Hreq & Hreq' & Hal & Hb' & Hcont & Hk & Hnew)].
  { exists B. split; [constructor|]. by eapply (represents_same rest B h m w). }
  assert (Hin : forall x j g, delete p B !! x = Some (j, g) -> ~ (x = q \/ x = p) /\ x <> q /\ B !! x = Some (j, g)).
  { intros x j g [Hne Hx]%lookup_delete_Some. assert (Hxq : x <> q); [|by split; [intros [|]|split]].
    intros ->. destruct (HB q j g Hx) as (l & Hl & _). assert (Hqp : q <> p) by done. by destruct (Hnew Hqp l). }
  destruct (represents_block rest (fun x => x = q \/ x = p) B (delete p B) h m w h' m' w' q size k') as [Hnb Hrep]; try done.
  eexists. split; [|exact Hrep]. eapply ReallocBlock; [exact Hp|exact Hnb|]. intros i Hi.
  rewrite Hcont, Hf by (rewrite ?min_spec; lia). done.
Qed.

Lemma run_free rest B p s :
  represents rest B s -> permitted B (Free p) -> wp (h_free p) (fun _ => stepped rest B (Free p) 0) system_halts s.
Proof.
  intros Hrep [->|[[n f] Hp]]; [by exists B; split; [constructor|]|].
  destruct s as [h w]. destruct Hrep as (m & Hh & Hg & Hc & HB). cbn [fst snd] in *.
  destruct (HB p n f Hp) as (k & Hb & _ & _).
  eapply wp_conseq; [by apply (wp_h_free_block rest h m w p k); [| |apply guarded_canaries]|].
  intros _ [h' w'] (_ & _ & (m' & Hh' & Hk & Hgone) & _). cbn [fst snd] in *.
  exists (delete p B). split; [constructor; by eexists|].
  eapply (represents_next rest (fun q => q = p) B _ h m w h' m'); [by split|].
  intros q j g [Hne Hq]%lookup_delete_Some. left. by split; [intros ->|].
Qed.

(** Writing inside a block is writing inside its allocation. *)
Lemma run_store rest B p i v s :
  represents rest B s -> permitted B (Store p i v) -> wp (run_call (Store p i v)) (stepped rest B (Store p i v)) system_halts s.
Proof.
  destruct s as [h w]. intros (m & Hh & Hg & Hc & HB) (n & f & Hp & Hi). cbn [fst snd] in *.
  destruct (HB p n f Hp) as (k & Hb & Hkeeps & Hf). pose proof (block_keeps_le _ _ _ _ _ _ Hh Hb) as Hle.
  unfold run_call. apply wp_bind, wp_gets, wp_bind, wp_on_world, wp_modify, wp_ret. cbn [fst snd].
  set (w' := World _ (kern w) (mem w).[p + i <- v] (errno w)).
  assert (Ho : only_changes p k (mem w) (mem w')).
  { intros a Ha. cbn. apply aget_aset_ne. lia. }
  destruct (kept_but_write rest h m w w' p k Hh Hb Ho eq_refl) as [Hh' Hk].
  eexists. split; [by eapply StoreByte|]. eapply (represents_next rest (fun q => q = p) B _ h m w h m); [by split|].
  intros q j g Hq. destruct (decide (q = p)) as [->|Hne]; [right|left; rewrite lookup_insert_ne in Hq by done; by split].
  rewrite lookup_insert_eq in Hq. injection Hq as <- <-. exists k. split; [done|]. split; [done|]. intros j Hj. cbn.
  destruct (Z.eqb_spec i j) as [->|Hne]; [by rewrite aget_aset|]. rewrite aget_aset_ne by lia. by apply Hf.
Qed.

(** Every permitted call is a step of the abstract memory. *)
Lemma wp_run_call rest B c s :
  represents rest B s -> permitted B c -> wp (run_call c) (stepped rest B c) system_halts s.
Proof.
  intros Hrep Hc. destruct c as [size|nmemb size|p size|alignment size|p|p i v|p i].
  - eapply wp_conseq; [by apply run_malloc|]. intros p s' [[-> Hs]|(f & Hnb & Hs)]; [by exists B; split; [constructor|]|].
    eexists. split; [by apply MallocBlock|exact Hs].
  - destruct Hc. by apply run_calloc.
  - by apply run_realloc.
  - destruct Hc. unfold run_call. apply wp_bind. eapply wp_conseq; [by apply run_memalign|]. intros r s' Hs. by apply wp_ret.
  - unfold run_call. apply wp_bind. eapply wp_conseq; [by apply run_free|]. intros r s' Hs. by apply wp_ret.
  - by apply run_store.
  - destruct s as [h w], Hc as (n & f & Hp & Hi). unfold run_call. apply wp_gets. cbn [fst snd]. exists B. split; [|exact Hrep].
    destruct Hrep as (m & _ & _ & _ & HB). destruct (HB p n f Hp) as (k & _ & _ & Hf). cbn [fst snd] in Hf. rewrite Hf by done.
    by eapply LoadByte.
Qed.

Lemma wp_run_program rest prog n tr B s :
  legal prog -> history prog tr B -> represents rest B s ->
  wp (run_program prog n tr) (fun tr' s' => exists B', history prog tr' B' /\ represents rest B' s') system_halts s.
Proof.
  intros Hlegal. revert tr B s. induction n as [|n IH]; intros tr B s Htr Hs; cbn [run_program]; [by apply wp_ret; exists B|].
  destruct (prog tr) as [c|] eqn:Hc; [|by apply wp_ret; exists B]. pose proof (Hlegal tr B c Htr Hc) as Hperm.
  apply wp_bind. eapply wp_conseq; [by apply (wp_run_call rest B)|]. intros r s' (B' & Hstep & Hs').
  eapply IH; [|exact Hs']. by eapply HistoryStep.
Qed.

(** ** The promises *)

(** C3: the allocator refines the abstract memory. Any number of steps of any
    program that obeys C's rules for the heap is a history of the abstract memory:
    every block is new, aligned and disjoint from the blocks that the program
    holds, calloc's bytes are zero, realloc keeps the contents, every load
    returns the byte that was stored last, and the invariant of the allocator
    holds throughout; nothing but the kernel or the random source stops the
    program, so that no check of the allocator ever raises a false alarm. *)
Theorem program_refines rest prog n s :
  legal prog -> represents rest ∅ s ->
  wp (run_program prog n []) (fun tr s' => exists B, history prog tr B /\ disjoint_blocks B /\ represents rest B s') system_halts s.
Proof.
  intros Hlegal Hs. eapply wp_conseq; [by eapply wp_run_program; [|apply HistoryStart|exact Hs]|].
  intros tr s' (B & Htr & Hs'). exists B. split; [exact Htr|]. split; [by eapply history_disjoint|exact Hs'].
Qed.

(** C9: the same from the first call in the process on: [init] maps the regions
    and the program then runs against the abstract memory. *)
Theorem program_from_start prog n h w :
  layout_ok -> runtime_page_size = PAGE_SIZE -> slab_region_end h = 0 -> init_lock h = false ->
  N_ARENA <= thread_arena h \/ N_ARENA = 1 -> arena_ok h -> atfork_ok pthread_atfork (mapped (kern w)) w -> legal prog ->
  wp (init pthread_atfork ;;; run_program prog n [])
     (fun tr s' => exists B, history prog tr B /\ represents (mapped (kern w)) B s') init_halts (h, w).
Proof.
  intros Hlo Hpage He Hlock Hnew Ha Hfork Hlegal. apply wp_bind. eapply wp_conseq; [by apply wp_init_fresh|].
  intros ar s' (_ & m & Hh & Hg & Hc & _). eapply wp_mono; [eapply wp_run_program; [exact Hlegal|apply HistoryStart|]| |].
  - exists m. split; [exact Hh|]. split; [exact Hg|]. split; [done|]. by intros p j f []%lookup_empty_Some.
  - by intros tr s1 ?.
  - intros e' He'. by left.
Qed.
End Refinement.

(** ** Witnesses *)

Section Witnesses.
#[local] Existing Instances default_config demo_platform.

(** A program that stores a byte in a block of 100, reads it back and frees the
    block. *)
Definition demo_program : program := fun tr =>
  match tr with
  | [] => Some (Malloc 100)
  | [(Malloc _, p)] => if p =? 0 then None else Some (Store p 5 42)
  | [(Malloc _, p); (Store _ _ _, _)] => Some (Load p 5)
  | [(Malloc _, p); (Store _ _ _, _); (Load _ _, _)] => Some (Free p)
  | _ => None
  end.

Lemma demo_legal : legal demo_program.
Proof.
  assert (H1 : forall c p B, history demo_program [(c, p)] B -> c = Malloc 100 /\ (p <> 0 -> exists f, B !! p = Some (100, f))).
  { intros c p B (B0 & H0%history_start_inv & [= <-] & _ & Hs)%(history_step_inv _ []). split; [done|]. intros Hp. subst B0.
    inversion Hs; subst; [done|]. eexists. apply lookup_insert_eq. }
  assert (H2 : forall x c r B, history demo_program [x; (c, r)] B ->
    exists p, x = (Malloc 100, p) /\ c = Store p 5 42 /\ exists f, B !! p = Some (100, f)).
  { intros [c0 p] c r B (B0 & H0 & Hc & _ & Hs)%(history_step_inv _ [_]). apply H1 in H0 as [-> Hp]. exists p. split; [done|].
    cbn in Hc. destruct (Z.eqb_spec p 0) as [|Hne]; [done|]. injection Hc as <-. split; [done|].
    destruct (Hp Hne) as [f Hf]. inversion Hs as [| | | | | | | | | | |? ? n g ? ? Hg|]; subst. rewrite Hf in Hg. injection Hg as <- <-.
    eexists. apply lookup_insert_eq. }
  assert (H3 : forall x y c r B, history demo_program [x; y; (c, r)] B ->
    exists p r', x = (Malloc 100, p) /\ y = (Store p 5 42, r') /\ c = Load p 5 /\ is_Some (B !! p)).
  { intros x [c1 r1] c r B (B0 & H0 & Hc & _ & Hs)%(history_step_inv _ [_; _]). apply H2 in H0 as (p & -> & -> & f & Hf).
    cbn in Hc. injection Hc as <-. exists p, r1. split; [done|]. split; [done|]. split; [done|]. inversion Hs; subst. by eexists. }
  intros tr B c Htr Hc. destruct tr as [|x [|y [|z [|t tr]]]].
  - injection Hc as <-. by split.
  - destruct x as [c0 p]. apply H1 in Htr as [-> Hp]. cbn in Hc. destruct (Z.eqb_spec p 0) as [|Hne]; [done|]. injection Hc as <-.
    destruct (Hp Hne) as [f Hf]. exists 100, f. split; [exact Hf|lia].
  - destruct y as [c1 r1]. apply H2 in Htr as (p & -> & -> & f & Hf). cbn in Hc. injection Hc as <-. exists 100, f. split; [exact Hf|lia].
  - destruct z as [c2 r2]. apply H3 in Htr as (p & r' & -> & -> & -> & HB). cbn in Hc. injection Hc as <-. by right.
  - exfalso. destruct x as [[] ?], y as [[] ?], z as [[] ?]; done.
Qed.

Lemma program_refines_witness :
  wp (run_program no_atfork demo_program 4 [])
     (fun tr s' => exists B, history demo_program tr B /\ disjoint_blocks B /\ represents demo_rest B s')
     system_halts (demo_heap, demo_heap_world).
Proof.
  destruct demo_heap_ok as (m & Hh & Hg & Hc).
  assert (Hrep : represents demo_rest ∅ (demo_heap, demo_heap_world)).
  { exists m. split; [exact Hh|]. split; [exact Hg|]. split; [intros _; exact Hc|]. by intros p n f []%lookup_empty_Some. }
  exact (program_refines no_atfork demo_rest demo_program 4 (demo_heap, demo_heap_world) demo_legal Hrep).
Defined.

Lemma program_from_start_witness :
  wp (init no_atfork ;;; run_program no_atfork demo_program 4 [])
     (fun tr s' => exists B, history demo_program tr B /\ represents demo_rest B s')
     (init_halts (R := Z)) (uninitialized, demo_world []).
Proof.
  exact (program_from_start no_atfork demo_program 4 uninitialized (demo_world []) demo_layout_ok eq_refl eq_refl eq_refl
    (or_introl (Z.le_refl 4)) demo_arena_ok (no_atfork_ok _ _) demo_legal).
Defined.
End Witnesses.
