(* ===== verification/ForkSpec.v ===== *)
(** What the handlers around fork promise: [full_lock] takes every lock,
    [full_unlock] in the parent and [post_fork_child] in the child release them. *)

From S2P Require Import Prelude Config Util SizeClass Kernel Maps RandomSource SlabMeta Slab SlabLists SlabHeap SlabInv SlabRegion SlabAlloc SlabQuarantine SlabFree SlabCanary Regions RegionTable RegionMap Large LargeInv LargeAlloc Allocator AllocatorInv AllocatorAlloc AllocatorFree Requests InitSpec QuerySpec.

(** ** Updating all classes *)

Section Update.
Context {A : Type}.
Implicit Types (f g : A -> A) (l : list (Z * Z)) (mm : gmap (Z * Z) A).

Fixpoint alter_all f l mm : gmap (Z * Z) A :=
  match l with [] => mm | i :: l => alter_all f l (alter f i mm) end.

Lemma lookup_alter_all f l mm i :
  NoDup l -> alter_all f l mm !! i = if bool_decide (i ∈ l) then f <$> mm !! i else mm !! i.
Proof.
  intros Hl. revert mm. induction Hl as [|j l Hj Hl IH]; intros mm; [done|]. cbn [alter_all]. rewrite IH.
  destruct (decide (i = j)) as [->|Hne].
  - rewrite bool_decide_false by done. rewrite lookup_alter_eq, bool_decide_true by (by apply list_elem_of_here). done.
  - rewrite lookup_alter_ne by done. by rewrite (bool_decide_ext (i ∈ j :: l) (i ∈ l)) by (rewrite elem_of_cons; tauto).
Qed.

Lemma alter_insert_eq f mm i x : mm !! i = Some x -> alter f i mm = <[i := f x]> mm.
Proof.
  intros Hi. apply map_eq. intros j. destruct (decide (i = j)) as [->|Hne].
  - by rewrite lookup_alter_eq, lookup_insert_eq, Hi.
  - by rewrite lookup_alter_ne, lookup_insert_ne.
Qed.
End Update.

Section Fork.
Context {Cfg : Config} {Cok : ConfigOk Cfg} {K : Kernel} {Kok : KernelOk K} {R : Type}.
Context `{!RandomSource R} `{!RandomSourceOk R}.
Implicit Types (h : allocator R) (c : size_class R) (m : gmap Z (Z * Z)) (w : world) (rest : Z -> Prop).

Definition set_classes (mm : gmap (Z * Z) (size_class R)) h : allocator R :=
  Allocator (slab_region_start h) (slab_region_end h) mm (ro_region_allocator h) (thread_arena h) (thread_arena_counter h) (init_lock h).

(** A loop over classes whose body is a function of the class. *)
Lemma for_each_class (body : SM (R := R) unit) f l h w :
  NoDup l -> (forall i, i ∈ l -> exists c, size_class_metadata h !! i = Some c /\ body (c, w) = Ret tt (f c, w)) ->
  for_each (fun i => with_class (fst i) (snd i) body) l (h, w) =
    Ret tt (set_classes (alter_all f l (size_class_metadata h)) h, w).
Proof.
  intros Hl. revert h. induction Hl as [|[ar cl] l Hi Hl IH]; intros h Hbody; cbn [for_each alter_all].
  - unfold ret. do 2 f_equal. by destruct h.
  - destruct (Hbody (ar, cl)) as (c & Hc & Hrun); [by apply list_elem_of_here|]. unfold bind at 1, with_class at 1. cbn [fst snd].
    rewrite Hc, Hrun. cbn [fst snd]. rewrite IH.
    + cbn [size_class_metadata set_class]. by rewrite (alter_insert_eq f _ (ar, cl) c Hc).
    + intros j Hj. destruct (Hbody j) as (d & Hd & Hdr); [by apply list_elem_of_further|]. exists d. split; [|done].
      cbn. rewrite lookup_insert_ne; [done|]. by intros <-.
Qed.

Lemma pairs_nodup (l1 l2 : list Z) : NoDup l1 -> NoDup l2 -> NoDup (flat_map (fun a => map (fun b => (a, b)) l2) l1).
Proof.
  intros H1 H2. induction H1 as [|a l1 Ha H1 IH]; cbn [flat_map]; [constructor|]. apply NoDup_app. split; [|split; [|done]].
  - change (NoDup ((fun b => (a, b)) <$> l2)). apply NoDup_fmap_2; [|done]. by intros b b' [= ->].
  - intros [x y] Hx Hin. apply list_elem_of_In, in_map_iff in Hx as (b & [= <- <-] & _).
    apply list_elem_of_In, in_flat_map in Hin as (c & Hc & Hin). apply in_map_iff in Hin as (d & [= <- <-] & _).
    by apply Ha, list_elem_of_In.
Qed.

Lemma class_indices_nodup : NoDup (class_indices 0).
Proof. apply pairs_nodup; apply NoDup_seqZ. Qed.

(** ** The locks *)

(** The state in which every lock is taken. *)
Definition locked_all h (ra : region_allocator R) : allocator R :=
  set_classes (alter_all (set_lock true) (class_indices 0) (size_class_metadata h)) (set_region_allocator (set_ra_lock true ra) h).

Lemma heap_classes rest h m w i :
  heap_ok rest h m w -> i ∈ class_indices 0 ->
  exists c, size_class_metadata h !! i = Some c /\ class_ok (slab_region_start h) (fst i) (snd i) c /\ lock c = false.
Proof.
  intros Hh Hi. destruct i as [ar cl]. apply class_indices_all in Hi as [Har Hcl].
  destruct (ho_class _ _ _ _ Hh ar cl Har Hcl) as (c & Hc & Hok). exists c. split; [done|]. split; [done|].
  by destruct Hok as [(P & E & F & ? & _) _].
Qed.

Lemma full_lock_run rest h m w ra :
  heap_ok rest h m w -> ro_region_allocator h = Some ra -> full_lock (h, w) = Ret tt (locked_all h ra, w).
Proof.
  intros Hh Hra. destruct (ho_large _ _ _ _ Hh) as (ra' & Hra' & Hlock & _). rewrite Hra in Hra'. injection Hra' as <-.
  unfold full_lock. unfold bind at 1, with_regions. cbn [fst snd]. rewrite Hra.
  assert (E : region_lock (ra, w) = Ret tt (set_ra_lock true ra, w)).
  { unfold region_lock, get_ra, modify_ra, bind, gets, modify. cbn [fst snd]. by rewrite Hlock. }
  rewrite E. cbn [fst snd]. rewrite (for_each_class _ (set_lock true)); [done|apply class_indices_nodup|]. intros i Hi.
  destruct (heap_classes _ _ _ _ _ Hh Hi) as (c & Hc & _ & Hl). exists c. split; [done|].
  unfold mutex_lock, get_class, modify_class, bind, gets, modify. cbn [fst snd]. by rewrite Hl.
Qed.

(** Releasing the locks in the parent restores the state. *)
Lemma full_unlock_run rest h m w ra :
  heap_ok rest h m w -> ro_region_allocator h = Some ra -> full_unlock (locked_all h ra, w) = Ret tt (h, w).
Proof.
  intros Hh Hra. destruct (ho_large _ _ _ _ Hh) as (ra' & Hra' & Hlock & _). rewrite Hra in Hra'. injection Hra' as <-.
  unfold full_unlock. unfold bind at 1, with_regions. cbn [fst snd locked_all set_classes ro_region_allocator set_region_allocator].
  unfold region_unlock, modify_ra, modify at 1. cbn [fst snd].
  assert (Eback : set_ra_lock false (set_ra_lock true ra) = ra) by (unfold set_ra_lock; cbn; rewrite <- Hlock; by destruct ra).
  rewrite Eback. rewrite (for_each_class _ (set_lock false)).
  - f_equal. f_equal. unfold set_classes, set_region_allocator. cbn. rewrite <- Hra.
    transitivity (set_classes (size_class_metadata h) h); [|by destruct h]. unfold set_classes. f_equal. apply map_eq. intros i.
    rewrite !lookup_alter_all by apply class_indices_nodup. case_bool_decide as Hi; [|done].
    destruct (heap_classes _ _ _ _ _ Hh Hi) as (c & -> & _ & Hl). cbn [fmap option_fmap option_map]. f_equal. by apply set_lock_back.
  - apply class_indices_nodup.
  - intros i Hi. destruct (heap_classes _ _ _ _ _ Hh Hi) as (c & Hc & _ & _). exists (set_lock true c). split; [|done].
    cbn. rewrite lookup_alter_all by apply class_indices_nodup. by rewrite bool_decide_true, Hc.
Qed.

(** ** The child *)

(** [reseeds gs gs' w w']: [random_state_init] ran on each of the generators [gs] in
    turn, from the machine state [w] to [w'], and left [gs']. Every generator is
    seeded by a call of its own. *)
Inductive reseeds : list R -> list R -> world -> world -> Prop :=
| ReseedsEnd w : reseeds [] [] w w
| ReseedsNext g g' gs gs' w w1 w2 :
    random_init (g, w) = Ret tt (g', w1) -> reseeds gs gs' w1 w2 -> reseeds (g :: gs) (g' :: gs') w w2.

(** The generators of some classes, and all those of the allocator. *)
Definition class_generators (l : list (Z * Z)) h : list R := omap (fun i => rng <$> size_class_metadata h !! i) l.
Definition generators h : list R :=
  (ra_rng <$> option_list (ro_region_allocator h)) ++ class_generators (class_indices 0) h.

Lemma class_generators_same l h h' :
  (forall i, i ∈ l -> rng <$> size_class_metadata h' !! i = rng <$> size_class_metadata h !! i) ->
  class_generators l h' = class_generators l h.
Proof.
  intros Hl. unfold class_generators. induction l as [|i l IH]; [done|]. cbn. rewrite (Hl i) by apply list_elem_of_here.
  rewrite IH by (intros j Hj; by apply Hl, list_elem_of_further). done.
Qed.

(** Every class has an unlocked lock and a fresh generator. *)
Record reseeded (l : list (Z * Z)) h w h' w' : Prop := {
  rs_seeds : reseeds (class_generators l h) (class_generators l h') w w';
  rs_rest : h' = set_classes (size_class_metadata h') h;
  rs_done : forall i c, i ∈ l -> size_class_metadata h !! i = Some c ->
    exists r, random_inv r /\ size_class_metadata h' !! i = Some (set_rng r (set_lock false c));
  rs_other : forall i, i ∉ l -> size_class_metadata h' !! i = size_class_metadata h !! i
}.

Lemma wp_reseed_class c w :
  random_inv (rng c) ->
  wp (mutex_unlock ;;; with_rng random_init)
     (fun _ s' => exists r, random_init (rng c, w) = Ret tt (r, snd s') /\ random_inv r /\
        fst s' = set_rng r (set_lock false c) /\ mem (snd s') = mem w /\ maps_grow (kern w) (kern (snd s')))
     random_halts (c, w).
Proof.
  intros Hr. unfold mutex_unlock, modify_class. apply wp_bind, wp_modify. cbn [fst snd]. apply wp_with_rng. cbn [rng set_lock].
  eapply wp_conseq; [apply wp_ran, wp_keeps; [apply _|]; apply RandomSource.init_ok; by right|].
  intros [] [r w'] [[[Hi Hm] Hg] Hrun]. cbn [fst snd] in *. by exists r.
Qed.

Lemma wp_reseed l h w :
  NoDup l -> (forall i, i ∈ l -> exists c, size_class_metadata h !! i = Some c /\ random_inv (rng c)) ->
  wp (for_each (fun i => with_class (fst i) (snd i) (mutex_unlock ;;; with_rng random_init)) l)
     (fun _ s' => reseeded l h w (fst s') (snd s') /\ mem (snd s') = mem w /\ maps_grow (kern w) (kern (snd s'))) random_halts (h, w).
Proof.
  intros Hl. revert h w. induction Hl as [|[ar cl] l Hi Hl IH]; intros h w Hc; cbn [for_each].
  { apply wp_ret. split; [|done]. split; [constructor|by destruct h|by intros i c ?%elem_of_nil|done]. }
  destruct (Hc (ar, cl)) as (c & Hcl & Hr); [by apply list_elem_of_here|]. apply wp_bind. cbn [fst snd].
  eapply wp_with_class; [exact Hcl|]. eapply wp_conseq; [by apply wp_reseed_class|].
  intros _ [c' w1] (r & Hrun & Hr' & -> & Hm & Hg). cbn [fst snd] in *. set (h1 := set_class ar cl _ h).
  assert (Hne : forall i, i ∈ l -> (ar, cl) <> i) by (by intros i Hin <-).
  assert (Hlk : forall i, (ar, cl) <> i -> size_class_metadata h1 !! i = size_class_metadata h !! i)
    by (intros i Hn; cbn; by rewrite lookup_insert_ne).
  eapply wp_conseq; [apply (IH h1 w1)|].
  - intros i Hin. destruct (Hc i) as (d & Hd & Hdr); [by apply list_elem_of_further|]. exists d. split; [|done]. rewrite Hlk; auto.
  - intros _ [h' w'] ([Hseeds Hrest Hdone Hother] & Hm' & Hg'). cbn [fst snd] in *. split; [|split; [congruence|by etransitivity]]. split.
    + unfold class_generators. cbn. rewrite Hcl, Hother by done. cbn. rewrite lookup_insert_eq. cbn.
      econstructor; [exact Hrun|]. rewrite (class_generators_same l h h1) in Hseeds; [exact Hseeds|].
      intros i Hin. rewrite Hlk; auto.
    + rewrite Hrest. done.
    + intros i d Hin Hd. apply elem_of_cons in Hin as [->|Hin].
      * rewrite Hcl in Hd. injection Hd as <-. exists r. split; [done|]. rewrite Hother by done. cbn. by rewrite lookup_insert_eq.
      * apply Hdone; [done|]. rewrite Hlk; auto.
    + intros i Hin. assert (Hni : i ∉ l) by (intros Hx; apply Hin; by apply list_elem_of_further).
      rewrite Hother by done. apply Hlk. intros <-. apply Hin, list_elem_of_here.
Qed.

(** A class with another generator. *)
Lemma class_ok_rng start ar cl c r : class_ok start ar cl c -> random_inv r -> class_ok start ar cl (set_rng r c).
Proof.
  intros [(P & E & F & Hl & Hb) Hp] Hr. split; [|done]. exists P, E, F. split; [done|].
  eapply (body_update cl c); try done; apply Hb.
Qed.

(** Generators do not matter to the allocations. *)
Lemma kept_rng rest h m w h' w' :
  heap_ok rest h m w -> slab_region_start h' = slab_region_start h -> mem w' = mem w ->
  (forall i c, i ∈ class_indices 0 -> size_class_metadata h !! i = Some c ->
     exists r, size_class_metadata h' !! i = Some (set_rng r c)) ->
  kept_except rest (fun _ => False) h m w h' m w'.
Proof.
  intros Hh Hst Hm Hc.
  assert (Hback : forall ar cl d, 0 <= ar < N_ARENA -> 0 <= cl < N_SIZE_CLASSES -> size_class_metadata h' !! (ar, cl) = Some d ->
    exists c r, size_class_metadata h !! (ar, cl) = Some c /\ d = set_rng r c).
  { intros ar cl d Har Hcl Hd. destruct (ho_class _ _ _ _ Hh ar cl Har Hcl) as (c & Hlk & _).
    destruct (Hc (ar, cl) c) as (r & Hr); [by apply class_indices_all|done|]. exists c, r. split; congruence. }
  assert (Hin : forall ar cl i s d, 0 <= ar < N_ARENA -> 0 <= cl < N_SIZE_CLASSES ->
    size_class_metadata h' !! (ar, cl) = Some d -> exists c, size_class_metadata h !! (ar, cl) = Some c /\
      live d i s = live c i s /\ slot_address d i s = slot_address c i s /\ slots d = slots c /\ slab_size d = slab_size c).
  { intros ar cl i s d Har Hcl Hd. destruct (Hback ar cl d Har Hcl Hd) as (c & r & Hlk & ->). by exists c. }
  split; try (intros; by rewrite Hm); [| | |done].
  - intros q n _. split; (intros [(ar & cl & i & s & d & [])|Hl]; [left|by right]).
    + destruct (Hin ar cl i s d) as (c & Hlk & El & Ea & _); [done..|]. exists ar, cl, i, s, c. split; (done || congruence).
    + destruct (Hc (ar, cl) d) as (r & Hr); [by apply class_indices_all|done|]. by exists ar, cl, i, s, (set_rng r d).
  - intros _ Hcl ar cl i s d [Har Hclass Hd Hi Hs Hl]. destruct (Hin ar cl i s d) as (c & Hlk & El & -> & Es & Esz); [done..|].
    rewrite Hm. apply (Hcl ar cl i s c). split; (done || congruence).
  - intros Hg ar cl d Har Hclass Hd. destruct (Hback ar cl d Har Hclass Hd) as (c & r & Hlk & ->).
    destruct (Hg ar cl c Har Hclass Hlk) as [Hw Hsl]. split; [exact Hw|]. intros i s. unfold slot_guarded. rewrite Hm. apply Hsl.
Qed.

Lemma wp_post_fork_child rest h m w ra :
  heap_ok rest h m w -> ro_region_allocator h = Some ra ->
  wp post_fork_child
     (fun _ s' => heap_ok rest (fst s') m (snd s') /\ kept_except rest (fun _ => False) h m w (fst s') m (snd s') /\
        reseeds (generators h) (generators (fst s')) w (snd s'))
     random_halts (locked_all h ra, w).
Proof.
  intros Hh Hra. destruct (ho_large _ _ _ _ Hh) as (ra' & Hra' & Hinv). rewrite Hra in Hra'. injection Hra' as <-.
  unfold post_fork_child. apply wp_bind. eapply (wp_with_regions (set_ra_lock true ra)); [done|].
  unfold region_unlock, modify_ra. apply wp_bind, wp_modify. cbn [fst snd].
  destruct Hinv as [Hlock Hb]. unfold with_ra_rng. apply wp_zoom. cbn [fst snd ra_rng set_ra_lock].
  eapply wp_conseq; [apply wp_ran, wp_keeps; [apply _|]; apply RandomSource.init_ok; right; apply Hb|].
  intros [] [r w1] [[[Hr Hm1] Hg1] Hrun]. cbn [fst snd] in *.
  set (ra1 := set_ra_rng r (set_ra_lock false (set_ra_lock true ra))). set (h1 := set_region_allocator ra1 (locked_all h ra)).
  assert (Hlk : forall i c, i ∈ class_indices 0 -> size_class_metadata h !! i = Some c -> size_class_metadata h1 !! i = Some (set_lock true c)).
  { intros i c Hi Hc. cbn. rewrite lookup_alter_all by apply class_indices_nodup. by rewrite bool_decide_true, Hc. }
  eapply wp_conseq; [apply (wp_reseed _ h1 w1); [apply class_indices_nodup|]|].
  { intros i Hi. destruct (heap_classes _ _ _ _ _ Hh Hi) as (c & Hc & [(P & E & F & _ & Hbc) _] & _). exists (set_lock true c).
    split; [by apply Hlk|apply Hbc]. }
  intros _ [h2 w2] ([Hseeds Hrest Hdone _] & Hm2 & Hg2). cbn [fst snd] in *.
  assert (Hgrow : maps_grow (kern w) (kern w2)) by by etransitivity.
  assert (Hclass : forall i c, i ∈ class_indices 0 -> size_class_metadata h !! i = Some c ->
    exists x, random_inv x /\ size_class_metadata h2 !! i = Some (set_rng x c)).
  { intros i c Hi Hc. destruct (Hdone i (set_lock true c) Hi (Hlk i c Hi Hc)) as (x & Hx & E). exists x. split; [done|].
    destruct (heap_classes _ _ _ _ _ Hh Hi) as (d & Hd & _ & Hl). rewrite Hc in Hd. injection Hd as <-.
    by rewrite set_lock_back in E. }
  assert (Es : slab_region_start h2 = slab_region_start h) by by rewrite Hrest.
  split.
  - split; rewrite ?Es; try apply Hh.
    + rewrite Hrest. apply Hh.
    + intros ar cl Har Hcl. destruct (ho_class _ _ _ _ Hh ar cl Har Hcl) as (c & Hc & Hok).
      destruct (Hclass (ar, cl) c) as (x & Hx & E); [by apply class_indices_all|done|]. exists (set_rng x c). split; [done|].
      by apply class_ok_rng.
    + exists ra1. split; [by rewrite Hrest|]. split; [done|]. unfold outside, slab_range. rewrite Es.
      eapply large_body_quiet; [exact Hb|done..].
    + unfold slab_range. rewrite Es. apply Hh.
    + rewrite Hrest. apply Hh.
  - split.
    { eapply kept_rng; [exact Hh|exact Es|congruence|]. intros i c Hi Hc. destruct (Hclass i c Hi Hc) as (x & _ & E). by exists x. }
    unfold generators. rewrite Hra, Hrest. cbn [option_list fmap list_fmap app ro_region_allocator set_classes].
    cbn. econstructor; [exact Hrun|]. rewrite (class_generators_same _ h h1) in Hseeds; [exact Hseeds|].
    intros i Hi. destruct (heap_classes _ _ _ _ _ Hh Hi) as (c & Hc & _). by rewrite (Hlk i c Hi Hc), Hc.
Qed.

(** ** The promise *)

(** C19: the handlers that [init] registers with pthread_atfork. Before fork,
    [full_lock] takes every lock without waiting for one, so that no other
    thread is inside the allocator. In the parent [full_unlock] restores exactly
    the state before. In the child [post_fork_child] releases every lock, which
    the threads that are gone could not do, and seeds every generator anew: that of
    the region allocator and then that of each size class is what
    [random_state_init] makes of it, each with a call of its own in the machine
    state that the one before left. All allocations are as before, and the
    allocator can be used: only the random source can stop this. *)
Theorem fork_handlers_ok rest h m w :
  heap_ok rest h m w ->
  exists s1, full_lock (h, w) = Ret tt s1 /\
    (forall ra, ro_region_allocator (fst s1) = Some ra -> ra_lock ra = true) /\
    (forall i c, i ∈ class_indices 0 -> size_class_metadata (fst s1) !! i = Some c -> lock c = true) /\
    full_unlock s1 = Ret tt (h, w) /\
    wp post_fork_child
       (fun _ s' => heap_ok rest (fst s') m (snd s') /\ kept_except rest (fun _ => False) h m w (fst s') m (snd s') /\
          reseeds (generators h) (generators (fst s')) w (snd s'))
       random_halts s1.
Proof.
  intros Hh. destruct (ho_large _ _ _ _ Hh) as (ra & Hra & _). exists (locked_all h ra, w).
  split; [by eapply full_lock_run|]. split; [by intros ra' [= <-]|]. split; [|split].
  - intros i c Hi Hc. cbn in Hc. rewrite lookup_alter_all, bool_decide_true in Hc by (done || apply class_indices_nodup).
    destruct (size_class_metadata h !! i) as [d|]; [|done]. cbn in Hc. by injection Hc as <-.
  - by eapply full_unlock_run.
  - by apply wp_post_fork_child.
Qed.
End Fork.

(** ** Witness *)

Section Witnesses.
#[local] Existing Instances default_config demo_platform.

Lemma fork_handlers_ok_witness :
  exists s1, full_lock (demo_heap, demo_heap_world) = Ret tt s1 /\ full_unlock s1 = Ret tt (demo_heap, demo_heap_world).
Proof.
  destruct demo_heap_ok as (m & Hh & _).
  destruct (fork_handlers_ok demo_rest demo_heap m demo_heap_world Hh) as (s1 & H1 & _ & _ & H2 & _).
  exists s1. split; [exact H1|exact H2].
Defined.
End Witnesses.
