(* ===== verification/New.v ===== *)
(** new.cc: the C++ allocation and deallocation operators, and what they promise:
    operator new runs the new-handler until memory is found, throws
    std::bad_alloc and never returns NULL; its result can be deleted. *)

From S2P Require Import Prelude Config Util SizeClass Kernel Maps RandomSource SlabMeta Slab SlabInv SlabCanary Regions Large LargeInv Allocator Malloc AllocatorInv AllocatorAlloc AllocatorFree Requests InitSpec MallocSpec FreeSpec AlignedSpec.

(** ** The operators *)

(** A C++ exception: std::bad_alloc or a class derived from it, or another one. *)
Inductive exception := bad_alloc | other_exception.

(** How a call ends: it returns, or an exception propagates. *)
Inductive result (A : Type) := Returned (a : A) | Threw (e : exception).
Arguments Returned {_} _.
Arguments Threw {_} _.

Section Operators.
Context `{Cfg : Config} `{K : Kernel} {R : Type} `{!RandomSource R} `{!Platform}.
Context (pthread_atfork : AM (R := R) bool).
(** The state of the C++ runtime, and std::get_new_handler: the installed
    handler, any program of the process that may also install another one. *)
Context {N : Type}.

Definition NM (A : Type) : Type := M (N * (allocator R * world)) A.
Context (get_new_handler : N -> option (NM (result unit))).

Definition on_allocator {A} (m : AM (R := R) A) : NM A := zoom snd (fun t s => (fst s, t)) m.

(** The do loop of [handle_out_of_memory], of at most [fuel] rounds, around the
    allocation [allocate]; no result when it would go on. The pointer is null
    whenever the loop is left without a handler. *)
Fixpoint handle_out_of_memory (allocate : AM (R := R) Z) (fuel : nat) (nothrow : bool) : NM (option (result Z)) :=
  match fuel with
  | O => ret None
  | Datatypes.S fuel =>
      let* handler := gets (fun s => get_new_handler (fst s)) in
      match handler with
      | None => ret (Some (if nothrow then Returned 0 else Threw bad_alloc))
      | Some handler =>
          let* r := handler in
          match r with
          | Threw bad_alloc => ret (Some (if nothrow then Returned 0 else Threw bad_alloc))
          | Threw e => ret (Some (Threw e))
          | Returned _ =>
              let* ptr := on_allocator allocate in
              if ptr =? 0 then handle_out_of_memory allocate fuel nothrow else ret (Some (Returned ptr))
          end
      end
  end.

Definition new_impl (fuel : nat) (size : Z) (nothrow : bool) : NM (option (result Z)) :=
  let* ptr := on_allocator (h_malloc pthread_atfork size) in
  if negb (ptr =? 0) then ret (Some (Returned ptr)) else
  handle_out_of_memory (h_malloc pthread_atfork size) fuel nothrow.

(** An exception that leaves a noexcept function ends the program. *)
Definition noexcept {A} (m : NM (option (result A))) : NM (option (result A)) :=
  let* r := m in
  match r with Some (Threw _) => fatal_error "std::terminate" | _ => ret r end.

Definition operator_new (fuel : nat) (size : Z) : NM (option (result Z)) := new_impl fuel size false.
Definition operator_new_array (fuel : nat) (size : Z) : NM (option (result Z)) := new_impl fuel size false.
Definition operator_new_nothrow (fuel : nat) (size : Z) : NM (option (result Z)) := noexcept (new_impl fuel size true).
Definition operator_new_array_nothrow (fuel : nat) (size : Z) : NM (option (result Z)) := noexcept (new_impl fuel size true).

Definition operator_delete (ptr : Z) : AM (R := R) unit := h_free ptr.
Definition operator_delete_array (ptr : Z) : AM (R := R) unit := h_free ptr.
Definition operator_delete_nothrow (ptr : Z) : AM (R := R) unit := h_free ptr.
Definition operator_delete_array_nothrow (ptr : Z) : AM (R := R) unit := h_free ptr.
Definition operator_delete_sized (ptr size : Z) : AM (R := R) unit := h_free_sized ptr size.
Definition operator_delete_array_sized (ptr size : Z) : AM (R := R) unit := h_free_sized ptr size.

(** The same loop around h_aligned_alloc. *)
Definition handle_out_of_memory_aligned (fuel : nat) (size alignment : Z) (nothrow : bool) : NM (option (result Z)) :=
  handle_out_of_memory (h_aligned_alloc pthread_atfork alignment size) fuel nothrow.

Definition new_impl_aligned (fuel : nat) (size alignment : Z) (nothrow : bool) : NM (option (result Z)) :=
  let* ptr := on_allocator (h_aligned_alloc pthread_atfork alignment size) in
  if negb (ptr =? 0) then ret (Some (Returned ptr)) else
  handle_out_of_memory_aligned fuel size alignment nothrow.

Definition operator_new_aligned (fuel : nat) (size alignment : Z) : NM (option (result Z)) :=
  new_impl_aligned fuel size alignment false.
Definition operator_new_array_aligned (fuel : nat) (size alignment : Z) : NM (option (result Z)) :=
  new_impl_aligned fuel size alignment false.
Definition operator_new_aligned_nothrow (fuel : nat) (size alignment : Z) : NM (option (result Z)) :=
  noexcept (new_impl_aligned fuel size alignment true).
Definition operator_new_array_aligned_nothrow (fuel : nat) (size alignment : Z) : NM (option (result Z)) :=
  noexcept (new_impl_aligned fuel size alignment true).

Definition operator_delete_aligned (ptr alignment : Z) : AM (R := R) unit := h_free ptr.
Definition operator_delete_array_aligned (ptr alignment : Z) : AM (R := R) unit := h_free ptr.
Definition operator_delete_aligned_nothrow (ptr alignment : Z) : AM (R := R) unit := h_free ptr.
Definition operator_delete_array_aligned_nothrow (ptr alignment : Z) : AM (R := R) unit := h_free ptr.
Definition operator_delete_sized_aligned (ptr size alignment : Z) : AM (R := R) unit :=
  h_free_aligned_sized ptr alignment size.
Definition operator_delete_array_sized_aligned (ptr size alignment : Z) : AM (R := R) unit :=
  h_free_aligned_sized ptr alignment size.
End Operators.

(** ** The loop *)

Section Spec.
Context {Cfg : Config} {Cok : ConfigOk Cfg} {K : Kernel} {Kok : KernelOk K} {R : Type}.
Context `{!RandomSource R} `{!RandomSourceOk R} `{!Platform}.
Context (pthread_atfork : AM (R := R) bool) {N : Type}.
Context (get_new_handler : N -> option (NM (R := R) (N := N) (result unit))).
Implicit Types (h : allocator R) (m : gmap Z (Z * Z)) (w : world) (rest : Z -> Prop) (n : N).

(** The allocator in order, and nothing written to memory that is not held. *)
Definition in_order rest m (s : allocator R * world) : Prop :=
  heap_ok rest (fst s) m (snd s) /\ guarded (fst s) (snd s) /\ (ZERO_ON_FREE = true -> clean (fst s) (snd s)).
Definition ready rest (s : allocator R * world) : Prop := exists m, in_order rest m s.

(** What the standard requires of a new-handler: it makes memory available and
    returns, throws std::bad_alloc, or ends the program. One that returns uses up
    some of what it has to give, and the allocator is in order after it. *)
Definition handlers_ok rest (supply : N -> nat) (handler_halts : halt -> Prop) : Prop :=
  forall n f s, get_new_handler n = Some f -> ready rest s ->
    wp f (fun r s' => ready rest (snd s') /\
            match r with Returned _ => (supply (fst s') < supply n)%nat | Threw e => e = bad_alloc end)
       handler_halts (n, s).

Section Loop.
Context (rest : Z -> Prop) (supply : N -> nat) (handler_halts : halt -> Prop).
Context (Hhandlers : handlers_ok rest supply handler_halts).
Context (allocate : AM (R := R) Z) (good : Z -> allocator R * world -> Prop).
Context (Hallocate : forall s, ready rest s ->
  wp allocate (fun p s' => ready rest s' /\ (p <> 0 -> 0 < p /\ good p s')) system_halts s).

(** No handler is left, or the last one threw. *)
Definition gave_up (s : N * (allocator R * world)) : Prop :=
  get_new_handler (fst s) = None \/
  exists s0 f, get_new_handler (fst s0) = Some f /\ f s0 = Ret (Threw bad_alloc) s.

Definition new_outcome (nothrow : bool) (r : option (result Z)) (s : N * (allocator R * world)) : Prop :=
  ready rest (snd s) /\
  match r with
  | None => False
  | Some (Returned p) => 0 < p /\ good p (snd s) \/ p = 0 /\ nothrow = true /\ gave_up s
  | Some (Threw e) => e = bad_alloc /\ nothrow = false /\ gave_up s
  end.

Definition new_halts (e : halt) : Prop := system_halts e \/ handler_halts e.

Lemma new_failure (nothrow : bool) (s : N * (allocator R * world)) :
  ready rest (snd s) -> gave_up s -> new_outcome nothrow (Some (if nothrow then Returned 0 else Threw bad_alloc)) s.
Proof. intros Hr Hg. split; [done|]. destruct nothrow; [by right|done]. Qed.

Lemma wp_on_allocator (k : Z -> NM (option (result Z))) (nothrow : bool) n s :
  ready rest s ->
  (forall s', ready rest s' -> wp (k 0) (new_outcome nothrow) new_halts (n, s')) ->
  (forall p s', p <> 0 -> k p (n, s') = Ret (Some (Returned p)) (n, s')) ->
  wp (let* p := on_allocator allocate in k p) (new_outcome nothrow) new_halts (n, s).
Proof.
  intros Hs Hnull Hsome. apply wp_bind. unfold on_allocator. apply wp_zoom. cbn [fst snd].
  eapply wp_mono; [by apply Hallocate| |by left]. intros p s' [Hs' Hp].
  destruct (decide (p = 0)) as [->|Hne]; [by apply Hnull|]. unfold wp. rewrite Hsome by done. split; [done|]. left. by apply Hp.
Qed.

Lemma wp_handle_out_of_memory fuel nothrow n s :
  ready rest s -> (supply n < fuel)%nat ->
  wp (handle_out_of_memory get_new_handler allocate fuel nothrow) (new_outcome nothrow) new_halts (n, s).
Proof.
  revert n s. induction fuel as [|fuel IH]; intros n s Hs Hf; [lia|]. cbn [handle_out_of_memory].
  apply wp_bind, wp_gets. cbn [fst]. destruct (get_new_handler n) as [f|] eqn:Hn; [|by apply wp_ret, new_failure; [|left]].
  apply wp_bind. pose proof (Hhandlers n f s Hn Hs) as Hw. unfold wp in Hw |- * at 1.
  destruct (f (n, s)) as [r [n' s']|e] eqn:Hrun; [|by right]. destruct Hw as [Hs' Hr]. cbn [fst snd] in *.
  destruct r as [[]|e].
  - eapply (wp_on_allocator (fun ptr => if ptr =? 0 then _ else _) nothrow n' s' Hs').
    + intros s2 Hs2. apply IH; [done|lia].
    + intros p s2 Hp. by rewrite (proj2 (Z.eqb_neq p 0) Hp).
  - subst e. apply wp_ret, new_failure; [done|]. right. by exists (n, s), f.
Qed.
End Loop.

Lemma wp_new_impl rest supply handler_halts allocate good fuel nothrow n s :
  handlers_ok rest supply handler_halts ->
  (forall s, ready rest s -> wp allocate (fun p s' => ready rest s' /\ (p <> 0 -> 0 < p /\ good p s')) system_halts s) ->
  ready rest s -> (supply n < fuel)%nat ->
  wp (let* ptr := on_allocator allocate in
      if negb (ptr =? 0) then ret (Some (Returned ptr)) else handle_out_of_memory get_new_handler allocate fuel nothrow)
     (new_outcome rest good nothrow) (new_halts handler_halts) (n, s).
Proof.
  intros Hh Ha Hs Hf. eapply (wp_on_allocator rest handler_halts allocate good Ha (fun ptr => if negb (ptr =? 0) then _ else _) nothrow n s Hs).
  - intros s' Hs'. by apply (wp_handle_out_of_memory rest supply).
  - intros p s' Hp. by rewrite (proj2 (Z.eqb_neq p 0) Hp).
Qed.

Lemma wp_noexcept rest handler_halts good (m : NM (option (result Z))) s :
  wp m (new_outcome rest good true) (new_halts handler_halts) s ->
  wp (noexcept m) (new_outcome rest good true) (new_halts handler_halts) s.
Proof.
  intros Hm. unfold noexcept. apply wp_bind. eapply wp_conseq; [exact Hm|]. intros r s' [Hs' Hr].
  destruct r as [[p|e]|]; [by apply wp_ret|by destruct Hr as (_ & ? & _)|done].
Qed.

(** ** The allocations *)

(** A block for [size] bytes, which a request for [size] bytes may name. *)
Definition new_block_at rest (size p : Z) (s : allocator R * world) : Prop :=
  exists m k, in_order rest m s /\ block_at (fst s) m p k /\ size <= k /\ (min_align | p) /\
    sized_for (fst s) m p (adjust_size_for_canary size).

Definition aligned_block_at rest (size alignment p : Z) (s : allocator R * world) : Prop :=
  exists m k, in_order rest m s /\ block_at (fst s) m p k /\ size <= k /\ (alignment | p) /\
    (exists j, 0 <= j < 64 /\ alignment = 2 ^ j) /\ sized_aligned_for (fst s) m p alignment (adjust_size_for_canary size).

Lemma in_order_kept rest (X : Z -> Prop) m s m' s' :
  in_order rest m s -> heap_ok rest (fst s') m' (snd s') -> kept_except rest X (fst s) m (snd s) (fst s') m' (snd s') ->
  in_order rest m' s'.
Proof. intros (_ & Hg & Hc) Hh Hk. split; [done|]. split; [by apply Hk|]. intros Hz. apply Hk; auto. Qed.

Lemma in_order_halts rest m s e : in_order rest m s -> allocation_halts (fst s) (snd s) e -> system_halts e.
Proof. intros (_ & _ & Hc) [|(_ & Hz & Hno)]; [done|]. by destruct Hno; apply Hc. Qed.

Lemma h_malloc_ready rest size s :
  fits 64 size -> ready rest s ->
  wp (h_malloc pthread_atfork size)
     (fun p s' => ready rest s' /\ (p <> 0 -> 0 < p /\ new_block_at rest size p s')) system_halts s.
Proof.
  intros Hsize [m Ho]. pose proof Ho as (Hh & _ & _). destruct s as [h w]. cbn [fst snd] in *.
  eapply wp_mono; [apply (wp_alloc pthread_atfork rest h m w); [done|by apply adjust_fits]| |intros e; by apply (in_order_halts rest m (h, w))].
  intros p s' (m' & Hh' & Hk & Hres). pose proof (in_order_kept rest _ m (h, w) m' s' Ho Hh' Hk) as Ho'. split; [by exists m'|]. intros Hp.
  destruct Hres as [[-> _]|(k & [Hg Hpl] & Hf)]; [done|]. split; [apply Hf|]. exists m', k.
  split; [done|]. split; [apply Hf|]. split; [by apply granted_request|]. split; [apply Hf|].
  eapply granted_sized; [done|apply Hf|done|]. by eapply placed_for_start; [apply (kb_region _ _ _ _ _ _ _ _ Hk)|].
Qed.

Lemma h_aligned_alloc_ready rest size alignment s :
  fits 64 size -> fits 64 alignment -> ready rest s ->
  wp (h_aligned_alloc pthread_atfork alignment size)
     (fun p s' => ready rest s' /\ (p <> 0 -> 0 < p /\ aligned_block_at rest size alignment p s')) system_halts s.
Proof.
  intros Hsize Ha [m Ho]. pose proof Ho as (Hh & _ & _). destruct s as [h w]. cbn [fst snd] in *.
  assert (Herr : forall e s' m', heap_ok rest (fst s') m' (snd s') -> kept_except rest (fun _ => False) h m w (fst s') m' (snd s') ->
    wp (on_world (set_errno e) ;;; ret 0) (fun p s2 => ready rest s2 /\ (p <> 0 -> 0 < p /\ aligned_block_at rest size alignment p s2))
       system_halts s').
  { intros e s' m' Hh' Hk. apply wp_bind, wp_on_world, wp_modify, wp_ret. split; [|done]. exists m'.
    pose proof (in_order_kept rest _ m (h, w) m' s' Ho Hh' Hk) as Hin.
    split; [eapply heap_ok_world; [exact Hh'|reflexivity]|exact (proj2 Hin)]. }
  unfold h_aligned_alloc, alloc_aligned_simple. apply wp_bind.
  destruct (decide (Z.land (u64 (alignment - 1)) alignment = 0 /\ 1 <= alignment)) as [[E Hge]|Hno].
  - apply power_of_2_test in E as [->|(k & Hk & ->)]; [lia| |done].
    eapply wp_mono; [by apply (wp_alloc_aligned pthread_atfork rest h m w)| |intros e; by apply (in_order_halts rest m (h, w))].
    intros r s' (m' & Hh' & Hres). destruct Hres as [[-> Hk']|(p & j & -> & Hd & Hj & _ & Hk' & Hf & Hsa)]; cbn [Z.eqb negb].
    + by eapply Herr.
    + apply wp_ret. pose proof (in_order_kept rest _ m (h, w) m' s' Ho Hh' Hk') as Hin. split; [by exists m'|].
      intros _. split; [apply Hf|]. exists m', j. split; [done|]. split; [apply Hf|]. split; [done|]. split; [done|]. split; [by exists k|done].
  - eapply wp_conseq; [apply (wp_alloc_aligned_invalid pthread_atfork rest h m w); [done|done|done|]|].
    + intros (k & Hk & -> & Hle). apply Hno. split; [|done]. apply power_of_2_test; [done|right; by exists k].
    + intros r s' (-> & Hh' & Hk'). cbn [Z.eqb negb]. by eapply Herr.
Qed.

(** ** The promises *)

(** C14: operator new never returns NULL: it returns a new aligned block of at
    least the requested size, or throws std::bad_alloc, and that only when no
    new-handler is left or the last one threw. The nothrow form returns NULL in
    that case and never throws; the aligned forms return aligned blocks. All of
    them end when the handlers run out of memory to give back, with the allocator
    in order, and nothing else than a handler, the kernel or the random source
    can stop them. *)
Theorem operator_new_ok rest supply handler_halts fuel size alignment n s :
  handlers_ok rest supply handler_halts -> ready rest s -> fits 64 size -> fits 64 alignment -> (supply n < fuel)%nat ->
  let block := new_block_at rest size in let aligned := aligned_block_at rest size alignment in
  let halts := new_halts handler_halts in
  wp (operator_new pthread_atfork get_new_handler fuel size) (new_outcome rest block false) halts (n, s) /\
  wp (operator_new_nothrow pthread_atfork get_new_handler fuel size) (new_outcome rest block true) halts (n, s) /\
  wp (operator_new_aligned pthread_atfork get_new_handler fuel size alignment) (new_outcome rest aligned false) halts (n, s) /\
  wp (operator_new_aligned_nothrow pthread_atfork get_new_handler fuel size alignment) (new_outcome rest aligned true) halts (n, s).
Proof.
  intros Hh Hs Hsize Ha Hf block aligned halts.
  assert (Hblock := fun s => h_malloc_ready rest size s Hsize). assert (Haligned := fun s => h_aligned_alloc_ready rest size alignment s Hsize Ha).
  split; [|split; [|split]]; try apply wp_noexcept; (eapply wp_new_impl; [exact Hh| |exact Hs|exact Hf]); assumption.
Qed.

Lemma wp_delete_sized rest size p s handler_halts :
  fits 64 size -> 0 < p -> new_block_at rest size p s ->
  wp (operator_delete_sized p size) (fun _ => ready rest) (new_halts handler_halts) s.
Proof.
  intros Hsize Hp (m & k & Ho & _ & _ & _ & Hsz). pose proof Ho as (Hh & Hg & _). destruct s as [h w]. cbn [fst snd] in *.
  pose proof (wp_h_free_sized rest h m w p size Hh ltac:(lia)) as Hw. cbv zeta in Hw.
  rewrite (proj2 (free_sized_error_spec rest h m w p _ Hh (adjust_fits size Hsize)) (conj Hsz (guarded_canaries h w p Hg))) in Hw.
  unfold operator_delete_sized. eapply wp_mono; [exact Hw| |by left].
  intros _ s' [_ (j & _ & (m' & Hh' & Hk & _) & _)]. exists m'. by eapply (in_order_kept rest _ m (h, w)).
Qed.

Lemma wp_delete_sized_aligned rest size alignment p s handler_halts :
  fits 64 size -> 0 < p -> aligned_block_at rest size alignment p s ->
  wp (operator_delete_sized_aligned p size alignment) (fun _ => ready rest) (new_halts handler_halts) s.
Proof.
  intros Hsize Hp (m & k & Ho & _ & _ & _ & (j & Hj & ->) & Hsz). pose proof Ho as (Hh & Hg & _). destruct s as [h w]. cbn [fst snd] in *.
  pose proof (wp_h_free_aligned_sized rest h m w p j size Hh ltac:(lia) Hsize Hj) as Hw. cbv zeta in Hw.
  rewrite (proj2 (free_aligned_error_spec rest h m w p j _ Hh (adjust_fits size Hsize) Hj) (conj Hsz (guarded_canaries h w p Hg))) in Hw.
  unfold operator_delete_sized_aligned. eapply wp_mono; [exact Hw| |by left].
  intros _ s' [_ (i & _ & (m' & Hh' & Hk & _) & _)]. exists m'. by eapply (in_order_kept rest _ m (h, w)).
Qed.

(** Deleting what new returned, if it did. *)
Lemma wp_new_delete rest handler_halts good new delete (s : N * (allocator R * world)) :
  wp new (new_outcome rest good false) (new_halts handler_halts) s ->
  (forall p s, 0 < p -> good p s -> wp (delete p) (fun _ => ready rest) (new_halts handler_halts) s) ->
  wp (let* r := new in match r with Some (Returned p) => on_allocator (delete p) | _ => ret tt end)
     (fun _ s' => ready rest (snd s')) (new_halts handler_halts) s.
Proof.
  intros Hn Hd. apply wp_bind. eapply wp_conseq; [exact Hn|]. intros r [n' s'] [Hs' Hr]. cbn [fst snd] in *.
  destruct r as [[p|e]|]; [|by apply wp_ret|done]. destruct Hr as [[Hp Hb]|(_ & ? & _)]; [|done].
  unfold on_allocator. apply wp_zoom. cbn [fst snd]. by apply Hd.
Qed.

(** The sized delete of what new returned for this size, and for this alignment,
    is always accepted: no mismatch of size or alignment, no canary or double free
    abort, and the allocator is in order afterwards. *)
Theorem new_delete_ok rest supply handler_halts fuel size alignment n s :
  handlers_ok rest supply handler_halts -> ready rest s -> fits 64 size -> fits 64 alignment -> (supply n < fuel)%nat ->
  wp (let* r := operator_new pthread_atfork get_new_handler fuel size in
      match r with Some (Returned p) => on_allocator (operator_delete_sized p size) | _ => ret tt end)
     (fun _ s' => ready rest (snd s')) (new_halts handler_halts) (n, s) /\
  wp (let* r := operator_new_aligned pthread_atfork get_new_handler fuel size alignment in
      match r with Some (Returned p) => on_allocator (operator_delete_sized_aligned p size alignment) | _ => ret tt end)
     (fun _ s' => ready rest (snd s')) (new_halts handler_halts) (n, s).
Proof.
  intros Hh Hs Hsize Ha Hf. split; eapply wp_new_delete.
  - eapply (wp_new_impl rest supply handler_halts); [done|intros s'; by apply h_malloc_ready|done|done].
  - intros p s'. by apply wp_delete_sized.
  - eapply (wp_new_impl rest supply handler_halts); [done|intros s'; by apply h_aligned_alloc_ready|done|done].
  - intros p s'. by apply wp_delete_sized_aligned.
Qed.
End Spec.

(** ** Witnesses *)

Section Witnesses.
#[local] Existing Instances default_config demo_platform.

(** A program with a number of handlers, each of which installs the next. *)
Definition demo_handlers (n : nat) : option (NM (R := Z) (N := nat) (result unit)) :=
  match n with
  | O => None
  | Datatypes.S k => Some (fun s => Ret (Returned tt) (k, snd s))
  end.

Lemma demo_handlers_ok : handlers_ok demo_handlers demo_rest (fun n => n) (fun _ => False).
Proof. intros [|n] f s Hf Hs; [done|]. cbn in Hf. injection Hf as <-. split; [exact Hs|]. cbn. lia. Qed.

Lemma demo_ready : ready demo_rest (demo_heap, demo_heap_world).
Proof. destruct demo_heap_ok as (m & Hh & Hg & Hc). exists m. split; [exact Hh|]. split; [exact Hg|]. intros _. exact Hc. Qed.

Lemma operator_new_ok_witness :
  wp (operator_new no_atfork demo_handlers 4 100)
     (new_outcome demo_handlers demo_rest (new_block_at demo_rest 100) false)
     (new_halts (fun _ => False)) (3%nat, (demo_heap, demo_heap_world)).
Proof.
  assert (Hs : fits 64 100) by (by split). assert (Ha : fits 64 64) by (by split).
  assert (Hf : (3 < 4)%nat) by lia.
  exact (proj1 (operator_new_ok no_atfork demo_handlers demo_rest (fun n => n) (fun _ => False) 4 100 64 3%nat
    (demo_heap, demo_heap_world) demo_handlers_ok demo_ready Hs Ha Hf)).
Defined.

Lemma new_delete_ok_witness :
  wp (let* r := operator_new_aligned no_atfork demo_handlers 1 100 64 in
      match r with Some (Returned p) => on_allocator (operator_delete_sized_aligned p 100 64) | _ => ret tt end)
     (fun _ s' => ready demo_rest (snd s')) (new_halts (fun _ => False)) (0%nat, (demo_heap, demo_heap_world)).
Proof.
  assert (Hs : fits 64 100) by (by split). assert (Ha : fits 64 64) by (by split). assert (Hf : (0 < 1)%nat) by lia.
  exact (proj2 (new_delete_ok no_atfork demo_handlers demo_rest (fun n => n) (fun _ => False) 1 100 64 0%nat
    (demo_heap, demo_heap_world) demo_handlers_ok demo_ready Hs Ha Hf)).
Defined.
End Witnesses.
