(* ===== verification/StatsSpec.v ===== *)
(** What the statistics and the Android interface promise: they report the counters
    of the components and leave the allocator as it is. *)

From S2P Require Import Prelude Config Util SizeClass Kernel RandomSource SlabMeta Slab SlabInv SlabRegion Regions Large LargeInv Allocator Malloc AllocatorInv AllocatorAlloc InitSpec QuerySpec ForkSpec.

Section Stats.
Context {Cfg : Config} {Cok : ConfigOk Cfg} {K : Kernel} {Kok : KernelOk K} {R : Type}.
Context `{!RandomSource R} `{!RandomSourceOk R} `{!Platform}.
Implicit Types (h : allocator R) (c : size_class R) (m : gmap Z (Z * Z)) (w : world) (rest : Z -> Prop).

(** ** Locked reads *)

(** The counter [f] of class [i]. *)
Definition class_stat {A} (f : size_class R -> A) (d : A) h (i : Z * Z) : A :=
  match size_class_metadata h !! i with Some c => f c | None => d end.
Definition large_stat h : Z := match ro_region_allocator h with Some ra => ra_allocated ra | None => 0 end.

Lemma read_class_run {A} (f : size_class R -> A) d rest h m w ar cl :
  (forall c, f (set_lock true c) = f c) -> heap_ok rest h m w -> 0 <= ar < N_ARENA -> 0 <= cl < N_SIZE_CLASSES ->
  read_class ar cl f (h, w) = Ret (class_stat f d h (ar, cl)) (h, w).
Proof.
  intros Hf Hh Har Hcl. destruct (heap_classes rest h m w (ar, cl) Hh) as (c & Hc & _ & Hl); [by apply class_indices_all|].
  unfold read_class, with_class, class_stat. cbn [fst snd]. rewrite Hc.
  unfold mutex_lock, mutex_unlock, get_class, modify_class, bind, gets, modify, ret. cbn [fst snd]. rewrite Hl.
  cbn [fst snd]. rewrite set_lock_back, set_class_self by done. by rewrite Hf.
Qed.

Lemma read_regions_run rest h m w : heap_ok rest h m w -> read_regions ra_allocated (h, w) = Ret (large_stat h) (h, w).
Proof.
  intros Hh. destruct (ho_large _ _ _ _ Hh) as (ra & Hra & Hl & _). unfold read_regions, with_regions, large_stat. cbn [fst snd].
  rewrite Hra. unfold region_lock, region_unlock, get_ra, modify_ra, bind, gets, modify, ret. cbn [fst snd]. rewrite Hl. cbn [fst snd].
  replace (set_ra_lock false (set_ra_lock true ra)) with ra; [by rewrite set_region_self|].
  unfold set_ra_lock. cbn. rewrite <- Hl. by destruct ra.
Qed.

(** ** mallinfo *)

(** The sum of a counter over classes. *)
Definition sum_stat (f : size_class R -> Z) h (l : list (Z * Z)) : Z := foldr (fun i n => class_stat f 0 h i + n) 0 l.

Lemma sum_classes_run rest h m w l a b :
  heap_ok rest h m w -> (forall i, i ∈ l -> 0 <= fst i < N_ARENA /\ 0 <= snd i < N_SIZE_CLASSES) ->
  sum_classes l (u64 a) (u64 b) (h, w) =
    Ret (u64 (a + sum_stat slab_allocated h l), u64 (b + sum_stat Slab.allocated h l)) (h, w).
Proof.
  intros Hh. revert a b. induction l as [|[ar cl] l IH]; intros a b Hl; cbn [sum_classes sum_stat foldr].
  { unfold ret. by rewrite !Z.add_0_r. }
  destruct (Hl (ar, cl)) as [Har Hcl]; [by apply list_elem_of_here|]. unfold bind at 1.
  rewrite (read_class_run (fun c => (slab_allocated c, Slab.allocated c)) (0, 0) rest h m w ar cl (fun _ => eq_refl) Hh Har Hcl).
  assert (E : class_stat (fun c => (slab_allocated c, Slab.allocated c)) (0, 0) h (ar, cl) =
    (class_stat slab_allocated 0 h (ar, cl), class_stat Slab.allocated 0 h (ar, cl)))
    by (unfold class_stat; by destruct (size_class_metadata h !! (ar, cl))).
  rewrite E. cbn [fst snd]. rewrite !wrap_add_l.
  rewrite IH by (intros i Hi; by apply Hl, list_elem_of_further). do 3 f_equal; unfold sum_stat; lia.
Qed.

(** The bytes mapped for slabs and large allocations, and those given out. *)
Definition mapped_bytes h : Z := large_stat h + sum_stat slab_allocated h (class_indices 0).
Definition used_bytes h : Z := large_stat h + sum_stat Slab.allocated h (class_indices 0).

(** Mallinfo2 takes each lock in turn and changes nothing; with statistics it
    reports the sums, modulo 2^64, of the counters of the size classes and of the
    region allocator, and their difference as the free bytes; without, zeros. *)
Theorem h_mallinfo2_ok rest h m w :
  heap_ok rest h m w ->
  h_mallinfo2 (h, w) =
    Ret (if CONFIG_STATS
         then Mallinfo2 (u64 (mapped_bytes h)) (u64 (used_bytes h)) (u64 (mapped_bytes h - used_bytes h)) (u64 (mapped_bytes h))
         else Mallinfo2 0 0 0 0) (h, w).
Proof.
  intros Hh. unfold h_mallinfo2. destruct CONFIG_STATS; [|done]. unfold get_slab_region_end, bind at 1, gets. cbn [fst].
  rewrite (heap_ok_init _ _ _ _ Hh). cbn [negb]. unfold bind at 1. rewrite (read_regions_run rest h m w Hh), Z.add_0_l.
  unfold bind. rewrite (sum_classes_run rest h m w _ _ _ Hh) by (intros [ar cl] Hi; by apply class_indices_all). 
  unfold ret. do 2 f_equal. by rewrite wrap_sub.
Qed.

(** A lock on everything from another thread, and its end: only the arena of the
    calling thread may have been chosen. *)
Lemma disable_enable rest h m w (pthread_atfork : AM (R := R) bool) :
  heap_ok rest h m w ->
  wp (h_malloc_disable pthread_atfork ;;; h_malloc_enable) (fun _ => same_but_arena rest h m w) no_halt (h, w).
Proof.
  intros Hh. unfold h_malloc_disable. apply wp_bind. eapply wp_init_then; [exact Hh|]. intros ar h1 _ Hh1 E.
  destruct (ho_large _ _ _ _ Hh1) as (ra & Hra & _). unfold wp at 1. rewrite (full_lock_run rest h1 m w ra Hh1 Hra).
  unfold h_malloc_enable, get_slab_region_end, enforce_init. apply wp_bind, wp_gets. cbn [fst].
  change (slab_region_end (locked_all h1 ra)) with (slab_region_end h1). rewrite (heap_ok_init _ _ _ _ Hh1). cbn [negb].
  apply wp_bind, wp_ret. unfold wp. rewrite (full_unlock_run rest h1 m w ra Hh1 Hra). by split.
Qed.
End Stats.

(** ** Witness *)

Section Witnesses.
#[local] Existing Instances default_config demo_platform.

Lemma h_mallinfo2_ok_witness :
  h_mallinfo2 (demo_heap, demo_heap_world) = Ret (Mallinfo2 0 0 0 0) (demo_heap, demo_heap_world).
Proof. destruct demo_heap_ok as (m & Hh & _). exact (h_mallinfo2_ok demo_rest demo_heap m demo_heap_world Hh). Defined.
End Witnesses.
