(* ===== verification/Threads.v ===== *)
(** Threads: the calls of several threads, interleaved at the borders of their
    critical sections. A call is a sequence of atomic sections: a critical
    section under the lock of one component, or system calls on pages that only
    the calling thread owns. Between two sections of a call any other thread may
    run; the allocator is shared, errno and the arena of a thread are not. *)

From S2P Require Import Prelude Config Util SizeClass Kernel Pages RandomSource SlabMeta Slab SlabRegion Regions Large Allocator Malloc Client.

Section Processes.
Context `{Cfg : Config} `{K : Kernel} {R : Type} `{!RandomSource R} `{!Platform}.
Context (pthread_atfork : AM (R := R) bool).

(** A call in progress: its result, or the next section, which yields what is left
    of the call. *)
#[warnings="-register-all"]
Inductive proc : Type :=
| Finished (r : Z)
| Atomic (m : AM (R := R) proc).

Definition section {A} (m : AM (R := R) A) (k : A -> proc) : proc := Atomic (let* a := m in ret (k a)).

Fixpoint then_proc (t : proc) (k : Z -> proc) : proc :=
  match t with
  | Finished r => k r
  | Atomic m =>
      Atomic (fun s => match m s with Ret t s' => Ret (then_proc t k) s' | Halt e => Halt e end)
  end.

(** A call that no other thread interrupts. *)
Fixpoint run_proc (t : proc) : AM (R := R) Z :=
  match t with
  | Finished r => ret r
  | Atomic m => fun s => match m s with Ret t s' => run_proc t s' | Halt e => Halt e end
  end.

(** ** Allocation *)

Definition no_memory : proc := section (on_world (set_errno ENOMEM)) (fun _ => Finished 0).

(** From the draw of the guard size on; [pages] maps the block, and [fail] is what
    is left to do when the table is full and the pages were given back. *)
Definition map_large_proc (size : Z) (pages : Z -> M world Z) (fail : proc) : proc :=
  section (with_regions (draw_guard_size size)) (fun guard_size =>
  section (on_world (pages guard_size)) (fun p =>
  if p =? 0 then Finished 0 else
  section (with_regions (enter_large p size guard_size)) (fun insert_failed =>
  if insert_failed then section (on_world (deallocate_pages p size guard_size)) (fun _ => fail) else Finished p))).

(** [allocate_large] *)
Definition allocate_large_proc (size : Z) : proc :=
  let size := get_large_size_class size in
  if size =? 0 then no_memory else
  map_large_proc size (fun guard_size => allocate_pages size guard_size true "malloc large") no_memory.

(** The branch of [allocate_aligned] for an alignment above the page size. *)
Definition allocate_aligned_large_proc (alignment size : Z) : proc :=
  let size := get_large_size_class size in
  if size =? 0 then Finished 0 else
  map_large_proc size (fun guard_size => allocate_pages_aligned size alignment guard_size "malloc large") (Finished 0).

Definition allocate_proc (arena size : Z) : proc :=
  if size <=? max_slab_size_class
  then section (with_class arena (si_class (get_size_info size)) (allocate_small size)) Finished
  else allocate_large_proc size.

Definition alloc_proc (size : Z) : proc :=
  section (init pthread_atfork) (fun arena => allocate_proc arena size).

Definition malloc_proc (size : Z) : proc := alloc_proc (adjust_size_for_canary size).

Definition calloc_proc (nmemb size : Z) : proc :=
  let '(overflow, total_size) := mul_overflow nmemb size in
  if overflow then no_memory else
  let total_size := adjust_size_for_canary total_size in
  then_proc (alloc_proc total_size) (fun p =>
  if negb ZERO_ON_FREE && negb (p =? 0) && negb (total_size =? 0) && (total_size <=? max_slab_size_class)
  then section (let* w := gets snd in on_world (set_mem (memset0 p (u64 (total_size - canary_size)) (mem w))))
         (fun _ => Finished p)
  else Finished p).

(** [allocate_aligned]; NULL for an error. *)
Definition allocate_aligned_proc (arena alignment size min_alignment : Z) : proc :=
  if negb (Z.land (u64 (alignment - 1)) alignment =? 0) || (alignment <? min_alignment) then Finished 0 else
  if alignment <=? PAGE_SIZE then
    section (if (size <=? max_slab_size_class) && (alignment >? min_align)
             then let* info := get_size_info_align size alignment in ret (si_size info)
             else ret size) (fun size => allocate_proc arena size)
  else allocate_aligned_large_proc alignment size.

Definition memalign_proc (alignment size : Z) : proc :=
  section (init pthread_atfork) (fun arena =>
  allocate_aligned_proc arena alignment (adjust_size_for_canary size) sizeof_pointer).

(** ** Deallocation *)

(** [regions_quarantine_deallocate_pages] *)
Definition quarantine_proc (p size guard_size : Z) (k : proc) : proc :=
  if negb REGION_QUARANTINE || (size >=? REGION_QUARANTINE_SKIP_THRESHOLD)
  then section (on_world (deallocate_pages p size guard_size)) (fun _ => k)
  else
    section (on_world (drop_contents p size)) (fun _ =>
    section (with_regions (region_quarantine_swap (QuarantineInfo (u64 (p - guard_size)) (u64 (size + u64 (guard_size * 2))))))
      (fun target => section (on_world (unmap_target target)) (fun _ => k))).

(** [deallocate_large], with the errno that [h_free] keeps. *)
Definition free_large_proc (p : Z) (expected_size : option Z) : proc :=
  section (on_world (gets errno)) (fun saved_errno =>
  section (let* e := get_slab_region_end in enforce_init e ;;; with_regions (remove_large p expected_size)) (fun block =>
  quarantine_proc p (fst block) (snd block) (section (on_world (set_errno saved_errno)) (fun _ => Finished 0)))).

Definition free_proc (p : Z) : proc :=
  if p =? 0 then Finished 0 else
  let p := untag_pointer p in
  section (in_slab_region p) (fun small =>
  if small then section (deallocate_slot p None) (fun _ => Finished 0) else free_large_proc p None).

(** ** Threads *)

(** The calls that consist of sections; an access to memory is one instruction.
    realloc is not among the calls. *)
Definition call_proc (c : call) : option proc :=
  match c with
  | Malloc size => Some (malloc_proc size)
  | Calloc nmemb size => Some (calloc_proc nmemb size)
  | Memalign alignment size => Some (memalign_proc alignment size)
  | Free p => Some (free_proc p)
  | _ => None
  end.

Definition is_access (c : call) : bool :=
  match c with Store _ _ _ | Load _ _ => true | _ => false end.

(** What the threads share, and for each thread its arena, its errno and the call
    that it is in. *)
Record pool := Pool {
  shared : allocator R * world;
  locals : gmap nat (Z * Z);
  running : gmap nat proc
}.

Definition initial_arena : Z := if N_ARENA >? 1 then N_ARENA else 0.
Definition local_state (pl : pool) (i : nat) : Z * Z := default (initial_arena, 0) (locals pl !! i).

(** The state as thread [i] sees it, and back. *)
Definition enter_thread (i : nat) (pl : pool) : allocator R * world :=
  let '(h, w) := shared pl in
  (set_thread_arena (fst (local_state pl i)) (thread_arena_counter h) h, World _ (kern w) (mem w) (snd (local_state pl i))).
Definition leave_thread (i : nat) (s : allocator R * world) (pl : pool) : pool :=
  Pool s (<[i := (thread_arena (fst s), errno (snd s))]> (locals pl)) (running pl).
Definition in_thread {A} (i : nat) (m : AM (R := R) A) : M pool A := zoom (enter_thread i) (leave_thread i) m.

Definition set_running (f : gmap nat proc -> gmap nat proc) (pl : pool) : pool := Pool (shared pl) (locals pl) (f (running pl)).

(** A thread starts a call or accesses memory, or runs for one section; a call
    that has nothing left to do returns. *)
Inductive move :=
| Invoke (i : nat) (c : call)
| Run (i : nat).

Definition run_move (mv : move) : M pool (option Z) :=
  match mv with
  | Invoke i c =>
      let* busy := gets (fun pl => running pl !! i) in
      match busy, call_proc c with
      | Some _, _ => stuck
      | None, Some t => modify (set_running <[i := t]>) ;;; ret None
      | None, None =>
          if is_access c then let* r := in_thread i (run_call pthread_atfork c) in ret (Some r) else stuck
      end
  | Run i =>
      let* busy := gets (fun pl => running pl !! i) in
      match busy with
      | None => stuck
      | Some (Finished r) => modify (set_running (delete i)) ;;; ret (Some r)
      | Some (Atomic m) => let* t := in_thread i m in modify (set_running <[i := t]>) ;;; ret None
      end
  end.

(** The threads and their scheduler: the next move from all moves and results so
    far. *)
Definition system : Type := list (move * option Z) -> option move.

Fixpoint run_system (sys : system) (n : nat) (hist : list (move * option Z)) : M pool (list (move * option Z)) :=
  match n with
  | O => ret hist
  | Datatypes.S n =>
      match sys hist with
      | None => ret hist
      | Some mv => let* r := run_move mv in run_system sys n (hist ++ [(mv, r)])
      end
  end.
End Processes.
Arguments proc {K} R. Arguments pool {K} R.
