(* ===== verification/ThreadsAlone.v ===== *)
(** A thread that runs alone: the sections of a call, one after the other, are the
    call of Malloc. *)

From S2P Require Import Prelude Config Util SizeClass Kernel Pages RandomSource SlabMeta Slab SlabRegion Regions Large LargeInv Allocator Malloc AllocatorInv AllocatorAlloc Requests InitSpec Client Threads.

Lemma bind_assoc {S A B C} (m : M S A) (k : A -> M S B) (l : B -> M S C) s :
  bind (bind m k) l s = bind m (fun a => bind (k a) l) s.
Proof. unfold bind. by destruct (m s). Qed.

(** The search for an aligned size changes no state. *)
Lemma get_size_info_align_state {Cfg : Config} {S} sz a (s s' : S) i : get_size_info_align sz a s = Ret i s' -> s' = s.
Proof.
  unfold get_size_info_align. cbv zeta. set (c := if _ =? 0 then 1 else _). generalize (Z.to_nat (N_SIZE_CLASSES - c)). intros n.
  generalize c. clear c. induction n as [|n IH]; intros c; cbn [get_size_info_align_loop]; [done|].
  destruct (_ && _); [|apply IH]. unfold ret. by intros [= _ ->].
Qed.

Section Alone.
Context {Cfg : Config} {Cok : ConfigOk Cfg} {K : Kernel} {Kok : KernelOk K} {R : Type}.
Context `{!RandomSource R} `{!RandomSourceOk R} `{!Platform}.
Context (pthread_atfork : AM (R := R) bool).
Implicit Types (s : allocator R * world).

Lemma run_section {A} (m : AM A) (k : A -> proc R) s : run_proc (section m k) s = bind m (fun a => run_proc (k a)) s.
Proof. cbn. unfold bind. by destruct (m s). Qed.

Lemma run_then (t : proc R) k : forall s, run_proc (then_proc t k) s = bind (run_proc t) (fun r => run_proc (k r)) s.
Proof.
  revert t. fix IH 1. intros [r|m] s; [done|]. cbn. unfold bind. destruct (m s) as [t s'|e]; [|done]. apply IH.
Qed.

(** With a region allocator, a program that goes on with [f] and a call in sections
    run alike. *)
Definition runs_as {A} (m : AM A) (f : A -> AM (R := R) Z) (t : proc R) : Prop :=
  forall s, is_Some (ro_region_allocator (fst s)) -> bind m f s = run_proc t s.

Lemma with_regions_bind {A B} (m : LM A) (k : A -> LM B) s :
  with_regions (bind m k) s = bind (with_regions (R := R) m) (fun a => with_regions (k a)) s.
Proof.
  unfold with_regions, bind. destruct (ro_region_allocator (fst s)) as [ra|]; [|done].
  destruct (m (ra, snd s)) as [a [ra' w']|e]; [|done]. cbn. by destruct (k a (ra', w')).
Qed.

Lemma with_regions_world {A} (m : M world A) s :
  is_Some (ro_region_allocator (fst s)) -> with_regions (R := R) (on_world m) s = on_world m s.
Proof.
  intros [ra Hra]. unfold with_regions, on_world, zoom. rewrite Hra. cbn. destruct (m (snd s)); [|done]. cbn.
  destruct s as [h w]. by destruct h; cbn in *; subst.
Qed.

Lemma with_regions_some {A} (m : LM A) s a s' : with_regions (R := R) m s = Ret a s' -> is_Some (ro_region_allocator (fst s')).
Proof.
  unfold with_regions. destruct (ro_region_allocator (fst s)); [|done]. destruct (m _); [|done]. by intros [= _ <-].
Qed.

Lemma runs_regions {A B} (m : LM A) (k : A -> LM B) (f : B -> AM (R := R) Z) (k' : A -> proc R) :
  (forall a, runs_as (with_regions (k a)) f (k' a)) -> runs_as (with_regions (bind m k)) f (section (with_regions m) k').
Proof.
  intros Hk s _. rewrite run_section. unfold bind at 1. rewrite with_regions_bind. unfold bind at 1 2.
  destruct (with_regions m s) as [a s'|e] eqn:E; [|done]. rewrite <- Hk; [done|by eapply with_regions_some].
Qed.

Lemma runs_world {A B} (m : M world A) (k : A -> LM B) (f : B -> AM (R := R) Z) (k' : A -> proc R) :
  (forall a, runs_as (with_regions (k a)) f (k' a)) -> runs_as (with_regions (bind (on_world m) k)) f (section (on_world m) k').
Proof.
  intros Hk s Hs. rewrite run_section. unfold bind at 1. rewrite with_regions_bind. unfold bind at 1 2. rewrite with_regions_world by done.
  unfold on_world, zoom. destruct (m (snd s)) as [a w|e]; [|done]. rewrite <- Hk; done.
Qed.

Lemma runs_ret {B} (b : B) (f : B -> AM (R := R) Z) t :
  (forall s, is_Some (ro_region_allocator (fst s)) -> f b s = run_proc t s) -> runs_as (with_regions (ret b)) f t.
Proof.
  intros Hf s [ra Hra]. rewrite <- Hf by by eexists. unfold bind, with_regions. rewrite Hra. cbn.
  destruct s as [h w]. by destruct h; cbn in *; subst.
Qed.

Lemma runs_assoc {A B C} (m : LM A) (k : A -> LM B) (l : B -> LM C) (f : C -> AM (R := R) Z) t :
  runs_as (with_regions (bind m (fun a => bind (k a) l))) f t -> runs_as (with_regions (bind (bind m k) l)) f t.
Proof.
  intros Hr s Hs. rewrite <- (Hr s Hs). unfold bind at 1 4. unfold with_regions. destruct (ro_region_allocator (fst s)); [|done].
  by rewrite bind_assoc.
Qed.

(** ** Allocation *)

(** The common part of the two large allocations. *)
Lemma map_large_alone {B} size (pages : Z -> M world Z) (f : B -> AM (R := R) Z) (null : B) (ok : Z -> B) fail (end_ : LM B) :
  f null = ret 0 -> (forall p, f (ok p) = ret p) -> runs_as (with_regions end_) f fail ->
  runs_as (with_regions
    (let* guard_size := draw_guard_size size in
     let* p := on_world (pages guard_size) in
     if p =? 0 then ret null else
     let* insert_failed := register_large p size guard_size in
     if insert_failed then end_ else ret (ok p))) f (map_large_proc size pages fail).
Proof.
  intros Hnull Hok Hend. apply runs_regions. intros g. apply runs_world. intros p. destruct (p =? 0); [by apply runs_ret; intros s _; rewrite Hnull|].
  unfold register_large. apply runs_assoc, runs_regions. intros []; [|by apply runs_ret; intros s _; rewrite Hok].
  apply runs_assoc, runs_world. intros _. exact Hend.
Qed.

Definition pointer (r : Z * option Z) : AM (R := R) Z := ret (default 0 (snd r)).

Lemma allocate_large_alone size : runs_as (with_regions (allocate_large size)) ret (allocate_large_proc (R := R) size).
Proof.
  unfold allocate_large, allocate_large_proc. cbv zeta. destruct (get_large_size_class size =? 0).
  - apply runs_world. intros _. by apply runs_ret.
  - apply (map_large_alone _ _ ret 0 (fun p => p)); [done|done|]. apply runs_world. intros _. by apply runs_ret.
Qed.

Lemma allocate_aligned_large_alone alignment size :
  runs_as (with_regions (allocate_aligned_large alignment size)) pointer (allocate_aligned_large_proc (R := R) alignment size).
Proof.
  unfold allocate_aligned_large, allocate_aligned_large_proc. cbv zeta. destruct (get_large_size_class size =? 0); [by apply runs_ret|].
  apply (map_large_alone _ _ pointer (ENOMEM, None) (fun p => (0, Some p))); [done|done|]. by apply runs_ret.
Qed.

Lemma allocate_alone ar size : runs_as (allocate ar size) ret (allocate_proc (R := R) ar size).
Proof.
  unfold allocate, allocate_proc. destruct (size <=? max_slab_size_class); [|apply allocate_large_alone].
  intros s _. by rewrite run_section.
Qed.

Lemma allocate_aligned_alone ar alignment size min_alignment :
  runs_as (allocate_aligned ar alignment size min_alignment) pointer (allocate_aligned_proc (R := R) ar alignment size min_alignment).
Proof.
  unfold allocate_aligned, allocate_aligned_proc. destruct (_ || _); [done|]. destruct (alignment <=? PAGE_SIZE); [|apply allocate_aligned_large_alone].
  intros s Hs. rewrite bind_assoc, run_section. set (mt := if _ && _ then _ else _).
  assert (Hst : forall x s', mt s = Ret x s' -> s' = s).
  { intros x s'. unfold mt. destruct (_ && _); [|by intros [= _ ->]]. unfold bind, ret.
    destruct (get_size_info_align size alignment s) as [i s1|e] eqn:E; [|done]. intros [= _ <-]. by eapply get_size_info_align_state. }
  unfold bind at 1 4. destruct (mt s) as [x s'|e] eqn:E; [|done]. rewrite (Hst x s' eq_refl), bind_assoc.
  rewrite <- (allocate_alone ar x s Hs). unfold bind. destruct (allocate ar x s) as [p s1|e]; [|done].
  by destruct (Z.eqb_spec p 0) as [->|].
Qed.

(** ** Calls *)

Lemma init_then_alone {A} rest h m w (k : Z -> AM (R := R) A) (f : A -> AM (R := R) Z) (t : Z -> proc R) :
  heap_ok rest h m w -> (forall ar, runs_as (k ar) f (t ar)) ->
  bind (bind (init pthread_atfork) k) f (h, w) = run_proc (section (init pthread_atfork) t) (h, w).
Proof.
  intros Hh Hk. rewrite bind_assoc, run_section. unfold bind at 1 3.
  pose proof (wp_init_initialized pthread_atfork rest h m w (fun _ => True) Hh) as Hi. unfold wp in Hi.
  destruct (init pthread_atfork (h, w)) as [ar s'|e]; [|done]. rewrite <- (Hk ar s'); [done|].
  destruct Hi as (_ & _ & Hh' & _). destruct (ho_large _ _ _ _ Hh') as (ra & Hra & _). by eexists.
Qed.

Lemma bind_ret_id (m : AM (R := R) Z) s : bind m ret s = m s.
Proof. unfold bind. by destruct (m s). Qed.

Lemma alloc_alone rest h m w size :
  heap_ok rest h m w -> run_proc (alloc_proc pthread_atfork size) (h, w) = alloc pthread_atfork size (h, w).
Proof.
  intros Hh. unfold alloc_proc. rewrite <- (init_then_alone rest h m w (fun ar => allocate ar size) ret); [apply bind_ret_id|done|].
  intros ar. apply allocate_alone.
Qed.

Lemma calloc_alone rest h m w nmemb size :
  heap_ok rest h m w -> run_proc (calloc_proc pthread_atfork nmemb size) (h, w) = h_calloc pthread_atfork nmemb size (h, w).
Proof.
  intros Hh. unfold calloc_proc, h_calloc. destruct (mul_overflow nmemb size) as [[] total]; [done|]. cbv zeta.
  rewrite run_then. unfold bind. rewrite (alloc_alone rest h m w) by done.
  destruct (alloc pthread_atfork _ (h, w)) as [p s|e]; [|done]. by destruct (_ && _).
Qed.

Lemma memalign_alone rest h m w alignment size :
  heap_ok rest h m w ->
  run_proc (memalign_proc pthread_atfork alignment size) (h, w) = run_call pthread_atfork (Memalign alignment size) (h, w).
Proof.
  intros Hh. unfold memalign_proc.
  rewrite <- (init_then_alone rest h m w (fun ar => allocate_aligned ar alignment (adjust_size_for_canary size) sizeof_pointer) pointer); [done|done|].
  intros ar. apply allocate_aligned_alone.
Qed.

Lemma quarantine_alone p size guard_size (k : proc R) :
  runs_as (with_regions (regions_quarantine_deallocate_pages p size guard_size)) (fun _ => run_proc k) (quarantine_proc p size guard_size k).
Proof.
  unfold regions_quarantine_deallocate_pages, quarantine_proc. destruct (_ || _).
  - intros s Hs. rewrite run_section. unfold bind. by rewrite with_regions_world.
  - apply runs_world. intros _. apply runs_regions. intros target s Hs. rewrite run_section. unfold bind. by rewrite with_regions_world.
Qed.

Lemma deallocate_alone e p expected_size (k : proc R) :
  runs_as (with_regions (deallocate_large e p expected_size)) (fun _ => run_proc k)
    (section (enforce_init e ;;; with_regions (remove_large p expected_size)) (fun block => quarantine_proc p (fst block) (snd block) k)).
Proof.
  unfold deallocate_large, enforce_init. destruct (negb (is_init e)).
  - intros s [ra Hra]. rewrite run_section. unfold bind, with_regions. by rewrite Hra.
  - exact (runs_regions (remove_large p expected_size) _ _ _ (fun block => quarantine_alone p (fst block) (snd block) k)).
Qed.

Lemma free_alone rest h m w p :
  heap_ok rest h m w -> run_proc (free_proc p) (h, w) = run_call pthread_atfork (Free p) (h, w).
Proof.
  intros Hh. destruct (ho_large _ _ _ _ Hh) as (ra & Hra & _).
  unfold free_proc, run_call, h_free, untag_pointer. destruct (p =? 0); [done|].
  rewrite run_section, bind_assoc. unfold bind at 1 2. destruct (in_slab_region p (h, w)) as [small s|e] eqn:E; [|done].
  assert (Es : s = (h, w)) by (unfold in_slab_region, get_slab_region_end, bind, gets in E; by injection E). subst s.
  destruct small; [by rewrite run_section|]. unfold free_large_proc, free_large. rewrite run_section, bind_assoc.
  set (k := section (R := R) (on_world (set_errno (errno w))) (fun _ => Finished 0)).
  transitivity (run_proc (section (enforce_init (slab_region_end h) ;;; with_regions (remove_large p None))
    (fun block => quarantine_proc p (fst block) (snd block) k)) (h, w)); [done|].
  rewrite <- deallocate_alone by by eexists. unfold deallocate_region, get_slab_region_end, gets, enforce_init, bind, on_world, zoom. cbn [fst snd].
  rewrite (heap_ok_init _ _ _ _ Hh). cbn [negb ret]. by destruct (with_regions _ (h, w)).
Qed.

(** The sections of each call are the call: a thread that no other one interrupts
    computes what the functions of Malloc do, result, state and aborts. *)
Theorem call_proc_alone rest h m w c t :
  heap_ok rest h m w -> call_proc pthread_atfork c = Some t -> run_proc t (h, w) = run_call pthread_atfork c (h, w).
Proof.
  intros Hh Ht. destruct c as [size|nmemb size| |alignment size|p| |]; try done; injection Ht as <-.
  - by apply (alloc_alone rest h m w).
  - by apply (calloc_alone rest h m w).
  - by apply (memalign_alone rest h m w).
  - by apply (free_alone rest h m w).
Qed.
End Alone.

(** ** Witness *)

Section Witness.
#[local] Existing Instances default_config demo_platform.

Lemma call_proc_alone_witness :
  run_proc (malloc_proc no_atfork 300000) (demo_heap, demo_heap_world) =
  run_call no_atfork (Malloc 300000) (demo_heap, demo_heap_world).
Proof.
  destruct demo_heap_ok as (m & Hh & _).
  exact (call_proc_alone no_atfork demo_rest demo_heap m demo_heap_world (Malloc 300000) _ Hh eq_refl).
Defined.
End Witness.
