(* ===== verification/ThreadsInv.v ===== *)
(** Reasoning about one thread among others. What a thread holds between two of
    its sections is a [ghost]: blocks that are allocated but not in the hands of
    the program, and a range of pages that is in no table. All other threads and
    the program are a frame of blocks and memory that its sections keep. *)

From S2P Require Import Prelude Config Util SizeClass Kernel Maps Pages RandomSource SlabMeta Slab SlabInv SlabRegion SlabAlloc SlabQuarantine SlabFree SlabCanary Regions RegionTable RegionMap Large LargeInv LargeAlloc LargeFree Allocator Malloc AllocatorInv AllocatorAlloc AllocatorFree Requests InitSpec MallocSpec FreeSpec Client Threads.

(** A range that is pending in the middle of a call. *)
Definition parked (q : option quarantine_info) (a : Z) : Prop := exists r, q = Some r /\ quarantine_range r a.

Definition with_parked (rest : Z -> Prop) (q : option quarantine_info) (a : Z) : Prop := rest a \/ parked q a.

(** The blocks, the pending range, and an interval of zeros in it. *)
Record ghost := Ghost { own_blocks : blocks; own_pending : option quarantine_info; own_zeros : Z * Z }.

Definition nothing : ghost := Ghost ∅ None (0, 0).

(** Memory that a section leaves alone. *)
Definition same_on `{K : Kernel} (rest : Z -> Prop) (w w' : world) : Prop := forall a, rest a -> (mem w').[a] = (mem w).[a].

(** The start of the slab region, which never moves. *)
Class RegionStart : Type := region_start : Z.

Section Invariant.
Context {Cfg : Config} {K : Kernel} {R : Type} `{!RandomSource R} `{Start : !RegionStart}.
Implicit Types (h : allocator R) (m : gmap Z (Z * Z)) (w : world) (rest : Z -> Prop) (g : ghost).
Implicit Types (F : Z -> Z -> (Z -> Z) -> Prop).

(** The state between two sections as a thread that holds [g] sees it; [F] are
    the blocks of everybody else, and [rest] is everybody else's memory. *)
Record thread_state rest F g h m w : Prop := {
  ts_heap : heap_ok (with_parked rest (own_pending g)) h m w;
  ts_start : slab_region_start h = region_start;
  ts_apart : forall a, rest a -> ~ parked (own_pending g) a;
  ts_valid : forall q, own_pending g = Some q -> valid_range q;
  ts_zeros : forall a, (own_zeros g).1 <= a < (own_zeros g).1 + (own_zeros g).2 -> parked (own_pending g) a /\ (mem w).[a] = 0;
  ts_guarded : guarded h w;
  ts_clean : ZERO_ON_FREE = true -> clean h w;
  ts_frame : forall p n f, F p n f -> holds h m w p n f /\ own_blocks g !! p = None;
  ts_own : forall p n f, own_blocks g !! p = Some (n, f) -> holds h m w p n f
}.

(** At most [n] sections are left of the call, whatever the other threads do in
    between; each of them keeps the frame, and the result satisfies [Φ]. *)
Fixpoint proc_ok (n : nat) (t : proc R) g (Φ : Z -> ghost -> Prop) : Prop :=
  match t with
  | Finished r => Φ r g
  | Atomic mt =>
      match n with
      | O => False
      | Datatypes.S n =>
          forall rest F h m w, thread_state rest F g h m w ->
            wp mt (fun t' s' => exists g' m', thread_state rest F g' (fst s') m' (snd s') /\ same_on rest w (snd s') /\ proc_ok n t' g' Φ)
              system_halts (h, w)
      end
  end.

Lemma proc_ok_mono n n' t g (Φ Φ' : Z -> ghost -> Prop) :
  (n <= n')%nat -> (forall r g', Φ r g' -> Φ' r g') -> proc_ok n t g Φ -> proc_ok n' t g Φ'.
Proof.
  intros Hn HΦ. revert n' t g Hn. induction n as [|n IH]; intros n' [r|mt] g Hn; try (by destruct n'; cbn; auto).
  destruct n' as [|n']; [lia|]. cbn. intros Ht rest F h m w Hs. eapply wp_conseq; [by eapply Ht|].
  intros t' s' (g' & m' & Hs' & Hsame & Hok). exists g', m'. split; [done|]. split; [done|]. eapply IH; [lia|done].
Qed.

Lemma proc_ok_le n n' t g (Φ : Z -> ghost -> Prop) : (n <= n')%nat -> proc_ok n t g Φ -> proc_ok n' t g Φ.
Proof. intros Hn. by apply proc_ok_mono. Qed.

Lemma then_proc_ok n n' t (k : Z -> proc R) g (Φ Ψ : Z -> ghost -> Prop) :
  proc_ok n t g Ψ -> (forall r g', Ψ r g' -> proc_ok n' (k r) g' Φ) -> proc_ok (n + n') (then_proc t k) g Φ.
Proof.
  intros Ht Hk. revert t g Ht. induction n as [|n IH]; intros [r|mt] g Ht; try (eapply (proc_ok_le n'); [lia|by apply Hk]).
  - done.
  - intros rest F h m w Hs. specialize (Ht rest F h m w Hs). unfold wp in *. destruct (mt (h, w)) as [t' s'|e]; [|done].
    destruct Ht as (g' & m' & Hs' & Hsame & Hok). exists g', m'. split; [done|]. split; [done|]. by apply IH.
Qed.

(** A section that ends in [g'] for each of its results. *)
Lemma section_ok {A} n (mt : AM A) (k : A -> proc R) g (Φ : Z -> ghost -> Prop) :
  (forall rest F h m w, thread_state rest F g h m w ->
     wp mt (fun a s' => exists g' m', thread_state rest F g' (fst s') m' (snd s') /\ same_on rest w (snd s') /\ proc_ok n (k a) g' Φ)
       system_halts (h, w)) ->
  proc_ok (Datatypes.S n) (section mt k) g Φ.
Proof. intros Hm. cbn. intros rest F h m w Hs. apply wp_bind. eapply wp_conseq; [by eapply Hm|]. intros a s' Ha. by apply wp_ret. Qed.
End Invariant.

Section Steps.
Context {Cfg : Config} {Cok : ConfigOk Cfg} {K : Kernel} {Kok : KernelOk K} {R : Type}.
Context `{!RandomSource R} `{!RandomSourceOk R} `{Start : !RegionStart}.
Implicit Types (h : allocator R) (m : gmap Z (Z * Z)) (w : world) (rest X : Z -> Prop) (g : ghost) (ra : region_allocator R).
Implicit Types (F : Z -> Z -> (Z -> Z) -> Prop).

Lemma heap_ok_weaken rest rest' h m w : heap_ok rest h m w -> (forall a, rest' a -> rest a) -> heap_ok rest' h m w.
Proof.
  intros [] Hr. split; try done; [|auto]. destruct ho_large as (ra & Hra & Hlock & Hb). exists ra. split; [done|]. split; [done|].
  destruct Hb. split; try done. eapply ownership_mono; [done|reflexivity|].
  intros o a. destruct o; try done. cbn. intros [|]; [left; auto|by right].
Qed.

Lemma ts_rest rest F g h m w : thread_state rest F g h m w -> heap_ok rest h m w.
Proof. intros Hs. eapply heap_ok_weaken; [apply Hs|]. by left. Qed.

(** The pending range as the region allocator sees it, and back. *)
Lemma unpark rest F g h m w :
  thread_state rest F g h m w ->
  exists ra, ro_region_allocator h = Some ra /\ ra_lock ra = false /\ large_body (outside rest h) ra m (own_pending g) w.
Proof.
  intros [Hh _ Hap Hv _ _ _ _ _]. pose proof (ho_apart _ _ _ _ Hh) as Hslab.
  destruct Hh as [_ _ _ (ra & Hra & Hlock & Hb) _ _]. exists ra. split; [done|]. split; [done|]. destruct Hb as [? ? ? ? ? _ ? [Hm Hd]].
  assert (Hold : forall o a, owned (outside rest h) ra m (own_pending g) o a ->
    owned (outside (with_parked rest (own_pending g)) h) ra m None (if decide (o = OPending) then ORest else o) a).
  { intros o a Ho. case_decide as E; [subst o; left; by right|]. destruct o; try done. destruct Ho; [left; by left|by right]. }
  assert (Hnot : forall a, outside rest h a -> ~ parked (own_pending g) a).
  { intros a [Ha|Ha] Hp; [by eapply Hap|]. eapply (Hslab a); [by right|done]. }
  split; try done. split.
  - intros o a Ho. eapply Hm, Hold, Ho.
  - intros o o' a Ho Ho'. pose proof (Hd _ _ _ (Hold _ _ Ho) (Hold _ _ Ho')) as E.
    repeat case_decide; subst; try done; exfalso; by eapply Hnot.
Qed.

Lemma park rest h m w ra' m' q w' :
  heap_ok rest h m w -> ra_lock ra' = false -> large_body (outside rest h) ra' m' q w' ->
  heap_ok (with_parked rest q) (set_region_allocator ra' h) m' w' /\ (forall a, rest a -> ~ parked q a) /\
  (forall r, q = Some r -> valid_range r).
Proof.
  intros Hh Hlock Hb. destruct Hb as [? ? ? ? ? Hv ? [Hm Hd]].
  assert (Hnot : forall a, outside rest h a -> ~ parked q a) by (intros a Ha Hp; by pose proof (Hd ORest OPending a Ha Hp)).
  split; [|split; [|done]]; [|by intros a Ha; apply Hnot; left]. destruct Hh. split; try done.
  - exists ra'. split; [done|]. split; [done|]. split; try done.
    assert (Hold : forall o a, owned (outside (with_parked rest q) h) ra' m' None o a ->
      owned (outside rest h) ra' m' q o a \/ o = ORest /\ parked q a).
    { intros o a Ho. destruct o; try (by left); [|by destruct Ho as (? & [=] & _)].
      destruct Ho as [[Ho|Ho]|Ho]; [left; by left|by right|left; by right]. }
    split.
    + intros o a [Ho|[_ Ho]]%Hold; [by eapply Hm|]. by apply (Hm OPending).
    + intros o o' a Ho Ho'. pose proof (Hold _ _ Ho) as [H1|[-> H1]]; pose proof (Hold _ _ Ho') as [H2|[-> H2]];
        [by eapply Hd|exfalso..|done].
      * pose proof (Hd _ OPending a H1 H2) as ->. by destruct Ho as (? & [=] & _).
      * pose proof (Hd _ OPending a H2 H1) as ->. by destruct Ho' as (? & [=] & _).
  - intros a [Ha|Ha]; [by apply ho_apart|]. intros Hs. eapply Hnot; [by right|done].
Qed.

(** A step that keeps everything but the blocks at [X], which are no other's. *)
Lemma ts_step rest F g h m w X g' h' m' w' :
  thread_state rest F g h m w -> kept_except rest X h m w h' m' w' ->
  heap_ok (with_parked rest (own_pending g')) h' m' w' ->
  (forall a, rest a -> ~ parked (own_pending g') a) -> (forall q, own_pending g' = Some q -> valid_range q) ->
  (forall a, (own_zeros g').1 <= a < (own_zeros g').1 + (own_zeros g').2 -> parked (own_pending g') a /\ (mem w').[a] = 0) ->
  (forall p n f, X p -> ~ F p n f) ->
  (forall p n f, own_blocks g' !! p = Some (n, f) ->
     ~ X p /\ own_blocks g !! p = Some (n, f) \/ X p /\ holds h' m' w' p n f) ->
  thread_state rest F g' h' m' w' /\ same_on rest w w'.
Proof.
  intros Hs Hk Hh' Hap Hv Hz HX Hown. pose proof (ts_rest _ _ _ _ _ _ Hs) as Hh. split; [|exact (kb_rest _ _ _ _ _ _ _ _ Hk)].
  assert (HF : forall p n f, F p n f -> holds h' m' w' p n f /\ ~ X p).
  { intros p n f Hp. assert (Hx : ~ X p) by (intros Hx; by eapply HX). split; [|done].
    eapply holds_kept; [exact Hh|exact Hk|exact Hx|by apply Hs]. }
  split; try done.
  - rewrite (kb_region _ _ _ _ _ _ _ _ Hk). apply Hs.
  - apply Hk, Hs.
  - intros Hzf. apply Hk; [done|]. by apply Hs.
  - intros p n f Hp. destruct (HF p n f Hp) as [Hb Hx]. split; [done|].
    destruct (own_blocks g' !! p) as [[k j]|] eqn:E; [|done]. destruct (Hown p k j E) as [[_ Ho]|[? _]]; [|done].
    destruct (ts_frame _ _ _ _ _ _ Hs p n f Hp) as [_ Hno]. congruence.
  - intros p n f Hp. destruct (Hown p n f Hp) as [[Hx Ho]|[_ Hb]]; [|done].
    eapply holds_kept; [exact Hh|exact Hk|exact Hx|]. by eapply (ts_own _ _ _ _ _ _ Hs).
Qed.

(** Nothing happened to the memory. *)
Lemma ts_same rest F g h m w w' :
  thread_state rest F g h m w -> mem w' = mem w -> maps_grow (kern w) (kern w') -> thread_state rest F g h m w' /\ same_on rest w w'.
Proof.
  intros Hs Hm Hk.
  apply (ts_step rest F g h m w (fun _ => False)); [exact Hs|by apply kept_refl| |apply Hs|apply Hs| |by intros ? ? ? []|].
  - eapply heap_ok_world; [apply Hs|done].
  - rewrite Hm. apply Hs.
  - intros p n f Hp. left. by split; [intros []|].
Qed.

Lemma set_region_allocator_id h ra : ro_region_allocator h = Some ra -> set_region_allocator ra h = h.
Proof. intros E. destruct h. cbn in *. by subst. Qed.

(** A step of the region allocator, from and to pending ranges. *)
Lemma ts_large rest F g h m w X m0 own' q' zeros' ra' m' w' :
  thread_state rest F g h m w -> ra_lock ra' = false -> large_body (outside rest h) ra' m' q' w' ->
  kept_memory (outside rest h) m0 (mem w) (mem w') ->
  (forall p, ~ X p -> m0 !! p = m !! p) -> (forall p, ~ X p -> m' !! p = m !! p) ->
  (forall a, zeros'.1 <= a < zeros'.1 + zeros'.2 -> parked q' a /\ (mem w').[a] = 0) ->
  (forall p n f, X p -> ~ F p n f) ->
  (forall p n f, own' !! p = Some (n, f) ->
     ~ X p /\ own_blocks g !! p = Some (n, f) \/ X p /\ holds (set_region_allocator ra' h) m' w' p n f) ->
  thread_state rest F (Ghost own' q' zeros') (set_region_allocator ra' h) m' w' /\ same_on rest w w'.
Proof.
  intros Hs Hlock Hb Hk H0 H' Hz HX Hown. pose proof (ts_rest _ _ _ _ _ _ Hs) as Hh.
  destruct (park rest h m w ra' m' q' w' Hh Hlock Hb) as (Hh' & Hap & Hv).
  eapply (ts_step rest F g h m w X); try done. by eapply kept_large.
Qed.
End Steps.
