(* ===== verification/ThreadsAlloc.v ===== *)
(** The sections of an allocation, one by one, with other threads in between. *)

From S2P Require Import Prelude Config Util SizeClass Kernel Maps Pages RandomSource SlabMeta Slab SlabInv SlabRegion SlabAlloc SlabQuarantine SlabFree SlabCanary Regions RegionTable RegionMap Large LargeInv LargeAlloc LargeFree Allocator Malloc AllocatorInv AllocatorAlloc AllocatorFree Requests InitSpec MallocSpec FreeSpec AlignedSpec Client Threads ThreadsInv.

Section Alloc.
Context {Cfg : Config} {Cok : ConfigOk Cfg} {K : Kernel} {Kok : KernelOk K} {R : Type}.
Context `{!RandomSource R} `{!RandomSourceOk R} `{!Platform} `{Start : !RegionStart}.
Context (pthread_atfork : AM (R := R) bool).
Implicit Types (h : allocator R) (m : gmap Z (Z * Z)) (w : world) (rest X : Z -> Prop) (g : ghost) (ra : region_allocator R).
Implicit Types (F : Z -> Z -> (Z -> Z) -> Prop) (Φ : Z -> ghost -> Prop).

(** A thread that holds one block of [n] bytes. *)
Definition owns (p n : Z) (f : Z -> Z) : ghost := Ghost {[p := (n, f)]} None (0, 0).

Definition pending (q : quarantine_info) (zeros : Z * Z) : ghost := Ghost ∅ (Some q) zeros.

(** ** Sections that only this thread sees *)

Lemma section_local {A} n (mt : AM A) (k : A -> proc R) g Φ (P : A -> Prop) :
  (forall h w, wp mt (fun a s' => P a /\ fst s' = h /\ mem (snd s') = mem w /\ kern (snd s') = kern w) (fun _ => False) (h, w)) ->
  (forall a, P a -> proc_ok n (k a) g Φ) -> proc_ok (Datatypes.S n) (section mt k) g Φ.
Proof.
  intros Hm Hk. apply section_ok. intros rest F h m w Hs. eapply wp_mono; [apply Hm| |done].
  intros a [h' w'] (Ha & E & Hmem & Hkern). cbn [fst snd] in *. subst h'. exists g, m.
  destruct (ts_same rest F g h m w w' Hs Hmem) as [Hs' Hsame]; [by rewrite Hkern|].
  split; [done|]. split; [done|]. by apply Hk.
Qed.

Lemma section_errno n e (k : unit -> proc R) g Φ :
  proc_ok n (k tt) g Φ -> proc_ok (Datatypes.S n) (section (on_world (set_errno e)) k) g Φ.
Proof. intros Hk. apply (section_local n _ k g Φ (fun _ => True)); [|by intros []]. intros h w. by apply wp_on_world, wp_modify. Qed.

Lemma ts_arena rest F g h h1 m w :
  thread_state rest F g h m w -> heap_ok (with_parked rest (own_pending g)) h1 m w -> same_slabs h h1 -> thread_state rest F g h1 m w.
Proof.
  intros Hs Hh1 E. destruct (ts_step rest F g h m w (fun _ => False) g h1 m w) as [Hs1 _]; try apply Hs; try done.
  - eapply kept_same; [exact E|by apply kept_refl].
  - intros p n f Hp. left. by split; [intros []|].
Qed.

Lemma section_init n (k : Z -> proc R) g Φ :
  (forall ar, 0 <= ar < N_ARENA -> proc_ok n (k ar) g Φ) -> proc_ok (Datatypes.S n) (section (init pthread_atfork) k) g Φ.
Proof.
  intros Hk. apply section_ok. intros rest F h m w Hs.
  eapply wp_conseq; [apply (wp_init_initialized pthread_atfork (with_parked rest (own_pending g)) h m w), Hs|].
  intros ar [h1 w1] (Har & Hw & Hh1 & E). cbn [fst snd] in *. subst w1. exists g, m.
  split; [by eapply ts_arena|]. split; [done|]. by apply Hk.
Qed.

(** ** Large allocations *)

Lemma section_guard n size (k : Z -> proc R) g Φ :
  fits 64 size -> (forall guard, guard_ok guard -> proc_ok n (k guard) g Φ) ->
  proc_ok (Datatypes.S n) (section (with_regions (draw_guard_size size)) k) g Φ.
Proof.
  intros Hsize Hk. apply section_ok. intros rest F h m w Hs.
  destruct (ho_large _ _ _ _ (ts_heap _ _ _ _ _ _ Hs)) as (ra & Hra & Hinv). eapply wp_with_regions; [exact Hra|].
  eapply wp_conseq; [exact (wp_draw_guard_size _ ra m w size Hinv Hsize)|].
  intros guard [ra' w'] (Hg & Hinv' & Hm & Hgrow). cbn [fst snd] in *. exists g, m.
  assert (Hh' : heap_ok (with_parked rest (own_pending g)) (set_region_allocator ra' h) m w')
    by (eapply heap_ok_set_regions; [apply Hs|done]).
  destruct (ts_same rest F g h m w w' Hs Hm Hgrow) as [Hs' Hsame].
  split; [|split; [done|by apply Hk]]. eapply ts_arena; [exact Hs'|exact Hh'|done].
Qed.

(** The pages of a new block. *)
Lemma section_pages n size guard (A : Z -> Prop) (pages : M world Z) (k : Z -> proc R) Φ :
  (forall w, wp pages (fun p w' => p = 0 /\ failed_cleanly w w' \/ fresh_block p size guard w w' /\ A p) memory_fatal w) ->
  0 < size -> guard_ok guard -> proc_ok n (k 0) nothing Φ ->
  (forall p, held_block p size guard -> A p -> proc_ok n (k p) (pending (block_range p size guard) (p, size)) Φ) ->
  proc_ok (Datatypes.S n) (section (on_world pages) k) nothing Φ.
Proof.
  intros Hpages Hpos Hg H0 Hk. apply section_ok. intros rest F h m w Hs.
  destruct (unpark _ _ _ _ _ _ Hs) as (ra & Hra & Hlock & Hb). apply wp_on_world. cbn [fst snd].
  eapply wp_mono; [apply Hpages| |intros e He; by right].
  assert (Hun : forall w', undisturbed w w' -> kept_memory (outside rest h) m (mem w) (mem w'))
    by (intros w' Hu; by eapply steady_kept, undisturbed_steady).
  intros p w' [(-> & _ & Hu)|[Hf HA]]; rewrite <- (set_region_allocator_id h ra Hra).
  - exists nothing, m. destruct (ts_large rest F nothing h m w (fun _ => False) m ∅ None (0, 0) ra m w') as [Hs' Hsame]; try done.
    + eapply large_body_quiet; [exact Hb|done|apply Hb|done..|apply Hu].
    + by apply Hun.
    + cbn. lia.
  - assert (Hh : held_block p size guard) by by eapply fresh_block_held.
    exists (pending (block_range p size guard) (p, size)), m.
    destruct (ts_large rest F nothing h m w (fun _ => False) m ∅ (Some (block_range p size guard)) (p, size) ra m w') as [Hs' Hsame]; try done.
    + by apply (large_body_fresh _ _ _ w).
    + by eapply Hun, fresh_block_undisturbed.
    + cbn [fst snd]. intros a Ha. split; [|apply (fb_zero _ _ _ _ _ Hf); destruct Hh; lia].
      eexists. split; [done|]. apply block_range_pages; [done|]. unfold block. destruct Hh. lia.
    + split; [done|]. split; [done|]. by apply Hk.
Qed.

(** Giving the pages of a pending block back. *)
Lemma section_give_back n p size guard zeros (k : unit -> proc R) Φ :
  held_block p size guard -> proc_ok n (k tt) nothing Φ ->
  proc_ok (Datatypes.S n) (section (on_world (deallocate_pages p size guard)) k) (pending (block_range p size guard) zeros) Φ.
Proof.
  intros Hh Hk. apply section_ok. intros rest F h m w Hs.
  destruct (unpark _ _ _ _ _ _ Hs) as (ra & Hra & Hlock & Hb). apply wp_on_world. cbn [fst snd].
  eapply wp_mono; [by apply wp_deallocate_pages| |intros e He; by right].
  intros [] w' [Hin _]. destruct (large_body_given_back _ _ _ _ _ _ _ _ _ Hb Hh Hin) as [Hb' Hst].
  rewrite <- (set_region_allocator_id h ra Hra). exists nothing, m.
  destruct (ts_large rest F (pending (block_range p size guard) zeros) h m w (fun _ => False) m ∅ None (0, 0) ra m w') as [Hs' Hsame]; try done.
  - by eapply steady_kept.
  - cbn. lia.
Qed.

(** The block at [p] enters the table. *)
Lemma section_enter n p size guard req (k : bool -> proc R) Φ :
  large_block p size guard -> req <= size -> (forall h : allocator R, req <= realloc_keeps h p size) ->
  proc_ok n (k true) (pending (block_range p size guard) (p, size)) Φ ->
  (forall f, (forall i, 0 <= i < req -> f i = 0) -> proc_ok n (k false) (owns p req f) Φ) ->
  proc_ok (Datatypes.S n) (section (with_regions (enter_large p size guard)) k) (pending (block_range p size guard) (p, size)) Φ.
Proof.
  intros Hl Hreq Hkeeps Htrue Hfalse. apply section_ok. intros rest F h m w Hs.
  destruct (unpark _ _ _ _ _ _ Hs) as (ra & Hra & Hlock & Hb). eapply wp_with_regions; [exact Hra|].
  eapply wp_mono; [exact (wp_enter_large _ ra m w p size guard Hlock Hb Hl)| |intros e He; by right].
  intros [] [ra' w'] Hpost; cbn [fst snd] in *.
  - destruct Hpost as (Hlock' & Hmem & Hb'). exists (pending (block_range p size guard) (p, size)), m.
    edestruct (ts_large rest F (pending (block_range p size guard) (p, size)) h m w (fun _ => False) m ∅
      (Some (block_range p size guard)) (p, size) ra' m w') as [Hs' Hsame]; try done.
    + intros a _. by rewrite Hmem.
    + rewrite Hmem. apply Hs.
  - destruct Hpost as [Hinv Hk]. pose proof (ts_rest _ _ _ _ _ _ Hs) as Hh.
    pose proof (pending_not_mapped _ _ _ _ _ _ _ Hb (proj1 Hl)) as Hm.
    pose proof (heap_ok_set_regions _ _ _ _ _ _ _ Hh Hinv) as Hh'.
    assert (Hnew : forall j, ~ block_at h m p j) by (by eapply large_new; [exact Hh|exact Hh'|apply lookup_insert_eq|]).
    set (f := fun i => (mem w').[p + i]). exists (owns p req f), (<[p := (size, guard)]> m).
    edestruct (ts_large rest F (pending (block_range p size guard) (p, size)) h m w (fun q => q = p) (<[p := (size, guard)]> m)
      {[p := (req, f)]} None (0, 0) ra' (<[p := (size, guard)]> m) w') as [Hs' Hsame]; try done.
    + apply Hinv.
    + apply Hinv.
    + intros q Hq. by rewrite lookup_insert_ne.
    + intros q Hq. by rewrite lookup_insert_ne.
    + cbn. lia.
    + intros q j f' -> Hf. destruct (ts_frame _ _ _ _ _ _ Hs p j f' Hf) as [(x & Hx & _) _]. by eapply Hnew.
    + intros q j f' [<- [= <- <-]]%lookup_singleton_Some. right. split; [done|]. exists size. split; [right; exists guard; by apply lookup_insert_eq|].
      split; [apply Hkeeps|done].
    + split; [done|]. split; [done|]. apply Hfalse. intros i Hi. unfold f. rewrite (Hk (p + i)).
      * apply (ts_zeros _ _ _ _ _ _ Hs). cbn. lia.
      * right. exists p, (size, guard). rewrite lookup_insert_eq. split; [done|]. destruct (proj1 Hl) as [? ? ? [? ?] ? ?]. unfold block. cbn. lia.
Qed.

(** ** Small allocations *)

Lemma kept_rest_weaken rest rest' X h m w h' m' w' :
  kept_except rest X h m w h' m' w' -> (forall a, rest' a -> rest a) -> kept_except rest' X h m w h' m' w'.
Proof. intros [] Hr. split; auto. Qed.

(** What a request of [size] bytes serves: [req] bytes at an address with [A]. *)
Definition serves (size req : Z) (A : Z -> Prop) : Prop :=
  forall h p n, granted size n -> placed_for h size p -> (min_align | p) -> req <= n /\ req <= realloc_keeps h p n /\ A p.

Lemma section_small n ar size req (A : Z -> Prop) (k : Z -> proc R) Φ :
  0 <= ar < N_ARENA -> 0 <= size <= max_slab_size_class -> serves size req A ->
  proc_ok n (k 0) nothing Φ ->
  (forall p f, 0 < p -> (min_align | p) -> A p -> (ZERO_ON_FREE = true -> forall i, 0 <= i < req -> f i = 0) ->
     proc_ok n (k p) (owns p req f) Φ) ->
  proc_ok (Datatypes.S n) (section (with_class ar (si_class (get_size_info size)) (allocate_small size)) k) nothing Φ.
Proof.
  intros Har Hsize Hserves H0 Hk. apply section_ok. intros rest F h m w Hs.
  pose proof (ts_heap _ _ _ _ _ _ Hs) as Hh. cbn in Hh.
  eapply wp_mono; [apply (wp_allocate_slot _ h m w ar size Hh Har Hsize)| |intros e; apply no_false_alarm; apply Hs].
  intros p [h' w'] (m' & Hh' & Hkept & Hres). cbn [fst snd] in *.
  assert (Hkr : kept_but rest p h m w h' m' w') by (eapply kept_rest_weaken; [exact Hkept|by left]).
  destruct Hres as [[-> _]|(j & (Hn & Hal & Hp) & Hf)].
  - exists nothing, m'. eapply kept_but_null in Hkr; [|exact (ts_rest _ _ _ _ _ _ Hs)|eapply heap_ok_weaken; [exact Hh'|by left]].
    destruct (ts_step rest F nothing h m w (fun _ => False) nothing h' m' w') as [Hs' Hsame]; try done; try apply Hs.
    cbn. lia.
  - set (f := fun i => (mem w').[p + i]). exists (owns p req f), m'.
    destruct (Hserves h p j) as (Hreq & Hkeeps & HA).
    { unfold granted. by rewrite (proj2 (Z.leb_le _ _)) by lia. }
    { unfold placed_for. by rewrite (proj2 (Z.leb_le _ _)) by lia. }
    { apply Hf. }
    destruct (ts_step rest F nothing h m w (fun q => q = p) (owns p req f) h' m' w') as [Hs' Hsame]; try done; try apply Hs.
    + cbn. lia.
    + intros q x f' -> HF. destruct (ts_frame _ _ _ _ _ _ Hs p x f' HF) as [(y & Hy & _) _]. by eapply (fa_new _ _ _ _ _ _ _ _ Hf).
    + cbn [owns own_blocks]. intros q x f' [<- [= <- <-]]%lookup_singleton_Some. right. split; [done|]. exists j. split; [apply Hf|].
      split; [by rewrite (realloc_keeps_same h) by apply Hkr|done].
    + split; [done|]. split; [done|]. apply Hk; [apply Hf|apply Hf|done|]. intros Hzf i Hi. unfold f.
      eapply fresh_zero; [exact Hf|by apply Hs|lia].
Qed.

(** ** Requests *)

(** What an allocation of [req] bytes leaves the thread with; the bytes are zero
    if [zero]. *)
Definition alloc_post (req : Z) (A : Z -> Prop) (zero : Prop) (p : Z) g : Prop :=
  p = 0 /\ g = nothing \/
  exists f, g = owns p req f /\ 0 < p /\ (min_align | p) /\ A p /\ (zero -> forall i, 0 <= i < req -> f i = 0).

Lemma map_large_ok n size req (A : Z -> Prop) pages fail (zero : Prop) :
  fits 64 size -> 0 < size -> large_class size -> req <= size ->
  (forall h p, (PAGE_SIZE | p) -> req <= realloc_keeps h p size) ->
  (forall guard w, guard_ok guard ->
     wp (pages guard) (fun p w' => p = 0 /\ failed_cleanly w w' \/ fresh_block p size guard w w' /\ A p) memory_fatal w) ->
  proc_ok n fail nothing (alloc_post req A zero) ->
  proc_ok (4 + n) (map_large_proc size pages fail) nothing (alloc_post req A zero).
Proof.
  intros Hfit Hpos Hclass Hreq Hkeeps Hpages Hfail. assert (Hnull : alloc_post req A zero 0 nothing) by by left.
  apply section_guard; [done|]. intros guard Hg. apply (section_pages _ size guard A); [intros w; by apply Hpages|done|done| |].
  { by destruct n. }
  intros p Hh HA. assert (Hp : 0 < p - guard /\ 0 < guard) by (destruct Hh, Hg as (_ & _ & ?); lia).
  rewrite (proj2 (Z.eqb_neq p 0)) by lia.
  apply (section_enter _ p size guard req); [by split; [|split; [apply Hg|]]|done|intros h; apply Hkeeps, Hh| |].
  - apply section_give_back; [done|]. eapply proc_ok_le; [|exact Hfail]. lia.
  - intros f Hf. right. exists f. split; [done|]. split; [lia|]. split; [apply heap_ok_class_of_pages, Hh|]. by split.
Qed.

Lemma no_memory_ok req A zero : proc_ok 1 (no_memory (R := R)) nothing (alloc_post req A zero).
Proof. apply section_errno. by left. Qed.

Lemma allocate_proc_ok ar size req (A : Z -> Prop) :
  0 <= ar < N_ARENA -> fits 64 size -> serves size req A ->
  proc_ok 5 (allocate_proc (R := R) ar size) nothing (alloc_post req A (ZERO_ON_FREE = true \/ max_slab_size_class < size)).
Proof.
  intros Har Hsize Hserves. unfold allocate_proc. destruct (Z.leb_spec size max_slab_size_class) as [Hle|Hgt].
  - apply (section_small _ ar size req A); [done|by destruct Hsize|done|by left|].
    intros p f Hp Hal HA Hz. right. exists f. split_and!; try done. intros [Hzf|]; [by apply Hz|lia].
  - unfold allocate_large_proc. cbv zeta. destruct (large_class_holds size Hsize) as [->|[Hsz Hpos]].
    { eapply proc_ok_le; [|apply no_memory_ok]. lia. }
    set (sz := get_large_size_class size) in *. rewrite (proj2 (Z.eqb_neq sz 0)) by lia.
    assert (Hgr : granted size sz) by (unfold granted; rewrite (proj2 (Z.leb_gt _ _)) by done; split; [done|lia]).
    assert (Hpl : forall h p, (PAGE_SIZE | p) -> placed_for h size p)
      by (intros h p Hp; unfold placed_for; by rewrite (proj2 (Z.leb_gt _ _)) by done).
    assert (Hs : forall h p, (PAGE_SIZE | p) -> req <= sz /\ req <= realloc_keeps h p sz /\ A p)
      by (intros h p Hp; apply Hserves; [done|by apply Hpl|by apply heap_ok_class_of_pages]).
    apply (map_large_ok 1); [split; lia|lia|by exists size|apply (Hs (uninitialized (R := R)) 0), Z.divide_0_r| | |apply no_memory_ok].
    + intros h p Hp. by apply Hs.
    + intros guard w Hg. eapply wp_conseq; [apply wp_allocate_pages; [split; lia|apply Hg..]|].
      intros p w' [?|Hf]; [by left|right]. split; [done|]. by apply (Hs (uninitialized (R := R))), Hf.
Qed.

(** The request of [malloc]. *)
Lemma serves_malloc req : fits 64 req -> serves (adjust_size_for_canary req) req (fun _ => True).
Proof.
  intros Hreq h p n Hn Hp _. split; [by apply granted_request|]. split; [|done].
  apply granted_keeps; [done|done|by apply placed_slab].
Qed.

Lemma alloc_proc_ok req :
  fits 64 req ->
  proc_ok 6 (alloc_proc pthread_atfork (adjust_size_for_canary req)) nothing
    (alloc_post req (fun _ => True) (ZERO_ON_FREE = true \/ max_slab_size_class < adjust_size_for_canary req)).
Proof.
  intros Hreq. apply section_init. intros ar Har. apply allocate_proc_ok; [done|by apply adjust_fits|by apply serves_malloc].
Qed.

(** Writing to a block of one's own. *)
Lemma ts_write rest F p n f f' h m w w' :
  thread_state rest F (owns p n f) h m w -> kern w' = kern w -> only_changes p n (mem w) (mem w') ->
  (forall i, 0 <= i < n -> (mem w').[p + i] = f' i) ->
  thread_state rest F (owns p n f') h m w' /\ same_on rest w w'.
Proof.
  intros Hs Hk Ho Hf. destruct (ts_own _ _ _ _ _ _ Hs p n f) as (j & Hb & Hkeeps & _); [apply lookup_singleton_eq|].
  pose proof (ts_rest _ _ _ _ _ _ Hs) as Hh. pose proof (block_keeps_le _ _ _ _ _ _ Hh Hb) as Hle.
  assert (Hj : only_changes p j (mem w) (mem w')) by (intros a Ha; apply Ho; lia).
  destruct (kept_but_write rest h m w w' p j Hh Hb Hj Hk) as [_ Hkept].
  pose proof (ts_heap _ _ _ _ _ _ Hs) as Hp. cbn in Hp. destruct (kept_but_write _ h m w w' p j Hp Hb Hj Hk) as [Hp' _].
  apply (ts_step rest F (owns p n f) h m w (fun q => q = p)); try done; try apply Hs.
  - cbn. lia.
  - intros q x y -> HF. destruct (ts_frame _ _ _ _ _ _ Hs p x y HF) as [_ Hno]. cbn in Hno. by rewrite lookup_singleton_eq in Hno.
  - cbn [owns own_blocks]. intros q x y [<- [= <- <-]]%lookup_singleton_Some. right. split; [done|]. by exists j.
Qed.

(** [calloc] clears its block. *)
Lemma section_clear n p req f (k : unit -> proc R) Φ :
  (forall f', (forall i, 0 <= i < req -> f' i = 0) -> proc_ok n (k tt) (owns p req f') Φ) ->
  proc_ok (Datatypes.S n) (section (let* w := gets snd in on_world (set_mem (memset0 p req (mem w)))) k) (owns p req f) Φ.
Proof.
  intros Hk. apply section_ok. intros rest F h m w Hs. apply wp_bind, wp_gets, wp_on_world, wp_modify. cbn [fst snd].
  exists (owns p req (fun _ => 0)), m.
  destruct (ts_write rest F p req f (fun _ => 0) h m w (World _ (kern w) (memset0 p req (mem w)) (errno w)) Hs eq_refl) as [Hs' Hsame].
  - apply memset0_only.
  - intros i Hi. apply memset0_zero. lia.
  - split; [done|]. split; [done|]. by apply Hk.
Qed.

Lemma calloc_proc_ok nmemb size :
  fits 64 nmemb -> fits 64 size ->
  proc_ok 7 (calloc_proc pthread_atfork nmemb size) nothing
    (fun p g => p = 0 /\ g = nothing \/
       nmemb * size < 2 ^ 64 /\ alloc_post (nmemb * size) (fun _ => True) True p g).
Proof.
  intros [Hn0 Hn1] [Hs0 Hs1]. unfold calloc_proc, mul_overflow. destruct (Z.leb_spec (2 ^ 64) (nmemb * size)) as [Hov|Hok].
  { apply (proc_ok_le 1); [lia|]. apply section_errno. by left. }
  assert (Hreq : fits 64 (nmemb * size)) by (split; nia). rewrite (wrap_small 64 (nmemb * size)) by done.
  set (req := nmemb * size) in *. cbv zeta. change 7%nat with (6 + 1)%nat. eapply then_proc_ok; [by apply alloc_proc_ok|].
  intros p g [[-> ->]|(f & -> & Hp & Hal & _ & Hz)]; [rewrite andb_false_r; by left|].
  assert (Hdone : forall f', (forall i, 0 <= i < req -> f' i = 0) ->
    p = 0 /\ owns p req f' = nothing \/ req < 2 ^ 64 /\ alloc_post req (fun _ => True) True p (owns p req f')).
  { intros f' Hf'. right. split; [done|]. right. by exists f'. }
  rewrite (proj2 (Z.eqb_neq p 0)) by lia. cbn [negb]. destruct ZERO_ON_FREE; cbn [negb andb]; [by apply Hdone; auto|].
  destruct (Z.eqb_spec (adjust_size_for_canary req) 0) as [E|E]; cbn [negb andb].
  { apply Hdone. intros i Hi. pose proof (adjust_ge req Hreq). lia. }
  destruct (Z.leb_spec (adjust_size_for_canary req) max_slab_size_class) as [Hsmall|Hlarge]; [|by apply Hdone; auto].
  destruct (adjust_small req Hreq E Hsmall) as [Hpos ->]. apply section_clear. exact Hdone.
Qed.

(** ** Aligned requests *)

Lemma memalign_proc_ok alignment size :
  fits 64 alignment -> fits 64 size ->
  proc_ok 7 (memalign_proc pthread_atfork alignment size) nothing
    (fun p g => p = 0 /\ g = nothing \/
       exists k, 3 <= k < 64 /\ alignment = 2 ^ k /\ alloc_post size (fun p => (2 ^ k | p)) False p g).
Proof.
  intros Ha Hsize. apply section_init. intros ar Har. unfold allocate_aligned_proc.
  assert (Hnull : forall n, proc_ok n (Finished (R := R) 0) nothing (fun p g => p = 0 /\ g = nothing \/
    exists k, 3 <= k < 64 /\ alignment = 2 ^ k /\ alloc_post size (fun p => (2 ^ k | p)) False p g)) by (intros []; by left).
  destruct (Z.eqb_spec (Z.land (u64 (alignment - 1)) alignment) 0) as [E0|]; cbn [negb orb]; [|by apply Hnull].
  destruct (Z.ltb_spec alignment sizeof_pointer) as [|Hge]; [by apply Hnull|].
  unfold sizeof_pointer in Hge. apply power_of_2_test in E0 as [|(k & Hk & ->)]; [lia| |done].
  assert (Hk3 : 3 <= k < 64) by (split; [apply (Z.pow_le_mono_r_iff 2)|]; lia).
  assert (Hpost : forall (zero : Prop) r g, alloc_post size (fun p => (2 ^ k | p)) zero r g ->
    r = 0 /\ g = nothing \/ exists j, 3 <= j < 64 /\ 2 ^ k = 2 ^ j /\ alloc_post size (fun p => (2 ^ j | p)) False r g).
  { intros zero r g Hr. right. exists k. split; [done|]. split; [done|]. destruct Hr as [|(f & -> & ? & ? & ? & _)]; [by left|right]. by exists f. }
  pose proof (adjust_fits size Hsize) as Hfit. destruct (Z.leb_spec (2 ^ k) PAGE_SIZE) as [Hle|Hgt].
  - assert (Hk12 : 0 <= k <= PAGE_SHIFT).
    { split; [lia|]. change PAGE_SIZE with (2 ^ 12) in Hle. apply (Z.pow_le_mono_r_iff 2); unfold PAGE_SHIFT; lia. }
    apply (section_local _ _ _ _ _ (fun x => x = aligned_size_of (2 ^ k) (adjust_size_for_canary size))).
    { intros h w. unfold wp. by rewrite (proj1 (aligned_size_run k _ (h, w) Hfit Hk12)). }
    intros x ->. eapply proc_ok_mono; [|by apply Hpost|apply (allocate_proc_ok ar _ size); [done| |]]; [lia|by apply (aligned_size (uninitialized (R := R)))|].
    intros h p n. by apply aligned_serves.
  - apply (proc_ok_mono 4 _ _ _ (alloc_post size (fun p => (2 ^ k | p)) False)); [lia|apply Hpost|].
    unfold allocate_aligned_large_proc. cbv zeta. destruct (large_class_holds _ Hfit) as [->|[Hsz Hpos]]; [by left|].
    set (sz := get_large_size_class (adjust_size_for_canary size)) in *. rewrite (proj2 (Z.eqb_neq sz 0)) by lia.
    assert (Hcl : large_class sz) by (by eexists). pose proof (adjust_ge size Hsize).
    apply (map_large_ok 0); [split; lia|lia|done|lia| | |by left].
    + intros h p _. apply large_keeps; [done|done|split; lia|lia].
    + intros guard w Hg. apply wp_allocate_pages_aligned; [split; lia|apply Hg..|].
      split; [|lia]. apply Z.lt_le_incl, (Z.pow_lt_mono_r_iff 2); [lia..|]. by change PAGE_SIZE with (2 ^ 12) in Hgt.
Qed.
End Alloc.
