(* ===== verification/ThreadsFree.v ===== *)
(** The sections of a deallocation, one by one, with other threads in between. *)

From S2P Require Import Prelude Config Util SizeClass Kernel Maps Pages RandomSource SlabMeta Slab SlabInv SlabRegion SlabAlloc SlabQuarantine SlabFree SlabCanary Regions RegionTable RegionMap Large LargeInv LargeAlloc LargeFree Allocator Malloc AllocatorInv AllocatorAlloc AllocatorFree Requests InitSpec MallocSpec FreeSpec Client Threads ThreadsInv ThreadsAlloc.

Section Free.
Context {Cfg : Config} {Cok : ConfigOk Cfg} {K : Kernel} {Kok : KernelOk K} {R : Type}.
Context `{!RandomSource R} `{!RandomSourceOk R} `{!Platform} `{Start : !RegionStart}.
Implicit Types (h : allocator R) (m : gmap Z (Z * Z)) (w : world) (rest X : Z -> Prop) (g : ghost) (ra : region_allocator R).
Implicit Types (F : Z -> Z -> (Z -> Z) -> Prop) (Φ : Z -> ghost -> Prop).

Definition in_slabs (p : Z) : Prop := region_start <= p < region_start + slab_region_size.

Lemma section_in_slab n p (k : bool -> proc R) g Φ :
  (in_slabs p -> proc_ok n (k true) g Φ) -> (~ in_slabs p -> proc_ok n (k false) g Φ) ->
  proc_ok (Datatypes.S n) (section (in_slab_region p) k) g Φ.
Proof.
  intros Ht Hf. apply section_ok. intros rest F h m w Hs. pose proof (ts_start _ _ _ _ _ _ Hs) as E.
  eapply wp_in_slab_region; [apply Hs|..]; intros Hp; unfold slab_range in Hp; rewrite E in Hp; exists g, m;
    (split; [done|]); (split; [done|]); auto.
Qed.

(** The block that a thread is about to free. *)
Lemma own_block rest F h m w p n f :
  thread_state rest F (owns p n f) h m w -> exists k, block_at h m p k /\ canaries_intact h w p /\ (forall j x, ~ F p j x).
Proof.
  intros Hs. destruct (ts_own _ _ _ _ _ _ Hs p n f) as (k & Hb & _); [apply lookup_singleton_eq|]. exists k.
  split; [done|]. split; [by apply guarded_canaries, Hs|]. intros j x HF. destruct (ts_frame _ _ _ _ _ _ Hs p j x HF) as [_ Hno].
  cbn in Hno. by rewrite lookup_singleton_eq in Hno.
Qed.

Lemma section_slot n p j f (k : unit -> proc R) Φ :
  in_slabs p -> proc_ok n (k tt) nothing Φ ->
  proc_ok (Datatypes.S n) (section (deallocate_slot p None) k) (owns p j f) Φ.
Proof.
  intros Hp Hk. apply section_ok. intros rest F h m w Hs. pose proof (ts_heap _ _ _ _ _ _ Hs) as Hh. cbn in Hh.
  destruct (own_block _ _ _ _ _ _ _ _ Hs) as (x & Hb & Hcan & HF).
  assert (Hr : slab_range h p) by (unfold slab_range; by rewrite (ts_start _ _ _ _ _ _ Hs)).
  assert (Hv : slot_error h w p None = None).
  { assert (E : free_error h m w p None None = None) by (apply (free_error_spec _ h m w p Hh); split; [by exists x|done]).
    unfold free_error in E. by destruct (slab_range_dec h p). }
  pose proof (wp_deallocate_slot _ h m w p None Hh Hr) as Hd. rewrite Hv in Hd. eapply wp_conseq; [exact Hd|].
  intros [] [h' w'] (_ & x' & _ & (m' & Hh' & Hkept & Hgone) & _). cbn [fst snd] in *. exists nothing, m'.
  destruct (ts_step rest F (owns p j f) h m w (fun q => q = p) nothing h' m' w') as [Hs' Hsame]; try done; try apply Hs.
  - eapply kept_rest_weaken; [exact Hkept|by left].
  - cbn. lia.
  - intros q y z ->. apply HF.
Qed.

(** ** Large blocks *)

Lemma section_remove n p j f (k : Z * Z -> proc R) Φ :
  ~ in_slabs p ->
  (forall size guard, held_block p size guard -> proc_ok n (k (size, guard)) (pending (block_range p size guard) (0, 0)) Φ) ->
  proc_ok (Datatypes.S n)
    (section (let* e := get_slab_region_end in enforce_init e ;;; with_regions (remove_large p None)) k) (owns p j f) Φ.
Proof.
  intros Hp Hk. apply section_ok. intros rest F h m w Hs. pose proof (ts_rest _ _ _ _ _ _ Hs) as Hh.
  destruct (own_block _ _ _ _ _ _ _ _ Hs) as (x & Hb & Hcan & HF).
  assert (Hr : ~ slab_range h p) by (unfold slab_range; by rewrite (ts_start _ _ _ _ _ _ Hs)).
  destruct (outside_large _ _ _ _ _ _ Hh Hr Hb) as [guard Hm].
  destruct (unpark _ _ _ _ _ _ Hs) as (ra & Hra & Hlock & Hbody). cbn in Hbody.
  unfold get_slab_region_end, enforce_init. apply wp_bind, wp_gets. cbn [fst]. rewrite (heap_ok_init _ _ _ _ Hh).
  apply wp_bind, wp_ret. eapply wp_with_regions; [exact Hra|].
  eapply wp_mono; [exact (wp_remove_large _ ra m w p None (conj Hlock Hbody))| |].
  2: { intros e (msg & Hv & _). unfold table_verdict in Hv. by rewrite Hm in Hv. }
  intros r [ra' w'] (_ & Hr' & Hw & Hlock' & Hb'). cbn [fst snd] in *. subst w'. rewrite Hm in Hr'. injection Hr' as <-. cbn [fst snd] in *.
  exists (pending (block_range p x guard) (0, 0)), (delete p m).
  edestruct (ts_large rest F (owns p j f) h m w (fun q => q = p) (delete p m) ∅ (Some (block_range p x guard)) (0, 0) ra' (delete p m) w)
    as [Hs' Hsame]; try done.
  - intros q Hq. by rewrite lookup_delete_ne.
  - intros q Hq. by rewrite lookup_delete_ne.
  - cbn. lia.
  - intros q y z ->. apply HF.
  - split; [done|]. split; [done|]. apply Hk. by eapply (lb_held _ _ _ _ _ _ Hbody).
Qed.

Lemma section_drop n p size guard (k : unit -> proc R) Φ :
  held_block p size guard -> proc_ok n (k tt) (pending (block_range p size guard) (0, 0)) Φ ->
  proc_ok (Datatypes.S n) (section (on_world (drop_contents p size)) k) (pending (block_range p size guard) (0, 0)) Φ.
Proof.
  intros Hh Hk. apply section_ok. intros rest F h m w Hs.
  destruct (unpark _ _ _ _ _ _ Hs) as (ra & Hra & Hlock & Hb). apply wp_on_world. cbn [fst snd].
  assert (Hsz : 0 < size <= 2 ^ 63) by (destruct Hh; lia).
  eapply wp_mono; [by apply wp_drop_contents| |intros e He; by right]. intros [] w' (_ & Hout & Hgrow).
  rewrite <- (set_region_allocator_id h ra Hra). exists (pending (block_range p size guard) (0, 0)), m.
  edestruct (ts_large rest F (pending (block_range p size guard) (0, 0)) h m w (fun _ => False) m ∅
    (Some (block_range p size guard)) (0, 0) ra m w') as [Hs' Hsame]; try done.
  - eapply large_body_quiet; [exact Hb|done|apply Hb|done..].
  - eapply steady_kept, (steady_pending _ ra m m w w' p size guard); [done|done|]. intros a Ha. apply Hout.
    unfold block in Ha. destruct Hh. lia.
  - cbn. lia.
Qed.

Lemma section_swap n q (k : option quarantine_info -> proc R) Φ :
  REGION_QUARANTINE = true -> (forall out, proc_ok n (k out) (Ghost ∅ out (0, 0)) Φ) ->
  proc_ok (Datatypes.S n) (section (with_regions (region_quarantine_swap q)) k) (pending q (0, 0)) Φ.
Proof.
  intros Hactive Hk. apply section_ok. intros rest F h m w Hs.
  destruct (unpark _ _ _ _ _ _ Hs) as (ra & Hra & Hlock & Hb). eapply wp_with_regions; [exact Hra|].
  eapply wp_mono; [exact (wp_region_quarantine_swap _ ra m m q w Hlock Hb Hactive)| |intros e He; by left].
  intros out [ra' w'] (Hlock' & Hb' & Hm & _). cbn [fst snd] in *. exists (Ghost ∅ out (0, 0)), m.
  edestruct (ts_large rest F (pending q (0, 0)) h m w (fun _ => False) m ∅ out (0, 0) ra' m w') as [Hs' Hsame]; try done.
  - intros a _. by rewrite Hm.
  - cbn. lia.
Qed.

Lemma section_unmap n out (k : unit -> proc R) Φ :
  proc_ok n (k tt) nothing Φ -> proc_ok (Datatypes.S n) (section (on_world (unmap_target out)) k) (Ghost ∅ out (0, 0)) Φ.
Proof.
  intros Hk. apply section_ok. intros rest F h m w Hs.
  destruct (unpark _ _ _ _ _ _ Hs) as (ra & Hra & Hlock & Hb). cbn in Hb. apply wp_on_world. cbn [fst snd].
  set (Q := fun (a : unit) w' => exists g' m', thread_state rest F g' h m' w' /\ same_on rest w w' /\ proc_ok n (k a) g' Φ).
  assert (Hu : wp (on_world (unmap_target out)) (fun a s' => Q a (snd s')) memory_fatal (ra, w)).
  { eapply wp_unmap_target; [exact Hb|]. intros w' Hb' Hst. unfold Q. rewrite <- (set_region_allocator_id h ra Hra).
    exists nothing, m. edestruct (ts_large rest F (Ghost ∅ out (0, 0)) h m w (fun _ => False) m ∅ None (0, 0) ra m w') as [Hs' Hsame]; try done.
    - by eapply steady_kept.
    - cbn. lia. }
  unfold on_world, zoom, wp in *. cbn [fst snd] in *. destruct (unmap_target out w) as [a w'|e]; [exact Hu|by right].
Qed.

Lemma quarantine_proc_ok n p size guard (k : proc R) Φ :
  held_block p size guard -> proc_ok n k nothing Φ ->
  proc_ok (3 + n) (quarantine_proc p size guard k) (pending (block_range p size guard) (0, 0)) Φ.
Proof.
  intros Hh Hk. unfold quarantine_proc. destruct (negb REGION_QUARANTINE || _) eqn:Hq.
  - apply (proc_ok_le (1 + n)); [lia|]. by apply section_give_back.
  - apply orb_false_iff in Hq as [Hq%negb_false_iff _]. destruct (held_block_range p size guard 0 Hh) as (E1 & E2 & _).
    rewrite E1, E2. fold (block_range p size guard).
    apply section_drop; [done|]. apply section_swap; [done|]. intros out. by apply section_unmap.
Qed.

Lemma free_proc_ok p n f :
  0 < p -> proc_ok 7 (free_proc p) (owns p n f) (fun r g => r = 0 /\ g = nothing).
Proof.
  intros Hp. unfold free_proc, untag_pointer. rewrite (proj2 (Z.eqb_neq p 0)) by lia. apply section_in_slab; intros Hin.
  - by apply section_slot.
  - unfold free_large_proc. apply (section_local _ _ _ _ _ (fun _ => True)); [by intros h w; apply wp_on_world, wp_gets|].
    intros e _. apply section_remove; [done|]. intros size guard Hh. apply quarantine_proc_ok; [done|].
    apply section_errno. done.
Qed.
End Free.
