(* ===== verification/ThreadsSpec.v ===== *)
(** What several threads may rely on. The abstract specification is a machine on
    the abstract memory of Client in which a call takes effect in one instant
    between its invocation and its return; the interleaved sections of the
    allocator refine it, for every program and every scheduler. *)

From S2P Require Import Prelude Config Util SizeClass Kernel Maps Pages RandomSource SlabMeta Slab SlabInv SlabRegion SlabFree SlabCanary Regions Large LargeInv LargeAlloc LargeFree Allocator Malloc AllocatorInv AllocatorAlloc AllocatorFree Requests InitSpec MallocSpec FreeSpec AlignedSpec Client Threads ThreadsInv ThreadsAlloc ThreadsFree.

(** ** The abstract machine *)

(** The calls in progress, each with a bound on the sections that are left. *)
Abbreviation calls := (gmap nat (call * nat)).

Definition max_sections : nat := 7.

Definition is_request (c : call) : bool :=
  match c with Malloc _ | Calloc _ _ | Memalign _ _ => true | _ => false end.
Definition is_free (c : call) : bool := match c with Free _ => true | _ => false end.

(** A deallocation takes effect when it is invoked, an allocation when it returns,
    an access at once. *)
Inductive conc_step : blocks -> calls -> move -> option Z -> blocks -> calls -> Prop :=
| ConcRequest B T i c :
    T !! i = None -> is_request c = true -> conc_step B T (Invoke i c) None B (<[i := (c, max_sections)]> T)
| ConcFree B T i p B' :
    T !! i = None -> abstract_step B (Free p) 0 B' -> conc_step B T (Invoke i (Free p)) None B' (<[i := (Free p, max_sections)]> T)
| ConcAccess B T i c r B' :
    T !! i = None -> is_access c = true -> abstract_step B c r B' -> conc_step B T (Invoke i c) (Some r) B' T
| ConcSection B T i c n :
    T !! i = Some (c, Datatypes.S n) -> conc_step B T (Run i) None B (<[i := (c, n)]> T)
| ConcReturn B T i c n r B' :
    T !! i = Some (c, n) -> is_request c = true -> abstract_step B c r B' -> conc_step B T (Run i) (Some r) B' (delete i T)
| ConcReturnFree B T i p n :
    T !! i = Some (Free p, n) -> conc_step B T (Run i) (Some 0) B (delete i T).

(** What the threads may do: a thread that is not in a call may make one that C's
    rules permit, and a thread that is in a call may run. *)
Definition conc_permitted (B : blocks) (T : calls) (mv : move) : Prop :=
  match mv with
  | Invoke i c => T !! i = None /\ permitted B c /\ is_request c || is_free c || is_access c = true
  | Run i => is_Some (T !! i)
  end.

Inductive conc_history (sys : system) : list (move * option Z) -> blocks -> calls -> Prop :=
| ConcStart : conc_history sys [] ∅ ∅
| ConcMove hist B T mv r B' T' :
    conc_history sys hist B T -> sys hist = Some mv -> conc_permitted B T mv -> conc_step B T mv r B' T' ->
    conc_history sys (hist ++ [(mv, r)]) B' T'.

Definition conc_legal (sys : system) : Prop :=
  forall hist B T mv, conc_history sys hist B T -> sys hist = Some mv -> conc_permitted B T mv.

(** ** Linearizations *)

(** The calls of a history in the order in which they take effect. *)
Fixpoint linearize (T : gmap nat call) (hist : list (move * option Z)) : list (call * Z) :=
  match hist with
  | [] => []
  | (Invoke i c, Some r) :: hist => (c, r) :: linearize T hist
  | (Invoke i c, None) :: hist =>
      if is_free c then (c, 0) :: linearize (<[i := c]> T) hist else linearize (<[i := c]> T) hist
  | (Run i, None) :: hist => linearize T hist
  | (Run i, Some r) :: hist =>
      match T !! i with
      | Some c => if is_free c then linearize (delete i T) hist else (c, r) :: linearize (delete i T) hist
      | None => linearize T hist
      end
  end.

Definition pending_calls (T : gmap nat call) (hist : list (move * option Z)) : gmap nat call :=
  fold_left (fun T x =>
    match x with
    | (Invoke i c, None) => <[i := c]> T
    | (Run i, Some _) => delete i T
    | _ => T
    end) hist T.

(** One call after the other. *)
Inductive sequential : list (call * Z) -> blocks -> Prop :=
| SequentialStart : sequential [] ∅
| SequentialStep tr B c r B' : sequential tr B -> abstract_step B c r B' -> sequential (tr ++ [(c, r)]) B'.

Lemma linearize_app T hist hist' : linearize T (hist ++ hist') = linearize T hist ++ linearize (pending_calls T hist) hist'.
Proof.
  revert T. induction hist as [|[[i c|i] [r|]] hist IH]; intros T; cbn; rewrite ?IH; try done.
  - by destruct (is_free c).
  - destruct (T !! i) as [c|] eqn:E; [by destruct (is_free c)|]. by rewrite delete_id.
Qed.

Lemma pending_calls_spec sys hist B T : conc_history sys hist B T -> pending_calls ∅ hist = fst <$> T.
Proof.
  induction 1 as [|hist B T mv r B' T' _ IH _ _ Hs]; [by rewrite fmap_empty|].
  unfold pending_calls in *. rewrite fold_left_app, IH.
  destruct Hs as [| | |? ? i c n E|? ? i c n ? ? E|? ? i p n E]; cbn; rewrite ?fmap_insert, ?fmap_delete; try done.
  rewrite insert_id; [done|]. by rewrite lookup_fmap, E.
Qed.

(** Every history has a sequential one with the same results, in which each call
    takes place between its invocation and its return. *)
Lemma conc_history_linear sys hist B T : conc_history sys hist B T -> sequential (linearize ∅ hist) B.
Proof.
  induction 1 as [|hist B T mv r B' T' Hh IH _ _ Hs]; [constructor|].
  rewrite linearize_app, (pending_calls_spec _ _ _ _ Hh).
  destruct Hs as [B T i c _ Hc|B T i p B' _ Hs|B T i c r B' _ _ Hs|B T i c n E|B T i c n r B' E Hc Hs|B T i p n E]; cbn;
    rewrite ?lookup_fmap, ?E; cbn; rewrite ?app_nil_r; try done; try (by econstructor).
  - destruct c; try done; by rewrite app_nil_r.
  - destruct c; try done; by econstructor.
Qed.

(** ** The threads and what they hold *)

Section Pool.
Context {Cfg : Config} {Cok : ConfigOk Cfg} {K : Kernel} {Kok : KernelOk K} {R : Type}.
Context `{!RandomSource R} `{!RandomSourceOk R} `{!Platform}.
Context (pthread_atfork : AM (R := R) bool).
Implicit Types (h : allocator R) (m : gmap Z (Z * Z)) (w : world) (rest X : Z -> Prop) (g : ghost) (G : nat -> ghost).
Implicit Types (B : blocks) (T : calls) (pl : pool R).

(** The memory and the blocks of everybody but thread [i]. *)
Definition others_memory rest G (i : nat) (a : Z) : Prop := rest a \/ exists j, j <> i /\ parked (own_pending (G j)) a.
Definition others_blocks B G (i : nat) (p n : Z) (f : Z -> Z) : Prop :=
  B !! p = Some (n, f) \/ exists j, j <> i /\ own_blocks (G j) !! p = Some (n, f).

Definition with_ghost (i : nat) g G (j : nat) : ghost := if decide (j = i) then g else G j.

Section Views.
Context `{Start : !RegionStart}.

(** Every thread finds the state to be its own. *)
Definition shared_state rest B G (s : allocator R * world) : Prop :=
  exists m, forall i, thread_state (others_memory rest G i) (others_blocks B G i) (G i) (fst s) m (snd s).

Lemma thread_state_ext rest rest' (F F' : Z -> Z -> (Z -> Z) -> Prop) g h m w :
  thread_state rest F g h m w -> (forall a, rest' a -> rest a) -> (forall p n f, F' p n f -> F p n f) ->
  thread_state rest' F' g h m w.
Proof.
  intros [] Hr HF. split; auto. eapply heap_ok_weaken; [done|]. intros a [|]; [left; auto|by right].
Qed.

(** A thread took a step: all others still find the state to be theirs. *)
Lemma thread_state_other rest B G i j g h h' m m' w w' :
  j <> i -> thread_state (others_memory rest G j) (others_blocks B G j) (G j) h m w ->
  thread_state (others_memory rest G i) (others_blocks B G i) g h' m' w' -> same_on (others_memory rest G i) w w' ->
  thread_state (others_memory rest (with_ghost i g G) j) (others_blocks B (with_ghost i g G) j) (G j) h' m' w'.
Proof.
  intros Hne Hj Hi Hsame.
  assert (Hpj : forall a, parked (own_pending (G j)) a -> others_memory rest G i a) by (intros a Ha; right; by exists j).
  assert (Hbj : forall p n f, own_blocks (G j) !! p = Some (n, f) -> others_blocks B G i p n f) by (intros p n f Hp; right; by exists j).
  assert (Hcase : forall a, others_memory rest (with_ghost i g G) j a -> others_memory rest G j a /\ others_memory rest G i a \/ parked (own_pending g) a).
  { intros a [Ha|(k & Hk & Ha)]; [left; by split; left|]. unfold with_ghost in Ha. case_decide; [by right|left]. split; right; by exists k. }
  split.
  - eapply heap_ok_weaken; [apply Hi|]. intros a [Ha|Ha]; [|left; auto]. apply Hcase in Ha as [[_ Ha]|Ha]; [by left|by right].
  - apply Hi.
  - intros a Ha Hp. apply Hcase in Ha as [[Ha _]|Ha]; [by apply (ts_apart _ _ _ _ _ _ Hj a)|].
    by apply (ts_apart _ _ _ _ _ _ Hi a); auto.
  - apply Hj.
  - intros a Ha. destruct (ts_zeros _ _ _ _ _ _ Hj a Ha) as [Hp Hz]. split; [done|]. rewrite Hsame; auto.
  - apply Hi.
  - apply Hi.
  - intros p n f Hp. assert (Hno : forall k x, own_blocks (G j) !! p = Some (k, x) -> own_blocks g !! p = None).
    { intros k x Hx. by apply (ts_frame _ _ _ _ _ _ Hi p k x); auto. }
    assert (Hold : others_blocks B G i p n f /\ others_blocks B G j p n f \/ own_blocks g !! p = Some (n, f)).
    { destruct Hp as [Hp|(k & Hk & Hp)]; [left; by split; left|]. unfold with_ghost in Hp. case_decide; [by right|left]. split; right; by exists k. }
    destruct Hold as [[H1 H2]|H1].
    + split; [by apply (ts_frame _ _ _ _ _ _ Hi)|by apply (ts_frame _ _ _ _ _ _ Hj p n f)].
    + split; [by eapply (ts_own _ _ _ _ _ _ Hi)|]. destruct (own_blocks (G j) !! p) as [[k x]|] eqn:E; [|done].
      pose proof (Hno k x eq_refl). congruence.
  - intros p n f Hp. by apply (ts_frame _ _ _ _ _ _ Hi p n f); auto.
Qed.

Lemma shared_step rest B G i g s m' s' :
  shared_state rest B G s ->
  thread_state (others_memory rest G i) (others_blocks B G i) g (fst s') m' (snd s') ->
  same_on (others_memory rest G i) (snd s) (snd s') -> shared_state rest B (with_ghost i g G) s'.
Proof.
  intros [m Hs] Hi Hsame. exists m'. intros j. unfold with_ghost at 3. case_decide as Hj.
  - subst j. eapply thread_state_ext; [exact Hi|..].
    + intros a [Ha|(k & Hk & Ha)]; [by left|right]. exists k. unfold with_ghost in Ha. by case_decide.
    + intros p n f [Hp|(k & Hk & Hp)]; [by left|right]. exists k. unfold with_ghost in Hp. by case_decide.
  - by eapply thread_state_other.
Qed.

(** The others do not notice that blocks change hands between the program and
    thread [i], whose pages stay the same. *)
Lemma thread_state_hand_over rest B B' G i j g h m w :
  j <> i -> thread_state (others_memory rest G j) (others_blocks B G j) (G j) h m w ->
  own_pending g = own_pending (G i) ->
  (forall p x, B' !! p = Some x \/ own_blocks g !! p = Some x -> B !! p = Some x \/ own_blocks (G i) !! p = Some x) ->
  thread_state (others_memory rest (with_ghost i g G) j) (others_blocks B' (with_ghost i g G) j) (G j) h m w.
Proof.
  intros Hne Hj Hp Hb. eapply thread_state_ext; [exact Hj|..].
  - intros a [Ha|(k & Hk & Ha)]; [by left|right]. exists k. unfold with_ghost in Ha. case_decide; [subst k; by rewrite <- Hp|done].
  - assert (Hold : forall p x, B !! p = Some x \/ own_blocks (G i) !! p = Some x -> others_blocks B G j p x.1 x.2).
    { intros p [n f] [Hx|Hx]; [by left|right; exists i; by split]. }
    intros p n f [Hx|(k & Hk & Hx)]; [by apply (Hold p (n, f)), Hb; left|]. unfold with_ghost in Hx. case_decide.
    + by apply (Hold p (n, f)), Hb; right.
    + right. by exists k.
Qed.

(** The program gives a block to an idle thread, which is to free it. *)
Lemma take_block rest B G i p n f s :
  shared_state rest B G s -> G i = nothing -> B !! p = Some (n, f) ->
  shared_state rest (delete p B) (with_ghost i (owns p n f) G) s.
Proof.
  intros [m Hs] Hi Hp. exists m. intros j. unfold with_ghost at 3. case_decide as Hj; [subst j|].
  - pose proof (Hs i) as Hti. rewrite Hi in Hti.
    assert (Hmem : forall a, others_memory rest (with_ghost i (owns p n f) G) i a -> others_memory rest G i a).
    { intros a [Ha|(k & Hk & Ha)]; [by left|right]. exists k. unfold with_ghost in Ha. by case_decide. }
    destruct Hti as [Hh E Hap Hv Hz Hg Hc HF _]. split; try done; auto.
    + eapply heap_ok_weaken; [exact Hh|]. intros a [Ha|Ha]; [left; auto|by right].
    + intros q x y Hq. assert (Hq' : others_blocks B G i q x y /\ q <> p).
      { destruct Hq as [[Hne Hq]%lookup_delete_Some|(k & Hk & Hq)]; [by split; [left|]|]. unfold with_ghost in Hq. case_decide; [done|].
        split; [right; by exists k|]. intros ->. destruct (ts_frame _ _ _ _ _ _ (Hs k) p n f) as [_ Hno]; [by left|]. congruence. }
      destruct Hq' as [Hq' Hne]. split; [by apply HF|]. cbn. by rewrite lookup_singleton_ne.
    + cbn [owns own_blocks]. intros q x y [<- [= <- <-]]%lookup_singleton_Some. apply HF. by left.
  - eapply thread_state_hand_over; [done|apply Hs|by rewrite Hi|].
    cbn [owns own_blocks]. intros q x [[_ Hq]%lookup_delete_Some|[<- <-]%lookup_singleton_Some]; by left.
Qed.

(** A thread returns a block to the program. *)
Lemma give_block rest B G i p n f s :
  shared_state rest B G s -> G i = owns p n f -> shared_state rest (<[p := (n, f)]> B) (with_ghost i nothing G) s.
Proof.
  intros [m Hs] Hi. exists m. intros j. unfold with_ghost at 3. case_decide as Hj; [subst j|].
  - pose proof (Hs i) as Hti. rewrite Hi in Hti.
    assert (Hmem : forall a, others_memory rest (with_ghost i nothing G) i a -> others_memory rest G i a).
    { intros a [Ha|(k & Hk & Ha)]; [by left|right]. exists k. unfold with_ghost in Ha. by case_decide. }
    destruct Hti as [Hh E Hap Hv Hz Hg Hc HF Ho]. split; try done; auto.
    + eapply heap_ok_weaken; [exact Hh|]. intros a [Ha|Ha]; [left; auto|by right].
    + intros q x y Hq. split; [|done]. destruct Hq as [Hq|(k & Hk & Hq)].
      * destruct (decide (q = p)) as [->|Hne]; [rewrite lookup_insert_eq in Hq; injection Hq as <- <-; apply Ho, lookup_singleton_eq|].
        rewrite lookup_insert_ne in Hq by done. apply HF. by left.
      * unfold with_ghost in Hq. case_decide; [done|]. apply HF. right. by exists k.
  - eapply thread_state_hand_over; [done|apply Hs|by rewrite Hi|].
    intros q x [Hq|Hq]; [|done]. rewrite Hi. destruct (decide (q = p)) as [->|Hne].
    + rewrite lookup_insert_eq in Hq. injection Hq as <-. right. by apply lookup_singleton_eq.
    + rewrite lookup_insert_ne in Hq by done. by left.
Qed.

(** ** The invariant of the pool *)

(** What a call leaves its thread with when it returns [r]. *)
Definition call_post (c : call) (r : Z) g : Prop :=
  match c with
  | Malloc size => alloc_post size (fun _ => True) False r g
  | Calloc nmemb size => r = 0 /\ g = nothing \/ nmemb * size < 2 ^ 64 /\ alloc_post (nmemb * size) (fun _ => True) True r g
  | Memalign alignment size =>
      r = 0 /\ g = nothing \/
      exists k, 3 <= k < 64 /\ alignment = 2 ^ k /\ alloc_post size (fun p => (2 ^ k | p)) False r g
  | Free _ => r = 0 /\ g = nothing
  | _ => False
  end.

Definition thread_ok (t : option (proc R)) (c : option (call * nat)) g : Prop :=
  match t, c with
  | Some t, Some (c, n) => proc_ok n t g (call_post c)
  | None, None => g = nothing
  | _, _ => False
  end.

Definition arenas_ok pl : Prop := forall i, 0 <= fst (local_state pl i) /\ (N_ARENA = 1 -> fst (local_state pl i) = 0).

Definition pool_ok rest B T pl : Prop :=
  exists G, shared_state rest B G (shared pl) /\ arenas_ok pl /\ forall i, thread_ok (running pl !! i) (T !! i) (G i).

Lemma request_ok B c t :
  permitted B c -> is_request c = true -> call_proc pthread_atfork c = Some t -> proc_ok max_sections t nothing (call_post c).
Proof.
  intros Hp Hc Ht. destruct c as [size|nmemb size| |alignment size| | |]; try done; injection Ht as <-; cbn in Hp.
  - eapply proc_ok_mono; [| |by apply alloc_proc_ok]; [by do 6 constructor|].
    intros r g [|(f & ? & ? & ? & ? & _)]; [by left|right]. by exists f.
  - destruct Hp. by apply calloc_proc_ok.
  - destruct Hp. by apply memalign_proc_ok.
Qed.

(** A thread enters the shared state with its own errno and arena. *)
Lemma enter_ok rest B G pl i :
  shared_state rest B G (shared pl) -> arenas_ok pl ->
  exists m, thread_state (others_memory rest G i) (others_blocks B G i) (G i) (fst (enter_thread i pl)) m (snd (enter_thread i pl)) /\
    mem (snd (enter_thread i pl)) = mem (snd (shared pl)).
Proof.
  intros [m Hs] Ha. exists m. specialize (Hs i). destruct (Ha i) as [H0 H1]. unfold enter_thread. destruct (shared pl) as [h w].
  cbn [fst snd] in *. split; [|done].
  destruct (ts_same _ _ _ _ _ w (World _ (kern w) (mem w) (snd (local_state pl i))) Hs) as [Hs' _]; [done|reflexivity|].
  eapply ts_arena; [exact Hs'| |done]. apply heap_ok_arena; [apply Hs'|done| |done].
  by destruct (ho_arena _ _ _ _ (ts_heap _ _ _ _ _ _ Hs')) as (_ & ? & _).
Qed.

Lemma leave_ok rest F g h m w pl i :
  thread_state rest F g h m w -> arenas_ok pl -> arenas_ok (leave_thread i (h, w) pl).
Proof.
  intros Hs Ha j. unfold local_state, leave_thread. cbn. destruct (decide (j = i)) as [->|Hne].
  - rewrite lookup_insert_eq. cbn. by destruct (ho_arena _ _ _ _ (ts_heap _ _ _ _ _ _ Hs)) as (? & _ & ?).
  - rewrite lookup_insert_ne by done. apply Ha.
Qed.

(** Thread [i] does something on the shared state. *)
Lemma wp_in_thread {A} rest B G pl i (mt : AM (R := R) A) (Q : A -> pool R -> Prop) E :
  shared_state rest B G (shared pl) -> arenas_ok pl ->
  (forall m s, thread_state (others_memory rest G i) (others_blocks B G i) (G i) (fst s) m (snd s) ->
     wp mt (fun a s' => exists g' m', thread_state (others_memory rest G i) (others_blocks B G i) g' (fst s') m' (snd s') /\
       same_on (others_memory rest G i) (snd s) (snd s') /\
       (shared_state rest B (with_ghost i g' G) s' -> arenas_ok (leave_thread i s' pl) -> Q a (leave_thread i s' pl))) E s) ->
  wp (in_thread i mt) Q E pl.
Proof.
  intros Hs Ha Hm. destruct (enter_ok rest B G pl i Hs Ha) as (m & Hi & Hmem). apply wp_zoom.
  eapply wp_conseq; [by eapply Hm|]. intros a [h' w'] (g' & m' & Hi' & Hsame & HQ). apply HQ; [|by eapply leave_ok].
  eapply shared_step; [exact Hs|exact Hi'|]. intros x Hx. rewrite Hsame by done. by rewrite Hmem.
Qed.

(** ** Moves *)

Definition moved rest B T (mv : move) (r : option Z) pl' : Prop :=
  exists B' T', conc_step B T mv r B' T' /\ pool_ok rest B' T' pl'.

(** Thread [i] is in another state, and the others are where they were. *)
Lemma threads_update (f : option (proc R) -> option (call * nat) -> ghost -> Prop) i t c g G (P : nat -> option (proc R)) (C : nat -> option (call * nat))
    (P' : nat -> option (proc R)) (C' : nat -> option (call * nat)) :
  (forall j, f (P j) (C j) (G j)) -> f t c g -> P' i = t -> C' i = c -> (forall j, j <> i -> P' j = P j /\ C' j = C j) ->
  forall j, f (P' j) (C' j) (with_ghost i g G j).
Proof.
  intros Hall Hi <- <- Hne j. unfold with_ghost. case_decide as Hj; [by subst|]. by destruct (Hne j Hj) as [-> ->].
Qed.

Ltac others := intros ? ?; cbn; split; first [by rewrite lookup_insert_ne by done|by rewrite lookup_delete_ne by done].

(** An idle thread holds nothing. *)
Lemma idle_thread G pl T i :
  (forall j, thread_ok (running pl !! j) (T !! j) (G j)) -> T !! i = None -> running pl !! i = None /\ G i = nothing.
Proof. intros Hall Hi. specialize (Hall i). rewrite Hi in Hall. unfold thread_ok in Hall. by destruct (running pl !! i). Qed.

Lemma move_request rest B T pl i c :
  pool_ok rest B T pl -> T !! i = None -> permitted B c -> is_request c = true ->
  wp (run_move pthread_atfork (Invoke i c)) (moved rest B T (Invoke i c)) system_halts pl.
Proof.
  intros (G & Hs & Ha & Hall) Hi Hp Hc. destruct (idle_thread G pl T i Hall Hi) as [Hrun Hg].
  apply wp_bind, wp_gets. rewrite Hrun. destruct (call_proc pthread_atfork c) as [t|] eqn:Ht; [|by destruct c].
  apply wp_bind, wp_modify, wp_ret. exists B, (<[i := (c, max_sections)]> T). split; [by apply ConcRequest|]. exists G.
  split; [exact Hs|]. split; [exact Ha|]. intros j. cbn. destruct (decide (j = i)) as [->|Hne].
  - rewrite !lookup_insert_eq, Hg. by apply (request_ok B).
  - rewrite !lookup_insert_ne by done. apply Hall.
Qed.

Lemma move_free rest B T pl i p :
  pool_ok rest B T pl -> T !! i = None -> permitted B (Free p) ->
  wp (run_move pthread_atfork (Invoke i (Free p))) (moved rest B T (Invoke i (Free p))) system_halts pl.
Proof.
  intros (G & Hs & Ha & Hall) Hi Hp. destruct (idle_thread G pl T i Hall Hi) as [Hrun Hg].
  apply wp_bind, wp_gets. rewrite Hrun. cbn [call_proc]. apply wp_bind, wp_modify, wp_ret. destruct Hp as [->|[[n f] Hp]].
  - exists B, (<[i := (Free 0, max_sections)]> T). split; [apply ConcFree; [done|apply FreeNull]|]. exists G. split; [exact Hs|]. split; [exact Ha|].
    intros j. cbn. destruct (decide (j = i)) as [->|Hne]; [by rewrite !lookup_insert_eq, Hg|]. rewrite !lookup_insert_ne by done. apply Hall.
  - exists (delete p B), (<[i := (Free p, max_sections)]> T). split; [by apply ConcFree; [|apply FreeBlock; eexists]|].
    exists (with_ghost i (owns p n f) G). split; [by apply take_block|]. split; [exact Ha|].
    eapply (threads_update thread_ok); [exact Hall| |apply lookup_insert_eq..|others]. apply free_proc_ok.
    destruct Hs as [m Hs]. destruct (ts_frame _ _ _ _ _ _ (Hs i) p n f) as [(k & Hb & _) _]; [by left|].
    by eapply block_pos; [apply (Hs i)|].
Qed.

Lemma move_access rest B T pl i c :
  pool_ok rest B T pl -> T !! i = None -> permitted B c -> is_access c = true ->
  wp (run_move pthread_atfork (Invoke i c)) (moved rest B T (Invoke i c)) system_halts pl.
Proof.
  intros (G & Hs & Ha & Hall) Hi Hp Hc. destruct (idle_thread G pl T i Hall Hi) as [Hrun Hg].
  apply wp_bind, wp_gets. rewrite Hrun. destruct c as [| | | | |p j v|p j]; try done; cbn [call_proc is_access];
    destruct Hp as (n & f & Hp & Hj); apply wp_bind.
  - pose proof (take_block rest B G i p n f _ Hs Hg Hp) as Ht. set (G1 := with_ghost i (owns p n f) G) in *.
    assert (HG1 : G1 i = owns p n f) by (unfold G1, with_ghost; by rewrite decide_True).
    apply (wp_in_thread rest (delete p B) G1); [done|done|]. intros m [h w] Hst. rewrite HG1 in Hst. cbn [fst snd] in *.
    unfold run_call. apply wp_bind, wp_gets, wp_bind, wp_on_world, wp_modify, wp_ret. cbn [fst snd].
    set (f' := fun x => if j =? x then v else f x). exists (owns p n f'), m.
    destruct (ts_write _ _ p n f f' h m w (World _ (kern w) (mem w).[p + j <- v] (errno w)) Hst eq_refl) as [Hst' Hsame].
    + intros a Hout. cbn. apply aget_aset_ne. lia.
    + intros x Hx. unfold f'. cbn. destruct (ts_own _ _ _ _ _ _ Hst p n f) as (y & _ & _ & Hf); [apply lookup_singleton_eq|].
      destruct (Z.eqb_spec j x) as [->|Hne]; [by rewrite aget_aset|]. rewrite aget_aset_ne by lia. by apply Hf.
    + split; [done|]. split; [done|]. intros Hs' Ha'. apply wp_ret. exists (<[p := (n, f')]> B), T. split; [apply ConcAccess; [done..|by eapply StoreByte]|].
      exists (with_ghost i nothing (with_ghost i (owns p n f') G1)). split; [|split; [exact Ha'|]].
      * rewrite <- insert_delete_eq. apply give_block; [done|]. unfold with_ghost. by rewrite decide_True.
      * intros k. unfold G1, with_ghost. cbn. case_decide as Hk; [|apply Hall]. subst k. by rewrite Hrun, Hi.
  - apply (wp_in_thread rest B G); [done|done|]. intros m [h w] Hst. cbn [fst snd] in *. apply wp_gets. exists (G i), m. cbn [fst snd].
    split; [done|]. split; [done|]. intros Hs' Ha'. apply wp_ret. exists B, T. split.
    + apply ConcAccess; [done..|]. destruct (ts_frame _ _ _ _ _ _ Hst p n f) as [(y & _ & _ & Hf) _]; [by left|]. rewrite Hf by done. by eapply LoadByte.
    + exists (with_ghost i (G i) G). split; [done|]. split; [done|]. intros k. unfold with_ghost. cbn. case_decide; [subst k|]; apply Hall.
Qed.

(** A section of a call. *)
Lemma move_section rest B T pl i c n mt :
  pool_ok rest B T pl -> T !! i = Some (c, n) -> running pl !! i = Some (Atomic mt) ->
  wp (run_move pthread_atfork (Run i)) (moved rest B T (Run i)) system_halts pl.
Proof.
  intros (G & Hs & Ha & Hall) Hi Hrun. pose proof (Hall i) as Hok. rewrite Hrun, Hi in Hok. cbn in Hok.
  destruct n as [|n]; [done|]. cbn in Hok. apply wp_bind, wp_gets. rewrite Hrun. apply wp_bind.
  apply (wp_in_thread rest B G); [done|done|]. intros m [h w] Hst. eapply wp_conseq; [by eapply Hok|].
  intros t [h' w'] (g' & m' & Hst' & Hsame & Hok'). exists g', m'. split; [done|]. split; [done|]. intros Hs' Ha'.
  apply wp_bind, wp_modify, wp_ret. exists B, (<[i := (c, n)]> T). split; [by eapply ConcSection|].
  exists (with_ghost i g' G). split; [done|]. split; [done|].
  eapply (threads_update thread_ok); [exact Hall| |apply lookup_insert_eq..|others]. exact Hok'.
Qed.

(** The block that a call returns is new to the program. *)
Lemma returned_block rest B G i p n f s :
  shared_state rest B G s -> G i = owns p n f -> 0 < p -> (min_align | p) -> new_block B p n.
Proof.
  intros [m Hs] Hg Hp Hal. specialize (Hs i). rewrite Hg in Hs.
  assert (Hnew : forall q k x, B !! q = Some (k, x) -> holds (fst s) m (snd s) q k x /\ q <> p).
  { intros q k x Hq. destruct (ts_frame _ _ _ _ _ _ Hs q k x) as [Hh Hno]; [by left|]. split; [done|]. intros ->.
    cbn in Hno. by rewrite lookup_singleton_eq in Hno. }
  split; [done|done| |].
  - destruct (B !! p) as [[k x]|] eqn:E; [|done]. by destruct (Hnew p k x E).
  - intros q k x a Hq Ha Ha'. destruct (Hnew q k x Hq) as [(y & Hy & Hk & _) Hne].
    destruct (ts_own _ _ _ _ _ _ Hs p n f) as (z & Hz & Hn & _); [apply lookup_singleton_eq|].
    pose proof (ts_rest _ _ _ _ _ _ Hs) as Hh. pose proof (block_keeps_le _ _ _ _ _ _ Hh Hy). pose proof (block_keeps_le _ _ _ _ _ _ Hh Hz).
    apply Hne. eapply (blocks_disjoint _ (fst s) m (snd s) q y p z a Hh); (done || lia).
Qed.

Lemma idle_state rest B G i s : shared_state rest B G s -> G i = nothing -> shared_state rest B (with_ghost i nothing G) s.
Proof.
  intros [m Hs] Hg. exists m. intros j.
  assert (E : forall k, with_ghost i nothing G k = G k) by (intros k; unfold with_ghost; case_decide; [by subst|done]).
  rewrite E. eapply thread_state_ext; [apply (Hs j)|..].
  - intros a [|(k & Hk & Ha)]; [by left|right]. exists k. by rewrite <- (E k).
  - intros p x y [|(k & Hk & Hp)]; [by left|right]. exists k. by rewrite <- (E k).
Qed.

(** What a call that returns does to the blocks. *)
Lemma call_returns rest B G i c r s :
  shared_state rest B G s -> is_request c = true -> call_post c r (G i) ->
  exists B', abstract_step B c r B' /\ shared_state rest B' (with_ghost i nothing G) s.
Proof.
  intros Hs Hc Hpost.
  assert (Hnull : r = 0 /\ G i = nothing -> exists B', abstract_step B c r B' /\ shared_state rest B' (with_ghost i nothing G) s).
  { intros [-> Hg]. exists B. split; [destruct c; (done || constructor)|]. by apply idle_state. }
  assert (Hblock : forall req A zero, alloc_post req A zero r (G i) ->
    (forall f, new_block B r req -> A r -> (zero -> forall x, 0 <= x < req -> f x = 0) -> abstract_step B c r (<[r := (req, f)]> B)) ->
    exists B', abstract_step B c r B' /\ shared_state rest B' (with_ghost i nothing G) s).
  { intros req A zero [?|(f & Hg & Hr & Hal & HA & Hz)] Hstep; [by apply Hnull|]. exists (<[r := (req, f)]> B).
    split; [|by apply give_block]. apply Hstep; [by eapply returned_block|done|done]. }
  destruct c as [size|nmemb size| |alignment size| | |]; try done; cbn in Hpost.
  - eapply Hblock; [exact Hpost|]. intros f Hnb _ _. by apply MallocBlock.
  - destruct Hpost as [|[Hlt Hpost]]; [by apply Hnull|]. eapply Hblock; [exact Hpost|]. intros f Hnb _ Hz. apply CallocBlock; [done|done|by apply Hz].
  - destruct Hpost as [|(k & Hk & -> & Hpost)]; [by apply Hnull|]. eapply Hblock; [exact Hpost|]. intros f Hnb Hal _. by apply MemalignBlock.
Qed.

Lemma move_return rest B T pl i c n r :
  pool_ok rest B T pl -> T !! i = Some (c, n) -> running pl !! i = Some (Finished r) -> is_request c || is_free c = true ->
  wp (run_move pthread_atfork (Run i)) (moved rest B T (Run i)) system_halts pl.
Proof.
  intros (G & Hs & Ha & Hall) Hi Hrun Hc. pose proof (Hall i) as Hok. rewrite Hrun, Hi in Hok.
  assert (Hpost : call_post c r (G i)) by (by destruct n). apply wp_bind, wp_gets. rewrite Hrun. apply wp_bind, wp_modify, wp_ret.
  assert (Hnext : forall B', shared_state rest B' (with_ghost i nothing G) (shared pl) -> pool_ok rest B' (delete i T) (set_running (delete i) pl)).
  { intros B' Hs'. exists (with_ghost i nothing G). split; [exact Hs'|]. split; [exact Ha|].
    eapply (threads_update thread_ok); [exact Hall| |apply lookup_delete_eq..|others]. done. }
  destruct (is_request c) eqn:Hreq.
  - destruct (call_returns rest B G i c r _ Hs Hreq Hpost) as (B' & Hstep & Hs'). exists B', (delete i T).
    split; [by eapply ConcReturn|by apply Hnext].
  - destruct c; try done. destruct Hpost as [-> Hg]. exists B, (delete i T). split; [by eapply ConcReturnFree|]. apply Hnext.
  by apply idle_state.
Qed.

Lemma wp_run_move rest B T pl mv :
  pool_ok rest B T pl -> conc_permitted B T mv -> wp (run_move pthread_atfork mv) (moved rest B T mv) system_halts pl.
Proof.
  intros Hok Hp. destruct mv as [i c|i].
  - destruct Hp as (Hi & Hp & Hc). destruct (is_request c) eqn:Hr; [by apply move_request|]. destruct (is_free c) eqn:Hf.
    + destruct c; try done. by apply move_free.
    + by apply move_access.
  - destruct Hp as [[c n] Hi]. pose proof Hok as (G & _ & _ & Hall). pose proof (Hall i) as Ht. rewrite Hi in Ht. cbn in Ht.
    destruct (running pl !! i) as [[r|mt]|] eqn:Hrun; [|by eapply move_section|done].
    eapply move_return; [exact Hok|exact Hi|exact Hrun|]. destruct n; cbn in Ht; by destruct c.
Qed.

Lemma wp_run_system rest sys n hist B T pl :
  conc_legal sys -> conc_history sys hist B T -> pool_ok rest B T pl ->
  wp (run_system pthread_atfork sys n hist) (fun hist' pl' => exists B' T', conc_history sys hist' B' T' /\ pool_ok rest B' T' pl') system_halts pl.
Proof.
  intros Hlegal. revert hist B T pl. induction n as [|n IH]; intros hist B T pl Hh Hok; cbn [run_system]; [by apply wp_ret; exists B, T|].
  destruct (sys hist) as [mv|] eqn:Hmv; [|by apply wp_ret; exists B, T]. pose proof (Hlegal _ _ _ _ Hh Hmv) as Hp.
  apply wp_bind. eapply wp_conseq; [by apply (wp_run_move rest B T)|]. intros r pl' (B' & T' & Hstep & Hok').
  eapply IH; [|exact Hok']. by eapply ConcMove.
Qed.

(** The shared state without its threads. *)
Lemma pool_represents rest B T pl : pool_ok rest B T pl -> represents rest B (shared pl).
Proof.
  intros (G & [m Hs] & _). exists m. specialize (Hs O). split; [|split; [apply Hs|split; [apply Hs|]]].
  - eapply heap_ok_weaken; [apply Hs|]. by left; left.
  - intros p n f Hp. apply (ts_frame _ _ _ _ _ _ Hs). by left.
Qed.
End Views.

Lemma pool_start rest s :
  represents rest ∅ s -> @pool_ok (slab_region_start (fst s)) rest ∅ ∅ (Pool s ∅ ∅).
Proof.
  intros (m & Hh & Hg & Hc & _). exists (fun _ => nothing). split; [|split].
  - exists m. intros i. split; try done; cbn.
    + eapply heap_ok_weaken; [exact Hh|]. intros a [[Ha|(j & _ & q & [=] & _)]|(q & [=] & _)]. done.
    + by intros a _ (q & [=] & _).
    + lia.
    + intros p n f [Hp|(j & _ & Hp)]; destruct (lookup_empty_Some p (n, f) Hp).
  - intros i. unfold local_state. cbn [locals]. rewrite lookup_empty. cbn. unfold initial_arena. rewrite Z.gtb_ltb.
    destruct (Z.ltb_spec 1 N_ARENA); lia.
  - intros i. cbn. by rewrite !lookup_empty.
Qed.

(** ** The promise *)

(** C4: any number of threads, making malloc, calloc, posix_memalign, free, loads
    and stores under C's rules, interleaved in any way at the borders of the
    critical sections, behave as if every call took effect in one instant between
    its invocation and its return: the results are those of a sequential run on
    the abstract memory of disjoint blocks, every call returns after at most
    [max_sections] sections of its own, whatever the others do, no thread waits
    for a lock for ever, and nothing but the kernel or the random source stops
    the process. *)
Theorem threads_linearizable rest sys n s :
  conc_legal sys -> represents rest ∅ s ->
  wp (run_system pthread_atfork sys n [])
     (fun hist pl => exists B T, conc_history sys hist B T /\ sequential (linearize ∅ hist) B /\ represents rest B (shared pl))
     system_halts (Pool s ∅ ∅).
Proof.
  intros Hlegal Hs. eapply wp_conseq; [eapply wp_run_system; [exact Hlegal|constructor|by apply pool_start]|].
  intros hist pl (B & T & Hh & Hok). exists B, T. split; [exact Hh|]. split; [by eapply conc_history_linear|by eapply pool_represents].
Qed.
End Pool.

(** ** Witnesses *)

Section Witnesses.
#[local] Existing Instances default_config demo_platform.

(** Two threads that run in turns: one maps a large block while the other one
    takes a slot; the block that was returned first is then freed. *)
Definition demo_threads : system := fun hist =>
  let T := pending_calls ∅ hist in
  let i := Nat.modulo (length hist) 2 in
  match length hist with
  | O => Some (Invoke 0 (Malloc 300000))
  | Datatypes.S O => Some (Invoke 1 (Malloc 100))
  | _ =>
      match T !! i, T !! (1 - i)%nat with
      | Some _, _ => Some (Run i)
      | None, Some _ => Some (Run (1 - i)%nat)
      | None, None =>
          match linearize ∅ hist with
          | [(Malloc _, p); (Malloc _, _)] => if p =? 0 then None else Some (Invoke 1 (Free p))
          | _ => None
          end
      end
  end.

Lemma demo_idle sys hist B T i : conc_history sys hist B T -> pending_calls ∅ hist !! i = None -> T !! i = None.
Proof. intros Hh. rewrite (pending_calls_spec _ _ _ _ Hh), lookup_fmap. by destruct (T !! i). Qed.

Lemma demo_busy sys hist B T i c : conc_history sys hist B T -> pending_calls ∅ hist !! i = Some c -> is_Some (T !! i).
Proof. intros Hh. rewrite (pending_calls_spec _ _ _ _ Hh), lookup_fmap. destruct (T !! i); by eauto. Qed.

(** The first of two blocks is there. *)
Lemma demo_first n p k q B : sequential [(Malloc n, p); (Malloc k, q)] B -> p <> 0 -> is_Some (B !! p).
Proof.
  intros Hs Hp. inversion Hs as [|tr B1 c r B2 Hs1 Hq E]; subst; clear Hs. apply (app_inj_tail _ [_]) in E as [-> [= -> ->]].
  inversion Hs1 as [|tr B0 c r B2 Hs0 Hp1 E]; subst; clear Hs1. apply (app_inj_tail _ []) in E as [-> [= -> ->]].
  assert (Hin : is_Some (B1 !! p)) by (inversion Hp1; subst; [done|]; rewrite lookup_insert_eq; by eexists).
  inversion Hq; subst; [done|]. destruct (decide (q = p)) as [->|]; [rewrite lookup_insert_eq|rewrite lookup_insert_ne by done]; by eauto.
Qed.

Lemma demo_threads_legal : conc_legal demo_threads.
Proof.
  intros hist B T mv Hh Hmv. unfold demo_threads in Hmv. destruct hist as [|x [|y hist]].
  - injection Hmv as <-. split; [|by split]. by apply (demo_idle _ _ _ _ _ Hh).
  - injection Hmv as <-. split; [|by split]. apply (demo_idle _ _ _ _ _ Hh).
    inversion Hh as [|hist B0 T0 mv r B1 T1 H0 H1 H2 H3 E]; subst. apply (app_inj_tail _ []) in E as [-> <-]. injection H1 as <-.
    inversion H3; subst; (done || apply lookup_insert_ne; done).
  - cbn [length] in Hmv. set (i := (Datatypes.S (Datatypes.S (length hist)) mod 2)%nat) in Hmv. set (hist' := x :: y :: hist) in *.
    destruct (pending_calls ∅ hist' !! i) as [c|] eqn:E1; [injection Hmv as <-; by eapply demo_busy|].
    destruct (pending_calls ∅ hist' !! (1 - i)%nat) as [c|] eqn:E2; [injection Hmv as <-; by eapply demo_busy|].
    pose proof (conc_history_linear _ _ _ _ Hh) as Hl.
    destruct (linearize ∅ hist') as [|[[] p] [|[[] q] [|? ?]]]; try done.
    destruct (Z.eqb_spec p 0) as [|Hp]; [done|]. injection Hmv as <-. split; [|split; [right; by eapply demo_first|done]].
    assert (Hi : i = 0%nat \/ i = 1%nat) by (pose proof (Nat.mod_upper_bound (Datatypes.S (Datatypes.S (length hist))) 2); unfold i; lia).
    eapply demo_idle; [exact Hh|]. by destruct Hi as [E|E]; rewrite E in *.
Qed.

(** The run: fourteen moves, in which three calls take effect. *)
Lemma demo_threads_run :
  match run_system no_atfork demo_threads 30 [] (Pool (demo_heap, demo_heap_world) ∅ ∅) with
  | Ret hist _ => length hist = 14%nat /\ length (linearize ∅ hist) = 3%nat
  | Halt _ => False
  end.
Proof. by vm_compute. Qed.

Lemma threads_linearizable_witness :
  wp (run_system no_atfork demo_threads 30 [])
     (fun hist pl => exists B T, conc_history demo_threads hist B T /\ sequential (linearize ∅ hist) B /\
        represents demo_rest B (shared pl))
     system_halts (Pool (demo_heap, demo_heap_world) ∅ ∅).
Proof.
  destruct demo_heap_ok as (m & Hh & Hg & Hc).
  assert (Hrep : represents demo_rest ∅ (demo_heap, demo_heap_world)).
  { exists m. split; [exact Hh|]. split; [exact Hg|]. split; [intros _; exact Hc|]. by intros p n f []%lookup_empty_Some. }
  exact (threads_linearizable no_atfork demo_rest demo_threads 30 (demo_heap, demo_heap_world) demo_threads_legal Hrep).
Defined.
End Witnesses.
