(* ===== verification/TrimSpec.v ===== *)
(** What malloc_trim promises: the memory of cached empty slabs and of quarantined
    slots goes back to the kernel, and no allocation changes. *)

From S2P Require Import Prelude Config Util Libdivide SizeClass Kernel Maps RandomSource SlabMeta Slab SlabLists SlabHeap SlabInv SlabRegion SlabAlloc SlabQuarantine SlabRelease SlabFree SlabCanary SlabMaps Regions Large LargeInv Allocator Malloc AllocatorInv AllocatorAlloc AllocatorFree InitSpec.

(** ** One size class *)

Section Class.
Context {Cfg : Config} {Cok : ConfigOk Cfg} {K : Kernel} {Kok : KernelOk K} {R : Type}.
Context `{!RandomSource R} `{!RandomSourceOk R}.
Implicit Types (c : size_class R) (w : world).

(** While the loop runs the head of the list of empty slabs is stale; no step
    looks at it. *)
Lemma enqueue_stale_head i x c w :
  enqueue_free_slab i (set_empty_slabs x c, w) =
    match enqueue_free_slab i (c, w) with
    | Ret a (c', w') => Ret a (set_empty_slabs x c', w')
    | Halt e => Halt e
    end.
Proof.
  unfold enqueue_free_slab, append_free_slab, update_meta, modify_class, with_rng, get_class, bind, gets, modify, zoom, ret.
  destruct c; cbn. repeat (case_match; cbn in *; simplify_eq; try done).
Qed.

Lemma wp_enqueue_stale class c w P E F i x (Q : unit -> size_class R * world -> Prop) :
  class_body class (set_empty_slabs x c) P E F None -> unlisted (slab_limit c) (heap_of (set_empty_slabs x c)) P E F i ->
  (forall c' w' F', static_eq c c' -> slots_unchanged c c' -> mem w' = mem w ->
     class_body class (set_empty_slabs x c') P E F' None -> Q tt (c', w')) ->
  wp (enqueue_free_slab i) Q system_halts (c, w).
Proof.
  intros Hb Hu HQ. unfold wp. pose proof (enqueue_stale_head i x c w) as Er.
  pose proof (wp_enqueue_free_slab class (set_empty_slabs x c) w P E F i (fun _ s' => exists F', static_eq c (fst s') /\
    slots_unchanged c (fst s') /\ mem (snd s') = mem w /\ class_body class (fst s') P E F' None) Hb Hu) as Hw.
  assert (Hw' : wp (enqueue_free_slab i) (fun _ s' => exists F', static_eq c (fst s') /\
    slots_unchanged c (fst s') /\ mem (snd s') = mem w /\ class_body class (fst s') P E F' None) system_halts (set_empty_slabs x c, w)).
  { apply Hw. intros c' w' F' Hst Hun Hm Hb'. exists F'. split; [by destruct Hst|]. split; [exact Hun|done]. }
  unfold wp in Hw'. rewrite Er in Hw'. destruct (enqueue_free_slab i (c, w)) as [[] [c' w']|e]; [|done].
  destruct Hw' as (F' & Hst & Hun & Hm & Hb'). cbn [fst snd] in *. apply (HQ c' w' F'); [by destruct Hst|exact Hun|done|done].
Qed.

(** ** The memory *)

Lemma live_memory_refl c w w' : mem w' = mem w -> live_memory c c w w'.
Proof. intros Hm. unfold live_memory, only_changes, same_or_zero. rewrite Hm. by split_and!; [|intros a _|left]. Qed.

Lemma live_memory_trans c w1 w2 w3 : live_memory c c w1 w2 -> live_memory c c w2 w3 -> live_memory c c w1 w3.
Proof.
  intros (Hl & Ho & Hz) (Hl' & Ho' & Hz'). split_and!.
  - intros j t a Ht Hlive Ha. rewrite (Hl' j t a), (Hl j t a); done.
  - intros a Ha. by rewrite (Ho' a), (Ho a).
  - intros a. destruct (Hz' a) as [->|]; [apply Hz|by right].
Qed.

(** An unused slab goes. *)
Lemma unused_slab_memory class c w w' P E F k :
  class_body class c P E F None -> 0 <= k < get_metadata_max (slab_size c) ->
  (forall t, 0 <= t -> is_used_slot (slab_info c).[k] t = false) ->
  let slab := class_region_start c + k * slab_size c in
  zero_in slab (slab_size c) (mem w') -> same_outside slab (slab_size c) (mem w) (mem w') -> live_memory c c w w'.
Proof.
  intros Hb Hk Hun slab Hz Ho. pose proof (cb_geometry _ _ _ _ _ _ Hb) as Hg.
  pose proof (gf_slots _ (slab_geometry_facts class c Hg)) as Hn.
  assert (Hdead : live c k 0 = false) by (unfold live; rewrite Hun by lia; done).
  assert (Hclr : cleared_slot c true (slot_address c k 0) w w) by (split; [by intros a _|split; [by left|by intros _ ?]]).
  apply (freed_memory class c c w w w' P E F k 0 k true Hb); try done; [lia|]. right. by split_and!.
Qed.

(** A dead slot goes. *)
Lemma dead_slot_memory class c w w' P E F i s :
  class_body class c P E F None -> 0 <= i < get_metadata_max (slab_size c) -> 0 <= s < slots c -> live c i s = false ->
  zero_in (slot_address c i s) (size c) (mem w') -> only_changes (slot_address c i s) (size c) (mem w) (mem w') ->
  live_memory c c w w'.
Proof.
  intros Hb Hi Hs Hdead Hz Ho. pose proof (cb_geometry _ _ _ _ _ _ Hb) as Hg. split_and!.
  - intros j t a Ht Hl Ha. apply Ho. pose proof Hl as Hu. unfold live in Hu. apply andb_true_iff in Hu as [Hu _].
    destruct (used_known class c P E F None j t Hb Ht Hu) as [Hj Ht'].
    destruct (slot_address_disjoint class c i s j t Hg); try lia. intros [= -> ->]. congruence.
  - intros a Ha. apply Ho. destruct (slot_address_bound class c Hg i s Hi Hs). lia.
  - intros a. destruct (decide (slot_address c i s <= a < slot_address c i s + size c)); [right; by apply Hz|left; apply Ho; lia].
Qed.

Lemma live_unchanged c c1 j t : slots_unchanged c c1 -> 0 <= t -> live c1 j t = live c j t.
Proof. intros Hun Ht. unfold live. by destruct (Hun j t Ht) as [-> ->]. Qed.

Lemma live_memory_same c c1 w w' :
  static_eq c c1 -> slots_unchanged c c1 -> live_memory c1 c1 w w' -> live_memory c c w w'.
Proof.
  intros Hst Hun (Hl & Ho & Hz). split_and!; [|by rewrite <- (se_start _ _ Hst)|done].
  intros j t a Ht Hlive Ha. apply (Hl j t); [done|by rewrite (live_unchanged c)|].
  by rewrite (slot_address_static c c1), (se_size _ _ Hst).
Qed.

(** Nothing a client can see changed from [c], [w] to the state [s]. *)
Definition trimmed c w (s : size_class R * world) : Prop :=
  static_eq c (fst s) /\ slots_unchanged c (fst s) /\ live_memory c c w (snd s).

Lemma static_trans c1 c2 c3 : static_eq c1 c2 -> static_eq c2 c3 -> static_eq c1 c3.
Proof. intros [] []. split; congruence. Qed.

Lemma trimmed_refl c c' w w' : core_eq c c' -> mem w' = mem w -> trimmed c w (c', w').
Proof.
  intros [] Hm. split; [by split|]. split; [|by apply live_memory_refl].
  intros j t _. cbn [fst]. by rewrite ce_info.
Qed.

Lemma trimmed_trans c1 w1 c2 w2 s : trimmed c1 w1 (c2, w2) -> trimmed c2 w2 s -> trimmed c1 w1 s.
Proof.
  intros (Hst & Hun & Hm) (Hst' & Hun' & Hm'). cbn [fst snd] in *. split; [by eapply static_trans|]. split.
  - intros j t Ht. destruct (Hun' j t Ht) as [-> ->]. by apply Hun.
  - eapply live_memory_trans; [exact Hm|by eapply live_memory_same].
Qed.

(** ** The cached empty slabs *)

(** One slab goes: the state before enqueueing it. *)
Lemma popped_stale class c t P E F n :
  class_body class (set_empty_slabs (Some t) c) P E F None -> n = slab_size c ->
  let c1 := set_empty_slabs_total (u64 (empty_slabs_total c - n)) c in
  exists E', E = t :: E' /\ class_body class (set_empty_slabs (next (slab_info c).[t]) c1) P E' F None /\
    unlisted (slab_limit c1) (heap_of (set_empty_slabs (next (slab_info c).[t]) c1)) P E' F t.
Proof.
  intros Hb -> c1. pose proof (hi_empty_head _ _ _ _ _ _ (cb_heap _ _ _ _ _ _ Hb)) as Hhd. cbn in Hhd.
  destruct E as [|t' E']; [done|]. injection Hhd as <-. exists E'. split; [done|].
  destruct (popped_empty_body _ _ _ _ _ _ _ Hb) as [Hb1 Hu1]. by destruct c.
Qed.

(** The slabs [l] are zero: they went back to the kernel. *)
Definition handed_back c (l : list Z) w : Prop :=
  forall i, i ∈ l -> zero_in (class_region_start c + i * slab_size c) (slab_size c) (mem w).

Lemma handed_back_later c l w w' : same_or_zero (mem w) (mem w') -> handed_back c l w -> handed_back c l w'.
Proof. intros Hs Hg i Hi a Ha. destruct (Hs a) as [->|]; [by apply (Hg i Hi)|done]. Qed.

(** Of the cached slabs [E] some [k] went, and the rest only stayed because the
    kernel was out of memory. *)
Definition trim_result c (E k E' : list Z) (b r : bool) w' : Prop :=
  E = k ++ E' /\ r = b || negb (bool_decide (k = [])) /\ (E' = [] \/ errno w' = ENOMEM) /\ handed_back c k w'.

Lemma trim_result_none c E b w' : E = [] \/ errno w' = ENOMEM -> trim_result c E [] E b b w'.
Proof. intros He. split; [done|]. split; [by rewrite orb_false_r|]. split; [done|]. by intros i ?%elem_of_nil. Qed.

Lemma trim_result_cons c c' t E k E' b r w w' :
  static_eq c c' -> handed_back c [t] w -> same_or_zero (mem w) (mem w') -> trim_result c' E k E' true r w' ->
  trim_result c (t :: E) (t :: k) E' b r w'.
Proof.
  intros Hst Ht Hz (-> & -> & He & Hg). split; [done|]. split; [by rewrite orb_true_r|]. split; [done|].
  intros i [->|Hi]%elem_of_cons.
  - apply (handed_back_later c [t] w w' Hz Ht), list_elem_of_here.
  - rewrite <- (se_start _ _ Hst), <- (se_slab_size _ _ Hst). by apply Hg.
Qed.

Lemma wp_trim_loop class fuel it b c w P E F :
  class_body class (set_empty_slabs it c) P E F None -> (length E < fuel)%nat ->
  wp (trim_loop fuel class (slab_size c) it b)
     (fun r s' => trimmed c w s' /\ exists k E' F', trim_result c E k E' b (snd r) (snd s') /\
        class_body class (set_empty_slabs (fst r) (fst s')) P E' F' None)
     system_halts (c, w).
Proof.
  revert it b c w E F. induction fuel as [|fuel IH]; intros it b c w E F Hb Hf; [lia|].
  pose proof (cb_geometry _ _ _ _ _ _ Hb) as Hg. cbn [trim_loop].
  destruct it as [t|]; cbn [trim_loop].
  2: { apply wp_ret. split; [by apply trimmed_refl|]. exists [], E, F. split; [|done]. apply trim_result_none. left.
       pose proof (hi_empty_head _ _ _ _ _ _ (cb_heap _ _ _ _ _ _ Hb)) as Hhd. by destruct E. }
  destruct (popped_stale class c t P E F (slab_size c) Hb eq_refl) as (E' & -> & Hb1 & Hu1).
  pose proof (slab_geometry_facts class _ Hg) as Hgf. pose proof (ul_known _ _ _ _ _ _ Hu1) as Hk.
  pose proof (known_max class _ P _ F None t Hb Hk : 0 <= t < get_metadata_max (slab_size c)) as Himax.
  assert (Hn : 0 < slab_size c <= 2 ^ 63) by (destruct Hgf; cbn in *; split; nia).
  assert (Hget : get_slab c (slab_size c) t = class_region_start c + t * slab_size c) by apply (get_slab_eq class (set_empty_slabs (Some t) c) Hg t Himax).
  do 2 sc_step. rewrite Hget.
  apply wp_bind, wp_on_world. cbn [fst snd].
  eapply (wp_mono _ _ _ memory_fatal); [by apply wp_memory_map_fixed_prot| |by right].
  intros mapfail w1 Hcl. destruct mapfail; cbn [cleared] in *.
  { apply wp_ret. split; [apply trimmed_refl; [done|apply Hcl]|]. exists [], (t :: E'), F. split; [|done].
    apply trim_result_none. right. apply Hcl. }
  apply wp_bind, wp_on_world. cbn [fst snd]. unfold label_slab. apply wp_bind.
  eapply wp_conseq; [apply wp_memory_set_name|]. intros b0 w2 Hw2. cbn beta in Hw2. apply wp_ret.
  apply wp_bind, wp_stats_slab_deallocate. intros c1 Hc1 _. cbn [fst snd].
  assert (Hbc : class_body class (set_empty_slabs (Some t) c1) P (t :: E') F None)
    by (eapply core_eq_body; [|exact Hb]; destruct Hc1; by split).
  destruct (popped_stale class c1 t P (t :: E') F (slab_size c) Hbc) as (E1 & [= <-] & Hb2 & Hu2);
    [by rewrite (ce_slab_size _ _ Hc1)|].
  repeat sc_step. set (c2 := set_empty_slabs_total _ c1) in *.
  apply wp_bind, (wp_enqueue_stale class c2 w2 P E' F t _ _ Hb2 Hu2).
  intros c3 w3 F3 Hst Hun Hw3 Hb3.
  assert (Hsz : slab_size c3 = slab_size c) by (rewrite (se_slab_size _ _ Hst); apply Hc1). rewrite <- Hsz.
  eapply wp_conseq; [apply (IH _ true c3 w3 E' F3 Hb3); cbn in Hf; lia|].
  assert (Hst3 : static_eq c c3) by (destruct Hst, Hc1; split; cbn in *; congruence).
  assert (Hz3 : zero_in (class_region_start c + t * slab_size c) (slab_size c) (mem w3)) by (rewrite Hw3, Hw2; apply Hcl).
  intros r s' [Htr (k & E'' & F'' & Hres & Hbody)]. split.
  - eapply trimmed_trans; [|exact Htr]. split; [done|]. split.
    + intros j x Hj. cbn [fst]. destruct (Hun j x Hj) as [-> ->]. cbn. by rewrite (ce_info _ _ Hc1).
    + cbn [snd]. apply (unused_slab_memory class (set_empty_slabs (Some t) c) w w3 P (t :: E') F t Hb Himax); [|done|rewrite Hw3, Hw2; apply Hcl].
      intros x Hx. apply (unlisted_unused class _ P E' F t x Hb1 Hu1 Hx).
  - exists (t :: k), E'', F''. split; [|done]. apply (trim_result_cons c c3 t E' k E'' b (snd r) w3); [done| |apply Htr|done].
    by intros i ->%list_elem_of_singleton.
Qed.

(** ** The quarantine *)

(** Slots of the extended size classes are whole pages. *)
Lemma extended_size_pages class :
  0 <= class < N_SIZE_CLASSES -> min_extended_size_class <= slot_size class -> (PAGE_SIZE | slot_size class).
Proof.
  intros Hc. rewrite PAGE_SIZE_eq. intros Hm. apply Z.mod_divide; [lia|].
  assert (Hall : forallb (fun k => implb (min_extended_size_class <=? slot_size k) (slot_size k mod 4096 =? 0))
    (seqZ 0 N_SIZE_CLASSES) = true).
  { unfold N_SIZE_CLASSES, slot_size, size_classes_at, size_classes, max_slab_size_class.
    by destruct CONFIG_EXTENDED_SIZE_CLASSES; vm_compute. }
  pose proof (forallb_seqZ _ _ _ Hall class ltac:(lia)) as H. cbv beta in H.
  rewrite (proj2 (Z.leb_le _ _) Hm) in H. by apply Z.eqb_eq.
Qed.

Lemma purged_slot class c w w' P E F p b :
  class_body class c P E F None -> (PAGE_SIZE | size c) -> quarantined c p -> cleared p (size c) w b w' ->
  live_memory c c w w'.
Proof.
  intros Hb Hpg (i & s & Hi & Hs & -> & Hq) Hc. destruct b; cbn in Hc; [by apply live_memory_refl, Hc|].
  destruct Hc as [Hz Ho]. pose proof (known_max class c P E F None i Hb Hi) as Himax.
  apply (dead_slot_memory class c w w' P E F i s Hb Himax Hs); [|exact Hz|].
  - unfold live. by rewrite Hq, andb_false_r.
  - intros a Ha. apply Ho. pose proof (slab_geometry_facts class c (cb_geometry _ _ _ _ _ _ Hb)) as [].
    rewrite page_align_multiple; [done|lia|done].
Qed.

(** A purge sets errno to ENOMEM or leaves it. *)
Lemma purge_errno p n w :
  wp (memory_purge p n) (fun _ w' => errno w = ENOMEM -> errno w' = ENOMEM) (fun _ => True) w.
Proof.
  eapply (wp_mono _ _ _ memory_fatal); [|by intros a s' H; exact H|done]. apply wp_flagged; [unfold memory_fatal; rewrite !elem_of_cons; tauto|]. unfold wp, syscall.
  by destruct (sys_madvise_dontneed _ _ _) as [[q|e] [k m]]; cbn; [|intros He _; apply He].
Qed.

Definition purged c w (s : size_class R * world) : Prop :=
  fst s = c /\ live_memory c c w (snd s) /\ (errno w = ENOMEM -> errno (snd s) = ENOMEM).

Lemma purged_refl c w : purged c w (c, w).
Proof. split; [done|]. split; [by apply live_memory_refl|done]. Qed.

Lemma purged_trans c w w1 s : live_memory c c w w1 -> (errno w = ENOMEM -> errno w1 = ENOMEM) -> purged c w1 s -> purged c w s.
Proof. intros Hm He (Hc & Hm' & He'). split; [done|]. split; [by eapply live_memory_trans|auto]. Qed.

Lemma wp_purge_quarantine class c w P E F b cells l :
  class_body class c P E F None -> (PAGE_SIZE | size c) -> (forall k, cells.[k] = qcell c b k) ->
  wp (purge_quarantine (size c) cells l) (fun _ => purged c w) system_halts (c, w).
Proof.
  intros Hb Hpg Hcell. revert w. induction l as [|i l IH]; intros w; cbn [purge_quarantine].
  { apply wp_ret, purged_refl. }
  apply wp_bind. rewrite Hcell. destruct (Z.eqb_spec (qcell c b i) 0) as [|Hnz]; cbn [negb].
  { apply wp_ret, IH. }
  apply wp_bind, wp_on_world. cbn [fst snd].
  pose proof (slab_geometry_facts class c (cb_geometry _ _ _ _ _ _ Hb)) as Hgf.
  eapply (wp_mono _ _ _ memory_fatal);
    [apply wp_both; [apply wp_memory_purge; destruct Hgf; lia|apply purge_errno]| |by right].
  intros f w1 [Hw1 He]. apply wp_ret. eapply wp_conseq; [apply IH|].
  intros ? s'. apply purged_trans; [|done].
  eapply purged_slot; [done..| |exact Hw1]. by apply (qi_cells _ _ (cb_quarantine _ _ _ _ _ _ Hb)).
Qed.

(** ** The whole class *)

Lemma wp_purge_quarantines class c w P E F :
  class_body class c P E F None -> (PAGE_SIZE | size c) ->
  wp ((if 0 <? SLAB_QUARANTINE_RANDOM_LENGTH
       then purge_quarantine (size c) (quarantine_random c) (seqZ 0 (quarantine_length SLAB_QUARANTINE_RANDOM_LENGTH (size c)))
       else ret tt) ;;;
      (if 0 <? SLAB_QUARANTINE_QUEUE_LENGTH
       then purge_quarantine (size c) (quarantine_queue c) (seqZ 0 (quarantine_length SLAB_QUARANTINE_QUEUE_LENGTH (size c)))
       else ret tt))
     (fun _ => purged c w) system_halts (c, w).
Proof.
  intros Hb Hpg.
  assert (Hone : forall w (f b : bool) cells l, (forall k, cells.[k] = qcell c b k) ->
    wp (if f then purge_quarantine (size c) cells l else ret tt) (fun _ => purged c w) system_halts (c, w)).
  { intros w1 [] b cells l Hcell; [by apply (wp_purge_quarantine class c w1 P E F b)|apply wp_ret, purged_refl]. }
  apply wp_bind. eapply wp_conseq; [by apply (Hone w _ true)|]. intros _ [c1 w1] (Hc1 & Hm1 & He1). cbn [fst snd] in *. subst c1.
  eapply wp_conseq; [by apply (Hone w1 _ false)|]. intros ? s'. by apply purged_trans.
Qed.

Lemma wp_trim_class class c w P E F :
  class_inv class c P E F ->
  wp (trim_class class)
     (fun b s' => trimmed c w s' /\
        exists k E' F', trim_result c E k E' false b (snd s') /\ class_inv class (fst s') P E' F')
     system_halts (c, w).
Proof.
  intros [Hlock Hb]. unfold trim_class. do 3 sc_step. unfold mutex_lock. sc_step. sc_step. rewrite Hlock. do 3 sc_step.
  set (c0 := set_lock true c).
  assert (Hb0 : class_body class (set_empty_slabs (empty_slabs c) c0) P E F None)
    by (eapply core_eq_body; [|exact Hb]; by destruct c).
  apply wp_bind. eapply wp_conseq; [apply (wp_trim_loop class _ (empty_slabs c) false c0 w P E F Hb0)|].
  { pose proof (empty_count_bound _ _ _ _ _ _ Hb) as Hcnt. unfold slab_limit in Hcnt. cbn. lia. }
  intros [it b] [c1 w1] [Htr (k & E1 & F1 & Hres & Hb1)]. cbn [fst snd] in *. do 2 sc_step. set (c2 := set_empty_slabs it c1) in *.
  assert (Hsz : size c2 = slot_size class) by (rewrite (cg_size _ _ (cb_geometry _ _ _ _ _ _ Hb1)); done).
  assert (Htr2 : trimmed c w (c2, w1)).
  { apply (trimmed_trans c w c0 w); [apply trimmed_refl; [by destruct c|done]|]. apply (trimmed_trans c0 w c1 w1); [done|].
    split; [by split|]. split; [by intros j t|by apply live_memory_refl]. }
  apply wp_bind. apply (wp_conseq _ (fun _ => purged c2 w1)).
  - wp_step; [|apply wp_ret, purged_refl]. apply wp_bind, wp_gets. cbn [fst].
    wp_step; [|apply wp_ret, purged_refl]. eapply (wp_purge_quarantines class c2 w1); [exact Hb1|].
    rewrite Hsz. apply extended_size_pages; [apply (cb_geometry _ _ _ _ _ _ Hb1)|]. rewrite <- Hsz. lia.
  - intros _ [c3 w3] (Hc3 & Hm3 & He3). cbn [fst snd] in *. subst c3. repeat sc_step. split.
    + apply (trimmed_trans c w c2 w1 _ Htr2). split; [by split|]. split; [by intros j t|done].
    + exists k, E1, F1. split; [|by apply class_body_inv]. destruct Hres as (-> & -> & Hnm & Hg).
      split; [done|]. split; [done|]. split; [tauto|]. eapply handed_back_later; [apply Hm3|exact Hg].
Qed.

(** Trimming takes no mapping away and touches no canary value. *)
#[export] Instance keeps_trim_loop fuel class n it b : KeepsMaps (trim_loop (R := R) fuel class n it b).
Proof. revert it b. induction fuel as [|fuel IH]; intros it b; cbn [trim_loop]; [apply _|]. keeps. Qed.
#[export] Instance keeps_purge_quarantine n cells l : KeepsMaps (purge_quarantine (R := R) n cells l).
Proof. induction l as [|i l IH]; cbn [purge_quarantine]; keeps. Qed.
#[export] Instance keeps_trim_class class : KeepsMaps (trim_class (R := R) class).
Proof. unfold trim_class. keeps. Qed.

#[export] Instance canary_trim_loop fuel class n it b : KeepsCanary None (trim_loop (R := R) fuel class n it b).
Proof. revert it b. induction fuel as [|fuel IH]; intros it b; cbn [trim_loop]; [apply _|]. unfold trim_loop. canary. Qed.
#[export] Instance canary_purge_quarantine n cells l : KeepsCanary None (purge_quarantine (R := R) n cells l).
Proof. induction l as [|i l IH]; cbn [purge_quarantine]; canary. Qed.
#[export] Instance canary_trim_class class : KeepsCanary None (trim_class (R := R) class).
Proof. unfold trim_class. canary. Qed.
End Class.

(** ** The allocator *)

Section Trim.
Context {Cfg : Config} {Cok : ConfigOk Cfg} {K : Kernel} {Kok : KernelOk K} {R : Type}.
Context `{!RandomSource R} `{!RandomSourceOk R}.
Implicit Types (h : allocator R) (c : size_class R) (m : gmap Z (Z * Z)) (w : world) (rest : Z -> Prop).

(** Trimming one class. *)
Lemma wp_trim_one rest h m w ar cl :
  heap_ok rest h m w -> 0 <= ar < N_ARENA -> 0 <= cl < N_SIZE_CLASSES ->
  wp (with_class ar cl (trim_class cl))
     (fun _ s' => heap_ok rest (fst s') m (snd s') /\ slab_region_end (fst s') = slab_region_end h /\
        kept_except rest (fun _ => False) h m w (fst s') m (snd s'))
     system_halts (h, w).
Proof.
  intros Hh Har Hcl. destruct (ho_class _ _ _ _ Hh ar cl Har Hcl) as (c & Hc & Hok).
  pose proof Hok as [(P & E & F & Hinv) Hplaced]. eapply wp_with_class; [exact Hc|].
  eapply wp_conseq; [apply wp_keeps; [apply _|]; apply (wp_keeps_canary None); [apply _|]; by apply (wp_trim_class cl c w P E F)|].
  intros b [c' w'] [[[(Hst & Hun & Hmem & Hout & Hsz) (k & E' & F' & _ & Hinv')] Hframe] Hgrow]. cbn [fst snd] in *.
  assert (Hlive : forall j t, 0 <= t -> live c' j t = live c j t) by (intros; by apply live_unchanged).
  assert (Hok' : class_ok (slab_region_start h) ar cl c') by (eapply class_ok_static; [exact Hok|exact Hst|by exists P, E', F']).
  split; [by eapply heap_ok_set_class|]. split; [done|]. split; [| | | | |done].
  - intros q n _. apply (set_class_blocks h m ar cl c c'); auto.
  - intros q n a Hq _ Ha.
    destruct (block_elsewhere _ _ _ _ _ _ _ _ _ a Hh Hc Hok Hq Ha) as [(j & t & Ht & _ & Hlj & -> & Hin)|Hn]; [|apply Hout; lia].
    by apply (Hmem j t a); [lia| |].
  - intros a Ha. apply Hout. pose proof (rest_elsewhere _ _ _ _ _ _ _ a Hh Hok Ha). lia.
  - intros Hzf Hclean. eapply (clean_set_class rest h m w w'); try done. intros j t a Hj Ht Hlj _.
    rewrite Hlive in Hlj by lia. destruct (Hsz a) as [->|]; [by right|by left].
  - intros Hgd. apply (guarded_set_class rest h m w w' ar cl c c'); try done.
    eapply (slots_guarded_keep cl c c' w w' None); try done; [apply Hinv| |by apply (Hgd ar cl c)].
    intros j t _ Ht Hlj. right. rewrite Hlive in Hlj by done. split; [done|]. intros a Ha. by apply (Hmem j t a).
Qed.

Lemma wp_trim_classes rest h m w l b :
  heap_ok rest h m w -> (forall ar cl, (ar, cl) ∈ l -> 0 <= ar < N_ARENA /\ 0 <= cl < N_SIZE_CLASSES) ->
  wp (trim_classes l b)
     (fun _ s' => heap_ok rest (fst s') m (snd s') /\ slab_region_end (fst s') = slab_region_end h /\
        kept_except rest (fun _ => False) h m w (fst s') m (snd s'))
     system_halts (h, w).
Proof.
  intros Hh Hl. revert h w b Hh. induction l as [|[ar cl] l IH]; intros h w b Hh; cbn [trim_classes].
  { apply wp_ret. split; [done|]. split; [done|by apply kept_refl]. }
  apply wp_bind. destruct (Hl ar cl) as [Har Hcl]; [by apply list_elem_of_here|].
  eapply wp_conseq; [by apply wp_trim_one|]. intros t [h1 w1] (Hh1 & He1 & Hk1). cbn [fst snd] in *.
  eapply wp_conseq; [apply IH; [|exact Hh1]|].
  - intros ar' cl' Hin. by apply Hl, list_elem_of_further.
  - intros _ [h2 w2] (Hh2 & He2 & Hk2). cbn [fst snd] in *. split; [done|]. split; [congruence|by eapply kept_trans].
Qed.

(** ** The promises *)

(** C18: trimming a size class takes slabs off the list of cached empty slabs until
    the list is empty or the kernel is out of memory (it returns whether it took
    one); every slab taken is back with the kernel: it reads zero. No slot that
    the program holds changes, no slot changes its state, nothing outside the
    region of the class is touched, and the lists and the quarantine of the class
    are still well formed. It ends, and stops only when the kernel or the random
    source fails. *)
Theorem trim_class_ok class c w P E F :
  class_inv class c P E F ->
  wp (trim_class class)
     (fun b '(c', w') => exists k E' F', E = k ++ E' /\ class_inv class c' P E' F' /\
        b = negb (bool_decide (k = [])) /\ (E' = [] \/ errno w' = ENOMEM) /\
        (forall i, i ∈ k -> zero_in (class_region_start c + i * slab_size c) (slab_size c) (mem w')) /\
        (forall i s, 0 <= s -> is_used_slot (slab_info c').[i] s = is_used_slot (slab_info c).[i] s /\
           is_quarantine_slot (slab_info c').[i] s = is_quarantine_slot (slab_info c).[i] s) /\
        (forall i s a, 0 <= s -> live c i s = true -> slot_address c i s <= a < slot_address c i s + size c ->
           (mem w').[a] = (mem w).[a]) /\
        only_changes (class_region_start c) CLASS_REGION_SIZE (mem w) (mem w'))
     system_halts (c, w).
Proof.
  intros Hinv. eapply wp_conseq; [by apply (wp_trim_class class c w P E F)|].
  intros b [c' w'] [(Hst & Hun & Hm & Ho & _) (k & E' & F' & (-> & -> & Hnm & Hg) & Hinv')]. cbn [fst snd] in *.
  exists k, E', F'. by split_and!.
Qed.

(** C17: malloc_trim gives memory back without a client noticing: it returns 0 or 1,
    the allocations are the same with the same contents, the memory of the rest of
    the process is untouched, freed memory is still zero and guarded slots are
    still guarded, and the allocator is in order. It stops only when the kernel or
    the random source fails. *)
Theorem h_malloc_trim_ok rest h m w pad :
  heap_ok rest h m w ->
  wp (h_malloc_trim pad)
     (fun r '(h', w') => (r = 0 \/ r = 1) /\ heap_ok rest h' m w' /\
        (forall p n, block_at h' m p n <-> block_at h m p n) /\
        (forall p n a, block_at h m p n -> p <= a < p + n -> (mem w').[a] = (mem w).[a]) /\
        (forall a, rest a -> (mem w').[a] = (mem w).[a]) /\
        (ZERO_ON_FREE = true -> clean h w -> clean h' w') /\ (guarded h w -> guarded h' w'))
     system_halts (h, w).
Proof.
  intros Hh. unfold h_malloc_trim, get_slab_region_end. apply wp_bind, wp_gets. cbn [fst].
  rewrite (heap_ok_init _ _ _ _ Hh). cbn [negb]. apply wp_bind.
  eapply wp_conseq; [apply (wp_trim_classes rest h m w); [exact Hh|]|].
  { intros ar cl (a & Ha & Hin)%list_elem_of_In%in_flat_map. apply in_map_iff in Hin as (b & [= <- <-] & Hb).
    apply list_elem_of_In, elem_of_seqZ in Ha. apply list_elem_of_In, elem_of_seqZ in Hb. lia. }
  intros b [h' w'] (Hh' & _ & [Hb Hc Hr Hz Hg _]). cbn [fst snd] in *. apply wp_ret.
  split; [destruct b; tauto|]. split; [done|]. split; [intros p n; apply Hb; by intros []|].
  split; [|done]. intros p n a Hp Ha. apply (Hc p n a Hp); [by intros []|done].
Qed.
End Trim.

(** ** Witnesses *)

Section Witnesses.
#[local] Existing Instances default_config demo_platform.

Lemma trim_class_ok_witness :
  class_inv 3 demo_class [] [] [] /\
  wp (trim_class 3) (fun _ '(c', _) => exists F', class_inv 3 c' [] [] F') system_halts (demo_class, demo_world []).
Proof.
  split; [exact (proj1 demo_class_ok)|].
  eapply wp_conseq; [exact (trim_class_ok 3 demo_class (demo_world []) [] [] [] (proj1 demo_class_ok))|].
  intros b [c' w'] (k & E' & F' & Hk & Hinv & _). exists F'. symmetry in Hk. apply app_eq_nil in Hk as [_ ->]. exact Hinv.
Defined.

Lemma h_malloc_trim_ok_witness :
  exists m, heap_ok demo_rest demo_heap m demo_heap_world /\
    wp (h_malloc_trim 0) (fun r '(h', w') => (r = 0 \/ r = 1) /\ heap_ok demo_rest h' m w') system_halts (demo_heap, demo_heap_world).
Proof.
  destruct demo_heap_ok as (m & Hh & _). exists m. split; [exact Hh|].
  eapply wp_conseq; [exact (h_malloc_trim_ok demo_rest demo_heap m demo_heap_world 0 Hh)|].
  intros r [h' w'] (Hr & Hh' & _). split; [exact Hr|exact Hh'].
Defined.
End Witnesses.
