(* ===== verification/Memtag.v ===== *)
(** Memory tagging (memtag.h with HAS_ARM_MTE): the tag of a pointer and the tags
    of memory. The Arm memory tagging extension keeps a 4-bit tag for every
    16-byte granule of memory mapped with PROT_MTE; a load or store through a
    pointer faults unless the tag in bits 59:56 of the pointer is the tag of every
    granule it touches. Addresses ignore the top byte of a pointer. *)

From S2P Require Import Prelude Config Util Kernel.

(** ** memtag.h *)

Definition RESERVED_TAG : Z := 0.
Definition UINTPTR_MAX : Z := 2 ^ 64 - 1.

Definition untag_pointer (ptr : Z) : Z :=
  let mask := Z.shiftr UINTPTR_MAX 8 in
  Z.land ptr mask.

Definition untag_const_pointer (ptr : Z) : Z :=
  let mask := Z.shiftr UINTPTR_MAX 8 in
  Z.land ptr mask.

Definition set_pointer_tag (ptr tag : Z) : Z := Z.lor (u64 (Z.shiftl tag 56)) (untag_pointer ptr).

Definition get_pointer_tag (ptr : Z) : Z := u8 (Z.land (Z.shiftr ptr 56) 0xf).

(** ** Memory with tags *)

(** sizeof a granule *)
Definition GRANULE : Z := 16.

(** The bytes at their addresses, and the tags of the granules. *)
Record tagged_memory := TaggedMemory { bytes : gmap Z Z; tags : gmap Z Z }.

Definition granule_tag (m : tagged_memory) (a : Z) : Z := (tags m).[a / GRANULE].

(** The tag check of an access to [n] bytes through [p]. *)
Definition access_ok (m : tagged_memory) (p n : Z) : bool :=
  forallb (fun i => granule_tag m (untag_pointer p + i) =? get_pointer_tag p) (seqZ 0 n).

(** The pointer to the address [a] that arithmetic on [p] gives. *)
Definition pointer_to (p a : Z) : Z := p + (a - untag_pointer p).

(** Zero the [n] bytes at [a] and tag their granules with [t]; the reference
    definition of every tagging instruction and of [arm_mte_tag_and_clear_mem]. *)
Definition tag_range (a n t : Z) (g : gmap Z Z) : gmap Z Z :=
  foldr (fun i g => g.[a / GRANULE + i <- t]) g (seqZ 0 (n / GRANULE)).

Definition zero_tag_range (a n t : Z) (m : tagged_memory) : tagged_memory :=
  TaggedMemory (memset0 a n (bytes m)) (tag_range a n t (tags m)).

(** ** Pointers *)

Lemma untag_pointer_mod p : untag_pointer p = p mod 2 ^ 56.
Proof. unfold untag_pointer. by rewrite <- (Z.land_ones p 56). Qed.

Lemma get_pointer_tag_div p : get_pointer_tag p = (p / 2 ^ 56) mod 2 ^ 4.
Proof.
  unfold get_pointer_tag. change 0xf with (Z.ones 4).
  rewrite Z.land_ones, Z.shiftr_div_pow2 by lia. apply wrap_small.
  pose proof (Z.mod_pos_bound (p / 2 ^ 56) (2 ^ 4) ltac:(lia)). split; lia.
Qed.

Lemma set_pointer_tag_sum p t : fits 4 t -> set_pointer_tag p t = t * 2 ^ 56 + p mod 2 ^ 56.
Proof.
  intros [H0 H1]. unfold set_pointer_tag. rewrite Z.shiftl_mul_pow2, wrap_small by (try split; lia).
  rewrite untag_pointer_mod. apply lor_concat; [lia|]. apply Z.mod_pos_bound. lia.
Qed.

Lemma get_set_pointer_tag p t : fits 4 t -> get_pointer_tag (set_pointer_tag p t) = t.
Proof.
  intros Ht. rewrite set_pointer_tag_sum, get_pointer_tag_div by done.
  rewrite Z.add_comm, Z.div_add, (Z.div_small (p mod _)) by (try apply Z.mod_pos_bound; lia).
  by apply Z.mod_small.
Qed.

Lemma untag_set_pointer_tag p t : fits 4 t -> untag_pointer (set_pointer_tag p t) = untag_pointer p.
Proof.
  intros Ht. rewrite set_pointer_tag_sum, !untag_pointer_mod by done.
  rewrite Z.add_comm, Z.mod_add by lia. apply Z.mod_mod. lia.
Qed.

Lemma get_pointer_tag_fits p : fits 4 (get_pointer_tag p).
Proof. rewrite get_pointer_tag_div. apply Z.mod_pos_bound. lia. Qed.

Lemma set_pointer_tag_fits p t : fits 4 t -> fits 60 (set_pointer_tag p t).
Proof.
  intros [? ?]. rewrite set_pointer_tag_sum by done.
  pose proof (Z.mod_pos_bound p (2 ^ 56) ltac:(lia)). split; lia.
Qed.

Lemma untag_pointer_small p : fits 56 p -> untag_pointer p = p.
Proof. intros. rewrite untag_pointer_mod. by apply Z.mod_small. Qed.

(** Moving inside the address range keeps the tag. *)
Lemma untag_pointer_add p k : 0 <= untag_pointer p + k < 2 ^ 56 -> untag_pointer (p + k) = untag_pointer p + k.
Proof.
  rewrite !untag_pointer_mod. intros Hk. rewrite <- Zplus_mod_idemp_l. by apply Z.mod_small.
Qed.

Lemma get_pointer_tag_add p k : 0 <= untag_pointer p + k < 2 ^ 56 -> get_pointer_tag (p + k) = get_pointer_tag p.
Proof.
  rewrite untag_pointer_mod, !get_pointer_tag_div. intros Hk. f_equal.
  rewrite (Z.div_mod p (2 ^ 56)) at 1 by lia.
  rewrite <- Z.add_assoc, (Z.mul_comm (2 ^ 56)), Z.div_add_l by lia. rewrite (Z.div_small (_ + k)); [lia|]. lia.
Qed.

(** ** Tagged ranges *)

Lemma fold_store_lookup (d v n : Z) (g : gmap Z Z) a :
  foldr (fun i g => g.[d + i <- v]) g (seqZ 0 n) !! a = if decide (d <= a < d + n) then Some v else g !! a.
Proof.
  assert (Hl : forall l, foldr (fun i g => g.[d + i <- v]) g l !! a =
    if decide (a - d ∈ l) then Some v else g !! a).
  { induction l as [|i l IH]; cbn; [by rewrite decide_False by apply not_elem_of_nil|].
    unfold aset at 1. destruct (decide (d + i = a)) as [<-|Hne].
    - rewrite lookup_insert_eq. replace (d + i - d) with i by lia. by rewrite decide_True by apply list_elem_of_here.
    - rewrite lookup_insert_ne, IH by done. apply decide_ext. rewrite elem_of_cons.
      split; [by right|intros [?|?]; [lia|done]]. }
  rewrite Hl. apply decide_ext. rewrite elem_of_seqZ. lia.
Qed.

Lemma fold_store_app d v n k (g : gmap Z Z) :
  0 <= n -> 0 <= k ->
  foldr (fun i g => g.[d + n + i <- v]) (foldr (fun i g => g.[d + i <- v]) g (seqZ 0 n)) (seqZ 0 k) =
  foldr (fun i g => g.[d + i <- v]) g (seqZ 0 (n + k)).
Proof.
  intros. apply map_eq. intros a. rewrite !fold_store_lookup. repeat case_decide; try done; lia.
Qed.

Lemma zero_tag_range_app a n k t m :
  0 <= n -> 0 <= k -> (GRANULE | a) -> (GRANULE | n) ->
  zero_tag_range (a + n) k t (zero_tag_range a n t m) = zero_tag_range a (n + k) t m.
Proof.
  unfold zero_tag_range, memset0, tag_range, GRANULE. intros Hn Hk [qa ->] [qn ->]. cbn [bytes tags]. f_equal.
  - by apply fold_store_app.
  - rewrite <- Z.mul_add_distr_r, !Z.div_mul by lia.
    rewrite (Z.add_comm (qn * 16)), Z.div_add, (Z.add_comm (k / 16)) by lia.
    apply fold_store_app; [lia|]. apply Z.div_pos; lia.
Qed.

Lemma zero_tag_range_nil a t m : zero_tag_range a 0 t m = m.
Proof. by destruct m. Qed.

(** Reading a tagged range. *)
Lemma zero_tag_bytes a n t m x :
  (bytes (zero_tag_range a n t m)).[x] = if decide (a <= x < a + n) then 0 else (bytes m).[x].
Proof. apply (fold_store_get (fun _ => 0)). Qed.

Lemma granule_zero_tag a n t m x :
  (GRANULE | a) -> (GRANULE | n) ->
  granule_tag (zero_tag_range a n t m) x = if decide (a <= x < a + n) then t else granule_tag m x.
Proof.
  unfold GRANULE. intros [qa ->] [qn ->]. unfold granule_tag, zero_tag_range, tag_range, GRANULE. cbn [tags].
  rewrite !Z.div_mul by lia. rewrite (fold_store_get (fun _ => t)). apply decide_ext.
  pose proof (Z.div_mod x 16 ltac:(lia)). pose proof (Z.mod_pos_bound x 16 ltac:(lia)). lia.
Qed.

(** An access succeeds when every byte has the tag of the pointer. *)
Lemma access_ok_spec m p n :
  access_ok m p n = true <-> forall i, 0 <= i < n -> granule_tag m (untag_pointer p + i) = get_pointer_tag p.
Proof.
  unfold access_ok. rewrite forallb_forall. split.
  - intros H i Hi. apply Z.eqb_eq, H, list_elem_of_In, elem_of_seqZ. lia.
  - intros H i Hi%list_elem_of_In%elem_of_seqZ. apply Z.eqb_eq, H. lia.
Qed.

(** A byte is reached from [p] when its granule has the tag of [p]. *)
Lemma access_pointer_to m p a :
  0 <= a < 2 ^ 56 -> access_ok m (pointer_to p a) 1 = (granule_tag m a =? get_pointer_tag p).
Proof.
  intros Ha. unfold access_ok, pointer_to. change (seqZ 0 1) with [0]. cbn [forallb].
  rewrite untag_pointer_add, get_pointer_tag_add by lia. rewrite andb_true_r. do 2 f_equal. lia.
Qed.
