(* ===== verification/MteAsm.v ===== *)
(** arm_mte.h: the inline assembly of [arm_mte_tag_and_clear_mem], as a program of
    the instructions it is written in, and the proof that for every cache line size
    it does exactly what its comment says. *)

From S2P Require Import Prelude Config Util Kernel Memtag.

(** ** The processor

    [dczid_el0] is the register that describes DC GZVA: bit 4 forbids it, the low
    four bits are the log2 of the number of 4-byte words of a line.
    [irg p excluded s] is IRG; its source of random bits is the state [s]. *)
Class Processor : Type := {
  dczid_el0 : Z;
  irg_state : Type;
  irg : Z -> Z -> irg_state -> Z * irg_state
}.

(** The architecture: a line is at least a granule and at most 2 KiB; IRG replaces
    the tag of an untagged pointer by one outside the excluded set, if there is one. *)
Class ProcessorOk (P : Processor) : Prop := {
  dczid_lines : Z.testbit dczid_el0 4 = false -> 2 <= Z.land dczid_el0 15 <= 9;
  dczid_fits : fits 64 dczid_el0;
  irg_ok p excluded s :
    fits 56 p -> (exists t, fits 4 t /\ Z.testbit excluded t = false) ->
    exists t, fits 4 t /\ Z.testbit excluded t = false /\ fst (irg p excluded s) = set_pointer_tag p t
}.

(** The operands of the assembly; [Tmp] is DCZID, Size and LineMask in turn. *)
Inductive reg := Cur | LineSize | Next | Tmp | End_.

Record cpu := Cpu {
  r_cur : Z; r_linesize : Z; r_next : Z; r_tmp : Z; r_end : Z;
  flag_n : bool; flag_v : bool;
  cpu_mem : tagged_memory
}.

Definition get_reg (r : reg) (c : cpu) : Z :=
  match r with
  | Cur => r_cur c | LineSize => r_linesize c | Next => r_next c | Tmp => r_tmp c | End_ => r_end c
  end.

Definition set_reg (r : reg) (x : Z) (c : cpu) : cpu :=
  let 'Cpu cur ls nx tmp en n v m := c in
  match r with
  | Cur => Cpu x ls nx tmp en n v m
  | LineSize => Cpu cur x nx tmp en n v m
  | Next => Cpu cur ls x tmp en n v m
  | Tmp => Cpu cur ls nx x en n v m
  | End_ => Cpu cur ls nx tmp x n v m
  end.

Definition set_flags (n v : bool) (c : cpu) : cpu :=
  Cpu (r_cur c) (r_linesize c) (r_next c) (r_tmp c) (r_end c) n v (cpu_mem c).
Definition set_cpu_mem (m : tagged_memory) (c : cpu) : cpu :=
  Cpu (r_cur c) (r_linesize c) (r_next c) (r_tmp c) (r_end c) (flag_n c) (flag_v c) m.

Inductive instr :=
| I_label (l : Z)
| I_mrs_dczid (d : reg)                (* mrs d, dczid_el0 *)
| I_tbnz (r : reg) (bit l : Z)         (* tbnz r, #bit, l *)
| I_and (d n : reg) (imm : Z)          (* and d, n, #imm *)
| I_mov (d : reg) (imm : Z)            (* mov d, #imm *)
| I_lsl (d n m : reg)                  (* lsl d, n, m *)
| I_sub (d n m : reg)                  (* sub d, n, m *)
| I_sub_imm (d n : reg) (imm : Z)      (* sub d, n, #imm *)
| I_add (d n m : reg)                  (* add d, n, m *)
| I_orr (d n m : reg)                  (* orr d, n, m *)
| I_bic (d n m : reg)                  (* bic d, n, m *)
| I_cmp (n m : reg) (lsl : Z)          (* cmp n, m, lsl #lsl *)
| I_b (l : Z)                          (* b l *)
| I_b_lt (l : Z)                       (* b.lt l *)
| I_b_ge (l : Z)                       (* b.ge l *)
| I_stzg (t n : reg) (imm : Z)         (* stzg t, [n], #imm *)
| I_dc_gzva (r : reg).                 (* dc gzva, r *)

Inductive step_result :=
| Go (c : cpu)
| Jump (l : Z) (c : cpu)
| Fault.

Definition sign (x : Z) : bool := Z.testbit x 63.

Section Execution.
Context `{P : Processor}.

(** The line size DC GZVA works with. *)
Definition gzva_size : Z := 4 * 2 ^ Z.land dczid_el0 15.

Definition step (i : instr) (c : cpu) : step_result :=
  match i with
  | I_label _ => Go c
  | I_mrs_dczid d => Go (set_reg d dczid_el0 c)
  | I_tbnz r bit l => if Z.testbit (get_reg r c) bit then Jump l c else Go c
  | I_and d n imm => Go (set_reg d (Z.land (get_reg n c) imm) c)
  | I_mov d imm => Go (set_reg d imm c)
  | I_lsl d n m => Go (set_reg d (u64 (Z.shiftl (get_reg n c) (get_reg m c mod 64))) c)
  | I_sub d n m => Go (set_reg d (u64 (get_reg n c - get_reg m c)) c)
  | I_sub_imm d n imm => Go (set_reg d (u64 (get_reg n c - imm)) c)
  | I_add d n m => Go (set_reg d (u64 (get_reg n c + get_reg m c)) c)
  | I_orr d n m => Go (set_reg d (Z.lor (get_reg n c) (get_reg m c)) c)
  | I_bic d n m => Go (set_reg d (Z.land (get_reg n c) (u64 (Z.lnot (get_reg m c)))) c)
  | I_cmp n m lsl =>
      let x := get_reg n c in
      let y := u64 (Z.shiftl (get_reg m c) lsl) in
      let r := u64 (x - y) in
      Go (set_flags (sign r) (negb (eqb (sign x) (sign y)) && negb (eqb (sign r) (sign x))) c)
  | I_b l => Jump l c
  | I_b_lt l => if negb (eqb (flag_n c) (flag_v c)) then Jump l c else Go c
  | I_b_ge l => if eqb (flag_n c) (flag_v c) then Jump l c else Go c
  | I_stzg t n imm =>
      let a := untag_pointer (get_reg n c) in
      if negb (a mod GRANULE =? 0) then Fault else
      Go (set_reg n (u64 (get_reg n c + imm))
            (set_cpu_mem (zero_tag_range a GRANULE (get_pointer_tag (get_reg t c)) (cpu_mem c)) c))
  | I_dc_gzva r =>
      let a := untag_pointer (get_reg r c) in
      if Z.testbit dczid_el0 4 then Fault else
      Go (set_cpu_mem (zero_tag_range (a / gzva_size * gzva_size) gzva_size
                         (get_pointer_tag (get_reg r c)) (cpu_mem c)) c)
  end.

(** The code after the label [l]. *)
Fixpoint after (l : Z) (code : list instr) : list instr :=
  match code with
  | [] => []
  | I_label l' :: code => if l =? l' then code else after l code
  | _ :: code => after l code
  end.

Fixpoint run (fuel : nat) (code rest : list instr) (c : cpu) : option cpu :=
  match fuel with
  | O => None
  | S fuel =>
      match rest with
      | [] => Some c
      | i :: rest =>
          match step i c with
          | Go c => run fuel code rest c
          | Jump l c => run fuel code (after l code) c
          | Fault => None
          end
      end
  end.

Definition tag_and_clear_code : list instr := [
  I_mrs_dczid Tmp;
  I_tbnz Tmp 4 3;
  I_and Tmp Tmp 15;
  I_mov LineSize 4;
  I_lsl LineSize LineSize Tmp;
  I_sub Tmp End_ Cur;
  I_cmp Tmp LineSize 1;
  I_b_lt 3;
  I_sub_imm Tmp LineSize 1;
  I_orr Next Cur Tmp;
  I_label 1;
  I_stzg Cur Cur 16;
  I_cmp Cur Next 0;
  I_b_lt 1;
  I_bic Next End_ Tmp;
  I_label 2;
  I_dc_gzva Cur;
  I_add Cur Cur LineSize;
  I_cmp Cur Next 0;
  I_b_lt 2;
  I_label 3;
  I_cmp Cur End_ 0;
  I_b_ge 4;
  I_stzg Cur Cur 16;
  I_b 3;
  I_label 4
].

(** No loop runs more than four instructions for a granule. *)
Definition code_fuel (len : Z) : nat := 32 + 4 * Z.to_nat (len / GRANULE).

(** The scratch registers and flags are written before they are read; a fault
    would be a signal to the process. *)
Definition arm_mte_tag_and_clear_mem (tagged_ptr len : Z) : M tagged_memory unit :=
  fun m =>
    match run (code_fuel len) tag_and_clear_code tag_and_clear_code
            (Cpu tagged_ptr 0 0 0 (u64 (tagged_ptr + len)) false false m) with
    | Some c => Ret tt (cpu_mem c)
    | None => Halt Stuck
    end.

Definition arm_mte_create_random_tag (p exclusion_mask : Z) : M irg_state Z :=
  fun s => let (q, s) := irg p exclusion_mask s in Ret q s.

End Execution.

(** ** Comparisons *)

Lemma sign_small x : 0 <= x < 2 ^ 63 -> sign x = false.
Proof. intros. apply (fits_testbit_high 63); [split|]; lia. Qed.

Lemma sign_sub x y : 0 <= x < 2 ^ 63 -> 0 <= y < 2 ^ 63 -> sign (u64 (x - y)) = (x <? y).
Proof.
  intros Hx Hy. unfold sign. destruct (Z.ltb_spec x y).
  - replace (u64 (x - y)) with (2 ^ 63 + (x - y + 2 ^ 63)).
    + rewrite Z.testbit_eqb by lia. apply Z.eqb_eq.
      replace (2 ^ 63 + (x - y + 2 ^ 63)) with (1 * 2 ^ 63 + (x - y + 2 ^ 63)) by lia.
      rewrite Z.div_add_l, (Z.div_small (x - y + _)) by lia. done.
    + unfold wrap. replace (x - y) with (x - y + 2 ^ 64 + (-1) * 2 ^ 64) at 2 by lia.
      rewrite Z.mod_add, Z.mod_small by lia. lia.
  - rewrite wrap_small by (split; lia). apply sign_small. lia.
Qed.

Section Proofs.
Context {P : Processor} {Pok : ProcessorOk P}.
Implicit Types (m : tagged_memory) (c : cpu).

(** [cmp] sets the flags of the signed comparison. *)
Lemma step_cmp r r' lsl c x y :
  get_reg r c = x -> u64 (Z.shiftl (get_reg r' c) lsl) = y -> 0 <= x < 2 ^ 63 -> 0 <= y < 2 ^ 63 ->
  step (I_cmp r r' lsl) c = Go (set_flags (x <? y) false c).
Proof.
  intros Ex Ey Hx Hy. cbn [step]. rewrite Ex, Ey, sign_sub, (sign_small x), (sign_small y) by done.
  by rewrite andb_false_l.
Qed.

Lemma run_go fuel code i rest c c' :
  step i c = Go c' -> run (S fuel) code (i :: rest) c = run fuel code rest c'.
Proof. cbn [run]. by intros ->. Qed.

Lemma run_jump fuel code i rest l c c' :
  step i c = Jump l c' -> run (S fuel) code (i :: rest) c = run fuel code (after l code) c'.
Proof. cbn [run]. by intros ->. Qed.

(** A pointer whose [n] bytes from it stay in the address space of its tag. *)
Definition in_reach (p n : Z) : Prop := fits 60 p /\ (GRANULE | p) /\ 0 <= n /\ untag_pointer p + n < 2 ^ 56.

Lemma untag_pow2 p j : 0 <= j <= 56 -> (2 ^ j | p) -> (2 ^ j | untag_pointer p).
Proof.
  intros Hj [q ->]. rewrite untag_pointer_mod. exists (q mod 2 ^ (56 - j)).
  replace 56 with (56 - j + j) at 1 by lia. by rewrite Z.pow_add_r, Zmult_mod_distr_r by lia.
Qed.

Lemma untag_aligned p : (GRANULE | p) -> (GRANULE | untag_pointer p).
Proof. apply (untag_pow2 p 4). lia. Qed.

Lemma in_reach_add p k n : in_reach p (k + n) -> (GRANULE | k) -> 0 <= k -> 0 <= n ->
  in_reach (p + k) n /\ untag_pointer (p + k) = untag_pointer p + k /\
  get_pointer_tag (p + k) = get_pointer_tag p.
Proof.
  intros ([H0 H1] & Hg & Hn & Hr) Hk Hk0 Hn0.
  assert (Hu : untag_pointer (p + k) = untag_pointer p + k) by (apply untag_pointer_add; pose proof (Z.mod_pos_bound p (2 ^ 56) ltac:(lia)); rewrite untag_pointer_mod in *; lia).
  split_and!; [|done|apply get_pointer_tag_add; pose proof (Z.mod_pos_bound p (2 ^ 56) ltac:(lia)); rewrite untag_pointer_mod in *; lia]. split_and!; [|by apply Z.divide_add_r|lia|lia].
  rewrite untag_pointer_mod in Hr. split; [lia|]. pose proof (Z.div_mod p (2 ^ 56) ltac:(lia)).
  assert (p / 2 ^ 56 < 2 ^ 4) by (apply Z.div_lt_upper_bound; lia). lia.
Qed.

Lemma in_reach_le p n n' : in_reach p n -> 0 <= n' <= n -> in_reach p n'.
Proof. intros (? & ? & ? & ?) ?. split_and!; done || lia. Qed.

(** The end of a range is at most the end of the 60-bit pointers. *)
Lemma in_reach_end p n : in_reach p n -> 0 <= p + n < 2 ^ 60.
Proof.
  intros ([H0 H1] & _ & Hn & Hr). rewrite untag_pointer_mod in Hr.
  pose proof (Z.div_mod p (2 ^ 56) ltac:(lia)).
  assert (p / 2 ^ 56 < 2 ^ 4) by (apply Z.div_lt_upper_bound; lia). lia.
Qed.

Lemma step_stzg p ls nx tmp en n v m :
  in_reach p GRANULE ->
  step (I_stzg Cur Cur 16) (Cpu p ls nx tmp en n v m) =
  Go (Cpu (p + 16) ls nx tmp en n v (zero_tag_range (untag_pointer p) GRANULE (get_pointer_tag p) m)).
Proof.
  intros Hr. pose proof (in_reach_end _ _ Hr) as He. destruct Hr as ([H0 H1] & Hg & _ & _).
  cbn [step get_reg r_cur cpu_mem set_cpu_mem set_reg].
  apply untag_aligned, Z.mod_divide in Hg; [|done]. unfold GRANULE in *. rewrite Hg. cbn.
  rewrite wrap_small; [done|]. split; lia.
Qed.
(** ** The three loops *)

Ltac cpu_simpl :=
  unfold set_flags, set_cpu_mem;
  cbn [set_reg get_reg r_cur r_linesize r_next r_tmp r_end flag_n flag_v cpu_mem].

(** The tagging done so far and one more step make a longer range. *)
Lemma zero_tag_next p k n m :
  in_reach p (k + n) -> (GRANULE | k) -> 0 <= k -> 0 <= n ->
  zero_tag_range (untag_pointer (p + k)) n (get_pointer_tag (p + k))
    (zero_tag_range (untag_pointer p) k (get_pointer_tag p) m) =
  zero_tag_range (untag_pointer p) (k + n) (get_pointer_tag p) m.
Proof.
  intros Hr Hk Hk0 Hn. destruct (in_reach_add p k n Hr Hk Hk0 Hn) as (_ & -> & ->).
  apply zero_tag_range_app; [lia..| |done]. apply untag_aligned. by destruct Hr as (_ & ? & _).
Qed.

Lemma cmp_regs r r' c :
  0 <= get_reg r c < 2 ^ 63 -> 0 <= get_reg r' c < 2 ^ 63 ->
  step (I_cmp r r' 0) c = Go (set_flags (get_reg r c <? get_reg r' c) false c).
Proof.
  intros Hx Hy. apply step_cmp; [done| |done..]. rewrite Z.shiftl_0_r. apply wrap_small. split; lia.
Qed.

Lemma granule_mul k : (GRANULE | 16 * k).
Proof. exists k. unfold GRANULE. lia. Qed.

(** The code after each label. *)
Lemma after_3 : after 3 tag_and_clear_code =
  [I_cmp Cur End_ 0; I_b_ge 4; I_stzg Cur Cur 16; I_b 3; I_label 4].
Proof. reflexivity. Qed.

Lemma after_2 : after 2 tag_and_clear_code =
  I_dc_gzva Cur :: I_add Cur Cur LineSize :: I_cmp Cur Next 0 :: I_b_lt 2 :: I_label 3 ::
  after 3 tag_and_clear_code.
Proof. reflexivity. Qed.

Lemma after_1 : after 1 tag_and_clear_code =
  I_stzg Cur Cur 16 :: I_cmp Cur Next 0 :: I_b_lt 1 :: I_bic Next End_ Tmp :: I_label 2 ::
  after 2 tag_and_clear_code.
Proof. reflexivity. Qed.

Lemma skip_8 : skipn 8 tag_and_clear_code =
  I_sub_imm Tmp LineSize 1 :: I_orr Next Cur Tmp :: I_label 1 :: after 1 tag_and_clear_code.
Proof. reflexivity. Qed.

(** STZG up to the end of the region. *)
Lemma loop3 k : forall p ls nx tmp fn fv m f,
  in_reach p (16 * Z.of_nat k) ->
  exists c', run (4 * k + (3 + f)) tag_and_clear_code (after 3 tag_and_clear_code)
               (Cpu p ls nx tmp (p + 16 * Z.of_nat k) fn fv m) = Some c' /\
    cpu_mem c' = zero_tag_range (untag_pointer p) (16 * Z.of_nat k) (get_pointer_tag p) m.
Proof.
  induction k as [|k IH]; intros p ls nx tmp fn fv m f Hr; pose proof (in_reach_end _ _ Hr) as He;
    pose proof Hr as ([Hp0 Hp1] & _); rewrite after_3.
  - eexists. cbn [Nat.mul Nat.add]. rewrite Z.mul_0_r, Z.add_0_r.
    erewrite run_go by (apply cmp_regs; cbn; lia). cbn [get_reg r_cur r_end].
    rewrite Z.ltb_irrefl. erewrite run_jump by reflexivity. split; [reflexivity|].
    cbn [cpu_mem set_flags]. by rewrite zero_tag_range_nil.
  - replace (4 * S k + (3 + f))%nat with (S (S (S (S (4 * k + (3 + f)))))) by lia.
    assert (Hs : in_reach p (16 + 16 * Z.of_nat k)) by (by replace (16 + _) with (16 * Z.of_nat (S k)) by lia).
    erewrite run_go by (apply cmp_regs; cbn; lia). cbn [get_reg r_cur r_end].
    rewrite (proj2 (Z.ltb_lt _ _)) by lia. erewrite run_go by reflexivity.
    cpu_simpl.
    erewrite run_go by (apply step_stzg, (in_reach_le _ _ _ Hs); unfold GRANULE; lia).
    erewrite run_jump by reflexivity.
    replace (p + 16 * Z.of_nat (S k)) with (p + 16 + 16 * Z.of_nat k) by lia.
    destruct (in_reach_add p 16 (16 * Z.of_nat k) Hs (granule_mul 1)) as (Hr' & _ & _); [lia..|].
    destruct (IH (p + 16) ls nx tmp true false
      (zero_tag_range (untag_pointer p) GRANULE (get_pointer_tag p) m) f Hr') as (c' & Hrun & Hm).
    exists c'. split; [exact Hrun|]. rewrite Hm, zero_tag_next by (done || lia || apply (granule_mul 1)).
    f_equal. unfold GRANULE. lia.
Qed.

(** STZG up to the next line; [nx] is the last byte of the current one. *)
Lemma loop1 k : forall p ls nx tmp en fn fv m f,
  in_reach p (16 * Z.of_nat (S k)) -> p + 16 * Z.of_nat k < nx <= p + 16 * Z.of_nat (S k) ->
  run (3 * S k + f) tag_and_clear_code (after 1 tag_and_clear_code) (Cpu p ls nx tmp en fn fv m) =
  run f tag_and_clear_code (I_bic Next End_ Tmp :: I_label 2 :: after 2 tag_and_clear_code)
    (Cpu (p + 16 * Z.of_nat (S k)) ls nx tmp en false false
       (zero_tag_range (untag_pointer p) (16 * Z.of_nat (S k)) (get_pointer_tag p) m)).
Proof.
  induction k as [|k IH]; intros p ls nx tmp en fn fv m f Hr Hnx; pose proof (in_reach_end _ _ Hr) as He;
    pose proof Hr as ([Hp0 Hp1] & _); rewrite after_1.
  - cbn [Nat.mul Nat.add].
    erewrite run_go by (apply step_stzg, (in_reach_le _ _ _ Hr); unfold GRANULE; lia).
    erewrite run_go by (apply cmp_regs; cbn [get_reg r_cur r_next]; lia). cbn [get_reg r_cur r_next].
    rewrite (proj2 (Z.ltb_ge _ _)) by lia. erewrite run_go by reflexivity.
    cpu_simpl.
    replace (16 * Z.of_nat 1) with 16 by lia. done.
  - replace (3 * S (S k) + f)%nat with (S (S (S (3 * S k + f)))) by lia.
    assert (Hs : in_reach p (16 + 16 * Z.of_nat (S k))) by (by replace (16 + _) with (16 * Z.of_nat (S (S k))) by lia).
    erewrite run_go by (apply step_stzg, (in_reach_le _ _ _ Hr); unfold GRANULE; lia).
    erewrite run_go by (apply cmp_regs; cbn [get_reg r_cur r_next]; lia). cbn [get_reg r_cur r_next].
    rewrite (proj2 (Z.ltb_lt _ _)) by lia. erewrite run_jump by reflexivity.
    cpu_simpl.
    destruct (in_reach_add p 16 (16 * Z.of_nat (S k)) Hs (granule_mul 1)) as (Hr' & _ & _); [lia..|].
    rewrite IH by (done || lia). rewrite zero_tag_next by (done || lia || apply (granule_mul 1)).
    unfold GRANULE. f_equal. f_equal; [lia|]. f_equal. lia.
Qed.

(** Lines are powers of two, between 16 bytes and 2 KiB. *)
Lemma gzva_pow :
  Z.testbit dczid_el0 4 = false -> exists j, 4 <= j <= 11 /\ gzva_size = 2 ^ j /\ j = 2 + Z.land dczid_el0 15.
Proof.
  intros Hb%dczid_lines. exists (2 + Z.land dczid_el0 15). split; [lia|]. split; [|done].
  unfold gzva_size. by rewrite Z.pow_add_r by lia.
Qed.

Lemma divide_pow2 j k : 0 <= j <= k -> (2 ^ j | 2 ^ k).
Proof. intros. exists (2 ^ (k - j)). rewrite <- Z.pow_add_r by lia. f_equal. lia. Qed.

Lemma step_gzva p ls nx tmp en n v m :
  Z.testbit dczid_el0 4 = false -> (gzva_size | p) ->
  step (I_dc_gzva Cur) (Cpu p ls nx tmp en n v m) =
  Go (Cpu p ls nx tmp en n v (zero_tag_range (untag_pointer p) gzva_size (get_pointer_tag p) m)).
Proof.
  intros Hb Hp. cbn [step get_reg r_cur]. rewrite Hb. cpu_simpl.
  do 3 f_equal. destruct (gzva_pow Hb) as (j & Hj & E & _). rewrite E in *.
  destruct (untag_pow2 p j ltac:(lia) Hp) as [q ->]. pose proof (pow2_pos j ltac:(lia)).
  by rewrite Z.div_mul by lia.
Qed.

(** DC GZVA on whole lines. *)
Lemma loop2 k : forall p nx tmp en fn fv m f, Z.testbit dczid_el0 4 = false -> (gzva_size | p) ->
  in_reach p (gzva_size * Z.of_nat (S k)) ->
  p + gzva_size * Z.of_nat k < nx <= p + gzva_size * Z.of_nat (S k) ->
  run (4 * S k + f) tag_and_clear_code (after 2 tag_and_clear_code) (Cpu p gzva_size nx tmp en fn fv m) =
  run f tag_and_clear_code (I_label 3 :: after 3 tag_and_clear_code)
    (Cpu (p + gzva_size * Z.of_nat (S k)) gzva_size nx tmp en false false
       (zero_tag_range (untag_pointer p) (gzva_size * Z.of_nat (S k)) (get_pointer_tag p) m)).
Proof.
  intros p nx tmp en fn fv m f Hb. destruct (gzva_pow Hb) as (j & Hj & E & _).
  assert (Hg : (GRANULE | gzva_size)) by (rewrite E; apply (divide_pow2 4 j); lia).
  assert (HL : 16 <= gzva_size <= 2048) by (rewrite E; split; [apply (Z.pow_le_mono_r 2 4)|apply (Z.pow_le_mono_r 2 _ 11)]; lia).
  revert p nx tmp en fn fv m.
  induction k as [|k IH]; intros p nx tmp en fn fv m Hl Hr Hnx; pose proof (in_reach_end _ _ Hr) as He;
    pose proof Hr as ([Hp0 Hp1] & _); rewrite after_2.
  - cbn [Nat.mul Nat.add]. replace (gzva_size * Z.of_nat 1) with gzva_size in * by lia.
    erewrite run_go by (by apply step_gzva). erewrite run_go by reflexivity. cpu_simpl.
    rewrite (wrap_small 64) by (split; lia).
    erewrite run_go by (apply cmp_regs; cbn [get_reg r_cur r_next]; lia). cbn [get_reg r_cur r_next].
    rewrite (proj2 (Z.ltb_ge _ _)) by lia. erewrite run_go by reflexivity. by cpu_simpl.
  - replace (4 * S (S k) + f)%nat with (S (S (S (S (4 * S k + f))))) by lia.
    assert (Hs : in_reach p (gzva_size + gzva_size * Z.of_nat (S k)))
      by (by replace (gzva_size + _) with (gzva_size * Z.of_nat (S (S k))) by lia).
    erewrite run_go by (by apply step_gzva). erewrite run_go by reflexivity. cpu_simpl.
    rewrite (wrap_small 64) by (split; nia).
    erewrite run_go by (apply cmp_regs; cbn [get_reg r_cur r_next]; nia). cbn [get_reg r_cur r_next].
    rewrite (proj2 (Z.ltb_lt _ _)) by nia. erewrite run_jump by reflexivity. cpu_simpl.
    destruct (in_reach_add p gzva_size (gzva_size * Z.of_nat (S k)) Hs Hg) as (Hr' & _ & _); [lia..|].
    rewrite IH by (first [done | lia | by apply Z.divide_add_r]). rewrite zero_tag_next by (done || lia).
    f_equal. f_equal; [lia|]. f_equal. lia.
Qed.

(** ** The whole routine *)

(** [orr] with the line mask is the last byte of the line. *)
Lemma lor_low_ones x j : 0 <= j -> Z.lor x (2 ^ j - 1) = x / 2 ^ j * 2 ^ j + (2 ^ j - 1).
Proof.
  intros Hj. pose proof (pow2_pos j Hj). rewrite <- lor_concat by lia.
  apply Z.bits_inj'. intros i Hi. rewrite !Z.lor_spec.
  replace (2 ^ j - 1) with (Z.ones j) by (rewrite Z.ones_equiv; lia). rewrite testbit_ones by done.
  destruct (Z.lt_ge_cases i j).
  - by rewrite bool_decide_true, !orb_true_r by lia.
  - rewrite Z.mul_pow2_bits, <- Z.shiftr_div_pow2, Z.shiftr_spec by lia. by replace (i - j + j) with i by lia.
Qed.

(** The last loop, from wherever the others stopped. *)
Lemma finish p ls nx tmp en fn fv m f :
  in_reach p (en - p) -> (GRANULE | en - p) ->
  exists c', run (4 * Z.to_nat ((en - p) / GRANULE) + (3 + f)) tag_and_clear_code (after 3 tag_and_clear_code)
               (Cpu p ls nx tmp en fn fv m) = Some c' /\
    cpu_mem c' = zero_tag_range (untag_pointer p) (en - p) (get_pointer_tag p) m.
Proof.
  unfold GRANULE. intros Hr [q Hq]. rewrite Hq, Z.div_mul by lia.
  assert (Hn : 0 <= q) by (destruct Hr as (_ & _ & ? & _); lia).
  destruct (loop3 (Z.to_nat q) p ls nx tmp fn fv m f) as (c' & Hrun & Hm).
  - replace (16 * Z.of_nat _) with (en - p) by lia. done.
  - replace (p + 16 * Z.of_nat (Z.to_nat q)) with en in Hrun by lia.
    exists c'. split; [done|]. rewrite Hm. f_equal. lia.
Qed.

(** Where the loops stop: [g1] granules to the next line, then [g2] whole lines. *)
Lemma fast_cuts p en :
  Z.testbit dczid_el0 4 = false -> (GRANULE | p) -> 2 * gzva_size <= en - p ->
  exists g1 g2 : nat,
    p + 16 * Z.of_nat (S g1) = (p / gzva_size + 1) * gzva_size /\
    p + 16 * Z.of_nat (S g1) + gzva_size * Z.of_nat (S g2) = en / gzva_size * gzva_size.
Proof.
  intros Hb [q Hq] Hlen. destruct (gzva_pow Hb) as (j & Hj & E & _).
  assert (Hg : (GRANULE | gzva_size)) by (rewrite E; apply (divide_pow2 4 j); lia).
  unfold GRANULE in *. destruct Hg as [l Hl]. pose proof (pow2_pos j ltac:(lia)).
  assert (HL : 0 < gzva_size) by lia.
  pose proof (Z.div_mod p _ (Z.neq_sym _ _ (Z.lt_neq _ _ HL))). pose proof (Z.mod_pos_bound p _ HL).
  pose proof (Z.div_mod en _ (Z.neq_sym _ _ (Z.lt_neq _ _ HL))). pose proof (Z.mod_pos_bound en _ HL).
  exists (Z.to_nat ((p / gzva_size + 1) * l - q - 1)), (Z.to_nat (en / gzva_size - p / gzva_size - 2)).
  assert (p / gzva_size + 2 <= en / gzva_size) by (apply Z.div_le_lower_bound; nia).
  assert (q < (p / gzva_size + 1) * l) by nia.
  split; rewrite !Nat2Z.inj_succ, !Z2Nat.id by lia; nia.
Qed.

(** A line costs no more fuel than its granules. *)
Lemma fast_fuel L g1 g2 f n n3 :
  0 < L -> (GRANULE | L) -> (GRANULE | n3) -> 0 <= n3 -> n = 16 * Z.of_nat (S g1) + L * Z.of_nat (S g2) + n3 ->
  exists f', (7 + 4 * Z.to_nat (n / GRANULE) + (3 + f) =
    3 + (3 * S g1 + (2 + (4 * S g2 + (1 + (4 * Z.to_nat (n3 / GRANULE) + (3 + f')))))))%nat.
Proof.
  unfold GRANULE. intros HL [l ->] [q3 ->] H3 ->.
  replace (16 * _ + _ + _) with ((Z.of_nat (S g1) + l * Z.of_nat (S g2) + q3) * 16) by lia.
  rewrite !Z.div_mul by lia. assert (Z.of_nat (S g2) <= l * Z.of_nat (S g2)) by nia.
  exists (f + 1 + S g1 + 4 * Z.to_nat (l * Z.of_nat (S g2) - Z.of_nat (S g2)))%nat. lia.
Qed.

(** With DC GZVA and two lines or more: all three loops. *)
Lemma fast_path p nx en m f :
  Z.testbit dczid_el0 4 = false -> in_reach p (en - p) -> (GRANULE | en - p) -> 2 * gzva_size <= en - p ->
  exists c', run (7 + 4 * Z.to_nat ((en - p) / GRANULE) + (3 + f)) tag_and_clear_code
               (skipn 8 tag_and_clear_code) (Cpu p gzva_size nx (en - p) en false false m) = Some c' /\
    cpu_mem c' = zero_tag_range (untag_pointer p) (en - p) (get_pointer_tag p) m.
Proof.
  intros Hb Hr Hg Hlen. pose proof (in_reach_end _ _ Hr) as He. pose proof Hr as ([Hp0 Hp1] & Hpg & _ & _).
  destruct (fast_cuts p en Hb Hpg Hlen) as (g1 & g2 & E1 & E2).
  destruct (gzva_pow Hb) as (j & Hj & EL & _). pose proof (pow2_pos j ltac:(lia)).
  assert (HgL : (GRANULE | gzva_size)) by (rewrite EL; apply (divide_pow2 4 j); lia).
  assert (HL : 0 < gzva_size) by lia.
  pose proof (Z.div_mod p _ (Z.neq_sym _ _ (Z.lt_neq _ _ HL))). pose proof (Z.mod_pos_bound p _ HL).
  pose proof (Z.div_mod en _ (Z.neq_sym _ _ (Z.lt_neq _ _ HL))). pose proof (Z.mod_pos_bound en _ HL).
  remember (16 * Z.of_nat (S g1)) as n1 eqn:Hn1e. remember (gzva_size * Z.of_nat (S g2)) as n2 eqn:Hn2e.
  assert (Hn1 : (GRANULE | n1)) by (rewrite Hn1e; apply granule_mul).
  assert (Hn2 : (GRANULE | n2)) by (rewrite Hn2e; by apply Z.divide_mul_l).
  assert (0 <= n2) by (rewrite Hn2e; apply Z.mul_nonneg_nonneg; lia).
  assert (Hr1 : in_reach p (n1 + (en - p - n1))) by (by replace (n1 + _) with (en - p) by lia).
  destruct (in_reach_add p n1 _ Hr1 Hn1) as (Hq & _ & _); [lia..|].
  assert (Hr2 : in_reach p (n1 + n2 + (en - (p + (n1 + n2))))) by (by replace (_ + _) with (en - p) by lia).
  destruct (in_reach_add p (n1 + n2) _ Hr2 (Z.divide_add_r _ _ _ Hn1 Hn2)) as (Hq2 & _ & _); [lia..|].
  assert (Hg3 : (GRANULE | en - (p + (n1 + n2)))).
  { replace (en - _) with (en - p - (n1 + n2)) by lia. by apply Z.divide_sub_r; [|apply Z.divide_add_r]. }
  destruct (fast_fuel gzva_size g1 g2 f (en - p) (en - (p + (n1 + n2))) HL HgL Hg3 ltac:(lia) ltac:(lia)) as [f' ->].
  rewrite skip_8. cbn [Nat.add]. do 3 (erewrite run_go by reflexivity; cpu_simpl).
  rewrite (wrap_small 64 (gzva_size - 1)), EL, lor_low_ones, <- EL by (try split; lia).
  rewrite loop1 by (first [apply (in_reach_le _ _ _ Hr1)|idtac]; lia). rewrite <- Hn1e.
  erewrite run_go by reflexivity. erewrite run_go by reflexivity. cpu_simpl.
  rewrite EL, land_high_mask, <- EL by (try split; lia).
  rewrite loop2 by (first [done|exists (p / gzva_size + 1); lia|apply (in_reach_le _ _ _ Hq); lia|lia]).
  erewrite run_go by reflexivity. rewrite <- Hn2e.
  assert (Hr12 : in_reach p (n1 + n2)) by (apply (in_reach_le _ _ _ Hr1); lia).
  rewrite (zero_tag_next p n1 n2 m Hr12 Hn1) by lia.
  rewrite <- Z.add_assoc.
  destruct (finish (p + (n1 + n2)) gzva_size (en / gzva_size * gzva_size) (gzva_size - 1) en false false
    (zero_tag_range (untag_pointer p) (n1 + n2) (get_pointer_tag p) m) f' Hq2 Hg3) as (c' & Hrun & Hm).
  exists c'. split; [done|]. rewrite Hm.
  rewrite (zero_tag_next p (n1 + n2) _ m Hr2 (Z.divide_add_r _ _ _ Hn1 Hn2)) by lia. f_equal. lia.
Qed.

Lemma tag_and_clear_run p len m :
  in_reach p len -> (GRANULE | len) ->
  arm_mte_tag_and_clear_mem p len m = Ret tt (zero_tag_range (untag_pointer p) len (get_pointer_tag p) m).
Proof.
  intros Hr Hg. pose proof (in_reach_end _ _ Hr) as He. pose proof Hr as ([Hp0 Hp1] & _ & Hn & _).
  unfold arm_mte_tag_and_clear_mem, code_fuel. rewrite (wrap_small 64) by (split; lia).
  assert (Hlen : p + len - p = len) by lia.
  assert (Hr' : in_reach p (p + len - p)) by by rewrite Hlen.
  assert (Hg' : (GRANULE | p + len - p)) by by rewrite Hlen.
  set (en := p + len) in *.
  destruct (Z.testbit dczid_el0 4) eqn:Hb.
  - replace (32 + 4 * Z.to_nat (len / GRANULE))%nat with (S (S (4 * Z.to_nat (len / GRANULE) + (3 + 27)))) by lia.
    unfold tag_and_clear_code at 2.
    erewrite run_go by reflexivity. cpu_simpl.
    erewrite run_jump by (cbn [step get_reg r_tmp]; by rewrite Hb).
    destruct (finish p 0 0 dczid_el0 en false false m 27 Hr' Hg') as (c' & Hrun & Hm).
    rewrite Hlen in *. by rewrite Hrun, Hm.
  - destruct (gzva_pow Hb) as (j & Hj & E & Ej).
    assert (HL : 16 <= gzva_size <= 2048)
      by (rewrite E; split; [apply (Z.pow_le_mono_r 2 4)|apply (Z.pow_le_mono_r 2 _ 11)]; lia).
    replace (32 + 4 * Z.to_nat (len / GRANULE))%nat
      with (S (S (S (S (S (S (S (S (7 + 4 * Z.to_nat (len / GRANULE) + (3 + 14)))))))))) by lia.
    unfold tag_and_clear_code at 2.
    erewrite run_go by reflexivity. cpu_simpl.
    erewrite run_go by (cbn [step get_reg r_tmp]; by rewrite Hb).
    do 4 (erewrite run_go by reflexivity; cpu_simpl).
    rewrite (Z.mod_small _ 64), Z.shiftl_mul_pow2 by lia. fold gzva_size.
    rewrite (wrap_small 64 gzva_size), (wrap_small 64 (en - p)) by (split; lia).
    erewrite run_go by (apply step_cmp with (y := 2 * gzva_size); cbn [get_reg r_tmp r_linesize];
      [done|rewrite Z.shiftl_mul_pow2, wrap_small by (try split; lia); lia|lia..]).
    cbn [get_reg r_tmp]. cpu_simpl. rewrite Hlen in *.
    destruct (Z.ltb_spec len (2 * gzva_size)).
    + erewrite run_jump by reflexivity.
      destruct (finish p gzva_size 0 len en true false m (7 + 14)) as (c' & Hrun & Hm); [by rewrite Hlen..|].
      rewrite Hlen in *.
      replace (7 + 4 * Z.to_nat (len / GRANULE) + (3 + 14))%nat
        with (4 * Z.to_nat (len / GRANULE) + (3 + (7 + 14)))%nat by lia.
      by rewrite Hrun, Hm.
    + erewrite run_go by reflexivity.
      destruct (fast_path p 0 en m 14 Hb) as (c' & Hrun & Hm); [by rewrite Hlen..|lia|].
      rewrite Hlen in *. change (skipn 8 _) with (skipn 8 tag_and_clear_code) in Hrun.
      unfold tag_and_clear_code at 2 in Hrun. cbn [skipn] in Hrun. by rewrite Hrun, Hm.
Qed.
End Proofs.

(** ** A concrete processor

    It has 64-byte lines and its IRG takes the first tag that is not excluded. *)

Definition first_tag (excluded : Z) : Z :=
  default 0 (head (filter (fun t => Z.testbit excluded t = false) (seqZ 0 16))).

#[export] Instance demo_processor : Processor := {|
  dczid_el0 := 4;
  irg_state := Z;
  irg p excluded s := (set_pointer_tag p (first_tag excluded), s + 1)
|}.

Lemma first_tag_ok excluded :
  (exists t, fits 4 t /\ Z.testbit excluded t = false) ->
  fits 4 (first_tag excluded) /\ Z.testbit excluded (first_tag excluded) = false.
Proof.
  intros (t & Ht & Hex). unfold first_tag.
  assert (Hin : t ∈ filter (fun t => Z.testbit excluded t = false) (seqZ 0 16)).
  { apply list_elem_of_filter. split; [done|]. apply elem_of_seqZ. destruct Ht. lia. }
  destruct (filter _ (seqZ 0 16)) as [|x l] eqn:E; [by apply elem_of_nil in Hin|]. cbn.
  assert (Hx : x ∈ filter (fun t => Z.testbit excluded t = false) (seqZ 0 16)) by (rewrite E; apply list_elem_of_here).
  apply list_elem_of_filter in Hx as [Hx Hr%elem_of_seqZ]. split; [split; lia|done].
Qed.

#[export] Instance demo_processor_ok : ProcessorOk demo_processor.
Proof.
  constructor; cbn [dczid_el0 irg demo_processor].
  - intros _. split; done.
  - split; lia.
  - intros p excluded s _ Hex. exists (first_tag excluded). by destruct (first_tag_ok excluded Hex).
Qed.

(** ** The contract *)

(** C28: For every cache line size, and with DC GZVA forbidden, the assembly of
    arm_mte_tag_and_clear_mem ends without a fault, having zeroed exactly the [len]
    bytes at the pointer, given exactly their granules the tag of the pointer, and
    changed nothing else: its three loops compute the reference definition. *)
Theorem arm_mte_tag_and_clear_mem_correct {P : Processor} {Pok : ProcessorOk P} tagged_ptr len m :
  in_reach tagged_ptr len -> (GRANULE | len) ->
  arm_mte_tag_and_clear_mem tagged_ptr len m =
    Ret tt (zero_tag_range (untag_pointer tagged_ptr) len (get_pointer_tag tagged_ptr) m) /\
  forall m', arm_mte_tag_and_clear_mem tagged_ptr len m = Ret tt m' -> forall a,
    let inside := decide (untag_pointer tagged_ptr <= a < untag_pointer tagged_ptr + len) in
    (bytes m').[a] = (if inside then 0 else (bytes m).[a]) /\
    granule_tag m' a = (if inside then get_pointer_tag tagged_ptr else granule_tag m a).
Proof.
  intros Hr Hg. rewrite tag_and_clear_run by done. split; [done|]. intros m' [= <-] a. cbv zeta.
  split; [apply zero_tag_bytes|]. apply granule_zero_tag; [|done]. apply untag_aligned. apply Hr.
Qed.

(** 400 bytes from the middle of a line on, with tag 5: all three loops run. *)
Lemma arm_mte_tag_and_clear_mem_correct_witness :
  exists m', arm_mte_tag_and_clear_mem (set_pointer_tag 4128 5) 400 (TaggedMemory {[4500 := 7; 4528 := 9]} ∅) = Ret tt m' /\
    (bytes m').[4500] = 0 /\ (bytes m').[4528] = 9 /\ granule_tag m' 4500 = 5 /\ granule_tag m' 4528 = 0.
Proof.
  destruct (arm_mte_tag_and_clear_mem_correct (P := demo_processor) (set_pointer_tag 4128 5) 400
    (TaggedMemory {[4500 := 7; 4528 := 9]} ∅)) as [Hrun Hm].
  - unfold in_reach, fits. split_and!; [vm_compute; congruence|reflexivity|exists (5 * 2 ^ 52 + 258); reflexivity|lia|reflexivity].
  - by exists 25.
  - eexists. split; [exact Hrun|]. destruct (Hm _ Hrun 4500) as [-> ->], (Hm _ Hrun 4528) as [-> ->]. repeat split.
Defined.
