(* ===== verification/MteSlab.v ===== *)
(** Slots under memory tagging (h_malloc.c with HAS_ARM_MTE): what allocate_small
    and deallocate_small do to the slot they hand out and take back, and the life
    of a slab as sequences of these steps. The theorems are the promises of the
    tags: an owner reaches its slot, and a pointer that is stale or runs into the
    next slot faults. *)

From S2P Require Import Prelude Config Util Kernel RandomSource SizeClass SlabMeta Slab Memtag MteAsm.

(** ** State and operations *)

(** What the code reads and writes: the random source of IRG, memory, the members
    arm_mte_tags and canary_value of the slab's metadata, and ro.is_memtag_disabled. *)
Record mte_slab `{Processor} := MteSlab {
  gen : irg_state;
  memory : tagged_memory;
  arm_mte_tags : gmap Z Z;
  mte_canary_value : Z;
  is_memtag_disabled : bool
}.

Section Operations.
Context `{Cfg : Config} `{P : Processor}.
Implicit Types (s : mte_slab).

Definition set_gen g s : mte_slab := MteSlab _ g (memory s) (arm_mte_tags s) (mte_canary_value s) (is_memtag_disabled s).
Definition set_memory m s : mte_slab := MteSlab _ (gen s) m (arm_mte_tags s) (mte_canary_value s) (is_memtag_disabled s).
Definition set_arm_mte_tags t s : mte_slab := MteSlab _ (gen s) (memory s) t (mte_canary_value s) (is_memtag_disabled s).
Definition set_mte_canary_value v s : mte_slab := MteSlab _ (gen s) (memory s) (arm_mte_tags s) v (is_memtag_disabled s).
Definition set_memtag_disabled s : mte_slab := MteSlab _ (gen s) (memory s) (arm_mte_tags s) (mte_canary_value s) true.

Definition on_memory {A} (m : M tagged_memory A) : M mte_slab A := zoom memory set_memory m.
Definition on_gen {A} (m : M irg_state A) : M mte_slab A := zoom gen set_gen m.

(** The bytes as the C code writes them; the tags stay. *)
Definition set_bytes (f : gmap Z Z -> gmap Z Z) : M mte_slab unit :=
  on_memory (modify (fun m => TaggedMemory (f (bytes m)) (tags m))).

Definition is_memtag_enabled : M mte_slab bool := gets (fun s => negb (is_memtag_disabled s)).

(** u8 arm_mte_tags[129] *)
Definition sizeof_arm_mte_tags : Z := 129.

Definition mte_write_after_free_check (p size : Z) : M mte_slab unit :=
  if negb WRITE_AFTER_FREE_CHECK then ret tt else
  let* enabled := is_memtag_enabled in
  if enabled then ret tt else
  let* m := gets memory in
  let accum :=
    fold_left (fun accum i => Z.lor accum (load64 (bytes m) (p + 8 * i))) (seqZ 0 ((size + 7) / 8)) 0 in
  if negb (accum =? 0) then fatal_error "detected write after free" else ret tt.

(** [random] is the result of get_random_u64. *)
Definition mte_set_slab_canary_value (random : Z) : M mte_slab unit :=
  if SLAB_CANARY then
    modify (set_mte_canary_value (Z.land random canary_mask)) ;;;
    let* v := gets mte_canary_value in
    if v =? 0 then modify (set_mte_canary_value 0x100) else ret tt
  else ret tt.

Definition mte_set_canary (p size : Z) : M mte_slab unit :=
  if SLAB_CANARY then
    let* enabled := is_memtag_enabled in
    if enabled then ret tt else
    let* v := gets mte_canary_value in
    set_bytes (store64 (p + size - canary_size) v)
  else ret tt.

Definition mte_check_canary (p size : Z) : M mte_slab unit :=
  if SLAB_CANARY then
    let* enabled := is_memtag_enabled in
    if enabled then ret tt else
    let* m := gets memory in
    let canary_value := load64 (bytes m) (p + size - canary_size) in
    if canary_value =? 0 then ret tt else
    let* v := gets mte_canary_value in
    if negb (canary_value =? v) then fatal_error "canary corrupted" else ret tt
  else ret tt.

Definition tag_and_clear_slab_slot (slot_ptr slot_idx slot_size : Z) : M mte_slab Z :=
  let* slot_tags := gets arm_mte_tags in
  let tem := Z.shiftl 1 RESERVED_TAG in
  let tem := Z.lor tem (Z.shiftl 1 (u4_arr_get slot_tags slot_idx)) in
  let tem := Z.lor tem (Z.shiftl 1 (u4_arr_get slot_tags (slot_idx + 1))) in
  let tem := Z.lor tem (Z.shiftl 1 (u4_arr_get slot_tags (slot_idx + 2))) in
  let* tagged_ptr := on_gen (arm_mte_create_random_tag slot_ptr tem) in
  on_memory (arm_mte_tag_and_clear_mem tagged_ptr slot_size) ;;;
  modify (set_arm_mte_tags (u4_arr_set slot_tags (slot_idx + 1) (get_pointer_tag tagged_ptr))) ;;;
  ret tagged_ptr.

(** allocate_small from the slot's address on, for a request that is not 0; the
    paths of a fresh slab ([reused] is false) have nothing to check. *)
Definition hand_out_slot (reused : bool) (p slot size : Z) : M mte_slab Z :=
  (if reused then mte_write_after_free_check p (size - canary_size) else ret tt) ;;;
  mte_set_canary p size ;;;
  let* enabled := is_memtag_enabled in
  if enabled then tag_and_clear_slab_slot p slot size else ret p.

(** deallocate_small from check_canary to memset. *)
Definition take_back_slot (p size : Z) : M mte_slab unit :=
  mte_check_canary p size ;;;
  let* enabled := is_memtag_enabled in
  let* skip_zero :=
    (if enabled then
       on_memory (arm_mte_tag_and_clear_mem (set_pointer_tag p RESERVED_TAG) size) ;;;
       (* arm_mte_tags is intentionally not updated *)
       ret true
     else ret false) in
  if ZERO_ON_FREE && negb skip_zero then set_bytes (memset0 p (size - canary_size)) else ret tt.

(** free on the pointer the client has: h_free removes its tag. *)
Definition free_slot (ptr size : Z) : M mte_slab unit :=
  let p := untag_pointer ptr in
  take_back_slot p size.

End Operations.

(** ** The tag of a slot *)

(** The most recent tag of slot [i]; cells 0 and beyond the last slot are edges. *)
Definition slot_tag (tags : gmap Z Z) (i : Z) : Z := u4_arr_get tags (i + 1).

Lemma testbit_bit a t : 0 <= a -> 0 <= t -> Z.testbit (Z.shiftl 1 a) t = bool_decide (t = a).
Proof. intros. rewrite Z.shiftl_spec, testbit_1 by done. apply bool_decide_ext. lia. Qed.

Lemma u4_arr_get_fits arr j : 0 <= j -> fits 4 (u4_arr_get arr j).
Proof.
  intros Hj. apply testbit_high_fits; [done|..].
  - by apply (fits_nonneg 8), wrap_fits.
  - intros i Hi. rewrite u4_arr_get_bit by lia. by rewrite bool_decide_false by lia.
Qed.

(** The exclusion mask of four tags excludes exactly them, and leaves one of the
    others. *)
Definition exclusion_mask (a b c : Z) : Z :=
  Z.lor (Z.lor (Z.lor (Z.shiftl 1 RESERVED_TAG) (Z.shiftl 1 a)) (Z.shiftl 1 b)) (Z.shiftl 1 c).

Lemma exclusion_mask_spec a b c t :
  fits 4 a -> fits 4 b -> fits 4 c -> 0 <= t ->
  Z.testbit (exclusion_mask a b c) t = false <-> t <> RESERVED_TAG /\ t <> a /\ t <> b /\ t <> c.
Proof.
  intros [? _] [? _] [? _] Ht. unfold exclusion_mask, RESERVED_TAG.
  rewrite !Z.lor_spec, !testbit_bit, !orb_false_iff, !bool_decide_eq_false by lia. tauto.
Qed.

Lemma exclusion_mask_leaves a b c :
  fits 4 a -> fits 4 b -> fits 4 c -> exists t, fits 4 t /\ Z.testbit (exclusion_mask a b c) t = false.
Proof.
  intros Ha Hb Hc.
  assert (Hex : exists t, 1 <= t <= 4 /\ t <> a /\ t <> b /\ t <> c).
  { assert (Hcase : forall x y : Z, x = y \/ x <> y) by lia.
    destruct (Hcase a 1), (Hcase b 1), (Hcase c 1), (Hcase a 2), (Hcase b 2), (Hcase c 2), (Hcase a 3), (Hcase b 3), (Hcase c 3);
      first [exists 1; lia | exists 2; lia | exists 3; lia | exists 4; lia]. }
  destruct Hex as (t & Ht & ? & ? & ?). exists t. split; [split; lia|].
  apply exclusion_mask_spec; unfold RESERVED_TAG; try done; lia.
Qed.

Section Proofs.
Context {Cfg : Config} {Cok : ConfigOk Cfg} {P : Processor} {Pok : ProcessorOk P}.
Implicit Types (s : mte_slab) (m : tagged_memory).

(** Slots and slabs are aligned and in the address space. *)
Definition slot_ok (p size : Z) : Prop := 0 <= p /\ (GRANULE | p) /\ (GRANULE | size) /\ 0 < size /\ p + size < 2 ^ 56.

Lemma slot_in_reach p size t : slot_ok p size -> fits 4 t -> in_reach (set_pointer_tag p t) size.
Proof.
  intros (H0 & Hp & Hs & Hn & Hlt) Ht. split_and!.
  - by apply set_pointer_tag_fits.
  - rewrite set_pointer_tag_sum, Z.mod_small by (done || lia).
    apply Z.divide_add_r; [|done]. apply Z.divide_mul_r. by apply (divide_pow2 4 56).
  - lia.
  - rewrite untag_set_pointer_tag, untag_pointer_small by (done || split; lia). done.
Qed.

(** Tagging a slot through a pointer to it. *)
Lemma tag_slot_run p size t m :
  slot_ok p size -> fits 4 t ->
  arm_mte_tag_and_clear_mem (set_pointer_tag p t) size m = Ret tt (zero_tag_range p size t m).
Proof.
  intros Hp Ht. rewrite tag_and_clear_run by (by apply slot_in_reach || apply Hp).
  destruct Hp as (? & ? & ? & ? & ?).
  by rewrite untag_set_pointer_tag, get_set_pointer_tag, untag_pointer_small by (done || split; lia).
Qed.

Lemma tag_and_clear_slab_slot_run s p i size :
  slot_ok p size -> 0 <= i ->
  exists t g,
    fits 4 t /\ t <> RESERVED_TAG /\
    t <> slot_tag (arm_mte_tags s) (i - 1) /\ t <> slot_tag (arm_mte_tags s) i /\ t <> slot_tag (arm_mte_tags s) (i + 1) /\
    tag_and_clear_slab_slot p i size s =
    Ret (set_pointer_tag p t)
      (MteSlab _ g (zero_tag_range p size t (memory s)) (u4_arr_set (arm_mte_tags s) (i + 1) t)
         (mte_canary_value s) (is_memtag_disabled s)).
Proof.
  intros Hp Hi. unfold slot_tag. replace (i - 1 + 1) with i by lia. replace (i + 1 + 1) with (i + 2) by lia.
  set (a := u4_arr_get (arm_mte_tags s) i). set (b := u4_arr_get (arm_mte_tags s) (i + 1)).
  set (c := u4_arr_get (arm_mte_tags s) (i + 2)).
  assert (Ha : fits 4 a) by (apply u4_arr_get_fits; lia). assert (Hb : fits 4 b) by (apply u4_arr_get_fits; lia).
  assert (Hc : fits 4 c) by (apply u4_arr_get_fits; lia).
  assert (Hp56 : fits 56 p) by (destruct Hp as (? & ? & ? & ? & ?); split; lia).
  destruct (irg_ok p (exclusion_mask a b c) (gen s) Hp56 (exclusion_mask_leaves a b c Ha Hb Hc))
    as (t & Ht & Hex & Eq).
  apply exclusion_mask_spec in Hex as (? & ? & ? & ?); [|done..|apply Ht].
  exists t, (snd (irg p (exclusion_mask a b c) (gen s))). split_and!; try done; try apply Ht.
  unfold tag_and_clear_slab_slot, arm_mte_create_random_tag, on_gen, on_memory, zoom, bind, gets, modify, ret.
  fold a b c. unfold exclusion_mask in *. destruct (irg _ _ _) as [q g]. cbn [fst snd] in *. subst q.
  cbn [memory set_gen]. rewrite tag_slot_run by done. cbn. by rewrite get_set_pointer_tag.
Qed.

(** The bytes of a slot that is handed out without tagging. *)
Definition with_canary (p size : Z) s : mte_slab :=
  if SLAB_CANARY
  then set_memory (TaggedMemory (store64 (p + size - canary_size) (mte_canary_value s) (bytes (memory s))) (tags (memory s))) s
  else s.

Lemma mte_set_canary_run p size s :
  mte_set_canary p size s = Ret tt (if is_memtag_disabled s then with_canary p size s else s).
Proof.
  unfold mte_set_canary, with_canary, is_memtag_enabled, bind, gets, ret.
  destruct SLAB_CANARY, (is_memtag_disabled s) eqn:E; try done; by rewrite E.
Qed.

Lemma mte_write_after_free_check_run p size s :
  (is_memtag_disabled s = true -> (8 | size) /\ zero_in p size (bytes (memory s))) ->
  mte_write_after_free_check p size s = Ret tt s.
Proof.
  intros Hz. unfold mte_write_after_free_check, is_memtag_enabled, bind, gets, ret.
  destruct WRITE_AFTER_FREE_CHECK, (is_memtag_disabled s) eqn:E; try done; cbn; rewrite E; cbn; try done.
  destruct (Hz eq_refl) as [[k ->] Hzero]. rewrite (Z.div_add_l k 8 7), Z.add_0_r by lia.
  rewrite load64_or_zero; [done|]. by rewrite Z.mul_comm.
Qed.

(** With tagging enabled only the tags guard a slot; without, only the checks do. *)
Lemma hand_out_slot_run b p i size s :
  (is_memtag_disabled s = true -> (8 | size - canary_size) /\ zero_in p (size - canary_size) (bytes (memory s))) ->
  hand_out_slot b p i size s =
  if is_memtag_disabled s then Ret p (with_canary p size s) else tag_and_clear_slab_slot p i size s.
Proof.
  intros Hz. unfold hand_out_slot. unfold bind at 1.
  assert (E1 : (if b then mte_write_after_free_check p (size - canary_size) else ret tt) s = Ret tt s).
  { destruct b; [|done]. by apply mte_write_after_free_check_run. }
  rewrite E1. unfold bind at 1. rewrite mte_set_canary_run. unfold is_memtag_enabled, bind, gets, ret, with_canary.
  destruct SLAB_CANARY, (is_memtag_disabled s) eqn:E; cbn; by rewrite E.
Qed.

Lemma take_back_enabled p size s :
  is_memtag_disabled s = false -> slot_ok p size ->
  take_back_slot p size s = Ret tt (set_memory (zero_tag_range p size RESERVED_TAG (memory s)) s).
Proof.
  intros He Hp. assert (Hrun := tag_slot_run p size RESERVED_TAG (memory s) Hp ltac:(done)).
  unfold take_back_slot, mte_check_canary, is_memtag_enabled, on_memory, zoom, bind, gets, ret.
  destruct SLAB_CANARY, ZERO_ON_FREE; rewrite He; cbn; rewrite ?He; cbn; by rewrite Hrun.
Qed.

(** The check aborts exactly on a canary that is neither the slab's nor 0, and
    only with tagging disabled. *)
Lemma mte_check_canary_cases p size s :
  mte_check_canary p size s =
  let v := load64 (bytes (memory s)) (p + size - canary_size) in
  if SLAB_CANARY && is_memtag_disabled s && negb (v =? 0) && negb (v =? mte_canary_value s)
  then Halt (Fatal "canary corrupted") else Ret tt s.
Proof.
  unfold mte_check_canary, is_memtag_enabled, bind, gets, ret, fatal_error.
  destruct SLAB_CANARY, (is_memtag_disabled s); cbn; try done. by repeat destruct (_ =? _).
Qed.

Lemma take_back_disabled p size s :
  is_memtag_disabled s = true -> ZERO_ON_FREE = true ->
  (SLAB_CANARY = true -> load64 (bytes (memory s)) (p + size - canary_size) = 0 \/
    load64 (bytes (memory s)) (p + size - canary_size) = mte_canary_value s) ->
  take_back_slot p size s =
  Ret tt (set_memory (TaggedMemory (memset0 p (size - canary_size) (bytes (memory s))) (tags (memory s))) s).
Proof.
  intros He Hz Hc. unfold take_back_slot, bind at 1. rewrite mte_check_canary_cases. cbv zeta.
  assert (E : SLAB_CANARY && is_memtag_disabled s && negb (load64 (bytes (memory s)) (p + size - canary_size) =? 0) &&
    negb (load64 (bytes (memory s)) (p + size - canary_size) =? mte_canary_value s) = false).
  { destruct SLAB_CANARY; [|done]. rewrite He. cbn [andb]. destruct (Hc eq_refl) as [-> | ->]; [done|].
    by rewrite Z.eqb_refl, andb_false_r. }
  rewrite E. unfold is_memtag_enabled, set_bytes, on_memory, zoom, bind, gets, ret, modify.
  by rewrite He, Hz.
Qed.

(** A slab's canary is never 0, which marks the slots of the time before. *)
Lemma mte_set_slab_canary_value_run random s :
  exists v, mte_set_slab_canary_value random s = Ret tt (set_mte_canary_value v s) /\
    (SLAB_CANARY = true -> fits 64 random -> v <> 0 /\ fits 64 v).
Proof.
  unfold mte_set_slab_canary_value, bind, gets, ret, modify. destruct SLAB_CANARY.
  - cbn. destruct (Z.eqb_spec (Z.land random canary_mask) 0) as [E|E].
    + exists 0x100. split; [by destruct s|]. intros _ _. split; [done|]. split; lia.
    + exists (Z.land random canary_mask). split; [done|]. intros _ Hr. split; [done|].
      apply testbit_high_fits; [done|apply Z.land_nonneg; left; by destruct Hr|].
      intros i Hi. rewrite Z.land_spec. by rewrite (fits_testbit_high 64 random).
  - exists (mte_canary_value s). by destruct s.
Qed.
End Proofs.
