(* ===== verification/MteSpec.v ===== *)
(** The life of a slab under memory tagging: the sequences of allocations,
    deallocations and stores of its slots, with tagging disabled at any point, and
    the invariant that links the tags of memory to the pointers handed out. *)

From S2P Require Import Prelude Config Util Kernel RandomSource SizeClass SlabMeta Slab Memtag MteAsm MteSlab.

#[export] Instance list_zeroed {A} : Zeroed (list A) := [].

(** A slab with the slots in use and, for every slot, the pointers to it that were
    handed out, newest first. *)
Record slab_history `{Processor} := SlabHistory {
  st : mte_slab;
  used : gset Z;
  given : gmap Z (list Z)
}.

(** Slabs and slots start at granules, and the slab is in the address space. *)
Definition slab_geometry (slab size slots : Z) : Prop :=
  0 <= slab /\ (GRANULE | slab) /\ (GRANULE | size) /\ 0 < size /\ 0 < slots <= 256 /\ slab + slots * size < 2 ^ 56.

(** h_malloc.c asserts that a build with memory tagging zeroes freed memory. *)
Definition mte_static_asserts `{Config} : bool := ZERO_ON_FREE.

Section Life.
Context {Cfg : Config} {P : Processor} (slab size slots : Z).
Implicit Types (h : slab_history) (s : mte_slab).

Definition slot (i : Z) : Z := slot_pointer size slab i.
Definition is_slot (i : Z) : Prop := 0 <= i < slots.

(** A store of the client inside the usable part of a slot. *)
Definition client_store (a v : Z) s : mte_slab :=
  set_memory (TaggedMemory (bytes (memory s)).[a <- v] (tags (memory s))) s.

(** The pages of the slab mapped again: zero, with the tag of fresh memory. *)
Definition remap_slab s : mte_slab := set_memory (zero_tag_range slab (slots * size) 0 (memory s)) s.

Inductive step h : slab_history -> Prop :=
| step_alloc reused i p s' :
    is_slot i -> i ∉ used h ->
    hand_out_slot reused (slot i) i size (st h) = Ret p s' ->
    step h (SlabHistory _ s' ({[i]} ∪ used h) (given h).[i <- p :: (given h).[i]])
| step_free i p rest s' :
    i ∈ used h -> (given h).[i] = p :: rest ->
    free_slot p size (st h) = Ret tt s' ->
    step h (SlabHistory _ s' (used h ∖ {[i]}) (given h))
| step_store i off v :
    i ∈ used h -> 0 <= off < size - canary_size ->
    step h (SlabHistory _ (client_store (slot i + off) v (st h)) (used h) (given h))
| step_disable :
    step h (SlabHistory _ (set_memtag_disabled (st h)) (used h) (given h))
| step_recycle random s' :
    used h = ∅ -> fits 64 random ->
    mte_set_slab_canary_value random (remap_slab (st h)) = Ret tt s' ->
    step h (SlabHistory _ s' ∅ (given h)).

(** A new slab: fresh pages, zero metadata, and a canary. *)
Inductive reachable : slab_history -> Prop :=
| reachable_new g m disabled random s' :
    fits 64 random ->
    mte_set_slab_canary_value random (remap_slab (MteSlab _ g m ∅ 0 disabled)) = Ret tt s' ->
    reachable (SlabHistory _ s' ∅ ∅)
| reachable_step h h' : reachable h -> step h h' -> reachable h'.

(** ** The invariant *)

Definition tag_of s (i : Z) : Z := slot_tag (arm_mte_tags s) i.
Definition in_slot (i x : Z) : Prop := slot i <= x < slot i + size.

(** A slot out of use is zero up to its canary; a canary in use is the slab's, or
    0 when tagging guarded the slot. *)
Definition canary_at s (i : Z) : Z := load64 (bytes (memory s)) (slot i + size - canary_size).
Definition contents_inv s (u : gset Z) : Prop :=
  (SLAB_CANARY = true -> mte_canary_value s <> 0 /\ fits 64 (mte_canary_value s)) /\
  forall i, is_slot i ->
    (i ∉ u -> zero_in (slot i) (size - canary_size) (bytes (memory s))) /\
    (i ∈ u -> SLAB_CANARY = true -> canary_at s i = 0 \/ canary_at s i = mte_canary_value s).

(** While tagging is enabled, memory has the tag of its slot when it is in use and
    the reserved one otherwise, and the newest pointer to a slot has its tag, which
    the pointer before it does not have. *)
Definition tags_inv s (u : gset Z) (g : gmap Z (list Z)) : Prop :=
  (forall i x, is_slot i -> in_slot i x ->
     granule_tag (memory s) x = if decide (i ∈ u) then tag_of s i else RESERVED_TAG) /\
  (forall i p rest, is_slot i -> g.[i] = p :: rest ->
     get_pointer_tag p = tag_of s i /\ tag_of s i <> RESERVED_TAG /\
     forall q old, rest = q :: old -> get_pointer_tag q <> tag_of s i) /\
  (forall i, is_slot i -> is_slot (i + 1) -> tag_of s i = tag_of s (i + 1) -> tag_of s i = RESERVED_TAG).

Record history_inv h : Prop := {
  hi_used : forall i, i ∈ used h -> is_slot i /\ (given h).[i] <> [];
  hi_given : forall i p, is_slot i -> p ∈ (given h).[i] -> untag_pointer p = slot i;
  hi_edges : forall i, -1 <= i -> ~ is_slot i -> tag_of (st h) i = RESERVED_TAG;
  hi_tags : is_memtag_disabled (st h) = false -> tags_inv (st h) (used h) (given h);
  hi_contents : contents_inv (st h) (used h)
}.
End Life.

(** ** Every step keeps the invariant *)

Section Invariant.
Context {Cfg : Config} {Cok : ConfigOk Cfg} {P : Processor} {Pok : ProcessorOk P}.
Context (slab size slots : Z) (Hgeo : slab_geometry slab size slots) (Hzero : mte_static_asserts = true).
Implicit Types (h : slab_history) (s : mte_slab).
Abbreviation slot := (slot slab size).
Abbreviation is_slot := (is_slot slots).
Abbreviation in_slot := (in_slot slab size).
Abbreviation canary_at := (canary_at slab size).
Abbreviation contents_inv := (contents_inv slab size slots).
Abbreviation tags_inv := (tags_inv slab size slots).
Abbreviation history_inv := (history_inv slab size slots).

Lemma slot_eq i : is_slot i -> slot i = slab + i * size.
Proof.
  destruct Hgeo as (? & _ & _ & ? & ? & ?). intros [? ?]. unfold slot, slot_pointer.
  rewrite (wrap_small 64 (i * size)) by (split; nia). apply wrap_small. split; nia.
Qed.

Lemma slot_is_ok i : is_slot i -> slot_ok (slot i) size.
Proof.
  intros Hi. rewrite slot_eq by done. destruct Hgeo as (? & ? & ? & ? & ? & ?), Hi as [? ?].
  split_and!; [nia|by apply Z.divide_add_r, Z.divide_mul_r|done|done|nia].
Qed.

Lemma slot_disjoint i j x : is_slot i -> is_slot j -> in_slot i x -> in_slot j x -> i = j.
Proof.
  unfold in_slot. intros Hi Hj. rewrite !slot_eq by done. destruct Hgeo as (_ & _ & _ & ? & _ & _). nia.
Qed.

Lemma usable_size : (8 | size - canary_size) /\ 8 <= size - canary_size <= size.
Proof.
  destruct Hgeo as (_ & _ & [k Hk] & ? & _ & _). unfold GRANULE, canary_size in *.
  destruct SLAB_CANARY; (split; [|lia]); [exists (2 * k - 1)|exists (2 * k)]; lia.
Qed.

Lemma canary_in_slot i x : SLAB_CANARY = true -> slot i + size - canary_size <= x < slot i + size - canary_size + 8 -> in_slot i x.
Proof.
  intros Hc. pose proof usable_size as [_ Hu]. unfold in_slot, canary_size in *. rewrite Hc in *. lia.
Qed.

(** A change of the bytes of one slot. *)
Lemma contents_keep i s s' u u' :
  is_slot i -> contents_inv s u -> mte_canary_value s' = mte_canary_value s ->
  (forall x, ~ in_slot i x -> (bytes (memory s')).[x] = (bytes (memory s)).[x]) ->
  (forall j, j <> i -> j ∈ u' <-> j ∈ u) ->
  (i ∉ u' -> zero_in (slot i) (size - canary_size) (bytes (memory s'))) ->
  (i ∈ u' -> SLAB_CANARY = true -> canary_at s' i = 0 \/ canary_at s' i = mte_canary_value s') ->
  contents_inv s' u'.
Proof.
  intros Hi [Hv Hs] Ev Hb Hu Hz Hc. split; [by rewrite Ev|]. intros j Hj. destruct (decide (j = i)) as [->|Hne]; [done|].
  assert (Hout : forall x, in_slot j x -> ~ in_slot i x) by (intros x Hx Hx'; by apply Hne, (slot_disjoint j i x)).
  specialize (Hs j Hj) as [Hsz Hsc]. pose proof usable_size as [_ Hus]. split.
  - intros Hju x Hx. rewrite Hb by (apply Hout; unfold in_slot; lia). apply Hsz; [by rewrite <- Hu|done].
  - intros Hju E. rewrite Ev. unfold canary_at. rewrite (load64_same (bytes (memory s))); [apply Hsc; [by apply Hu|done]|].
    intros x Hx. by apply Hb, Hout, canary_in_slot.
Qed.

Lemma contents_disable s u : contents_inv s u -> contents_inv (set_memtag_disabled s) u.
Proof. done. Qed.

Lemma tag_of_set s g m v d i t j :
  is_slot i -> -1 <= j -> fits 4 t ->
  tag_of (MteSlab _ g m (u4_arr_set (arm_mte_tags s) (i + 1) t) v d) j = if decide (j = i) then t else tag_of s j.
Proof.
  intros [Hi _] Hj Ht. unfold tag_of, slot_tag. cbn [arm_mte_tags].
  rewrite u4_arr_get_set by (done || lia). apply decide_ext. lia.
Qed.

(** Tagging slot [i] with [t]. *)
Lemma granule_tag_slot i t m x :
  is_slot i -> granule_tag (zero_tag_range (slot i) size t m) x = if decide (in_slot i x) then t else granule_tag m x.
Proof.
  intros Hi. destruct (slot_is_ok i Hi) as (_ & Hp & Hs & _). rewrite granule_zero_tag by done. done.
Qed.

Lemma slot_bytes_zero i t m x :
  (bytes (zero_tag_range (slot i) size t m)).[x] = if decide (in_slot i x) then 0 else (bytes m).[x].
Proof. apply zero_tag_bytes. Qed.

Lemma canary_zeroed i t m : SLAB_CANARY = true ->
  load64 (bytes (zero_tag_range (slot i) size t m)) (slot i + size - canary_size) = 0.
Proof.
  intros Hc. apply load64_zero. intros x Hx. rewrite slot_bytes_zero, decide_True; [done|].
  by apply canary_in_slot.
Qed.

Lemma elem_of_add (u : gset Z) i j : j <> i -> j ∈ ({[i]} ∪ u : gset Z) <-> j ∈ u.
Proof. intros Hne. rewrite elem_of_union, elem_of_singleton. tauto. Qed.

(** What handing out slot [i] does to the history. *)
Definition handed_out h i p s' : slab_history := SlabHistory _ s' ({[i]} ∪ used h) (given h).[i <- p :: (given h).[i]].

Lemma given_aset h i p j : (given h).[i <- p :: (given h).[i]].[j] = if decide (i = j) then p :: (given h).[i] else (given h).[j].
Proof. apply aget_aset_case. Qed.

(** The part of the invariant about pointers alone. *)
Lemma handed_out_inv h i p s' :
  history_inv h -> is_slot i -> untag_pointer p = slot i ->
  (forall j, -1 <= j -> ~ is_slot j -> tag_of s' j = tag_of (st h) j) ->
  (is_memtag_disabled s' = false -> tags_inv s' ({[i]} ∪ used h) (given h).[i <- p :: (given h).[i]]) ->
  contents_inv s' ({[i]} ∪ used h) ->
  history_inv (handed_out h i p s').
Proof.
  intros Hh Hi Hp Hedge Ht Hc. constructor; cbn [used given st handed_out]; [..|done|done].
  - intros j Hj. rewrite given_aset. case_decide as E; [by subst|].
    apply elem_of_union in Hj as [Hj%elem_of_singleton|Hj]; [done|]. by apply (hi_used _ _ _ _ Hh).
  - intros j q Hj. rewrite given_aset. case_decide as E; [subst|by apply (hi_given _ _ _ _ Hh)].
    intros [->|Hq]%elem_of_cons; [done|]. by apply (hi_given _ _ _ _ Hh).
  - intros j Hj0 Hj. rewrite Hedge by done. by apply (hi_edges _ _ _ _ Hh).
Qed.

Lemma alloc_enabled_inv h b i :
  history_inv h -> is_slot i -> i ∉ used h -> is_memtag_disabled (st h) = false ->
  exists p s', hand_out_slot b (slot i) i size (st h) = Ret p s' /\ history_inv (handed_out h i p s').
Proof.
  intros Hh Hi Hu He. pose proof (slot_is_ok i Hi) as Hok. set (s := st h) in *.
  destruct (tag_and_clear_slab_slot_run s (slot i) i size Hok (proj1 Hi)) as (t & g & Ht & Hr & Hl & Ho & Hn & Hrun).
  exists (set_pointer_tag (slot i) t), (MteSlab _ g (zero_tag_range (slot i) size t (memory s))
    (u4_arr_set (arm_mte_tags s) (i + 1) t) (mte_canary_value s) (is_memtag_disabled s)).
  split.
  { rewrite <- Hrun, hand_out_slot_run by (intros; congruence). by rewrite He. }
  destruct (hi_tags _ _ _ _ Hh He) as (Hm & Hg & Ha). fold s in Hm, Hg, Ha.
  apply handed_out_inv; try done.
  - rewrite untag_set_pointer_tag by done. apply untag_pointer_small. destruct Hok as (? & _ & _ & ? & ?). split; lia.
  - intros j Hj Hnj. rewrite tag_of_set by done. case_decide; [by subst|done].
  - intros _. split_and!.
    + intros j x Hj Hx. assert (0 <= j) by apply Hj. rewrite tag_of_set by (done || lia). cbn [memory]. rewrite granule_tag_slot by done.
      case_decide as Hix.
      * rewrite (slot_disjoint j i x Hj Hi Hx Hix), decide_True by (apply elem_of_union_l, elem_of_singleton_2; done).
        by rewrite decide_True.
      * assert (j <> i) by (intros ->; done). rewrite (decide_False (P := j = i)) by done.
        rewrite (Hm j x) by done. apply decide_ext. by rewrite elem_of_add.
    + intros j p rest Hj. assert (0 <= j) by apply Hj. rewrite given_aset, tag_of_set by (done || lia).
      destruct (decide (i = j)) as [<-|Hne]; [|rewrite decide_False by congruence; by apply Hg].
      rewrite decide_True by done. intros [= <- <-]. rewrite get_set_pointer_tag by done.
      split; [done|]. split; [done|]. intros q old Eq. destruct (Hg i q old Hi Eq) as [-> _]. unfold tag_of. congruence.
    + intros j Hj Hj1. assert (0 <= j) by apply Hj. rewrite !tag_of_set by (done || lia).
      destruct (decide (j = i)) as [->|Hne]; [by rewrite decide_False by lia|].
      destruct (decide (j + 1 = i)) as [<-|]; [|by apply Ha].
      replace (j + 1 - 1) with j in Hl by lia. by intros <-.
  - apply (contents_keep i s _ (used h)); try done; [apply Hh|..].
    + intros x Hx. cbn [memory]. rewrite slot_bytes_zero. by rewrite decide_False.
    + intros j Hj. by apply elem_of_add.
    + intros Hnot. by destruct Hnot; apply elem_of_union_l, elem_of_singleton_2.
    + intros _ E. left. by apply canary_zeroed.
Qed.

Lemma alloc_disabled_inv h b i :
  history_inv h -> is_slot i -> i ∉ used h -> is_memtag_disabled (st h) = true ->
  exists p s', hand_out_slot b (slot i) i size (st h) = Ret p s' /\ history_inv (handed_out h i p s').
Proof.
  intros Hh Hi Hu He. pose proof (slot_is_ok i Hi) as Hok. set (s := st h) in *.
  assert (Hc : contents_inv s (used h)) by apply Hh. pose proof Hc as [Hv Hz].
  exists (slot i), (with_canary (slot i) size s).
  assert (Ed : is_memtag_disabled (with_canary (slot i) size s) = true) by (unfold with_canary; by destruct SLAB_CANARY).
  assert (Et : forall j, tag_of (with_canary (slot i) size s) j = tag_of s j) by (intros j; unfold with_canary; by destruct SLAB_CANARY).
  assert (Ev : mte_canary_value (with_canary (slot i) size s) = mte_canary_value s) by (unfold with_canary; by destruct SLAB_CANARY).
  pose proof usable_size as [Hus8 Hus]. split; [rewrite hand_out_slot_run, He by (intros _; split; [done|by apply Hz]); done|].
  apply handed_out_inv; try done; [|congruence|].
  - apply untag_pointer_small. destruct Hok as (? & _ & _ & ? & ?). split; lia.
  - apply (contents_keep i s _ (used h)); try done.
    + intros x Hx. unfold with_canary. destruct SLAB_CANARY eqn:E; [|done]. cbn [memory set_memory bytes].
      apply store64_only. destruct (decide (in_slot i x)) as [|Hn]; [done|].
      assert (~ (slot i + size - canary_size <= x < slot i + size - canary_size + 8)) by (intros ?; by apply Hn, canary_in_slot).
      lia.
    + intros j Hj. by apply elem_of_add.
    + intros Hnot. by destruct Hnot; apply elem_of_union_l, elem_of_singleton_2.
    + intros _ E. right. rewrite Ev. unfold canary_at, with_canary. rewrite E. cbn [memory set_memory bytes].
      apply load64_store64_fits. by apply Hv.
Qed.

(** The other steps keep the pointers and the table of tags. *)
Lemma kept_inv h s' u' :
  history_inv h -> (forall j, j ∈ u' -> j ∈ used h) -> arm_mte_tags s' = arm_mte_tags (st h) ->
  (is_memtag_disabled s' = false -> is_memtag_disabled (st h) = false /\
     forall j x, is_slot j -> in_slot j x ->
       granule_tag (memory s') x = if decide (j ∈ u') then tag_of (st h) j else RESERVED_TAG) ->
  contents_inv s' u' ->
  history_inv (SlabHistory _ s' u' (given h)).
Proof.
  intros Hh Hu Ea Ht Hc.
  assert (Et : forall j, tag_of s' j = tag_of (st h) j) by (intros j; unfold tag_of; by rewrite Ea).
  constructor; cbn [used given st]; [..|done].
  - intros j Hj. by apply (hi_used _ _ _ _ Hh), Hu.
  - apply (hi_given _ _ _ _ Hh).
  - intros j. rewrite Et. apply (hi_edges _ _ _ _ Hh).
  - intros He. destruct (Ht He) as [He' Hm]. destruct (hi_tags _ _ _ _ Hh He') as (_ & Hg & Ha). split_and!.
    + intros j x. rewrite Et. apply Hm.
    + intros j p rest. rewrite Et. apply Hg.
    + intros j. rewrite !Et. apply Ha.
Qed.

Lemma free_inv h i p rest :
  history_inv h -> i ∈ used h -> (given h).[i] = p :: rest ->
  exists s', free_slot p size (st h) = Ret tt s' /\ history_inv (SlabHistory _ s' (used h ∖ {[i]}) (given h)).
Proof.
  intros Hh Hu Hg. pose proof (proj1 (hi_used _ _ _ _ Hh i Hu)) as Hi. pose proof (slot_is_ok i Hi) as Hok.
  assert (Hc : contents_inv (st h) (used h)) by apply Hh. pose proof Hc as [Hv Hz].
  assert (Hp : untag_pointer p = slot i) by (apply (hi_given _ _ _ _ Hh i p Hi); rewrite Hg; apply list_elem_of_here).
  assert (Hrest : forall j, j <> i -> j ∈ used h ∖ {[i]} <-> j ∈ used h).
  { intros j Hj. rewrite elem_of_difference, elem_of_singleton. tauto. }
  assert (Hsub : forall j, j ∈ used h ∖ {[i]} -> j ∈ used h) by (intros j; rewrite elem_of_difference; tauto).
  assert (Hno : i ∉ used h ∖ {[i]}) by (rewrite elem_of_difference, elem_of_singleton; tauto).
  pose proof usable_size as [_ Hus]. unfold free_slot. rewrite Hp.
  destruct (is_memtag_disabled (st h)) eqn:He.
  - exists (set_memory (TaggedMemory (memset0 (slot i) (size - canary_size) (bytes (memory (st h)))) (tags (memory (st h)))) (st h)).
    split; [apply take_back_disabled; [done|done|by apply Hz]|].
    apply kept_inv; [done|exact Hsub|done|cbn; congruence|].
    apply (contents_keep i (st h) _ (used h)); try done.
    + intros x Hx. apply memset0_only. unfold in_slot in Hx. lia.
    + intros _. apply memset0_zero.
  - exists (set_memory (zero_tag_range (slot i) size RESERVED_TAG (memory (st h))) (st h)).
    split; [by apply take_back_enabled|]. destruct (hi_tags _ _ _ _ Hh He) as (Hm & _ & _).
    apply kept_inv; [done|exact Hsub|done|cbn [memory set_memory]; intros _; split; [done|]|].
    + intros j x Hj Hx. rewrite granule_tag_slot by done. case_decide as Hix.
      * rewrite (slot_disjoint j i x Hj Hi Hx Hix). by rewrite decide_False.
      * assert (j <> i) by (intros ->; done). rewrite (Hm j x) by done. apply decide_ext. by rewrite Hrest.
    + apply (contents_keep i (st h) _ (used h)); try done.
      * intros x Hx. cbn [memory set_memory]. rewrite slot_bytes_zero. by rewrite decide_False.
      * intros _ x Hx. cbn [memory set_memory]. rewrite slot_bytes_zero. rewrite decide_True; [done|]. unfold in_slot. lia.
Qed.

Lemma store_inv h i off v :
  history_inv h -> i ∈ used h -> 0 <= off < size - canary_size ->
  history_inv (SlabHistory _ (client_store (slot i + off) v (st h)) (used h) (given h)).
Proof.
  intros Hh Hu Ho. pose proof (proj1 (hi_used _ _ _ _ Hh i Hu)) as Hi. pose proof usable_size as [_ Hus].
  assert (Hc : contents_inv (st h) (used h)) by apply Hh. pose proof Hc as [Hv Hz].
  apply kept_inv; [done|done|done|..].
  - intros He. split; [done|]. apply (hi_tags _ _ _ _ Hh He).
  - apply (contents_keep i (st h) _ (used h)); try done.
    + intros x Hx. cbn. apply aget_aset_ne. intros <-. apply Hx. unfold in_slot. lia.
    + intros _ E. cbn [mte_canary_value client_store set_memory]. unfold canary_at. cbn [memory client_store set_memory bytes].
      rewrite (load64_same (bytes (memory (st h)))); [by apply Hz|].
      intros x Hx. apply aget_aset_ne. lia.
Qed.

Lemma disable_inv h : history_inv h -> history_inv (SlabHistory _ (set_memtag_disabled (st h)) (used h) (given h)).
Proof. intros Hh. apply kept_inv; try done. apply Hh. Qed.

(** A slab on pages mapped afresh. *)
Lemma remap_contents s v :
  (SLAB_CANARY = true -> v <> 0 /\ fits 64 v) ->
  contents_inv (set_mte_canary_value v (remap_slab slab size slots s)) ∅.
Proof.
  intros Hv. split; [done|]. intros i Hi. split; [|by intros ?%elem_of_empty]. intros _ x Hx.
  pose proof usable_size as [_ Hus]. cbn [memory set_mte_canary_value remap_slab set_memory].
  rewrite zero_tag_bytes, decide_True; [done|]. rewrite slot_eq in Hx by done.
  destruct Hgeo as (_ & _ & _ & ? & _ & _), Hi as [? ?]. nia.
Qed.

Lemma remap_granule s v i x :
  is_slot i -> in_slot i x -> granule_tag (memory (set_mte_canary_value v (remap_slab slab size slots s))) x = RESERVED_TAG.
Proof.
  intros Hi Hx. cbn [memory set_mte_canary_value remap_slab set_memory].
  destruct Hgeo as (_ & ? & ? & ? & _ & _). rewrite granule_zero_tag by (done || by apply Z.divide_mul_r).
  rewrite decide_True; [done|]. unfold in_slot in Hx. rewrite slot_eq in Hx by done. destruct Hi as [? ?]. nia.
Qed.

Lemma recycle_inv h random s' :
  history_inv h -> used h = ∅ -> fits 64 random ->
  mte_set_slab_canary_value random (remap_slab slab size slots (st h)) = Ret tt s' ->
  history_inv (SlabHistory _ s' ∅ (given h)).
Proof.
  intros Hh Hu Hr Hs. destruct (mte_set_slab_canary_value_run random (remap_slab slab size slots (st h))) as (v & Hrun & Hv).
  rewrite Hrun in Hs. injection Hs as <-. apply kept_inv; [done|by intros j ?%elem_of_empty|done|..].
  - intros He. split; [done|]. intros j x Hj Hx. rewrite decide_False by apply not_elem_of_empty. by apply (remap_granule _ _ j).
  - apply remap_contents. auto.
Qed.

Lemma new_inv g m disabled random s' :
  fits 64 random ->
  mte_set_slab_canary_value random (remap_slab slab size slots (MteSlab _ g m ∅ 0 disabled)) = Ret tt s' ->
  history_inv (SlabHistory _ s' ∅ ∅).
Proof.
  intros Hr Hs. destruct (mte_set_slab_canary_value_run random (remap_slab slab size slots (MteSlab _ g m ∅ 0 disabled))) as (v & Hrun & Hv).
  rewrite Hrun in Hs. injection Hs as <-.
  assert (Ht : forall j, tag_of (set_mte_canary_value v (remap_slab slab size slots (MteSlab _ g m ∅ 0 disabled))) j = RESERVED_TAG).
  { intros j. unfold tag_of, slot_tag, u4_arr_get. cbn. rewrite aget_empty_Z, Z.shiftr_0_l. done. }
  constructor; cbn [used given st].
  - by intros j ?%elem_of_empty.
  - intros j p _. rewrite aget_empty. by intros ?%elem_of_nil.
  - intros j _ _. apply Ht.
  - intros _. split_and!.
    + intros j x Hj Hx. rewrite decide_False by apply not_elem_of_empty. by apply (remap_granule _ _ j).
    + intros j p rest _. by rewrite aget_empty.
    + intros j _ _ _. apply Ht.
  - apply remap_contents. auto.
Qed.

(** Every reachable history satisfies the invariant. *)
Lemma reachable_inv h : reachable slab size slots h -> history_inv h.
Proof.
  induction 1 as [g m d random s' Hr Hs|h h' _ IH Hstep]; [by eapply new_inv|].
  destruct Hstep as [b i p s' Hi Hu Hrun|i p rest s' Hu Hg Hrun|i off v Hu Ho| |random s' Hu Hr Hs].
  - destruct (is_memtag_disabled (st h)) eqn:He;
      [destruct (alloc_disabled_inv h b i IH Hi Hu He) as (q & t & Hq & Hinv)
      |destruct (alloc_enabled_inv h b i IH Hi Hu He) as (q & t & Hq & Hinv)];
      unfold slot in *; rewrite Hrun in Hq; injection Hq as <- <-; done.
  - destruct (free_inv h i p rest IH Hu Hg) as (t & Ht & Hinv). rewrite Hrun in Ht. by injection Ht as <-.
  - by apply store_inv.
  - by apply disable_inv.
  - by eapply recycle_inv.
Qed.
End Invariant.

(** ** What the tags promise *)

Section Promises.
Context {Cfg : Config} {Cok : ConfigOk Cfg} {P : Processor} {Pok : ProcessorOk P}.
Context (slab size slots : Z) (Hgeo : slab_geometry slab size slots) (Hzero : mte_static_asserts = true).
Abbreviation slot := (slot slab size).
Abbreviation is_slot := (is_slot slots).
Abbreviation in_slot := (in_slot slab size).

Lemma slot_address i x : is_slot i -> in_slot i x -> 0 <= x < 2 ^ 56.
Proof.
  intros Hi Hx. destruct (slot_is_ok slab size slots Hgeo i Hi) as (? & _ & _ & ? & ?). unfold in_slot in Hx. lia.
Qed.

(** Whether a pointer reaches a byte of a slot is a matter of the slot's tag. *)
Lemma reaches_slot h p i x :
  history_inv slab size slots h -> is_memtag_disabled (st h) = false -> is_slot i -> in_slot i x ->
  access_ok (memory (st h)) (pointer_to p x) 1 =
  (if decide (i ∈ used h) then get_pointer_tag p =? tag_of (st h) i else get_pointer_tag p =? RESERVED_TAG).
Proof.
  intros Hh He Hi Hx. rewrite access_pointer_to by (by apply (slot_address i)).
  destruct (hi_tags _ _ _ _ Hh He) as (Hm & _ & _). rewrite (Hm i x) by done. case_decide; apply Z.eqb_sym.
Qed.

Lemma newest_tag h p rest i :
  history_inv slab size slots h -> is_memtag_disabled (st h) = false -> is_slot i -> (given h).[i] = p :: rest ->
  get_pointer_tag p = tag_of (st h) i /\ tag_of (st h) i <> RESERVED_TAG /\
  forall q old, rest = q :: old -> get_pointer_tag q <> tag_of (st h) i.
Proof. intros Hh He Hi. destruct (hi_tags _ _ _ _ Hh He) as (_ & Hg & _). by apply Hg. Qed.

(** The tag of a slot in use is not that of its neighbour. *)
Lemma neighbour_tag h i j :
  history_inv slab size slots h -> is_memtag_disabled (st h) = false -> is_slot i -> is_slot j -> j = i - 1 \/ j = i + 1 ->
  tag_of (st h) i <> RESERVED_TAG -> tag_of (st h) i <> tag_of (st h) j.
Proof.
  intros Hh He Hi Hj Hij Hr E. destruct (hi_tags _ _ _ _ Hh He) as (_ & _ & Ha). destruct Hij as [-> | ->].
  - apply Hr. rewrite E. apply Ha; [done|by replace (i - 1 + 1) with i by lia|].
    by replace (i - 1 + 1) with i by lia.
  - by apply Hr, Ha.
Qed.

Ltac reaches Hh He i x :=
  rewrite (reaches_slot _ _ i x Hh He) by done;
  first [rewrite decide_True by done | rewrite decide_False by done].

(** C11: With tagging enabled, after any sequence of allocations, deallocations,
    stores and remappings of a slab: the pointer that allocated a slot reaches every
    byte of it; arithmetic on it reaches no byte of the two slots next to it; once
    the slot is freed it reaches no byte of the slot any more, and still none after
    the slot is allocated again. *)
Theorem tags_protect h i p rest :
  reachable slab size slots h -> is_memtag_disabled (st h) = false -> is_slot i -> (given h).[i] = p :: rest ->
  (i ∈ used h -> forall x, in_slot i x -> access_ok (memory (st h)) (pointer_to p x) 1 = true) /\
  (i ∈ used h -> forall j x, is_slot j -> j = i - 1 \/ j = i + 1 -> in_slot j x ->
     access_ok (memory (st h)) (pointer_to p x) 1 = false) /\
  (i ∉ used h -> forall x, in_slot i x -> access_ok (memory (st h)) (pointer_to p x) 1 = false) /\
  (i ∈ used h -> forall q old x, rest = q :: old -> in_slot i x ->
     access_ok (memory (st h)) (pointer_to q x) 1 = false).
Proof.
  intros Hh%reachable_inv He Hi Hg; [|done..].
  destruct (newest_tag h p rest i Hh He Hi Hg) as (Ep & Hr & Hq). rewrite <- Ep in Hr. split_and!.
  - intros Hu x Hx. reaches Hh He i x. by apply Z.eqb_eq.
  - intros Hu j x Hj Hij Hx. rewrite (reaches_slot _ _ j x Hh He) by done. rewrite Ep in *.
    case_decide; apply Z.eqb_neq; [by apply neighbour_tag|done].
  - intros Hu x Hx. reaches Hh He i x. by apply Z.eqb_neq.
  - intros Hu q old x Eq Hx. reaches Hh He i x. apply Z.eqb_neq. by apply (Hq q old).
Qed.

(** C12: Memory tagging can be disabled at any time: whatever was allocated, freed,
    stored and remapped before and after, every free slot can be handed out and
    every slot in use can be given back, without any abort, and what is handed out
    is the slot; but with tagging disabled a canary that is overwritten by a value
    that is neither the slab's nor 0 still aborts. *)
Theorem slab_never_stuck h :
  reachable slab size slots h ->
  (forall i reused, is_slot i -> i ∉ used h ->
     exists p s', hand_out_slot reused (slot i) i size (st h) = Ret p s' /\ untag_pointer p = slot i) /\
  (forall i, i ∈ used h -> exists p rest, (given h).[i] = p :: rest /\
     (exists s', free_slot p size (st h) = Ret tt s') /\
     (forall m, SLAB_CANARY = true -> is_memtag_disabled (st h) = true ->
        load64 (bytes m) (slot i + size - canary_size) <> 0 ->
        load64 (bytes m) (slot i + size - canary_size) <> mte_canary_value (st h) ->
        free_slot p size (set_memory m (st h)) = Halt (Fatal "canary corrupted"))).
Proof.
  intros Hh%reachable_inv; [|done..]. split.
  - intros i b Hi Hu.
    assert (Hrun : exists p s', hand_out_slot b (slot i) i size (st h) = Ret p s' /\ history_inv slab size slots (handed_out h i p s')).
    { destruct (is_memtag_disabled (st h)) eqn:He; [by apply alloc_disabled_inv|by apply alloc_enabled_inv]. }
    destruct Hrun as (p & s' & Hrun & Hinv). exists p, s'. split; [done|].
    apply (hi_given _ _ _ _ Hinv); [done|]. cbn [given handed_out]. rewrite aget_aset. apply list_elem_of_here.
  - intros i Hu. destruct (hi_used _ _ _ _ Hh i Hu) as [Hi Hne].
    destruct ((given h).[i]) as [|p rest] eqn:Hg; [done|]. exists p, rest. split; [done|]. split.
    + destruct (free_inv slab size slots Hgeo Hzero h i p rest Hh Hu Hg) as (s' & Hrun & _). by exists s'.
    + intros m Hc Hd H0 Hv. unfold free_slot, take_back_slot, bind at 1. rewrite mte_check_canary_cases. cbv zeta.
      rewrite (hi_given _ _ _ _ Hh i p Hi) by (rewrite Hg; apply list_elem_of_here).
      cbn [memory is_memtag_disabled mte_canary_value set_memory].
      rewrite Hc, Hd. cbn [andb]. by rewrite (proj2 (Z.eqb_neq _ _) H0), (proj2 (Z.eqb_neq _ _) Hv).
Qed.
End Promises.

(** ** A concrete history

    Four slots of 64 bytes at 4096; steps by evaluation. *)

Abbreviation demo_reachable := (reachable (Cfg := default_config) (P := demo_processor) 4096 64 4).
Abbreviation demo_history := (slab_history (H := demo_processor)).

Definition demo_new : demo_history :=
  let s := MteSlab demo_processor 0 (TaggedMemory ∅ ∅) ∅ 0 false in
  SlabHistory demo_processor
    (snd (returned (mte_set_slab_canary_value (Cfg := default_config) 7) (remap_slab 4096 64 4 s) (tt, s))) ∅ ∅.

Definition demo_alloc (i : Z) (h : demo_history) : demo_history :=
  let r := returned (hand_out_slot (Cfg := default_config) true (slot 4096 64 i) i 64) (st h) (0, st h) in
  handed_out h i (fst r) (snd r).

Definition demo_free (i : Z) (h : demo_history) : demo_history :=
  let p := default 0 (head (given h).[i]) in
  SlabHistory demo_processor
    (snd (returned (free_slot (Cfg := default_config) p 64) (st h) (tt, st h))) (used h ∖ {[i]}) (given h).

Lemma demo_geometry : slab_geometry 4096 64 4.
Proof. split_and!; [done|by exists 256|by exists 4|done|done|done|done]. Qed.

Lemma demo_new_reachable : demo_reachable demo_new.
Proof.
  apply (reachable_new (Cfg := default_config) (P := demo_processor) _ _ _ 0 (TaggedMemory ∅ ∅) false 7); [split; done|]. reflexivity.
Qed.

Lemma returns_eq {S A} (m : M S A) s d : returns m s = true -> m s = Ret (fst (returned m s d)) (snd (returned m s d)).
Proof. unfold returns, returned. by destruct (m s). Qed.

Lemma demo_alloc_reachable i h :
  demo_reachable h ->
  (0 <=? i) && (i <? 4) && bool_decide (i ∉ used h) &&
    returns (hand_out_slot (Cfg := default_config) true (slot 4096 64 i) i 64) (st h) = true ->
  demo_reachable (demo_alloc i h).
Proof.
  intros Hr [[[Hi0%Z.leb_le Hi1%Z.ltb_lt]%andb_true_iff Hu%bool_decide_eq_true]%andb_true_iff Hrun]%andb_true_iff.
  eapply reachable_step; [exact Hr|]. apply (step_alloc (Cfg := default_config) _ _ _ _ true); [by split|done|].
  by apply returns_eq.
Qed.

Lemma demo_free_reachable i h :
  demo_reachable h ->
  bool_decide (i ∈ used h) && negb (bool_decide ((given h).[i] = [])) &&
    returns (free_slot (Cfg := default_config) (default 0 (head (given h).[i])) 64) (st h) = true ->
  demo_reachable (demo_free i h).
Proof.
  intros Hr [[Hu%bool_decide_eq_true Hg%negb_true_iff%bool_decide_eq_false]%andb_true_iff Hrun]%andb_true_iff.
  eapply reachable_step; [exact Hr|]. unfold demo_free. destruct ((given h).[i]) as [|p rest] eqn:E; [done|].
  cbn [default head] in *. eapply (step_free (Cfg := default_config)); [done|exact E|].
  pose proof (returns_eq (free_slot (Cfg := default_config) p 64) (st h) (tt, st h) Hrun) as Er.
  destruct (fst _). exact Er.
Qed.

(** Slots 1 and 2 are allocated, then 1 is freed and allocated again. *)
Definition demo_slots : demo_history := demo_alloc 1 (demo_free 1 (demo_alloc 2 (demo_alloc 1 demo_new))).

Lemma demo_slots_reachable : demo_reachable demo_slots.
Proof.
  unfold demo_slots.
  apply demo_alloc_reachable; [|by vm_compute]. apply demo_free_reachable; [|by vm_compute].
  apply demo_alloc_reachable; [|by vm_compute]. apply demo_alloc_reachable; [|by vm_compute]. exact demo_new_reachable.
Qed.

(** The owner of slot 1 reaches its last byte but not the next slot; its previous
    owner reaches nothing of it. *)
Lemma tags_protect_witness :
  exists p q, (given demo_slots).[1] = [p; q] /\
    access_ok (memory (st demo_slots)) (pointer_to p 4223) 1 = true /\
    access_ok (memory (st demo_slots)) (pointer_to p 4224) 1 = false /\
    access_ok (memory (st demo_slots)) (pointer_to q 4160) 1 = false.
Proof.
  exists (default 0 (head (given demo_slots).[1])), (default 0 (head (tail (given demo_slots).[1]))).
  split; [by vm_compute|].
  destruct (tags_protect (Cfg := default_config) (P := demo_processor) 4096 64 4 demo_geometry eq_refl demo_slots 1
    (default 0 (head (given demo_slots).[1])) (tail (given demo_slots).[1]) demo_slots_reachable)
    as (Hown & Hnext & _ & Hstale); [by vm_compute|by vm_compute|by vm_compute|].
  assert (Hu : 1 ∈ used demo_slots) by (apply (bool_decide_eq_true_1 (1 ∈ used demo_slots)); by vm_compute).
  split_and!.
  - apply (Hown Hu 4223). by vm_compute.
  - apply (Hnext Hu 2 4224); [by vm_compute|by right|by vm_compute].
  - apply (Hstale Hu _ [] 4160); by vm_compute.
Defined.

(** The same slab with tagging disabled. *)
Definition demo_disabled : demo_history :=
  SlabHistory demo_processor (set_memtag_disabled (st demo_slots)) (used demo_slots) (given demo_slots).

Lemma demo_disabled_reachable : demo_reachable demo_disabled.
Proof.
  exact (reachable_step (Cfg := default_config) (P := demo_processor) 4096 64 4 demo_slots demo_disabled demo_slots_reachable
    (step_disable (Cfg := default_config) (P := demo_processor) 4096 64 4 demo_slots)).
Qed.

(** Slot 3 can be allocated, and slot 2, which was tagged, can be freed. *)
Lemma slab_never_stuck_witness :
  (exists p s', hand_out_slot (Cfg := default_config) true (slot 4096 64 3) 3 64 (st demo_disabled) = Ret p s' /\
     untag_pointer p = slot 4096 64 3) /\
  exists p rest s', (given demo_disabled).[2] = p :: rest /\
     free_slot (Cfg := default_config) p 64 (st demo_disabled) = Ret tt s'.
Proof.
  destruct (slab_never_stuck (Cfg := default_config) (P := demo_processor) 4096 64 4 demo_geometry eq_refl
    demo_disabled demo_disabled_reachable) as [Hout Hback].
  split.
  - apply (Hout 3 true); [by split|]. apply (bool_decide_eq_true_1 (3 ∉ used demo_disabled)). by vm_compute.
  - assert (Hu : 2 ∈ used demo_disabled) by (apply (bool_decide_eq_true_1 (2 ∈ used demo_disabled)); by vm_compute).
    destruct (Hback 2 Hu) as (p & rest & Hg & [s' Hs] & _). exists p, rest, s'. exact (conj Hg Hs).
Defined.
