(* ===== verification/MteDisable.v ===== *)
(** Memory tagging in the whole allocator: the mappings that carry tags
    (memory.c, h_malloc.c) and the Android call that turns tagging off. *)

From S2P Require Import Prelude Config Util SizeClass Kernel Maps RandomSource SlabMeta Slab SlabInv SlabRegion Regions Large LargeInv Allocator AllocatorInv AllocatorAlloc InitSpec ForkSpec.

(** ** Mappings *)

Definition PROT_MTE : Z := 0x20.

Section Mappings.
Context `{Cfg : Config} `{K : Kernel}.

Definition memory_map_mte (size : Z) : M world Z := memory_map_prot size PROT_MTE.

Definition memory_map_fixed_mte (ptr size : Z) : M world bool := memory_map_fixed_prot ptr size PROT_MTE.

(** ro.is_memtag_disabled is the argument. *)
Definition memory_map_tagged (is_memtag_disabled : bool) (size : Z) : M world Z :=
  if negb is_memtag_disabled then memory_map_mte size else memory_map size.

Definition memory_map_fixed_tagged (is_memtag_disabled : bool) (ptr size : Z) : M world bool :=
  if negb is_memtag_disabled then memory_map_fixed_mte ptr size else memory_map_fixed ptr size.
End Mappings.

(** ** Disabling *)

Section Disable.
Context `{Cfg : Config} `{K : Kernel} {R : Type} `{!RandomSource R} `{!Platform}.

(** ro with its member is_memtag_disabled in front. *)
Definition TM (A : Type) : Type := M (bool * (allocator R * world)) A.

Definition on_allocator {A} (m : AM (R := R) A) : TM A := zoom snd (fun s t => (fst t, s)) m.

Definition set_is_memtag_disabled : TM unit := modify (fun t => (true, snd t)).

Definition h_malloc_disable_memory_tagging : TM unit :=
  let* e := on_allocator get_slab_region_end in
  let need_init_lock := negb (is_init e) in
  (if need_init_lock then
     let* locked := gets (fun t => init_lock (fst (snd t))) in
     if locked then stuck else on_allocator (modify_allocator (set_init_lock true))
   else ret tt) ;;;
  let* e := on_allocator get_slab_region_end in
  (if is_init e then
     on_allocator full_lock ;;;
     let* is_memtag_disabled := gets fst in
     (if negb is_memtag_disabled then
        let* f := on_allocator (on_world (memory_protect_rw ro_address PAGE_SIZE)) in
        if f then fatal_error "failed to unprotect allocator data" else
        set_is_memtag_disabled ;;;
        let* f := on_allocator (on_world (memory_protect_ro ro_address PAGE_SIZE)) in
        if f then fatal_error "failed to protect allocator data" else ret tt
      else ret tt) ;;;
     on_allocator full_unlock
   else
     (* bionic calls this function very early in some cases *)
     set_is_memtag_disabled) ;;;
  (if need_init_lock then on_allocator (modify_allocator (set_init_lock false)) else ret tt).
End Disable.

(** ** What they promise *)

Section Proofs.
Context {Cfg : Config} {Cok : ConfigOk Cfg} {K : Kernel} {Kok : KernelOk K} {R : Type}.
Context `{!RandomSource R} `{!RandomSourceOk R} `{!Platform}.
Implicit Types (h : allocator R) (m : gmap Z (Z * Z)) (w : world) (rest : Z -> Prop).

(** A tagged mapping is a mapping like the other: fresh zero pages. *)
Lemma wp_memory_map_tagged d n w :
  0 < n < 2 ^ 64 ->
  wp (memory_map_tagged d n) (fun p w' => p = 0 /\ out_of_memory w w' \/ fresh_mapping p n w w') memory_fatal w.
Proof. intros Hn. destruct d; by apply wp_memory_map_prot. Qed.

Lemma wp_memory_map_fixed_tagged d p n w :
  0 < n <= 2 ^ 63 -> wp (memory_map_fixed_tagged d p n) (cleared p n w) memory_fatal w.
Proof. intros Hn. destruct d; by apply wp_memory_map_fixed_prot. Qed.

Lemma wp_tagged_allocator {A} (m : AM (R := R) A) (Q : A -> bool * (allocator R * world) -> Prop) E t :
  wp m (fun a s => Q a (fst t, s)) E (snd t) -> wp (on_allocator m) Q E t.
Proof. intros Hm. unfold on_allocator. apply wp_zoom, Hm. Qed.

(** The ways in which the call can stop the process. *)
Definition disable_halts (e : halt) : Prop :=
  memory_fatal e \/ e ∈ [Fatal "failed to unprotect allocator data"; Fatal "failed to protect allocator data"].

Lemma wp_protect_ro_page {A} (k : bool -> TM (R := R) A) msg prot d h w Q :
  msg ∈ ["failed to unprotect allocator data"; "failed to protect allocator data"] ->
  (forall w', quiet w w' -> wp (k false) Q disable_halts (d, (h, w'))) ->
  wp (let* f := on_allocator (on_world (memory_protect_prot ro_address PAGE_SIZE prot)) in
      if f then fatal_error msg else k f) Q disable_halts (d, (h, w)).
Proof.
  intros Hmsg Hk. apply wp_bind, wp_tagged_allocator, wp_on_world. cbn [fst snd].
  eapply wp_mono; [apply wp_memory_protect_quiet| |by left]. intros [] w' [Hq _]; cbn [fst snd] in *; [|by apply Hk].
  apply wp_fatal. right. rewrite !elem_of_cons in *. destruct Hmsg as [->|[->|[]%elem_of_nil]]; tauto.
Qed.

Lemma wp_disable rest d h m w :
  heap_ok rest h m w ->
  wp h_malloc_disable_memory_tagging
     (fun _ t => fst t = true /\ fst (snd t) = h /\ mem (snd (snd t)) = mem w /\ same_maps (kern w) (kern (snd (snd t))))
     disable_halts (d, (h, w)).
Proof.
  intros Hh. pose proof (heap_ok_init _ _ _ _ Hh) as Hi. destruct (ho_large _ _ _ _ Hh) as (ra & Hra & _).
  unfold h_malloc_disable_memory_tagging.
  apply wp_bind, wp_tagged_allocator, wp_gets. cbn [fst snd]. rewrite Hi. cbn [negb].
  apply wp_bind, wp_ret, wp_bind, wp_tagged_allocator, wp_gets. cbn [fst snd]. rewrite Hi.
  apply wp_bind, wp_bind, wp_tagged_allocator. unfold wp at 1. cbn [snd]. rewrite (full_lock_run _ _ _ _ _ Hh Hra).
  apply wp_bind, wp_gets. cbn [fst snd].
  assert (Hunlock : forall w' (Q : unit -> bool * (allocator R * world) -> Prop), quiet w w' -> Q tt (true, (h, w')) ->
    wp (on_allocator full_unlock) Q disable_halts (true, (locked_all h ra, w'))).
  { intros w' Q [_ Hk] HQ. apply wp_tagged_allocator. unfold wp. cbn [fst snd].
    assert (Hh' : heap_ok rest h m w') by (by eapply heap_ok_world, same_maps_grow).
    by rewrite (full_unlock_run _ _ _ _ _ Hh' Hra). }
  apply wp_bind. destruct d; cbn [negb].
  - apply wp_ret, Hunlock; [done|]. by apply wp_ret.
  - apply wp_protect_ro_page; [by rewrite !elem_of_cons; auto|]. intros w1 Hq1. apply wp_bind, wp_modify. cbn [fst snd].
    apply wp_protect_ro_page; [by rewrite !elem_of_cons; auto|]. intros w2 Hq2. apply wp_ret.
    assert (Hq : quiet w w2).
    { destruct Hq1 as [Em1 Hk1], Hq2 as [Em2 Hk2]. cbn [snd] in *. split; [congruence|]. intros a. by rewrite (Hk2 a). }
    apply Hunlock; [done|]. apply wp_ret. cbn [fst snd]. by destruct Hq.
Qed.

(** Before the first call of the process only the flag changes. *)
Lemma disable_early d w :
  h_malloc_disable_memory_tagging (R := R) (d, (uninitialized, w)) = Ret tt (true, (uninitialized, w)).
Proof. reflexivity. Qed.
End Proofs.
