(* ===== verification/ChaCha.v ===== *)
(** The ChaCha8 keystream generator (chacha.c), with the reference definition of
    the cipher as counter-mode blocks that the code is compared with. *)

From S2P Require Import Prelude.

(** static const unsigned rounds = 8; *)
Definition rounds : nat := 8.

Definition CHACHA_KEY_SIZE : Z := 32.
Definition CHACHA_IV_SIZE : Z := 8.

Definition U8V (v : Z) : Z := Z.land (u8 v) 255.
Definition U32V (v : Z) : Z := Z.land (u32 v) 4294967295.
Definition ROTL32 (v n : Z) : Z := Z.lor (U32V (Z.shiftl v n)) (Z.shiftr v (32 - n)).
Definition PLUS (v w : Z) : Z := U32V (v + w).
Definition PLUSONE (v : Z) : Z := PLUS v 1.
Definition ROTATE (v c : Z) : Z := ROTL32 v c.
Definition XOR (v w : Z) : Z := Z.lxor v w.

(** Arrays of words and bytes are lists; [nth i l 0] reads and [upd] writes. *)
Notation "l @ i" := (nth i l 0) (at level 1, i at level 0, format "l @ i") : c_scope.
Definition upd (l : list Z) (i : nat) (v : Z) : list Z := <[i := v]> l.

Definition U8TO32_LITTLE (p : list Z) (i : nat) : Z :=
  Z.lor (Z.lor (Z.lor (p@i) (Z.shiftl (p@(i + 1)) 8)) (Z.shiftl (p@(i + 2)) 16))
        (Z.shiftl (p@(i + 3)) 24).

Definition U32TO8_LITTLE (v : Z) : list Z :=
  [U8V v; U8V (Z.shiftr v 8); U8V (Z.shiftr v 16); U8V (Z.shiftr v 24)].

(** "expand 32-byte k" *)
Definition sigma : list Z :=
  [101; 120; 112; 97; 110; 100; 32; 51; 50; 45; 98; 121; 116; 101; 32; 107].

(** chacha_ctx: the 16 words of [input] *)
Definition chacha_ctx : Type := list Z.

Definition chacha_keysetup (x : chacha_ctx) (k : list Z) : chacha_ctx :=
  let x := upd x 0 (U8TO32_LITTLE sigma 0) in
  let x := upd x 1 (U8TO32_LITTLE sigma 4) in
  let x := upd x 2 (U8TO32_LITTLE sigma 8) in
  let x := upd x 3 (U8TO32_LITTLE sigma 12) in
  let x := upd x 4 (U8TO32_LITTLE k 0) in
  let x := upd x 5 (U8TO32_LITTLE k 4) in
  let x := upd x 6 (U8TO32_LITTLE k 8) in
  let x := upd x 7 (U8TO32_LITTLE k 12) in
  let x := upd x 8 (U8TO32_LITTLE k 16) in
  let x := upd x 9 (U8TO32_LITTLE k 20) in
  let x := upd x 10 (U8TO32_LITTLE k 24) in
  upd x 11 (U8TO32_LITTLE k 28).

Definition chacha_ivsetup (x : chacha_ctx) (iv : list Z) : chacha_ctx :=
  let x := upd x 12 0 in
  let x := upd x 13 0 in
  let x := upd x 14 (U8TO32_LITTLE iv 0) in
  upd x 15 (U8TO32_LITTLE iv 4).

(** The macro on the cells a, b, c, d of the working state. *)
Definition QUARTERROUND (x : list Z) (a b c d : nat) : list Z :=
  let x := upd x a (PLUS (x@a) (x@b)) in let x := upd x d (ROTATE (XOR (x@d) (x@a)) 16) in
  let x := upd x c (PLUS (x@c) (x@d)) in let x := upd x b (ROTATE (XOR (x@b) (x@c)) 12) in
  let x := upd x a (PLUS (x@a) (x@b)) in let x := upd x d (ROTATE (XOR (x@d) (x@a)) 8) in
  let x := upd x c (PLUS (x@c) (x@d)) in upd x b (ROTATE (XOR (x@b) (x@c)) 7).

Definition double_round (x : list Z) : list Z :=
  let x := QUARTERROUND x 0 4 8 12 in
  let x := QUARTERROUND x 1 5 9 13 in
  let x := QUARTERROUND x 2 6 10 14 in
  let x := QUARTERROUND x 3 7 11 15 in
  let x := QUARTERROUND x 0 5 10 15 in
  let x := QUARTERROUND x 1 6 11 12 in
  let x := QUARTERROUND x 2 7 8 13 in
  QUARTERROUND x 3 4 9 14.

(** for (unsigned i = rounds; i > 0; i -= 2) *)
Fixpoint round_loop (i : nat) (x : list Z) : list Z :=
  match i with
  | S (S i) => round_loop i (double_round x)
  | _ => x
  end.

(** The 64 bytes one iteration writes, from the words j0 .. j15. *)
Definition chacha_block (j : list Z) : list Z :=
  concat (U32TO8_LITTLE <$> zip_with PLUS (round_loop rounds j) j).

(** j12 = PLUSONE(j12); if (!j12) j13 = PLUSONE(j13); *)
Definition next_counter (j : list Z) : list Z :=
  let j := upd j 12 (PLUSONE (j@12)) in
  if j@12 =? 0 then upd j 13 (PLUSONE (j@13)) else j.

(** The loop: fewer than 64 bytes go through [tmp], of which a prefix is
    copied out. The first component is what was written at [c]. *)
Fixpoint keystream_loop (fuel : nat) (j : list Z) (bytes : Z) : option (list Z * list Z) :=
  match fuel with
  | O => None
  | S fuel =>
      let block := chacha_block j in
      let j := next_counter j in
      if bytes <=? 64 then
        Some (if bytes <? 64 then take (Z.to_nat bytes) block else block, j)
      else
        match keystream_loop fuel j (bytes - 64) with
        | Some (rest, j) => Some (block ++ rest, j)
        | None => None
        end
  end.

(** Only x->input[12] and x->input[13] are written back. *)
Definition chacha_keystream_bytes (x : chacha_ctx) (bytes : Z) : option (list Z * chacha_ctx) :=
  if bytes =? 0 then Some ([], x)
  else match keystream_loop (Z.to_nat bytes) x bytes with
       | Some (out, j) => Some (out, upd (upd x 12 (j@12)) 13 (j@13))
       | None => None
       end.

(** ** Reference definition

    The published cipher: a block function on a 4x4 matrix of words, made of
    column rounds and diagonal rounds, applied to a 64-bit block counter. *)

Module Reference.

(** The words of a row-major matrix. *)
Record row := Row { w0 : Z; w1 : Z; w2 : Z; w3 : Z }.
Record matrix := Matrix { ra : row; rb : row; rc : row; rd : row }.

Definition add (v w : Z) : Z := (v + w) mod 2 ^ 32.
Definition rotl (v n : Z) : Z := (v * 2 ^ n) mod 2 ^ 32 + v / 2 ^ (32 - n).

Definition map2 (f : Z -> Z -> Z) (a b : row) : row :=
  Row (f (w0 a) (w0 b)) (f (w1 a) (w1 b)) (f (w2 a) (w2 b)) (f (w3 a) (w3 b)).

(** Four quarter rounds at once, one per column. *)
Definition column_round (m : matrix) : matrix :=
  let xrot n := map2 (fun x y => rotl (Z.lxor x y) n) in
  let half n1 n2 '(Matrix a b c d) :=
    let a := map2 add a b in let d := xrot n1 d a in
    let c := map2 add c d in let b := xrot n2 b c in Matrix a b c d in
  half 8 7 (half 16 12 m).

Definition shift (r : row) : row := Row (w1 r) (w2 r) (w3 r) (w0 r).

(** The diagonals are the columns after rotating row i by i places. *)
Definition diagonalize (m : matrix) : matrix :=
  Matrix (ra m) (shift (rb m)) (shift (shift (rc m))) (shift (shift (shift (rd m)))).
Definition undiagonalize (m : matrix) : matrix :=
  Matrix (ra m) (shift (shift (shift (rb m)))) (shift (shift (rc m))) (shift (rd m)).

Definition double (m : matrix) : matrix :=
  undiagonalize (column_round (diagonalize (column_round m))).

Definition row_words (r : row) : list Z := [w0 r; w1 r; w2 r; w3 r].
Definition words (m : matrix) : list Z :=
  row_words (ra m) ++ row_words (rb m) ++ row_words (rc m) ++ row_words (rd m).

Definition little (v : Z) : list Z :=
  [v mod 256; v / 2 ^ 8 mod 256; v / 2 ^ 16 mod 256; v / 2 ^ 24 mod 256].

Definition block (m : matrix) : list Z :=
  concat (little <$> zip_with add (words (Nat.iter 4 double m)) (words m)).

(** The input of block [n]: constants, key, counter, nonce. *)
Definition input (constants k1 k2 : row) (nonce1 nonce2 n : Z) : matrix :=
  Matrix constants k1 k2 (Row (n mod 2 ^ 32) (n / 2 ^ 32 mod 2 ^ 32) nonce1 nonce2).

(** [len] blocks from block number [n] on. *)
Fixpoint blocks (constants k1 k2 : row) (nonce1 nonce2 n : Z) (len : nat) : list Z :=
  match len with
  | O => []
  | S len => block (input constants k1 k2 nonce1 nonce2 n) ++
             blocks constants k1 k2 nonce1 nonce2 (n + 1) len
  end.

End Reference.
Import Reference.

(** The word in the four bytes of [k] from [i] on, little-endian. *)
Definition word_le (k : list Z) (i : nat) : Z :=
  k@i + 2 ^ 8 * k@(i + 1) + 2 ^ 16 * k@(i + 2) + 2 ^ 24 * k@(i + 3).

Definition sigma_row : row := Row 1634760805 857760878 2036477234 1797285236.
Definition key_row (k : list Z) (i : nat) : row :=
  Row (word_le k i) (word_le k (i + 4)) (word_le k (i + 8)) (word_le k (i + 12)).

(** ** Words *)

Lemma U32V_eq v : U32V v = v mod 2 ^ 32.
Proof.
  unfold U32V. change 4294967295 with (2 ^ 32 - 1). rewrite land_low_ones by done.
  apply Zmod_mod.
Qed.

Lemma U8V_eq v : U8V v = v mod 256.
Proof.
  unfold U8V. change 255 with (2 ^ 8 - 1). rewrite land_low_ones by done. apply Zmod_mod.
Qed.

Lemma PLUS_add v w : PLUS v w = add v w.
Proof. apply U32V_eq. Qed.

Lemma add_fits v w : fits 32 (add v w).
Proof. apply Z.mod_pos_bound. lia. Qed.

Lemma rotl_parts v n :
  fits 32 v -> 0 <= n <= 32 -> (v * 2 ^ n) mod 2 ^ 32 = (v mod 2 ^ (32 - n)) * 2 ^ n /\
  0 <= v / 2 ^ (32 - n) < 2 ^ n.
Proof.
  intros [Hv0 Hv] Hn. assert (E : 2 ^ 32 = 2 ^ (32 - n) * 2 ^ n).
  { rewrite <- Z.pow_add_r by lia. f_equal. lia. }
  pose proof (pow2_pos n ltac:(lia)). pose proof (pow2_pos (32 - n) ltac:(lia)).
  split.
  - rewrite E. apply Zmult_mod_distr_r.
  - split; [by apply Z.div_pos|]. apply Z.div_lt_upper_bound; lia.
Qed.

Lemma ROTL32_rotl v n : fits 32 v -> 0 <= n <= 32 -> ROTL32 v n = rotl v n.
Proof.
  intros Hv Hn. destruct (rotl_parts v n Hv Hn) as [E Hb]. unfold ROTL32, rotl.
  rewrite U32V_eq, Z.shiftl_mul_pow2, Z.shiftr_div_pow2, E by lia. apply lor_concat; lia.
Qed.

Lemma rotl_fits v n : fits 32 v -> 0 <= n <= 32 -> fits 32 (rotl v n).
Proof.
  intros Hv Hn. destruct (rotl_parts v n Hv Hn) as [E Hb]. unfold rotl. rewrite E.
  assert (E2 : 2 ^ 32 = 2 ^ (32 - n) * 2 ^ n).
  { rewrite <- Z.pow_add_r by lia. f_equal. lia. }
  pose proof (Z.mod_pos_bound v (2 ^ (32 - n)) (pow2_pos (32 - n) ltac:(lia))) as Hm.
  pose proof (pow2_pos n ltac:(lia)). split; [nia|]. rewrite E2. nia.
Qed.

Lemma lxor_fits w v x : 0 <= w -> fits w v -> fits w x -> fits w (Z.lxor v x).
Proof.
  intros Hw Hv Hx. apply testbit_high_fits; [done|apply Z.lxor_nonneg; destruct Hv, Hx; lia|].
  intros i Hi. by rewrite Z.lxor_spec, !(fits_testbit_high w).
Qed.

(** ** Rounds *)

(** A quarter round on four words, as the code and as the reference compute it. *)
Definition qr (a b c d : Z) : Z * Z * Z * Z :=
  let a := PLUS a b in let d := ROTATE (XOR d a) 16 in
  let c := PLUS c d in let b := ROTATE (XOR b c) 12 in
  let a := PLUS a b in let d := ROTATE (XOR d a) 8 in
  let c := PLUS c d in let b := ROTATE (XOR b c) 7 in (a, b, c, d).

Definition qr_ref (a b c d : Z) : Z * Z * Z * Z :=
  let a := add a b in let d := rotl (Z.lxor d a) 16 in
  let c := add c d in let b := rotl (Z.lxor b c) 12 in
  let a := add a b in let d := rotl (Z.lxor d a) 8 in
  let c := add c d in let b := rotl (Z.lxor b c) 7 in (a, b, c, d).

Definition fits4 (q : Z * Z * Z * Z) : Prop :=
  let '(a, b, c, d) := q in fits 32 a /\ fits 32 b /\ fits 32 c /\ fits 32 d.

Lemma qr_eq a b c d : fits4 (a, b, c, d) -> qr a b c d = qr_ref a b c d /\ fits4 (qr_ref a b c d).
Proof.
  intros (Ha & Hb & Hc & Hd). unfold qr, qr_ref, ROTATE, XOR. cbv zeta.
  rewrite !PLUS_add.
  set (a1 := add a b). assert (Ha1 : fits 32 a1) by apply add_fits.
  rewrite (ROTL32_rotl (Z.lxor d a1)) by (lia || by apply lxor_fits).
  set (d1 := rotl (Z.lxor d a1) 16).
  assert (Hd1 : fits 32 d1) by (apply rotl_fits; [by apply lxor_fits|lia]).
  set (c1 := add c d1). assert (Hc1 : fits 32 c1) by apply add_fits.
  rewrite (ROTL32_rotl (Z.lxor b c1)) by (lia || by apply lxor_fits).
  set (b1 := rotl (Z.lxor b c1) 12).
  assert (Hb1 : fits 32 b1) by (apply rotl_fits; [by apply lxor_fits|lia]).
  set (a2 := add a1 b1). assert (Ha2 : fits 32 a2) by apply add_fits.
  rewrite (ROTL32_rotl (Z.lxor d1 a2)) by (lia || by apply lxor_fits).
  set (d2 := rotl (Z.lxor d1 a2) 8).
  assert (Hd2 : fits 32 d2) by (apply rotl_fits; [by apply lxor_fits|lia]).
  set (c2 := add c1 d2). assert (Hc2 : fits 32 c2) by apply add_fits.
  rewrite (ROTL32_rotl (Z.lxor b1 c2)) by (lia || by apply lxor_fits).
  split; [done|]. split; [done|]. split; [|done].
  apply rotl_fits; [by apply lxor_fits|lia].
Qed.

Definition matrix_ok (m : matrix) : Prop := Forall (fits 32) (words m).
(** Four quarter rounds, one per column, on the sixteen words. *)
Definition columns (x : list Z) : list Z :=
  QUARTERROUND (QUARTERROUND (QUARTERROUND (QUARTERROUND x 0 4 8 12) 1 5 9 13) 2 6 10 14) 3 7 11 15.
Definition diagonals (x : list Z) : list Z :=
  QUARTERROUND (QUARTERROUND (QUARTERROUND (QUARTERROUND x 0 5 10 15) 1 6 11 12) 2 7 8 13) 3 4 9 14.

Definition by_columns (f : Z -> Z -> Z -> Z -> Z * Z * Z * Z) (m : matrix) : matrix :=
  let '(Matrix (Row a0 a1 a2 a3) (Row b0 b1 b2 b3) (Row c0 c1 c2 c3) (Row d0 d1 d2 d3)) := m in
  let '(a0, b0, c0, d0) := f a0 b0 c0 d0 in let '(a1, b1, c1, d1) := f a1 b1 c1 d1 in
  let '(a2, b2, c2, d2) := f a2 b2 c2 d2 in let '(a3, b3, c3, d3) := f a3 b3 c3 d3 in
  Matrix (Row a0 a1 a2 a3) (Row b0 b1 b2 b3) (Row c0 c1 c2 c3) (Row d0 d1 d2 d3).

#[local] Opaque PLUS XOR ROTATE.
Lemma columns_words m : columns (words m) = words (by_columns qr m).
Proof. destruct m as [[] [] [] []]. reflexivity. Qed.

Lemma diagonals_words m : diagonals (words m) = words (undiagonalize (by_columns qr (diagonalize m))).
Proof. destruct m as [[] [] [] []]. reflexivity. Qed.

Lemma column_round_by_columns m : column_round m = by_columns qr_ref m.
Proof. destruct m as [[] [] [] []]. reflexivity. Qed.

Record row_ok (r : row) : Prop :=
  { ro_0 : fits 32 (w0 r); ro_1 : fits 32 (w1 r); ro_2 : fits 32 (w2 r); ro_3 : fits 32 (w3 r) }.

Lemma Forall_row r : Forall (fits 32) (row_words r) <-> row_ok r.
Proof.
  unfold row_words. rewrite !Forall_cons, Forall_nil. split.
  - intros (? & ? & ? & ? & _). by split.
  - by intros [].
Qed.

Lemma Forall_words m :
  Forall (fits 32) (words m) <-> row_ok (ra m) /\ row_ok (rb m) /\ row_ok (rc m) /\ row_ok (rd m).
Proof. unfold words. by rewrite !Forall_app, !Forall_row. Qed.

Lemma by_columns_qr m :
  matrix_ok m -> by_columns qr m = column_round m /\ matrix_ok (column_round m).
Proof.
  rewrite column_round_by_columns. unfold matrix_ok.
  destruct m as [[a0 a1 a2 a3] [b0 b1 b2 b3] [c0 c1 c2 c3] [d0 d1 d2 d3]].
  rewrite !Forall_words. intros ([Ha0 Ha1 Ha2 Ha3] & [Hb0 Hb1 Hb2 Hb3] & [Hc0 Hc1 Hc2 Hc3] & [Hd0 Hd1 Hd2 Hd3]).
  unfold by_columns.
  destruct (qr_eq a0 b0 c0 d0) as [-> Hq]; [done|].
  destruct (qr_ref a0 b0 c0 d0) as [[[? ?] ?] ?], Hq as (? & ? & ? & ?).
  destruct (qr_eq a1 b1 c1 d1) as [-> Hq]; [done|].
  destruct (qr_ref a1 b1 c1 d1) as [[[? ?] ?] ?], Hq as (? & ? & ? & ?).
  destruct (qr_eq a2 b2 c2 d2) as [-> Hq]; [done|].
  destruct (qr_ref a2 b2 c2 d2) as [[[? ?] ?] ?], Hq as (? & ? & ? & ?).
  destruct (qr_eq a3 b3 c3 d3) as [-> Hq]; [done|].
  destruct (qr_ref a3 b3 c3 d3) as [[[? ?] ?] ?], Hq as (? & ? & ? & ?).
  split; [done|]. cbn [ra rb rc rd]. split_and!; split; assumption.
Qed.

Lemma shift_ok r : row_ok r -> row_ok (shift r).
Proof. by intros []. Qed.
#[local] Hint Resolve shift_ok : core.

Lemma diagonalize_ok m : matrix_ok m -> matrix_ok (diagonalize m).
Proof. unfold matrix_ok. rewrite !Forall_words. intros (? & ? & ? & ?). repeat apply conj; cbn [diagonalize undiagonalize ra rb rc rd]; auto. Qed.

Lemma undiagonalize_ok m : matrix_ok m -> matrix_ok (undiagonalize m).
Proof. unfold matrix_ok. rewrite !Forall_words. intros (? & ? & ? & ?). repeat apply conj; cbn [diagonalize undiagonalize ra rb rc rd]; auto. Qed.

Lemma double_round_parts x : double_round x = diagonals (columns x).
Proof. cbv beta zeta delta [double_round diagonals columns]. reflexivity. Qed.

Lemma double_round_words m :
  matrix_ok m -> double_round (words m) = words (double m) /\ matrix_ok (double m).
Proof.
  intros H. rewrite double_round_parts, columns_words. destruct (by_columns_qr m H) as [-> H1].
  rewrite diagonals_words. apply diagonalize_ok in H1.
  destruct (by_columns_qr _ H1) as [-> H2]. split; [done|]. by apply undiagonalize_ok.
Qed.

Lemma round_loop_words m :
  matrix_ok m -> round_loop rounds (words m) = words (Nat.iter 4 double m) /\
  matrix_ok (Nat.iter 4 double m).
Proof.
  intros H. cbn [rounds round_loop Nat.iter nat_rect].
  destruct (double_round_words m H) as [-> H1].
  destruct (double_round_words _ H1) as [-> H2].
  destruct (double_round_words _ H2) as [-> H3].
  destruct (double_round_words _ H3) as [-> H4]. done.
Qed.

(** ** Blocks *)

Lemma U32TO8_LITTLE_little v : U32TO8_LITTLE v = little v.
Proof. unfold U32TO8_LITTLE, little. by rewrite !U8V_eq, !Z.shiftr_div_pow2 by done. Qed.

Lemma zip_with_ext_PLUS l k : zip_with PLUS l k = zip_with add l k.
Proof. revert k. induction l as [|v l IH]; intros [|w k]; cbn; [done..|]. by rewrite PLUS_add, IH. Qed.

Lemma chacha_block_reference m : matrix_ok m -> chacha_block (words m) = block m.
Proof.
  intros H. unfold chacha_block, block. destruct (round_loop_words m H) as [-> _].
  rewrite zip_with_ext_PLUS. f_equal. apply list_fmap_ext. intros. apply U32TO8_LITTLE_little.
Qed.

Lemma block_length m : length (block m) = 64%nat.
Proof. unfold block. by destruct m as [[] [] [] []], (Nat.iter 4 double _) as [[] [] [] []]. Qed.

Lemma blocks_length constants k1 k2 nonce1 nonce2 n len :
  length (blocks constants k1 k2 nonce1 nonce2 n len) = (64 * len)%nat.
Proof.
  revert n. induction len as [|len IH]; intros n; [done|].
  cbn [blocks]. rewrite length_app, block_length, IH. lia.
Qed.

Section Keystream.
Context (constants k1 k2 : row) (nonce1 nonce2 : Z).
Context (Hc : row_ok constants) (Hk1 : row_ok k1) (Hk2 : row_ok k2)
  (Hn1 : fits 32 nonce1) (Hn2 : fits 32 nonce2).
Let inp := input constants k1 k2 nonce1 nonce2.

Lemma input_ok n : matrix_ok (inp n).
Proof.
  apply Forall_words. unfold inp, input. cbn [ra rb rc rd]. repeat apply conj; try done.
  split; cbn [w0 w1 w2 w3]; try done; apply Z.mod_pos_bound; lia.
Qed.

Lemma counter_carry n :
  (n + 1) / 2 ^ 32 mod 2 ^ 32 =
  if (n + 1) mod 2 ^ 32 =? 0 then (n / 2 ^ 32 mod 2 ^ 32 + 1) mod 2 ^ 32 else n / 2 ^ 32 mod 2 ^ 32.
Proof.
  pose proof (Z.div_mod n (2 ^ 32) ltac:(done)). pose proof (Z.mod_pos_bound n (2 ^ 32) ltac:(done)).
  pose proof (Z.div_mod (n + 1) (2 ^ 32) ltac:(done)).
  pose proof (Z.mod_pos_bound (n + 1) (2 ^ 32) ltac:(done)).
  destruct (Z.eqb_spec ((n + 1) mod 2 ^ 32) 0) as [Hz|Hz].
  - rewrite Zplus_mod_idemp_l. f_equal. lia.
  - f_equal. lia.
Qed.

Lemma next_counter_input n : next_counter (words (inp n)) = words (inp (n + 1)).
Proof.
  assert (E : PLUSONE (n mod 2 ^ 32) = (n + 1) mod 2 ^ 32).
  { unfold PLUSONE. rewrite PLUS_add. unfold add. by rewrite Zplus_mod_idemp_l. }
  pose proof (counter_carry n) as Hcarry. unfold next_counter, inp, input.
  destruct constants, k1, k2. unfold words, row_words, upd. cbn [ra rb rc rd w0 w1 w2 w3 app].
  cbn [nth insert list_insert]. rewrite E, Hcarry.
  destruct ((n + 1) mod 2 ^ 32 =? 0); cbn [nth insert list_insert]; [|done].
  unfold PLUSONE. by rewrite PLUS_add.
Qed.

(** The number of blocks that [bytes] bytes take. *)
Definition block_count (bytes : Z) : Z := (bytes + 63) / 64.

Lemma keystream_loop_blocks fuel : forall n bytes,
  0 < bytes -> bytes <= Z.of_nat fuel ->
  keystream_loop fuel (words (inp n)) bytes =
    Some (take (Z.to_nat bytes) (blocks constants k1 k2 nonce1 nonce2 n (Z.to_nat (block_count bytes))),
          words (inp (n + block_count bytes))).
Proof.
  induction fuel as [|fuel IH]; intros n bytes Hb Hf; [lia|]. cbn [keystream_loop].
  rewrite chacha_block_reference, next_counter_input by apply input_ok.
  destruct (Z.leb_spec bytes 64) as [Hle|Hgt].
  - assert (E : block_count bytes = 1).
    { unfold block_count. symmetry. apply (Z.div_unique _ _ _ (bytes - 1)); lia. }
    rewrite E. change (Z.to_nat 1) with 1%nat. cbn [blocks]. rewrite app_nil_r.
    destruct (Z.ltb_spec bytes 64); [done|]. rewrite take_ge; [done|]. rewrite block_length. lia.
  - assert (E : block_count bytes = 1 + block_count (bytes - 64)).
    { unfold block_count. replace (bytes + 63) with (bytes - 64 + 63 + 1 * 64) by lia.
      rewrite Z.div_add by lia. lia. }
    assert (0 <= block_count (bytes - 64)) by (apply Z.div_pos; lia).
    rewrite IH by lia. rewrite E, Z2Nat.inj_add by lia. change (Z.to_nat 1) with 1%nat.
    cbn [blocks Nat.add]. f_equal. f_equal; [|do 2 f_equal; lia].
    rewrite (take_app _ _ (Z.to_nat bytes)), block_length.
    rewrite (take_ge (block _)) by (rewrite block_length; lia). f_equal. f_equal. lia.
Qed.

Lemma write_back n n' :
  upd (upd (words (inp n)) 12 ((words (inp n'))@12)) 13 ((words (inp n'))@13) = words (inp n').
Proof. by destruct constants, k1, k2. Qed.
End Keystream.

Lemma keystream_spec constants k1 k2 nonce1 nonce2 n bytes :
  row_ok constants -> row_ok k1 -> row_ok k2 -> fits 32 nonce1 -> fits 32 nonce2 -> fits 32 bytes ->
  exists out, chacha_keystream_bytes (words (input constants k1 k2 nonce1 nonce2 n)) bytes =
      Some (out, words (input constants k1 k2 nonce1 nonce2 (n + block_count bytes))) /\
    length out = Z.to_nat bytes /\
    out = take (Z.to_nat bytes)
            (blocks constants k1 k2 nonce1 nonce2 n (Z.to_nat (block_count bytes))).
Proof.
  intros Hc Hk1 Hk2 Hn1 Hn2 [Hb _]. unfold chacha_keystream_bytes.
  destruct (Z.eqb_spec bytes 0) as [->|Hne].
  { exists []. change (block_count 0) with 0. by rewrite Z.add_0_r. }
  rewrite (keystream_loop_blocks constants k1 k2 nonce1 nonce2) by (assumption || lia).
  rewrite write_back by assumption. eexists. split; [done|].
  split; [|done]. rewrite length_take, blocks_length. unfold block_count.
  pose proof (Z.div_mod (bytes + 63) 64 ltac:(done)). pose proof (Z.mod_pos_bound (bytes + 63) 64 ltac:(done)).
  lia.
Qed.

(** ** Key and nonce setup *)

Lemma fits8_concat q b n : 0 <= n -> 0 <= b < 2 ^ n -> Z.lor b (Z.shiftl q n) = b + 2 ^ n * q.
Proof. intros. rewrite Z.lor_comm, Z.shiftl_mul_pow2, lor_concat by lia. lia. Qed.

Lemma nth_fits8 p : Forall (fits 8) p -> forall j, 0 <= p@j < 2 ^ 8.
Proof.
  intros Hp j. destruct (Nat.lt_ge_cases j (length p)).
  - rewrite Forall_forall in Hp. apply Hp, list_elem_of_In, nth_In. done.
  - rewrite nth_overflow by done. lia.
Qed.

Lemma U8TO32_LITTLE_word_le p i : Forall (fits 8) p -> U8TO32_LITTLE p i = word_le p i.
Proof.
  intros Hp. pose proof (nth_fits8 p Hp) as Hb.
  pose proof (Hb i). pose proof (Hb (i + 1)%nat). pose proof (Hb (i + 2)%nat).
  unfold U8TO32_LITTLE, word_le. rewrite (fits8_concat _ (p@i)) by lia.
  rewrite (fits8_concat _ (p@i + _)) by lia. rewrite (fits8_concat _ (p@i + _ + _)) by lia. done.
Qed.

Lemma setup_spec x k iv :
  length x = 16%nat -> Forall (fits 8) k -> Forall (fits 8) iv ->
  chacha_ivsetup (chacha_keysetup x k) iv =
    words (input sigma_row (key_row k 0) (key_row k 16) (word_le iv 0) (word_le iv 4) 0).
Proof.
  intros Hx Hk Hiv. unfold chacha_keysetup, chacha_ivsetup. rewrite !(U8TO32_LITTLE_word_le k) by done.
  rewrite !(U8TO32_LITTLE_word_le iv) by done.
  do 17 (destruct x as [|? x]; try discriminate Hx). reflexivity.
Qed.

(** Every byte of the keystream is a byte. *)
Lemma little_fits v : Forall (fits 8) (little v).
Proof.
  unfold little. rewrite !Forall_cons, Forall_nil.
  split_and!; try done; apply Z.mod_pos_bound; lia.
Qed.

Lemma block_fits m : Forall (fits 8) (block m).
Proof.
  unfold block. apply Forall_concat, Forall_fmap, Forall_forall. intros v _. apply little_fits.
Qed.

Lemma blocks_fits constants k1 k2 nonce1 nonce2 n len :
  Forall (fits 8) (blocks constants k1 k2 nonce1 nonce2 n len).
Proof.
  revert n. induction len as [|len IH]; intros n; cbn [blocks]; [by constructor|].
  apply Forall_app. split; [apply block_fits|apply IH].
Qed.

Lemma word_le_fits k i : Forall (fits 8) k -> fits 32 (word_le k i).
Proof.
  intros Hk. pose proof (nth_fits8 k Hk i). pose proof (nth_fits8 k Hk (i + 1)).
  pose proof (nth_fits8 k Hk (i + 2)). pose proof (nth_fits8 k Hk (i + 3)).
  unfold word_le. split; lia.
Qed.

(** ** Properties *)

(** C37: the keystream function always returns, and what it writes is the
    ChaCha8 keystream of the reference cipher from the block the counter stands
    at: [bytes] bytes exactly, whole blocks written in place and a last partial
    block through the temporary, with the 64-bit counter advanced, carry
    included, by the number of blocks used and nothing else changed. *)
Theorem chacha_keystream_bytes_reference constants k1 k2 nonce1 nonce2 n bytes :
  row_ok constants -> row_ok k1 -> row_ok k2 -> fits 32 nonce1 -> fits 32 nonce2 -> fits 32 bytes ->
  exists out, chacha_keystream_bytes (words (input constants k1 k2 nonce1 nonce2 n)) bytes =
      Some (out, words (input constants k1 k2 nonce1 nonce2 (n + block_count bytes))) /\
    length out = Z.to_nat bytes /\
    out = take (Z.to_nat bytes)
            (blocks constants k1 k2 nonce1 nonce2 n (Z.to_nat (block_count bytes))).
Proof. apply keystream_spec. Qed.

(** Key and nonce setup, whatever the context held before, give block 0 of
    the reference cipher: the constant "expand 32-byte k", the key and nonce as
    little-endian words and a zero block counter. *)
Theorem chacha_setup_reference x k iv :
  length x = 16%nat -> Forall (fits 8) k -> Forall (fits 8) iv ->
  chacha_ivsetup (chacha_keysetup x k) iv =
    words (input sigma_row (key_row k 0) (key_row k 16) (word_le iv 0) (word_le iv 4) 0).
Proof. apply setup_spec. Qed.

(** ** Witnesses *)

(** The ChaCha8 test vector with the zero key and nonce (draft-strombergson). *)
Definition zero_row : row := Row 0 0 0 0.

Lemma zero_row_ok : row_ok zero_row.
Proof. by repeat split. Qed.

Lemma sigma_row_ok : row_ok sigma_row.
Proof. by repeat split. Qed.

Lemma chacha_setup_reference_witness :
  let x := chacha_ivsetup (chacha_keysetup (replicate 16 5) (replicate 32 0)) (replicate 8 0) in
  x = words (input sigma_row zero_row zero_row 0 0 0) /\
  take 16 (chacha_block x) = [62; 0; 239; 47; 137; 95; 64; 214; 127; 91; 184; 232; 31; 9; 165; 161].
Proof.
  split; [|vm_compute; reflexivity].
  apply (chacha_setup_reference (replicate 16 5) (replicate 32 0) (replicate 8 0)); [done|..];
    apply Forall_replicate; done.
Defined.

(** Across the carry of the low counter word. *)
Lemma chacha_keystream_bytes_reference_witness :
  exists out, chacha_keystream_bytes (words (input sigma_row zero_row zero_row 0 0 (2 ^ 32 - 1))) 100 =
    Some (out, words (input sigma_row zero_row zero_row 0 0 (2 ^ 32 + 1))) /\ length out = 100%nat.
Proof.
  destruct (chacha_keystream_bytes_reference sigma_row zero_row zero_row 0 0 (2 ^ 32 - 1) 100)
    as (out & Hrun & Hlen & _);
    [apply sigma_row_ok|apply zero_row_ok|apply zero_row_ok|split; lia|split; lia|split; lia|].
  exists out. split; [exact Hrun|exact Hlen].
Defined.
