(* ===== verification/Random.v ===== *)
(** The random number generator (random.c): seeding from the kernel, the cache
    of ChaCha8 keystream, and uniform draws by Lemire's rejection method. It
    implements the interface [RandomSource]. *)

From S2P Require Import Prelude Config Util Kernel Maps ChaCha RandomSource.

Definition RANDOM_CACHE_SIZE : Z := 256.
Definition RANDOM_RESEED_SIZE : Z := 256 * 1024.

Record random_state := RandomState { index : Z; reseed : Z; ctx : chacha_ctx; cache : list Z }.

Section Random.
Context `{K : Kernel}.

(** How often a system call may be interrupted by a signal, and how many words
    a uniform draw may reject, before the model gives up with [Stuck]. *)
Context (eintr_fuel reject_fuel : nat).

(** do r = getrandom(buf, size, 0); while (r == -1 && errno == EINTR); *)
Fixpoint getrandom_retry (fuel : nat) (size : Z) : M world (option (list Z)) :=
  match fuel with
  | O => stuck
  | S fuel =>
      let* r := ksyscall (sys_getrandom size) in
      let* e := gets errno in
      match r with
      | None => if e =? EINTR then getrandom_retry fuel size else ret None
      | Some bytes => ret (Some bytes)
      end
  end.

(** Every iteration reads at least one byte, so [size] iterations suffice. *)
Fixpoint seed_loop (fuel : nat) (size : Z) : M world (list Z) :=
  if size =? 0 then ret [] else
  match fuel with
  | O => stuck
  | S fuel =>
      let* r := getrandom_retry eintr_fuel size in
      match r with
      | None | Some [] => fatal_error "getrandom failed"
      | Some buf =>
          let* rest := seed_loop fuel (u64 (size - Z.of_nat (length buf))) in
          ret (buf ++ rest)
      end
  end.

Definition get_random_seed (size : Z) : M world (list Z) := seed_loop (Z.to_nat size) size.

Definition get_state : M (random_state * world) random_state := gets fst.
Definition set_state (st : random_state) : M (random_state * world) unit :=
  modify (fun s => (st, snd s)).

Definition setup (x : chacha_ctx) (rnd : list Z) : chacha_ctx :=
  chacha_ivsetup (chacha_keysetup x rnd) (drop 32 rnd).

Definition random_state_init : M (random_state * world) unit :=
  let* rnd := on_world (get_random_seed (CHACHA_KEY_SIZE + CHACHA_IV_SIZE)) in
  let* st := get_state in
  set_state (RandomState RANDOM_CACHE_SIZE 0 (setup (ctx st) rnd) (cache st)).

Definition refill : M (random_state * world) unit :=
  let* st := get_state in
  (if reseed st >=? RANDOM_RESEED_SIZE then random_state_init else ret tt) ;;;
  let* st := get_state in
  let* r := of_fuel (chacha_keystream_bytes (ctx st) RANDOM_CACHE_SIZE) in
  let '(bytes, x) := r in
  set_state (RandomState 0 (u32 (reseed st + RANDOM_CACHE_SIZE)) x bytes).

(** memcpy from the cache at the index, which advances *)
Definition take_cache (n : Z) : M (random_state * world) (list Z) :=
  let* st := get_state in
  set_state (RandomState (u32 (index st + n)) (reseed st) (ctx st) (cache st)) ;;;
  ret (take (Z.to_nat n) (drop (Z.to_nat (index st)) (cache st))).

Fixpoint bytes_loop (fuel : nat) (size : Z) : M (random_state * world) (list Z) :=
  if size =? 0 then ret [] else
  match fuel with
  | O => stuck
  | S fuel =>
      let* st := get_state in
      (if index st =? RANDOM_CACHE_SIZE then refill else ret tt) ;;;
      let* st := get_state in
      let remaining := u32 (RANDOM_CACHE_SIZE - index st) in
      let copy_size := min size remaining in
      let* buf := take_cache copy_size in
      let* rest := bytes_loop fuel (u64 (size - copy_size)) in
      ret (buf ++ rest)
  end.

Definition get_random_bytes (size : Z) : M (random_state * world) (list Z) :=
  if size >? RANDOM_CACHE_SIZE / 2 then
    let* st := get_state in
    let* r := of_fuel (chacha_keystream_bytes (ctx st) (u32 size)) in
    let '(bytes, x) := r in
    set_state (RandomState (index st) (reseed st) x (cache st)) ;;;
    ret bytes
  else bytes_loop (Z.to_nat size) size.

(** The state to initialise is an argument and a result; the monad's own state
    is [source]. *)
Definition random_state_init_from_random_state (state : random_state) :
  M (random_state * world) random_state :=
  let* rnd := get_random_bytes (CHACHA_KEY_SIZE + CHACHA_IV_SIZE) in
  ret (RandomState RANDOM_CACHE_SIZE 0 (setup (ctx state) rnd) (cache state)).

(** The little-endian value of some bytes. *)
Definition le_value (l : list Z) : Z := foldr (fun b acc => b + 256 * acc) 0 l.

(** get_random_u16, get_random_u32 and get_random_u64 differ in [sizeof(value)]. *)
Definition get_random_word (size : Z) : M (random_state * world) Z :=
  let* st := get_state in
  let remaining := u32 (RANDOM_CACHE_SIZE - index st) in
  (if remaining <? size then refill else ret tt) ;;;
  let* buf := take_cache size in
  ret (le_value buf).

Definition chacha_get_random_u16 : M (random_state * world) Z := get_random_word 2.
Definition chacha_get_random_u32 : M (random_state * world) Z := get_random_word 4.
Definition chacha_get_random_u64 : M (random_state * world) Z := get_random_word 8.

(** The three uniform draws differ in the width w of the word; the product is
    computed at width 2w. *)
Definition multiresult (w random bound : Z) : Z := wrap (2 * w) (random * bound).
Definition leftover (w random bound : Z) : Z := wrap w (multiresult w random bound).
Definition threshold (w bound : Z) : Z := wrap w (- bound) mod bound.

Fixpoint reject_loop (fuel : nat) (w : Z) (draw : M (random_state * world) Z) (bound random : Z) :
  M (random_state * world) Z :=
  if leftover w random bound <? threshold w bound then
    match fuel with
    | O => stuck
    | S fuel => let* random := draw in reject_loop fuel w draw bound random
    end
  else ret (Z.shiftr (multiresult w random bound) w).

Definition uniform (w : Z) (draw : M (random_state * world) Z) (bound : Z) :
  M (random_state * world) Z :=
  let* random := draw in
  if leftover w random bound <? bound
  then reject_loop reject_fuel w draw bound random
  else ret (Z.shiftr (multiresult w random bound) w).

Definition chacha_get_random_u16_uniform : Z -> M (random_state * world) Z := uniform 16 chacha_get_random_u16.
Definition chacha_get_random_u32_uniform : Z -> M (random_state * world) Z := uniform 32 chacha_get_random_u32.
Definition chacha_get_random_u64_uniform : Z -> M (random_state * world) Z := uniform 64 chacha_get_random_u64.

End Random.

(** ** Uniformity of Lemire's method *)

Section Lemire.
Context (w bound : Z) (Hw : 0 < w) (Hb : 0 < bound < 2 ^ w).

Lemma leftover_eq random : leftover w random bound = (random * bound) mod 2 ^ w.
Proof.
  unfold leftover, multiresult, wrap. apply Z.mod_mod_divide. exists (2 ^ w).
  rewrite <- Z.pow_add_r by lia. f_equal. lia.
Qed.

Lemma multiresult_eq random : fits w random -> multiresult w random bound = random * bound.
Proof.
  intros [? ?]. apply wrap_small. split; [nia|].
  replace (2 * w) with (w + w) by lia. rewrite Z.pow_add_r by lia. nia.
Qed.

Lemma threshold_eq : threshold w bound = 2 ^ w mod bound.
Proof.
  unfold threshold, wrap. rewrite <- (Z_mod_plus_full (- bound) 1), Z.mul_1_l.
  rewrite (Z.mod_small (- bound + 2 ^ w)) by lia.
  replace (- bound + 2 ^ w) with (2 ^ w + (- 1) * bound) by lia. apply Z_mod_plus_full.
Qed.

Lemma result_bound random : fits w random -> 0 <= Z.shiftr (multiresult w random bound) w < bound.
Proof.
  intros Hr. rewrite multiresult_eq, Z.shiftr_div_pow2 by (done || lia).
  destruct Hr. pose proof (pow2_pos w ltac:(lia)).
  split; [apply Z.div_pos; nia|]. apply Z.div_lt_upper_bound; nia.
Qed.

(** The first test of the code accepts nothing that the second would not. *)
Lemma threshold_lt_bound : 0 <= threshold w bound < bound.
Proof. rewrite threshold_eq. apply Z.mod_pos_bound. lia. Qed.
End Lemire.

(** ** The generator *)

(** A context that holds block [n] of some key and nonce. *)
Definition ctx_ok (x : chacha_ctx) : Prop :=
  exists c k1 k2 n1 n2 n, row_ok c /\ row_ok k1 /\ row_ok k2 /\ fits 32 n1 /\ fits 32 n2 /\
    x = Reference.words (Reference.input c k1 k2 n1 n2 n).

(** What [random_state_init] needs: the shape of the structure. *)
Record random_shape (st : random_state) : Prop := {
  rs_ctx : length (ctx st) = 16%nat;
  rs_cache : length (cache st) = 256%nat;
  rs_bytes : Forall (fits 8) (cache st)
}.

(** The invariant of a seeded generator. *)
Record random_ok (st : random_state) : Prop := {
  ro_shape : random_shape st;
  ro_ctx : ctx_ok (ctx st);
  ro_index : 0 <= index st <= RANDOM_CACHE_SIZE;
  ro_reseed : 0 <= reseed st <= RANDOM_RESEED_SIZE;
  ro_reseed_mult : (RANDOM_CACHE_SIZE | reseed st)
}.

Lemma ctx_ok_length x : ctx_ok x -> length x = 16%nat.
Proof. by intros (c & k1 & k2 & n1 & n2 & n & _ & _ & _ & _ & _ & ->). Qed.

Lemma setup_ok x rnd :
  length x = 16%nat -> Forall (fits 8) rnd -> ctx_ok (setup x rnd).
Proof.
  intros Hx Hr. assert (Hd : Forall (fits 8) (drop 32 rnd)) by by apply Forall_drop.
  unfold setup. rewrite setup_spec by done.
  repeat eexists; try apply word_le_fits; done || lia.
Qed.

Lemma keystream_ok x bytes :
  ctx_ok x -> fits 32 bytes ->
  exists out x', chacha_keystream_bytes x bytes = Some (out, x') /\
    length out = Z.to_nat bytes /\ Forall (fits 8) out /\ ctx_ok x'.
Proof.
  intros (c & k1 & k2 & n1 & n2 & n & Hc & Hk1 & Hk2 & Hn1 & Hn2 & ->) Hb.
  destruct (keystream_spec c k1 k2 n1 n2 n bytes Hc Hk1 Hk2 Hn1 Hn2 Hb) as (out & Hrun & Hlen & Hout).
  eexists out, _. split; [exact Hrun|]. split; [done|]. split.
  - rewrite Hout. apply Forall_take, blocks_fits.
  - exists c, k1, k2, n1, n2, (n + block_count bytes). done.
Qed.

(** How a draw fails to return. *)
Definition random_fail (h : halt) : Prop := h = Fatal "getrandom failed" \/ h = Stuck.

Section Draws.
Context {K : Kernel} {Kok : KernelOk K} (eintr_fuel reject_fuel : nat).
Implicit Types (w : world) (st : random_state).

Lemma wp_getrandom_retry fuel size w :
  0 < size ->
  wp (getrandom_retry fuel size)
     (fun r w' => mem w' = mem w /\
        match r with
        | Some buf => Z.of_nat (length buf) <= size /\ Forall (fits 8) buf
        | None => True
        end) (eq Stuck) w.
Proof.
  intros Hsize. revert w. induction fuel as [|fuel IH]; intros w; [done|]. cbn [getrandom_retry].
  apply wp_bind, wp_ksyscall; intros r k E; apply wp_bind, wp_gets.
  - apply wp_ret. split; [done|]. by apply getrandom_ok in E.
  - wp_step; [|by apply wp_ret]. exact (IH (World _ k (mem w) r)).
Qed.

(** The outer loop needs no more iterations than bytes. *)
Lemma wp_seed_loop fuel : forall size w,
  0 <= size < 2 ^ 63 -> size <= Z.of_nat fuel ->
  wp (seed_loop eintr_fuel fuel size)
     (fun l w' => mem w' = mem w /\ Z.of_nat (length l) = size /\ Forall (fits 8) l) random_fail w.
Proof.
  induction fuel as [|fuel IH]; intros size w Hs Hf; cbn [seed_loop]; destruct (Z.eqb_spec size 0) as [->|Hne];
    try (by apply wp_ret); [lia|].
  apply wp_bind. eapply wp_mono; [apply (wp_getrandom_retry eintr_fuel size w); lia| |intros h <-; by right].
  intros [[|b buf]|] w1 [Hw1 Hbuf]; [by left| |by left]. destruct Hbuf as [Hlen Hb].
  rewrite wrap_small by (split; cbn [length] in *; lia). apply wp_bind.
  eapply wp_conseq; [apply IH; cbn [length] in *; lia|]. intros rest w2 (Hw2 & Hl & Hr). apply wp_ret.
  split; [congruence|]. rewrite length_app. split; [cbn [length] in *; lia|]. by apply Forall_app.
Qed.

Lemma wp_get_random_seed size w :
  0 <= size < 2 ^ 63 ->
  wp (get_random_seed eintr_fuel size)
     (fun l w' => mem w' = mem w /\ Z.of_nat (length l) = size /\ Forall (fits 8) l) random_fail w.
Proof. intros. apply wp_seed_loop; [done|lia]. Qed.

Definition same_mem (s s' : random_state * world) : Prop := mem (snd s') = mem (snd s).

Lemma wp_random_state_init st w :
  random_shape st ->
  wp (random_state_init eintr_fuel)
     (fun _ s => random_ok (fst s) /\ index (fst s) = 256 /\ reseed (fst s) = 0 /\
                 mem (snd s) = mem w) random_fail (st, w).
Proof.
  intros Hsh. unfold random_state_init, get_state, set_state.
  apply wp_bind, wp_on_world. eapply wp_conseq; [by apply wp_get_random_seed|].
  intros rnd w' (Hw & _ & Hr). repeat wp_step. cbn.
  split; [|done]. assert (Hctx : ctx_ok (setup (ctx st) rnd)) by (apply setup_ok; [apply Hsh|done]).
  split; cbn; unfold RANDOM_CACHE_SIZE, RANDOM_RESEED_SIZE; try done || lia.
  - split; cbn; [by apply ctx_ok_length|apply Hsh..].
  - by exists 0.
Qed.

Lemma wp_refill st w :
  random_ok st ->
  wp (refill eintr_fuel)
     (fun _ s => random_ok (fst s) /\ index (fst s) = 0 /\ mem (snd s) = mem w /\
        reseed (fst s) = (if reseed st >=? RANDOM_RESEED_SIZE then 0 else reseed st) + 256)
     random_fail (st, w).
Proof.
  intros Hok. unfold refill, get_state. do 3 wp_step. cbn [fst].
  apply (wp_conseq _ (fun _ s => random_ok (fst s) /\ mem (snd s) = mem w /\
    reseed (fst s) = if reseed st >=? RANDOM_RESEED_SIZE then 0 else reseed st)).
  { wp_step.
    - eapply wp_conseq; [apply wp_random_state_init, Hok|]. intros _ s (? & _ & ? & ?). done.
    - by apply wp_ret. }
  intros _ [st1 w1] (Hok1 & Hw1 & Hr1). cbn [fst snd] in *. do 2 wp_step. cbn [fst].
  destruct (keystream_ok (ctx st1) RANDOM_CACHE_SIZE (ro_ctx _ Hok1)) as (out & x & Hrun & Hlen & Hb & Hx).
  { by split. }
  wp_step. eapply wp_of_fuel; [exact Hrun|]. cbn beta iota. apply wp_modify. cbn.
  assert (Hle : 0 <= reseed st1 + 256 <= RANDOM_RESEED_SIZE).
  { rewrite Hr1. destruct (ro_reseed_mult _ Hok) as [q Hq], (ro_reseed _ Hok).
    unfold RANDOM_RESEED_SIZE, RANDOM_CACHE_SIZE in *.
    destruct (reseed st >=? _) eqn:E; [lia|]. rewrite Z.geb_leb in E. apply Z.leb_gt in E. lia. }
  assert (Hsmall : u32 (reseed st1 + 256) = reseed st1 + 256).
  { apply wrap_small. unfold RANDOM_RESEED_SIZE in Hle. split; lia. }
  unfold RANDOM_CACHE_SIZE at 1 2. rewrite Hsmall. split; [|split; [done|split; [done|lia]]].
  split; cbn; try done.
  - split; cbn; [by apply ctx_ok_length|done..].
  - apply Z.divide_add_r; [apply Hok1|done].
Qed.

(** The bytes the cache holds from the index on. *)
Definition cached st : list Z := drop (Z.to_nat (index st)) (cache st).

Lemma wp_take_cache st w n :
  random_ok st -> 0 <= n -> index st + n <= RANDOM_CACHE_SIZE ->
  wp (take_cache n)
     (fun l s => random_ok (fst s) /\ snd s = w /\ l = take (Z.to_nat n) (cached st) /\
        Z.of_nat (length l) = n /\ Forall (fits 8) l /\ index (fst s) = index st + n /\
        cached (fst s) = drop (Z.to_nat n) (cached st) /\ reseed (fst s) = reseed st)
     no_halt (st, w).
Proof.
  intros Hok Hn Hle. destruct (ro_index _ Hok) as [Hi _]. unfold RANDOM_CACHE_SIZE in *.
  unfold take_cache, get_state, set_state. repeat wp_step. cbn [fst snd].
  assert (E : u32 (index st + n) = index st + n) by (apply wrap_small; split; lia). rewrite E.
  fold (cached st). split; [|split; [done|split; [done|]]].
  - destruct Hok as [Hs Hc Hidx Hr Hm]. split; cbn; try done; [by destruct Hs|unfold RANDOM_CACHE_SIZE; lia].
  - split_and!.
    + unfold cached. rewrite length_take, length_drop, (rs_cache _ (ro_shape _ Hok)). lia.
    + apply Forall_take, Forall_drop, (rs_bytes _ (ro_shape _ Hok)).
    + done.
    + unfold cached. cbn. rewrite drop_drop. f_equal. lia.
    + done.
Qed.

Lemma le_value_fits l n :
  Forall (fits 8) l -> Z.of_nat (length l) = n -> fits (8 * n) (le_value l).
Proof.
  intros Hl <-. induction Hl as [|b l Hb Hl IH]; [split; cbn; lia|].
  cbn [le_value foldr length]. fold (le_value l). rewrite Nat2Z.inj_succ.
  replace (8 * Z.succ (Z.of_nat (length l))) with (8 + 8 * Z.of_nat (length l)) by lia.
  unfold fits in *. rewrite Z.pow_add_r by lia. lia.
Qed.

(** The postcondition of a draw. *)
Definition draw_post (P : Z -> Prop) w (v : Z) (s : random_state * world) : Prop :=
  P v /\ random_ok (fst s) /\ mem (snd s) = mem w.

Lemma random_remaining st :
  random_ok st -> u32 (RANDOM_CACHE_SIZE - index st) = RANDOM_CACHE_SIZE - index st.
Proof.
  intros Hok. destruct (ro_index _ Hok). unfold RANDOM_CACHE_SIZE in *. apply wrap_small. split; lia.
Qed.

Lemma wp_get_random_word st w n :
  random_ok st -> 0 < n <= 8 ->
  wp (get_random_word eintr_fuel n) (draw_post (fits (8 * n)) w) random_fail (st, w).
Proof.
  intros Hok Hn. unfold get_random_word, get_state. do 2 wp_step. cbn [fst]. cbv zeta.
  rewrite random_remaining by done. apply wp_bind.
  apply (wp_conseq _ (fun _ s => random_ok (fst s) /\ mem (snd s) = mem w /\
    index (fst s) + n <= RANDOM_CACHE_SIZE)).
  { wp_step.
    - eapply wp_conseq; [by apply wp_refill|]. intros _ s (? & Hidx & ? & _).
      split; [done|]. split; [done|]. rewrite Hidx. unfold RANDOM_CACHE_SIZE. lia.
    - apply wp_ret. apply Z.ltb_ge in Hb. cbn. split; [done|]. split; [done|]. lia. }
  intros _ [st1 w1] (Hok1 & Hw1 & Hidx). cbn [fst snd] in *. apply wp_bind.
  eapply wp_mono; [apply wp_take_cache; [done|lia|done]| |done].
  intros l [st2 w2] (Hok2 & Hw2 & _ & Hlen & Hl & _). cbn [fst snd] in *. apply wp_ret.
  split; [by apply le_value_fits|]. split; [done|]. cbn. congruence.
Qed.

Lemma wp_reject_loop fuel wd draw bound : forall random st w,
  0 < wd -> 0 < bound < 2 ^ wd -> fits wd random -> random_ok st ->
  (forall st w, random_ok st -> wp draw (draw_post (fits wd) w) random_fail (st, w)) ->
  wp (reject_loop fuel wd draw bound random) (draw_post (fun v => 0 <= v < bound) w) random_fail (st, w).
Proof.
  induction fuel as [|fuel IH]; intros random st w Hwd Hb Hr Hok Hdraw; cbn [reject_loop];
    destruct (_ <? _).
  - by right.
  - apply wp_ret. by split; [apply result_bound|].
  - apply wp_bind. eapply wp_conseq; [by apply Hdraw|]. intros random' [st1 w1] (Hr1 & Hok1 & Hw1).
    cbn [fst snd] in *. eapply wp_conseq; [by apply IH|]. intros v s (? & ? & ?). split; [done|].
    split; [done|]. congruence.
  - apply wp_ret. by split; [apply result_bound|].
Qed.

Lemma wp_uniform wd draw bound st w :
  0 < wd -> 0 < bound < 2 ^ wd -> random_ok st ->
  (forall st w, random_ok st -> wp draw (draw_post (fits wd) w) random_fail (st, w)) ->
  wp (uniform reject_fuel wd draw bound) (draw_post (fun v => 0 <= v < bound) w) random_fail (st, w).
Proof.
  intros Hwd Hb Hok Hdraw. unfold uniform. apply wp_bind. eapply wp_conseq; [by apply Hdraw|].
  intros random [st1 w1] (Hr1 & Hok1 & Hw1). cbn [fst snd] in *. wp_step.
  - eapply wp_conseq; [by apply wp_reject_loop|]. intros v s (? & ? & ?). split; [done|].
    split; [done|]. congruence.
  - apply wp_ret. by split; [apply result_bound|].
Qed.

(** Copying from the cache takes at most as many rounds as bytes. *)
Lemma wp_bytes_loop fuel : forall size st w,
  random_ok st -> 0 <= size < 2 ^ 63 -> size <= Z.of_nat fuel ->
  wp (bytes_loop eintr_fuel fuel size)
     (fun l s => Z.of_nat (length l) = size /\ Forall (fits 8) l /\ random_ok (fst s) /\
        mem (snd s) = mem w /\
        (index st + size <= RANDOM_CACHE_SIZE ->
           l = take (Z.to_nat size) (cached st) /\ index (fst s) = index st + size))
     random_fail (st, w).
Proof.
  induction fuel as [|fuel IH]; intros size st w Hok Hsize Hf; cbn [bytes_loop];
    (destruct (Z.eqb_spec size 0) as [->|Hne];
      [apply wp_ret; split; [done|]; split; [by constructor|]; split; [done|]; split; [done|];
       cbn [fst]; intros; split; [done|lia]|]); [lia|].
  unfold get_state. do 3 wp_step. cbn [fst].
  apply (wp_conseq _ (fun _ s => random_ok (fst s) /\ mem (snd s) = mem w /\
    index (fst s) < RANDOM_CACHE_SIZE /\ (index st < RANDOM_CACHE_SIZE -> fst s = st))).
  { wp_step.
    - eapply wp_conseq; [by apply wp_refill|]. intros _ s (? & Hidx & ? & _). rewrite Hidx.
      apply Z.eqb_eq in Hb. unfold RANDOM_CACHE_SIZE in *. split_and!; done || lia.
    - apply wp_ret. apply Z.eqb_neq in Hb. cbn. destruct (ro_index _ Hok). split_and!; done || lia. }
  intros _ [st1 w1] (Hok1 & Hw1 & Hidx & Hsame). cbn [fst snd] in *. do 2 wp_step. cbn [fst].
  cbv zeta. rewrite random_remaining by done. destruct (ro_index _ Hok1) as [Hi1 _].
  set (n := min size (RANDOM_CACHE_SIZE - index st1)).
  assert (Hn : 0 < n /\ n <= size /\ index st1 + n <= RANDOM_CACHE_SIZE /\
    (index st1 + size <= RANDOM_CACHE_SIZE -> n = size)).
  { unfold n. rewrite min_spec. lia. }
  destruct Hn as (Hn0 & Hns & Hni & Hnall). apply wp_bind.
  eapply wp_mono; [apply wp_take_cache; [done|lia|done]| |done].
  intros buf [st2 w2] (Hok2 & Hw2 & Hbuf & Hlen & Hb & Hidx2 & Hc2 & _). cbn [fst snd] in *.
  rewrite wrap_small by (split; lia). apply wp_bind.
  eapply wp_conseq; [apply IH; [done|lia|lia]|].
  intros rest [st3 w3] (Hl3 & Hb3 & Hok3 & Hw3 & Hfit). cbn [fst snd] in *. apply wp_ret. cbn [fst snd].
  split; [rewrite length_app; lia|]. split; [by apply Forall_app|]. split; [done|].
  split; [congruence|]. intros Hle. rewrite Hsame in * by lia.
  specialize (Hnall Hle). destruct Hfit as [Hrest Hidx3]; [lia|].
  split; [|lia]. rewrite Hrest, Hbuf, Hnall, Z.sub_diag. cbn. by rewrite app_nil_r.
Qed.

Lemma wp_get_random_bytes size st w :
  random_ok st -> 0 <= size < 2 ^ 32 ->
  wp (get_random_bytes eintr_fuel size)
     (fun l s => Z.of_nat (length l) = size /\ Forall (fits 8) l /\ random_ok (fst s) /\
        mem (snd s) = mem w) random_fail (st, w).
Proof.
  intros Hok Hsize. unfold get_random_bytes, get_state, set_state. wp_step.
  - do 2 wp_step. cbn [fst].
    destruct (keystream_ok (ctx st) (u32 size) (ro_ctx _ Hok)) as (out & x & Hrun & Hlen & Hbt & Hx).
    { by apply wrap_fits. }
    rewrite wrap_small in Hlen by done. wp_step. eapply wp_of_fuel; [exact Hrun|]. cbn beta iota.
    repeat wp_step. cbn. split; [lia|]. split; [done|]. split; [|done].
    destruct Hok as [[] Hc Hidx Hr Hm]. split; cbn; try done. split; cbn; [by apply ctx_ok_length|done..].
  - eapply wp_conseq; [apply wp_bytes_loop; [done|lia|lia]|]. intros l s (? & ? & ? & ? & _). done.
Qed.

Lemma wp_random_state_init_from_random_state state st w :
  random_shape state -> random_ok st ->
  wp (random_state_init_from_random_state eintr_fuel state)
     (fun st' s => random_ok st' /\ index st' = 256 /\ reseed st' = 0 /\ random_ok (fst s) /\
        mem (snd s) = mem w) random_fail (st, w).
Proof.
  intros Hsh Hok. unfold random_state_init_from_random_state. apply wp_bind.
  eapply wp_conseq; [by apply wp_get_random_bytes|]. intros rnd s (_ & Hb & Hok1 & Hw).
  apply wp_ret. assert (Hctx : ctx_ok (setup (ctx state) rnd)) by (apply setup_ok; [apply Hsh|done]).
  split; [|done]. split; cbn; unfold RANDOM_CACHE_SIZE, RANDOM_RESEED_SIZE; try done || lia.
  - split; cbn; [by apply ctx_ok_length|apply Hsh..].
  - by exists 0.
Qed.

(** A bound of zero gives zero at once, whatever the word. *)
Lemma wp_uniform_zero wd draw st w :
  random_ok st -> 0 < wd ->
  (forall st w, random_ok st -> wp draw (draw_post (fits wd) w) random_fail (st, w)) ->
  wp (uniform reject_fuel wd draw 0) (draw_post (fun v => v = 0) w) random_fail (st, w).
Proof.
  intros Hok Hwd Hdraw. unfold uniform. apply wp_bind. eapply wp_conseq; [by apply Hdraw|].
  intros random [st1 w1] (_ & Hok1 & Hw1). cbn [fst snd] in *.
  rewrite leftover_eq, Z.mul_0_r, Z.mod_0_l by (pose proof (pow2_pos wd); lia). rewrite Z.ltb_irrefl. apply wp_ret.
  split; [|done]. unfold multiresult, wrap. rewrite Z.mul_0_r, Z.mod_0_l by (pose proof (pow2_pos (2 * wd)); lia).
  apply Z.shiftr_0_l.
Qed.
End Draws.

(** ** Mappings *)

Section Mappings.
Context {K : Kernel} {Kok : KernelOk K} (eintr_fuel reject_fuel : nat).

#[export] Instance keeps_getrandom_retry fuel size : KeepsMaps (getrandom_retry fuel size).
Proof. induction fuel; cbn; keeps. Qed.

#[export] Instance keeps_seed_loop fuel : forall size, KeepsMaps (seed_loop eintr_fuel fuel size).
Proof. induction fuel; intros size; cbn; keeps. Qed.

#[export] Instance keeps_random_state_init : KeepsMaps (random_state_init eintr_fuel).
Proof. unfold random_state_init, get_random_seed, get_state, set_state. keeps. Qed.

#[export] Instance keeps_refill : KeepsMaps (refill eintr_fuel).
Proof. unfold refill, get_state, set_state. keeps. Qed.

#[export] Instance keeps_take_cache n : KeepsMaps (take_cache n).
Proof. unfold take_cache, get_state, set_state. keeps. Qed.

#[export] Instance keeps_bytes_loop fuel : forall size, KeepsMaps (bytes_loop eintr_fuel fuel size).
Proof. induction fuel; intros size; cbn; unfold get_state; keeps. Qed.

#[export] Instance keeps_get_random_bytes size : KeepsMaps (get_random_bytes eintr_fuel size).
Proof. unfold get_random_bytes, get_state, set_state. keeps. Qed.

#[export] Instance keeps_init_from r : KeepsMaps (random_state_init_from_random_state eintr_fuel r).
Proof. unfold random_state_init_from_random_state. keeps. Qed.

#[export] Instance keeps_get_random_word size : KeepsMaps (get_random_word eintr_fuel size).
Proof. unfold get_random_word, get_state. keeps. Qed.

#[export] Instance keeps_reject_loop fuel wd draw bound :
  KeepsMaps draw -> forall random, KeepsMaps (reject_loop fuel wd draw bound random).
Proof. intros Hd. induction fuel; intros random; cbn; keeps. Qed.

#[export] Instance keeps_uniform wd draw bound :
  KeepsMaps draw -> KeepsMaps (uniform reject_fuel wd draw bound).
Proof. intros Hd. unfold uniform. keeps. Qed.
End Mappings.

(** ** The interface *)

(** A generator on zeroed pages. *)
Definition blank_state : random_state := RandomState 0 0 (replicate 16 0) (replicate 256 0).

Lemma blank_shape : random_shape blank_state.
Proof. split; [done|done|]. by apply Forall_replicate. Qed.

(** The ChaCha8 generator as a source of random numbers for the allocator. *)
#[export] Instance chacha_random `{K : Kernel} {eintr_fuel reject_fuel : nat} :
    RandomSource random_state := {|
  get_random_u16_uniform := chacha_get_random_u16_uniform eintr_fuel reject_fuel;
  get_random_u32_uniform := chacha_get_random_u32_uniform eintr_fuel reject_fuel;
  get_random_u64_uniform := chacha_get_random_u64_uniform eintr_fuel reject_fuel;
  get_random_u64 := chacha_get_random_u64 eintr_fuel;
  random_zero := blank_state;
  random_init := random_state_init eintr_fuel;
  random_init_from := random_state_init_from_random_state eintr_fuel;
  random_inv := random_ok;
  random_halts := random_fail
|}.

#[export] Instance chacha_random_ok {K : Kernel} {Kok : KernelOk K} {eintr_fuel reject_fuel : nat} :
  @RandomSourceOk K random_state (@chacha_random K eintr_fuel reject_fuel).
Proof.
  assert (Hword : forall n st w, 0 < n <= 8 -> random_ok st ->
    wp (get_random_word eintr_fuel n) (draw_post (fits (8 * n)) w) random_fail (st, w)).
  { intros. by apply wp_get_random_word. }
  constructor; cbn; try (intros; unfold chacha_get_random_u16_uniform, chacha_get_random_u32_uniform,
    chacha_get_random_u64_uniform, chacha_get_random_u16, chacha_get_random_u32, chacha_get_random_u64; apply _);
    intros; destruct s as [st w]; cbn in *.
  - apply wp_uniform; [done..|]. intros. by apply (Hword 2).
  - apply wp_uniform; [done..|]. intros. by apply (Hword 4).
  - apply wp_uniform; [done..|]. intros. by apply (Hword 8).
  - apply wp_uniform_zero; [done..|]. intros. by apply (Hword 8).
  - by apply (Hword 8).
  - assert (Hsh : random_shape st) by (destruct H as [->|H]; [exact blank_shape|apply H]).
    eapply wp_conseq; [by apply wp_random_state_init|]. intros _ s' (? & _ & _ & ?). done.
  - eapply wp_conseq; [apply wp_random_state_init_from_random_state; [exact blank_shape|done]|].
    intros r s' (? & _ & _ & ? & ?). done.
Qed.

(** ** Properties *)

Section Properties.
Context {K : Kernel} {Kok : KernelOk K} (eintr_fuel reject_fuel : nat).
Implicit Types (st : random_state) (w : world).

(** A small request takes its bytes from the cache in order, whatever it
    holds; when they fit before the end, they are exactly the next cached bytes
    and the index moves past them, so no cached byte is handed out twice. The
    result has the requested length and user memory is untouched. *)
Theorem get_random_bytes_cached size st w :
  random_ok st -> 0 <= size <= RANDOM_CACHE_SIZE / 2 ->
  wp (get_random_bytes eintr_fuel size)
     (fun bytes s => Z.of_nat (length bytes) = size /\ Forall (fits 8) bytes /\
        random_ok (fst s) /\ mem (snd s) = mem w /\
        (index st + size <= RANDOM_CACHE_SIZE ->
           bytes = take (Z.to_nat size) (cached st) /\ index (fst s) = index st + size))
     random_fail (st, w).
Proof.
  intros Hok Hsize. unfold get_random_bytes. rewrite Z.gtb_ltb.
  rewrite (proj2 (Z.ltb_ge _ _)) by lia.
  assert (RANDOM_CACHE_SIZE / 2 = 128) by done. by apply wp_bytes_loop; [|lia|lia].
Qed.

(** Refilling replaces the whole cache by fresh keystream and reseeds from
    the kernel once 256 KiB have been drawn from one seed: the counter of drawn
    bytes stays a multiple of the cache size and never passes that limit. *)
Theorem refill_reseeds st w :
  random_ok st ->
  wp (refill eintr_fuel)
     (fun _ s => random_ok (fst s) /\ index (fst s) = 0 /\ mem (snd s) = mem w /\
        reseed (fst s) = (if reseed st >=? RANDOM_RESEED_SIZE then 0 else reseed st) + RANDOM_CACHE_SIZE /\
        reseed (fst s) <= RANDOM_RESEED_SIZE) random_fail (st, w).
Proof.
  intros Hok. eapply wp_conseq; [by apply wp_refill|]. intros _ s (Hok' & ? & ? & ?).
  split_and!; try done. apply Hok'.
Qed.

(** A uniform draw returns a value below its bound for every bound of its
    width, keeps the generator seeded and does not touch user memory; it can
    only fail by a failing getrandom or by rejecting [reject_fuel] words. *)
Theorem uniform_in_range st w bound16 bound32 bound64 :
  random_ok st -> 0 < bound16 < 2 ^ 16 -> 0 < bound32 < 2 ^ 32 -> 0 < bound64 < 2 ^ 64 ->
  wp (chacha_get_random_u16_uniform eintr_fuel reject_fuel bound16)
     (draw_post (fun v => 0 <= v < bound16) w) random_fail (st, w) /\
  wp (chacha_get_random_u32_uniform eintr_fuel reject_fuel bound32)
     (draw_post (fun v => 0 <= v < bound32) w) random_fail (st, w) /\
  wp (chacha_get_random_u64_uniform eintr_fuel reject_fuel bound64)
     (draw_post (fun v => 0 <= v < bound64) w) random_fail (st, w).
Proof.
  intros Hok H16 H32 H64. split_and!; apply wp_uniform; try done; intros.
  - by apply (wp_get_random_word eintr_fuel _ _ 2).
  - by apply (wp_get_random_word eintr_fuel _ _ 4).
  - by apply (wp_get_random_word eintr_fuel _ _ 8).
Qed.

(** Initialising one generator from another gives a seeded, empty generator
    and keeps the source seeded: both satisfy the invariant that every draw
    needs. *)
Theorem random_state_init_from_ok state st w :
  random_shape state -> random_ok st ->
  wp (random_state_init_from_random_state eintr_fuel state)
     (fun st' s => random_ok st' /\ index st' = RANDOM_CACHE_SIZE /\ reseed st' = 0 /\
        random_ok (fst s) /\ mem (snd s) = mem w) random_fail (st, w).
Proof. apply wp_random_state_init_from_random_state. Qed.
End Properties.

(** A read of random bytes that a signal interrupted succeeds with errno changed. *)
Lemma interrupted_read_errno `{K : Kernel} fuel size (w : world) k1 bytes k2 :
  sys_getrandom size (kern w) = (SysErr EINTR, k1) -> sys_getrandom size k1 = (SysOk bytes, k2) ->
  getrandom_retry (2 + fuel) size w = Ret (Some bytes) (World _ k2 (mem w) EINTR).
Proof.
  intros H1 H2. cbn [Nat.add getrandom_retry]. unfold bind, ksyscall, syscall, gets. cbn [fst snd]. rewrite H1. cbn [fst snd kern mem errno].
  rewrite Z.eqb_refl. cbn [fst snd kern mem errno]. by rewrite H2.
Qed.

(** ** Witnesses *)

Section Witnesses.

(** [blank_state] seeded by the concrete kernel. *)
Definition seeded : random_state :=
  match random_state_init 1 (blank_state, demo_world []) with
  | Ret _ s => fst s
  | Halt _ => blank_state
  end.

Lemma seeded_ok : random_ok seeded.
Proof.
  pose proof (wp_random_state_init 1 blank_state (demo_world []) blank_shape) as H.
  unfold seeded. unfold wp in H.
  assert (Hok : match random_state_init 1 (blank_state, demo_world []) with
                | Ret _ _ => True | Halt _ => False end) by (vm_compute; exact I).
  destruct (random_state_init _ _) as [u s|h]; [apply H|done].
Qed.

Lemma get_random_bytes_cached_witness :
  wp (get_random_bytes 1 40)
     (fun bytes s => Z.of_nat (length bytes) = 40 /\ mem (snd s) = ∅) random_fail (seeded, demo_world []).
Proof.
  eapply wp_conseq; [apply (get_random_bytes_cached 1 40 seeded (demo_world [])); [apply seeded_ok|]|].
  - split; [lia|]. vm_compute. discriminate.
  - intros bytes s (H1 & _ & _ & H2 & _). exact (conj H1 H2).
Defined.

Lemma refill_reseeds_witness :
  wp (refill 1) (fun _ s => index (fst s) = 0 /\ reseed (fst s) = 256) random_fail (seeded, demo_world []).
Proof.
  eapply wp_conseq; [apply (refill_reseeds 1 seeded (demo_world []) seeded_ok)|].
  intros u s (_ & H1 & _ & H2 & _). split; [exact H1|]. rewrite H2.
  assert (E : reseed seeded = 0) by (vm_compute; reflexivity). rewrite E. reflexivity.
Defined.

Lemma uniform_in_range_witness :
  wp (chacha_get_random_u16_uniform 1 1 10) (draw_post (fun v => 0 <= v < 10) (demo_world []))
     random_fail (seeded, demo_world []).
Proof.
  exact (proj1 (uniform_in_range 1 1 seeded (demo_world []) 10 10 10 seeded_ok
    ltac:(lia) ltac:(lia) ltac:(lia))).
Defined.

Lemma random_state_init_from_ok_witness :
  wp (random_state_init_from_random_state 1 blank_state)
     (fun st' s => random_ok st' /\ index st' = 256 /\ reseed st' = 0 /\ random_ok (fst s) /\
        mem (snd s) = ∅) random_fail (seeded, demo_world []).
Proof.
  eapply wp_conseq; [exact (random_state_init_from_ok 1 blank_state seeded (demo_world []) blank_shape seeded_ok)|].
  intros st' s H. exact H.
Defined.
End Witnesses.
