(* ===== verification/RandomSpec.v ===== *)
(** What random.c promises: seeding takes exactly what the kernel answers, and a
    uniform draw is exactly uniform. *)

From S2P Require Import Prelude Config Util Kernel Maps ChaCha RandomSource Random.

(** ** Seeding against the answers of the kernel *)

(** The bytes of an answer of getrandom. *)
Definition answer_bytes (r : sysret (list Z)) : list Z :=
  match r with SysOk bytes => bytes | SysErr _ => [] end.

(** [transcript size k l k']: in kernel state [k] the calls of getrandom of a caller
    that wants [size] bytes, and asks each time for those still missing, are
    answered by [l]. *)
Inductive transcript `{Kernel} : Z -> kstate -> list (sysret (list Z)) -> kstate -> Prop :=
| TranscriptEnd size k : transcript size k [] k
| TranscriptCall size k r k1 l k2 :
    sys_getrandom size k = (r, k1) -> transcript (size - Z.of_nat (length (answer_bytes r))) k1 l k2 ->
    transcript size k (r :: l) k2.

(** An answer that leads to another call: some bytes, or a signal. *)
Definition goes_on (r : sysret (list Z)) : Prop :=
  r = SysErr EINTR \/ exists b bytes, r = SysOk (b :: bytes).

(** An answer that ends the program: any other error, or no bytes at all. *)
Definition fails (r : sysret (list Z)) : Prop :=
  r = SysOk [] \/ exists e, e <> EINTR /\ r = SysErr e.

Lemma transcript_app `{Kernel} size k l k1 l' k2 :
  transcript size k l k1 -> transcript (size - Z.of_nat (length (concat (map answer_bytes l)))) k1 l' k2 ->
  transcript size k (l ++ l') k2.
Proof.
  induction 1 as [size k|size k r k1 l k2' Hr _ IH]; cbn [map concat length app].
  - by rewrite Z.sub_0_r.
  - rewrite length_app. intros Hl'. econstructor; [exact Hr|]. apply IH.
    by replace (_ - _ - _) with (size - Z.of_nat (length (answer_bytes r) + length (concat (map answer_bytes l)))) by lia.
Qed.

Section Seeding.
Context {K : Kernel} {Kok : KernelOk K} (eintr_fuel : nat).
Implicit Types (w : world).

(** How [getrandom_retry] ended when the kernel answered [l]. *)
Definition retry_outcome (fuel : nat) w (l : list (sysret (list Z))) k (o : outcome world (option (list Z))) : Prop :=
  match o with
  | Ret r w' => kern w' = k /\ mem w' = mem w /\
      exists n a, l = replicate n (SysErr EINTR) ++ [a] /\
        match r with Some bytes => a = SysOk bytes | None => exists e, e <> EINTR /\ a = SysErr e end
  | Halt e => e = Stuck /\ l = replicate fuel (SysErr EINTR)
  end.

Lemma concat_interrupts n : concat (map answer_bytes (replicate n (SysErr EINTR))) = [].
Proof. by induction n. Qed.

Lemma getrandom_retry_transcript fuel size w :
  exists l k, transcript size (kern w) l k /\ retry_outcome fuel w l k (getrandom_retry fuel size w).
Proof.
  revert w. induction fuel as [|fuel IH]; intros w.
  { exists [], (kern w). split; [constructor|done]. }
  cbn [getrandom_retry]. unfold bind at 1, ksyscall, syscall. cbn [fst snd].
  destruct (sys_getrandom size (kern w)) as [r k1] eqn:E. cbn [fst snd].
  destruct r as [bytes|e].
  { exists [SysOk bytes], k1. split; [by econstructor; [|constructor]|]. cbn. split; [done|]. split; [done|].
    by exists 0%nat, (SysOk bytes). }
  unfold bind, gets. cbn [errno]. destruct (Z.eqb_spec e EINTR) as [->|Hne].
  2: { exists [SysErr e], k1. split; [by econstructor; [|constructor]|]. split; [done|]. split; [done|].
       exists 0%nat, (SysErr e). split; [done|]. by exists e. }
  destruct (IH (World _ k1 (mem w) EINTR)) as (l & k & Hl & Ho). exists (SysErr EINTR :: l), k. split.
  { econstructor; [exact E|]. by rewrite Z.sub_0_r. }
  unfold retry_outcome in *. cbn [mem] in Ho. destruct (getrandom_retry _ _ _) as [r w'|h].
  - destruct Ho as (Hk & Hm & n & a & -> & Ha). split; [done|]. split; [done|]. by exists (S n), a.
  - destruct Ho as [-> ->]. done.
Qed.

(** How [get_random_seed] ended when the kernel answered [l]. *)
Definition seed_outcome size w (l : list (sysret (list Z))) k (o : outcome world (list Z)) : Prop :=
  match o with
  | Ret seed w' =>
      Forall goes_on l /\ seed = concat (map answer_bytes l) /\ Z.of_nat (length seed) = size /\
      Forall (fits 8) seed /\ kern w' = k /\ mem w' = mem w
  | Halt e => exists before rest, l = before ++ rest /\ Forall goes_on before /\
      (e = Fatal "getrandom failed" /\ (exists r, rest = [r] /\ fails r) \/
       e = Stuck /\ rest = replicate eintr_fuel (SysErr EINTR))
  end.

Lemma interrupts_go_on n : Forall goes_on (replicate n (SysErr EINTR)).
Proof. apply Forall_replicate. by left. Qed.

Lemma seed_loop_transcript fuel : forall size w,
  0 <= size < 2 ^ 63 -> size <= Z.of_nat fuel ->
  exists l k, transcript size (kern w) l k /\ seed_outcome size w l k (seed_loop eintr_fuel fuel size w).
Proof.
  induction fuel as [|fuel IH]; intros size w Hs Hf; cbn [seed_loop];
    (destruct (Z.eqb_spec size 0) as [->|Hne]; [by exists [], (kern w); split; [constructor|]; repeat constructor|]); [lia|].
  destruct (getrandom_retry_transcript eintr_fuel size w) as (l & k & Hl & Ho).
  pose proof (wp_getrandom_retry eintr_fuel size w ltac:(lia)) as Hw. unfold wp in Hw.
  unfold bind at 1. destruct (getrandom_retry eintr_fuel size w) as [r w1|e].
  2: { destruct Ho as [-> ->]. eexists _, _. split; [exact Hl|]. eexists [], _. split; [done|]. split; [done|]. by right. }
  destruct Ho as (Hk & Hm & n & a & -> & Ha). destruct Hw as [_ Hbytes].
  assert (Hfatal : fails a -> exists l' k', transcript size (kern w) l' k' /\
    seed_outcome size w l' k' (Halt (Fatal "getrandom failed"))).
  { intros Hfa. eexists _, _. split; [exact Hl|]. exists (replicate n (SysErr EINTR)), [a]. split; [done|].
    split; [apply interrupts_go_on|]. left. split; [done|]. by exists a. }
  destruct r as [[|b buf]|]; [apply Hfatal; by left| |apply Hfatal; by right]. subst a.
  destruct Hbytes as [Hlen Hb]. cbn [length] in Hlen. rewrite wrap_small by (split; cbn [length]; lia).
  set (size' := size - Z.of_nat (length (b :: buf))).
  destruct (IH size' w1) as (l' & k' & Hl' & Ho'); [unfold size'; cbn [length]; lia..|].
  eexists (_ ++ l'), k'. split.
  { eapply transcript_app; [exact Hl|]. rewrite map_app, concat_app, concat_interrupts. cbn [map concat app answer_bytes].
    rewrite app_nil_r, <- Hk. exact Hl'. }
  assert (Hgo : Forall goes_on (replicate n (SysErr EINTR) ++ [SysOk (b :: buf)])).
  { apply Forall_app. split; [apply interrupts_go_on|]. constructor; [|constructor]. right. by exists b, buf. }
  unfold bind. destruct (seed_loop eintr_fuel fuel size' w1) as [rest w2|e].
  - destruct Ho' as (Hgo' & -> & Hl2 & Hb2 & Hk2 & Hm2). cbn. split; [by apply Forall_app|].
    split; [by rewrite !map_app, !concat_app, concat_interrupts; cbn; rewrite app_nil_r|].
    split; [unfold size' in *; cbn [length] in *; rewrite length_app; lia|].
    split; [inversion Hb; subst; constructor; [done|by apply Forall_app]|]. split; congruence.
  - destruct Ho' as (before & rest & -> & Hbf & Hr). eexists (_ ++ before), rest. split; [by rewrite app_assoc|].
    split; [by apply Forall_app|exact Hr].
Qed.

(** C38: seeding against the answers of the kernel. [l] is what getrandom answers,
    call by call, to a caller that asks each time for the bytes still missing.
    Seeding returns exactly when every answer is some bytes or EINTR and the bytes
    add up to the request: the seed is these bytes in order, and user memory is
    untouched. It aborts exactly at the first answer that is another error or no
    bytes, and gives up only after [eintr_fuel] interruptions in a row. *)
Theorem get_random_seed_exact size w :
  0 <= size < 2 ^ 63 ->
  exists l k, transcript size (kern w) l k /\
    match get_random_seed eintr_fuel size w with
    | Ret seed w' =>
        Forall goes_on l /\ seed = concat (map answer_bytes l) /\ Z.of_nat (length seed) = size /\
        Forall (fits 8) seed /\ kern w' = k /\ mem w' = mem w
    | Halt e => exists before rest, l = before ++ rest /\ Forall goes_on before /\
        (e = Fatal "getrandom failed" /\ (exists r, rest = [r] /\ fails r) \/
         e = Stuck /\ rest = replicate eintr_fuel (SysErr EINTR))
    end.
Proof. intros Hs. apply seed_loop_transcript; [done|lia]. Qed.
End Seeding.

(** ** Counting *)

(** The elements of an interval among the integers of a range. *)
Lemma filter_none {A} (P : A -> bool) l : (forall x, x ∈ l -> P x = false) -> List.filter P l = [].
Proof.
  induction l as [|x l IH]; intros HP; [done|]. cbn. rewrite HP by apply list_elem_of_here.
  apply IH. intros y Hy. apply HP. by apply list_elem_of_further.
Qed.

Lemma filter_all {A} (P : A -> bool) l : (forall x, x ∈ l -> P x = true) -> List.filter P l = l.
Proof.
  induction l as [|x l IH]; intros HP; [done|]. cbn. rewrite HP by apply list_elem_of_here.
  f_equal. apply IH. intros y Hy. apply HP. by apply list_elem_of_further.
Qed.

Lemma filter_interval (P : Z -> bool) lo hi n :
  0 <= lo -> lo <= hi -> hi <= n ->
  (forall x, 0 <= x < n -> P x = true <-> lo <= x < hi) ->
  Z.of_nat (length (List.filter P (seqZ 0 n))) = hi - lo.
Proof.
  intros Hlo Hhi Hn HP. replace n with (lo + ((hi - lo) + (n - hi))) by lia.
  rewrite !seqZ_app, !List.filter_app by lia. rewrite !Z.add_0_l.
  rewrite (filter_none P (seqZ 0 lo)), (filter_all P (seqZ lo _)), (filter_none P (seqZ (lo + _) _)).
  - rewrite app_nil_r. cbn. rewrite length_seqZ. lia.
  - intros x Hx%elem_of_seqZ. apply not_true_iff_false. rewrite HP by lia. lia.
  - intros x Hx%elem_of_seqZ. apply HP; lia.
  - intros x Hx%elem_of_seqZ. apply not_true_iff_false. rewrite HP by lia. lia.
Qed.

(** The least multiple of [b] not below [a], divided by [b]. *)
Definition ceil_div (a b : Z) : Z := - ((- a) / b).

Lemma ceil_div_le a b x : 0 < b -> a <= x * b <-> ceil_div a b <= x.
Proof.
  intros Hb. unfold ceil_div.
  pose proof (Z.div_mod (- a) b ltac:(lia)). pose proof (Z.mod_pos_bound (- a) b Hb). split; nia.
Qed.

Lemma ceil_div_add a b q : 0 < b -> ceil_div (a + q * b) b = ceil_div a b + q.
Proof.
  intros. unfold ceil_div. replace (- (a + q * b)) with (- a + (- q) * b) by lia.
  rewrite Z.div_add by lia. lia.
Qed.

(** The number of elements with a property. *)
Definition count {A} (P : A -> bool) (l : list A) : Z := Z.of_nat (length (List.filter P l)).

Section Count.
Context {A : Type}.
Implicit Types (P Q : A -> bool) (l : list A).

Lemma count_ext P Q l : (forall x, x ∈ l -> P x = Q x) -> count P l = count Q l.
Proof.
  intros HPQ. unfold count. do 2 f_equal. apply List.filter_ext_in. intros x Hx. by apply HPQ, list_elem_of_In.
Qed.

Lemma count_cons P x l : count P (x :: l) = (if P x then 1 else 0) + count P l.
Proof. unfold count. cbn. destruct (P x); cbn [length]; lia. Qed.

Lemma count_app P l l' : count P (l ++ l') = count P l + count P l'.
Proof. unfold count. rewrite List.filter_app, length_app. lia. Qed.

Lemma count_none P l : (forall x, x ∈ l -> P x = false) -> count P l = 0.
Proof. intros HP. unfold count. by rewrite filter_none. Qed.

Lemma count_all P l : (forall x, x ∈ l -> P x = true) -> count P l = Z.of_nat (length l).
Proof. intros HP. unfold count. by rewrite filter_all. Qed.

Lemma count_split P Q l :
  count P l = count (fun x => P x && Q x) l + count (fun x => P x && negb (Q x)) l.
Proof. induction l as [|x l IH]; [done|]. rewrite !count_cons, IH. destruct (P x), (Q x); cbn [andb negb]; lia. Qed.

Lemma count_map {B} (P : B -> bool) (f : A -> B) l : count P (map f l) = count (fun x => P (f x)) l.
Proof.
  unfold count. f_equal. induction l as [|x l IH]; [done|]. cbn [map List.filter].
  destruct (P (f x)); cbn [length]; by rewrite IH.
Qed.

(** A function into a range that takes every value [q] times. *)
Lemma count_partition (f : A -> Z) l q n :
  0 <= n -> forall P, (forall x, x ∈ l -> P x = true -> 0 <= f x < n) ->
  (forall v, 0 <= v < n -> count (fun x => P x && (f x =? v)) l = q) -> count P l = n * q.
Proof.
  intros Hn. pattern n. apply natlike_ind; [| |exact Hn]; clear n Hn.
  - intros P Hf _. apply count_none. intros x Hx. apply not_true_iff_false. intros HP. specialize (Hf x Hx HP). lia.
  - intros n Hn IH P Hf Hq. rewrite (count_split P (fun x => f x =? n)), Hq by lia.
    rewrite (IH (fun x => P x && negb (f x =? n))); [lia| |].
    + intros x Hx [HP Hne%negb_true_iff%Z.eqb_neq]%andb_true_iff. specialize (Hf x Hx HP). lia.
    + intros v Hv. rewrite <- (Hq v) by lia. apply count_ext. intros x _. rewrite <- andb_assoc. f_equal.
      destruct (Z.eqb_spec (f x) n), (Z.eqb_spec (f x) v); try done. lia.
Qed.

End Count.

Section Sequences.
Context {A : Type}.
Implicit Types (l : list A).

(** All sequences of [n] elements of a list. *)
Fixpoint sequences (n : nat) l : list (list A) :=
  match n with
  | O => [[]]
  | S n => flat_map (fun x => map (cons x) (sequences n l)) l
  end.

Lemma elem_of_sequences n l s : s ∈ sequences n l <-> length s = n /\ Forall (fun x => x ∈ l) s.
Proof.
  revert s. induction n as [|n IH]; intros s; cbn [sequences].
  - rewrite list_elem_of_singleton. split; [intros ->; by split|]. by destruct s; intros [? _].
  - rewrite list_elem_of_In, in_flat_map. split.
    + intros (x & Hx%list_elem_of_In & (t & <- & [<- Ht]%list_elem_of_In%IH)%in_map_iff). by repeat constructor.
    + destruct s as [|x s]; intros [Hlen Hs]; [done|]. inversion Hs; subst. exists x. split; [by apply list_elem_of_In|].
      apply in_map, list_elem_of_In, IH. cbn in Hlen. split; [lia|done].
Qed.

Lemma length_sequences n l : Z.of_nat (length (sequences n l)) = Z.of_nat (length l) ^ Z.of_nat n.
Proof.
  induction n as [|n IH]; [done|]. rewrite Nat2Z.inj_succ, Z.pow_succ_r by lia. rewrite <- IH. cbn [sequences].
  clear IH. generalize (sequences n l) as L. intros L. induction l as [|x l IHl]; [done|]. cbn [flat_map length].
  rewrite length_app, length_map, !Nat2Z.inj_add, Nat2Z.inj_succ. rewrite IHl. lia.
Qed.

(** Sequences counted by their first element, of three kinds. *)
Lemma count_sequences (P : list A -> bool) (C D : A -> bool) c d n l :
  (forall x, x ∈ l -> count (fun s => P (x :: s)) (sequences n l) = if C x then c else if D x then d else 0) ->
  count P (sequences (S n) l) = c * count C l + d * count (fun x => negb (C x) && D x) l.
Proof.
  cbn [sequences]. generalize (sequences n l) as L. intros L. induction l as [|x l IH]; intros Hx; [by rewrite !Z.mul_0_r|].
  cbn [flat_map]. rewrite count_app, count_map, !count_cons, (Hx x) by apply list_elem_of_here.
  rewrite IH by (intros y Hy; by apply Hx, list_elem_of_further). destruct (C x), (D x); cbn [andb negb]; lia.
Qed.
End Sequences.

(** ** Lemire's method *)

Section Lemire.
Context (w bound : Z) (Hw : 0 < w) (Hb : 0 < bound < 2 ^ w).
#[local] Abbreviation rejected x := (leftover w x bound <? threshold w bound).
#[local] Abbreviation value x := (Z.shiftr (multiresult w x bound) w).
#[local] Abbreviation words := (seqZ 0 (2 ^ w)).

(** The words that the loop keeps with result [v] are an interval. *)
Lemma kept_interval v x :
  let t := 2 ^ w mod bound in
  fits w x -> 0 <= v < bound ->
  negb (rejected x) && (value x =? v) = true <-> v * 2 ^ w + t <= x * bound < (v + 1) * 2 ^ w.
Proof.
  intros t Hx Hv. rewrite andb_true_iff, Z.eqb_eq. rewrite multiresult_eq by done.
  rewrite leftover_eq, threshold_eq, Z.shiftr_div_pow2, negb_true_iff, Z.ltb_ge by lia. fold t.
  pose proof (pow2_pos w ltac:(lia)). set (W := 2 ^ w) in *.
  pose proof (Z.div_mod (x * bound) W ltac:(lia)). pose proof (Z.mod_pos_bound (x * bound) W ltac:(lia)).
  assert (0 <= t) by (apply Z.mod_pos_bound; lia). split.
  - intros [Ht <-]. nia.
  - intros [Hlo Hhi]. assert (E : x * bound / W = v).
    { symmetry. apply (Z.div_unique _ _ _ (x * bound - v * W)); lia. }
    split; [|done]. rewrite E in *. lia.
Qed.

(** Each result is that of the same number of kept words. *)
Lemma kept_count v :
  0 <= v < bound -> count (fun x => negb (rejected x) && (value x =? v)) words = 2 ^ w / bound.
Proof.
  intros Hv. set (W := 2 ^ w) in *. set (t := W mod bound).
  pose proof (Z.div_mod W bound ltac:(lia)) as HW. fold t in HW.
  assert (Ht : 0 <= t < bound) by (apply Z.mod_pos_bound; lia).
  assert (Hv1 : (v + 1) * W = v * W + t + W / bound * bound) by lia.
  assert (Hlo : 0 <= ceil_div (v * W + t) bound).
  { unfold ceil_div. apply Z.opp_nonneg_nonpos, Z.div_le_upper_bound; nia. }
  assert (Hq : 0 <= W / bound) by (apply Z.div_pos; lia).
  unfold count. rewrite (filter_interval _ (ceil_div (v * W + t) bound) (ceil_div ((v + 1) * W) bound)).
  - rewrite Hv1, ceil_div_add by lia. lia.
  - done.
  - rewrite Hv1, ceil_div_add by lia. lia.
  - apply ceil_div_le; nia.
  - intros x Hx. rewrite (kept_interval v x Hx Hv). fold W t.
    rewrite (ceil_div_le (v * W + t)) by lia.
    pose proof (ceil_div_le ((v + 1) * W) bound x ltac:(lia)). lia.
Qed.

(** The words that the loop rejects. *)
Lemma rejected_count : count (fun x => rejected x) words = 2 ^ w mod bound.
Proof.
  pose proof (pow2_pos w ltac:(lia)) as HW.
  assert (Hall : count (fun _ => true) words = 2 ^ w) by (rewrite count_all by done; rewrite length_seqZ; lia).
  rewrite (count_split _ (fun x => rejected x)) in Hall. cbn [andb] in Hall.
  rewrite (count_partition (fun x => value x) words (2 ^ w / bound) bound ltac:(lia) (fun x => negb (rejected x))) in Hall.
  - pose proof (Z.div_mod (2 ^ w) bound ltac:(lia)). lia.
  - intros x Hx%elem_of_seqZ _. apply (result_bound w bound Hw Hb). split; lia.
  - intros v Hv. by apply kept_count.
Qed.

(** The outcome of a draw from the words [x] and then [ws]. *)
Fixpoint draws (v x : Z) (ws : list Z) : bool :=
  if rejected x then match ws with [] => false | y :: ws => draws v y ws end else value x =? v.

Definition draws_from (v : Z) (ws : list Z) : bool := match ws with [] => false | x :: ws => draws v x ws end.

(** Over all sequences of [n] words every result has the same share, and what is
    left are the sequences of rejected words. *)
Lemma draws_count v n :
  0 <= v < bound ->
  bound * count (draws_from v) (sequences n words) = (2 ^ w) ^ Z.of_nat n - (2 ^ w mod bound) ^ Z.of_nat n.
Proof.
  intros Hv. pose proof (pow2_pos w ltac:(lia)) as HW. induction n as [|n IH].
  { change (count _ _) with 0. rewrite !Z.pow_0_r. lia. }
  rewrite (count_sequences _ (fun x => rejected x) (fun x => value x =? v)
    (count (draws_from v) (sequences n words)) ((2 ^ w) ^ Z.of_nat n)).
  - rewrite rejected_count, kept_count by done. rewrite Nat2Z.inj_succ, !Z.pow_succ_r by lia.
    pose proof (Z.div_mod (2 ^ w) bound ltac:(lia)). nia.
  - intros x _. cbn [draws_from].
    assert (Hlen : Z.of_nat (length (sequences n words)) = (2 ^ w) ^ Z.of_nat n)
      by (rewrite length_sequences, length_seqZ; f_equal; lia).
    destruct (rejected x) eqn:Hrej.
    + apply count_ext. intros [|y ws] _; cbn [draws draws_from]; by rewrite Hrej.
    + destruct (value x =? v) eqn:Hval.
      * rewrite count_all; [done|]. intros [|y ws] _; cbn [draws]; by rewrite Hrej.
      * apply count_none. intros [|y ws] _; cbn [draws]; by rewrite Hrej.
Qed.
End Lemire.

(** ** The draws of random.c *)

(** The bytes of a word of [n] bytes, as they lie in memory. *)
Fixpoint le_bytes (n : nat) (v : Z) : list Z :=
  match n with O => [] | S n => v mod 256 :: le_bytes n (v / 256) end.

Lemma length_le_bytes n v : length (le_bytes n v) = n.
Proof. revert v. induction n as [|n IH]; intros v; [done|]. cbn. by rewrite IH. Qed.

Lemma le_value_bytes n v : fits (8 * Z.of_nat n) v -> le_value (le_bytes n v) = v.
Proof.
  revert v. induction n as [|n IH]; intros v [H0 H1].
  - change (8 * Z.of_nat 0) with 0 in H1. rewrite Z.pow_0_r in H1. cbn. lia.
  - rewrite Nat2Z.inj_succ in H1. replace (8 * Z.succ (Z.of_nat n)) with (8 + 8 * Z.of_nat n) in H1 by lia.
    rewrite Z.pow_add_r in H1 by lia. change (2 ^ 8) with 256 in H1. cbn [le_bytes le_value foldr].
    fold (le_value (le_bytes n (v / 256))). rewrite IH.
    + pose proof (Z.div_mod v 256 ltac:(lia)). lia.
    + split; [by apply Z.div_pos|by apply Z.div_lt_upper_bound].
Qed.

(** The generator [st] with a cache that holds, unread, the words [ws]. *)
Definition holding (size : Z) (ws : list Z) (st : random_state) : random_state :=
  let first := RANDOM_CACHE_SIZE - size * Z.of_nat (length ws) in
  RandomState first (reseed st) (ctx st)
    (take (Z.to_nat first) (cache st) ++ flat_map (le_bytes (Z.to_nat size)) ws).

(** The next words of the generator are [ws], the last ones of its cache. *)
Record holds (size : Z) (ws : list Z) (st : random_state) : Prop := {
  hs_index : index st = RANDOM_CACHE_SIZE - size * Z.of_nat (length ws);
  hs_room : 0 <= index st;
  hs_words : drop (Z.to_nat (index st)) (cache st) = flat_map (le_bytes (Z.to_nat size)) ws
}.

Lemma holding_holds size ws st :
  0 <= size -> size * Z.of_nat (length ws) <= RANDOM_CACHE_SIZE -> length (cache st) = 256%nat ->
  holds size ws (holding size ws st).
Proof.
  intros H0 Hroom Hlen. unfold RANDOM_CACHE_SIZE in *. split; cbn [index cache holding]; [done|unfold RANDOM_CACHE_SIZE; lia|].
  unfold RANDOM_CACHE_SIZE. rewrite drop_app_length'; [done|]. rewrite length_take. lia.
Qed.

Section Draws.
Context {K : Kernel} (eintr_fuel : nat).
Implicit Types (st : random_state) (w : world).

Lemma get_random_word_held size x ws st w :
  0 < size <= 8 -> fits (8 * size) x -> holds size (x :: ws) st ->
  exists st', get_random_word eintr_fuel size (st, w) = Ret x (st', w) /\ holds size ws st'.
Proof.
  intros Hs Hx [Hi H0 Hw]. cbn [length] in Hi. rewrite Nat2Z.inj_succ in Hi. unfold RANDOM_CACHE_SIZE in Hi.
  unfold get_random_word, take_cache, get_state, set_state, bind, gets, modify, ret. cbn [fst snd].
  assert (Eu : forall y, 0 <= y <= 256 -> u32 y = y) by (intros y Hy; apply wrap_small; split; lia).
  unfold RANDOM_CACHE_SIZE. rewrite Eu, (proj2 (Z.ltb_ge _ _)) by nia. cbn [fst snd]. rewrite Eu by nia.
  eexists. rewrite Hw. cbn [flat_map]. rewrite take_app_length' by (rewrite length_le_bytes; done).
  rewrite le_value_bytes by (by rewrite Z2Nat.id by lia). split; [done|].
  split; cbn [index cache]; [unfold RANDOM_CACHE_SIZE; nia|lia|].
  replace (Z.to_nat (index st + size)) with (Z.to_nat (index st) + Z.to_nat size)%nat by lia.
  rewrite <- drop_drop, Hw. cbn [flat_map]. by rewrite drop_app_length' by (rewrite length_le_bytes; done).
Qed.

(** The run returned [v]. *)
Definition returns (v : Z) (o : outcome (random_state * world) Z) : bool :=
  match o with Ret x _ => x =? v | Halt _ => false end.

Lemma reject_loop_draws size bound v w ws : forall x st,
  0 < size <= 8 -> Forall (fits (8 * size)) ws -> holds size ws st ->
  returns v (reject_loop (length ws) (8 * size) (get_random_word eintr_fuel size) bound x (st, w)) =
    draws (8 * size) bound v x ws.
Proof.
  induction ws as [|y ws IH]; intros x st Hs Hws Hst; cbn [length reject_loop draws]; destruct (_ <? _); try done.
  inversion Hws; subst. unfold bind. destruct (get_random_word_held size y ws st w) as (st' & -> & Hst'); [done..|].
  by apply IH.
Qed.

Lemma uniform_draws size bound v w x ws st :
  0 < size <= 8 -> 0 < bound < 2 ^ (8 * size) -> Forall (fits (8 * size)) (x :: ws) -> holds size (x :: ws) st ->
  returns v (uniform (length ws) (8 * size) (get_random_word eintr_fuel size) bound (st, w)) =
    draws (8 * size) bound v x ws.
Proof.
  intros Hs Hb Hws Hst. inversion Hws; subst. unfold uniform, bind.
  destruct (get_random_word_held size x ws st w) as (st' & -> & Hst'); [done..|].
  destruct (Z.ltb_spec (leftover (8 * size) x bound) bound) as [|Hge]; [by apply reject_loop_draws|].
  pose proof (threshold_lt_bound (8 * size) bound Hb).
  destruct ws as [|y ws]; cbn [draws]; by rewrite (proj2 (Z.ltb_ge _ _)) by lia.
Qed.

(** C36: the three uniform draws are exactly uniform. Take any generator and let its
    next words be, in turn, each of the sequences of n + 1 words, all of which an
    ideal source gives with the same probability. Every value below the bound is
    then returned on the same number of sequences, and together they are all
    sequences but those of n + 1 rejected words, on which the code goes on
    drawing: W^(n+1) - (W mod bound)^(n+1) of W^(n+1), for words below W. *)
Theorem uniform_unbiased size draw n bound v st w :
  (size, draw) = (2, chacha_get_random_u16_uniform eintr_fuel n) \/
  (size, draw) = (4, chacha_get_random_u32_uniform eintr_fuel n) \/
  (size, draw) = (8, chacha_get_random_u64_uniform eintr_fuel n) ->
  let W := 2 ^ (8 * size) in
  0 < bound < W -> 0 <= v < bound -> size * (Z.of_nat n + 1) <= RANDOM_CACHE_SIZE -> length (cache st) = 256%nat ->
  bound * count (fun ws => returns v (draw bound (holding size ws st, w))) (sequences (S n) (seqZ 0 W)) =
    W ^ (Z.of_nat n + 1) - (W mod bound) ^ (Z.of_nat n + 1).
Proof.
  intros Hdraw W Hb Hv Hroom Hlen.
  assert (Hsize : 0 < size <= 8 /\ draw = uniform n (8 * size) (get_random_word eintr_fuel size)).
  { by destruct Hdraw as [[= -> ->]|[[= -> ->]|[= -> ->]]]. }
  destruct Hsize as [Hs ->]. replace (Z.of_nat n + 1) with (Z.of_nat (S n)) in * by lia. unfold W.
  rewrite <- (draws_count (8 * size) bound ltac:(lia) Hb v (S n) Hv). f_equal. apply count_ext.
  intros ws [Hl Hws]%elem_of_sequences. destruct ws as [|x ws]; [done|]. injection Hl as <-. apply uniform_draws; try done.
  - eapply Forall_impl; [exact Hws|]. intros y Hy%elem_of_seqZ. split; lia.
  - apply holding_holds; [lia| |done]. cbn [length]. lia.
Qed.
End Draws.

(** ** Witnesses *)

Section Witnesses.

(** A kernel that answers getrandom from a script, with some bytes or a signal, and
    refuses everything else. *)
#[local] Instance scripted_kernel : Kernel := {|
  kstate := list (option nat);
  mapped _ _ := False;
  sys_getrandom n k :=
    match k with
    | [] => (SysErr ENOMEM, [])
    | Some j :: k => (SysOk (replicate (Nat.min j (Z.to_nat n)) 7), k)
    | None :: k => (SysErr EINTR, k)
    end;
  sys_mmap _ _ _ km := (SysErr ENOMEM, km);
  sys_munmap _ _ km := (SysErr ENOMEM, km);
  sys_mprotect _ _ _ k := (SysErr ENOMEM, k);
  sys_mremap _ _ _ km := (SysErr ENOMEM, km);
  sys_mremap_fixed _ _ _ _ km := (SysErr ENOMEM, km);
  sys_madvise_dontneed _ _ km := (SysErr ENOMEM, km);
  sys_set_vma_name _ _ _ k := (SysErr ENOMEM, k)
|}.

#[local] Instance scripted_kernel_ok : KernelOk scripted_kernel.
Proof.
  constructor; cbn; intros; simplify_eq; try done.
  - destruct k as [|[j|] k]; simplify_eq. rewrite length_replicate. split; [lia|]. apply Forall_replicate. by split.
Qed.

(** Two short reads with a signal between them. *)
Definition scripted_world : world := World _ [Some 30%nat; None; Some 30%nat] ∅ 0.

Lemma get_random_seed_exact_witness :
  match get_random_seed 2 40 scripted_world with
  | Ret seed w' => seed = replicate 40 7 /\ kern w' = []
  | Halt _ => False
  end /\
  exists l k, transcript 40 (kern scripted_world) l k /\
    match get_random_seed 2 40 scripted_world with
    | Ret seed w' => Forall goes_on l /\ seed = concat (map answer_bytes l)
    | Halt _ => False
    end.
Proof.
  split; [by vm_compute|]. assert (Hs : 0 <= 40 < 2 ^ 63) by lia.
  destruct (get_random_seed_exact 2 40 scripted_world Hs) as (l & k & Hl & Ho). exists l, k. split; [exact Hl|].
  assert (Hret : match get_random_seed 2 40 scripted_world with Ret _ _ => True | Halt _ => False end) by (vm_compute; exact I).
  destruct (get_random_seed 2 40 scripted_world); [|done]. split; apply Ho.
Defined.

(** A die from 16-bit words, with up to three of them rejected. *)
Lemma uniform_unbiased_witness :
  6 * count (fun ws => returns 2 (chacha_get_random_u16_uniform 1 3 6 (holding 2 ws blank_state, demo_world [])))
        (sequences 4 (seqZ 0 65536)) = 65536 ^ 4 - 4 ^ 4.
Proof.
  exact (uniform_unbiased 1 2 (chacha_get_random_u16_uniform 1 3) 3 6 2 blank_state (demo_world [])
    (or_introl eq_refl) ltac:(lia) ltac:(lia) ltac:(by vm_compute) eq_refl).
Defined.
End Witnesses.
